(** * OffsetAllocator (nvrhi): a shallow embedding and its properties

    The embedding follows [src/common/offset-allocator.cpp] and
    [include/nvrhi/offset-allocator.h].  Values of type [uint32] are
    integers of [Z] with the wrap-around modulo [2^32] written out at each
    arithmetic operation; [uint8] likewise modulo [2^8].  The shifts
    [1 << i] of the source, of type [int], are taken modulo [2^32] as well.
    The arrays are lists read and written by index; a read or a write
    outside the array, or through a null pointer, is undefined behaviour in
    C++ and makes the modelled operation return [None].

    The build is the one of the header as it stands: [NodeIndex] is
    [uint32], and neither [DEBUG] nor [DEBUG_VERBOSE] is defined, so that
    [ASSERT(x)] expands to nothing and nothing is printed.  [new] is taken
    to succeed. *)

From Stdlib Require Import ZArith Lia Bool.
From stdpp Require Import base tactics option list numbers.

Local Open Scope Z_scope.
(** ** Machine arithmetic *)

Definition wrap32 (z : Z) : Z := z mod 2 ^ 32.
Definition wrap8 (z : Z) : Z := z mod 2 ^ 8.

Definition add32 (a b : Z) : Z := wrap32 (a + b).
Definition sub32 (a b : Z) : Z := wrap32 (a - b).
Definition shl32 (a b : Z) : Z := wrap32 (Z.shiftl a b).
Definition not32 (a : Z) : Z := wrap32 (Z.lnot a).

(** [__builtin_clz] and [__builtin_ctz]; both are undefined at 0 in C, the
    stateful callers below check their argument before the call. *)
Definition lzcnt_nonzero (v : Z) : Z := 31 - Z.log2 v.

Fixpoint ctz_pos (p : positive) : Z :=
  match p with
  | xO q => 1 + ctz_pos q
  | _ => 0
  end.

Definition tzcnt_nonzero (v : Z) : Z :=
  match v with
  | Zpos p => ctz_pos p
  | _ => 0
  end.

(** ** Size-class codec *)

Definition SMALL_FLT_MANTISSA_BITS : Z := 3.
Definition SMALL_FLT_MANTISSA_VALUE : Z := Z.shiftl 1 SMALL_FLT_MANTISSA_BITS.
Definition SMALL_FLT_MANTISSA_MASK : Z := SMALL_FLT_MANTISSA_VALUE - 1.

Definition uintToSmallFloatRoundUp (size : Z) : Z :=
  let '(exp, mantissa) :=
    if size <? SMALL_FLT_MANTISSA_VALUE then (0, size)
    else
      let leadingZeros := lzcnt_nonzero size in
      let highestSetBit := sub32 31 leadingZeros in
      let mantissaStartBit := sub32 highestSetBit SMALL_FLT_MANTISSA_BITS in
      let exp := add32 mantissaStartBit 1 in
      let mantissa :=
        Z.land (Z.shiftr size mantissaStartBit) SMALL_FLT_MANTISSA_MASK in
      let lowBitsMask := sub32 (shl32 1 mantissaStartBit) 1 in
      if negb (Z.land size lowBitsMask =? 0)
      then (exp, add32 mantissa 1)
      else (exp, mantissa) in
  add32 (shl32 exp SMALL_FLT_MANTISSA_BITS) mantissa.

Definition uintToSmallFloatRoundDown (size : Z) : Z :=
  let '(exp, mantissa) :=
    if size <? SMALL_FLT_MANTISSA_VALUE then (0, size)
    else
      let leadingZeros := lzcnt_nonzero size in
      let highestSetBit := sub32 31 leadingZeros in
      let mantissaStartBit := sub32 highestSetBit SMALL_FLT_MANTISSA_BITS in
      let exp := add32 mantissaStartBit 1 in
      let mantissa :=
        Z.land (Z.shiftr size mantissaStartBit) SMALL_FLT_MANTISSA_MASK in
      (exp, mantissa) in
  Z.lor (shl32 exp SMALL_FLT_MANTISSA_BITS) mantissa.

Definition smallFloatToUint (floatValue : Z) : Z :=
  let exponent := Z.shiftr floatValue SMALL_FLT_MANTISSA_BITS in
  let mantissa := Z.land floatValue SMALL_FLT_MANTISSA_MASK in
  if exponent =? 0 then mantissa
  else shl32 (Z.lor mantissa SMALL_FLT_MANTISSA_VALUE) (sub32 exponent 1).

(** ** Bit scan *)

Definition NO_SPACE : Z := 0xffffffff.
Definition UNUSED : Z := 0xffffffff.

Definition findLowestSetBitAfter (bitMask startBitIndex : Z) : Z :=
  let maskBeforeStartIndex := sub32 (shl32 1 startBitIndex) 1 in
  let maskAfterStartIndex := not32 maskBeforeStartIndex in
  let bitsAfter := Z.land bitMask maskAfterStartIndex in
  if bitsAfter =? 0 then NO_SPACE else tzcnt_nonzero bitsAfter.

(** ** Data *)

Definition NUM_TOP_BINS : Z := 32.
Definition BINS_PER_LEAF : Z := 8.
Definition TOP_BINS_INDEX_SHIFT : Z := 3.
Definition LEAF_BINS_INDEX_MASK : Z := 0x7.
Definition NUM_LEAF_BINS : Z := NUM_TOP_BINS * BINS_PER_LEAF.

Record Alloc := mkAlloc { offset : Z; metadata : Z }.

(** [Alloc{}]: both members default to [NO_SPACE]. *)
Definition Alloc_none : Alloc := mkAlloc NO_SPACE NO_SPACE.

Record StorageReport := mkStorageReport
  { totalFreeSpace : Z; largestFreeRegion : Z }.

Definition StorageReport_zero : StorageReport := mkStorageReport 0 0.

Record Node := mkNode
  { dataOffset : Z;
    dataSize : Z;
    binListPrev : Z;
    binListNext : Z;
    neighborPrev : Z;
    neighborNext : Z;
    used : bool }.

(** [Node()] with the default member initialisers. *)
Definition Node_default : Node := mkNode 0 0 UNUSED UNUSED UNUSED UNUSED false.

(** [Node(dataOffset, dataSize, binListNext)]. *)
Definition Node_init (dataOffset dataSize binListNext : Z) : Node :=
  mkNode dataOffset dataSize UNUSED binListNext UNUSED UNUSED false.

Definition set_dataSize (v : Z) (n : Node) : Node :=
  mkNode (dataOffset n) v (binListPrev n) (binListNext n)
         (neighborPrev n) (neighborNext n) (used n).
Definition set_binListPrev (v : Z) (n : Node) : Node :=
  mkNode (dataOffset n) (dataSize n) v (binListNext n)
         (neighborPrev n) (neighborNext n) (used n).
Definition set_binListNext (v : Z) (n : Node) : Node :=
  mkNode (dataOffset n) (dataSize n) (binListPrev n) v
         (neighborPrev n) (neighborNext n) (used n).
Definition set_neighborPrev (v : Z) (n : Node) : Node :=
  mkNode (dataOffset n) (dataSize n) (binListPrev n) (binListNext n)
         v (neighborNext n) (used n).
Definition set_neighborNext (v : Z) (n : Node) : Node :=
  mkNode (dataOffset n) (dataSize n) (binListPrev n) (binListNext n)
         (neighborPrev n) v (used n).
Definition set_used (v : bool) (n : Node) : Node :=
  mkNode (dataOffset n) (dataSize n) (binListPrev n) (binListNext n)
         (neighborPrev n) (neighborNext n) v.

(** The members of [class OffsetAllocator].  [m_nodes] and [m_freeNodes] are
    pointers to heap arrays: [None] is [nullptr]. *)
Record OffsetAllocator := mkOffsetAllocator
  { m_size : Z;
    m_maxAllocs : Z;
    m_freeStorage : Z;
    m_usedBinsTop : Z;
    m_usedBins : list Z;
    m_binIndices : list Z;
    m_nodes : option (list Node);
    m_freeNodes : option (list Z);
    m_freeOffset : Z }.

Definition set_m_size (v : Z) (a : OffsetAllocator) : OffsetAllocator :=
  mkOffsetAllocator v (m_maxAllocs a) (m_freeStorage a) (m_usedBinsTop a)
    (m_usedBins a) (m_binIndices a) (m_nodes a) (m_freeNodes a) (m_freeOffset a).
Definition set_m_freeStorage (v : Z) (a : OffsetAllocator) : OffsetAllocator :=
  mkOffsetAllocator (m_size a) (m_maxAllocs a) v (m_usedBinsTop a)
    (m_usedBins a) (m_binIndices a) (m_nodes a) (m_freeNodes a) (m_freeOffset a).
Definition set_m_usedBinsTop (v : Z) (a : OffsetAllocator) : OffsetAllocator :=
  mkOffsetAllocator (m_size a) (m_maxAllocs a) (m_freeStorage a) v
    (m_usedBins a) (m_binIndices a) (m_nodes a) (m_freeNodes a) (m_freeOffset a).
Definition set_m_usedBins (v : list Z) (a : OffsetAllocator) : OffsetAllocator :=
  mkOffsetAllocator (m_size a) (m_maxAllocs a) (m_freeStorage a) (m_usedBinsTop a)
    v (m_binIndices a) (m_nodes a) (m_freeNodes a) (m_freeOffset a).
Definition set_m_binIndices (v : list Z) (a : OffsetAllocator) : OffsetAllocator :=
  mkOffsetAllocator (m_size a) (m_maxAllocs a) (m_freeStorage a) (m_usedBinsTop a)
    (m_usedBins a) v (m_nodes a) (m_freeNodes a) (m_freeOffset a).
Definition set_m_nodes (v : option (list Node)) (a : OffsetAllocator) : OffsetAllocator :=
  mkOffsetAllocator (m_size a) (m_maxAllocs a) (m_freeStorage a) (m_usedBinsTop a)
    (m_usedBins a) (m_binIndices a) v (m_freeNodes a) (m_freeOffset a).
Definition set_m_freeNodes (v : option (list Z)) (a : OffsetAllocator) : OffsetAllocator :=
  mkOffsetAllocator (m_size a) (m_maxAllocs a) (m_freeStorage a) (m_usedBinsTop a)
    (m_usedBins a) (m_binIndices a) (m_nodes a) v (m_freeOffset a).
Definition set_m_freeOffset (v : Z) (a : OffsetAllocator) : OffsetAllocator :=
  mkOffsetAllocator (m_size a) (m_maxAllocs a) (m_freeStorage a) (m_usedBinsTop a)
    (m_usedBins a) (m_binIndices a) (m_nodes a) (m_freeNodes a) v.

(** ** Arrays *)

Definition index {A} (l : list A) (i : Z) : option A :=
  if decide (0 <= i) then l !! Z.to_nat i else None.

Definition update {A} (l : list A) (i : Z) (x : A) : option (list A) :=
  if decide (0 <= i < Z.of_nat (length l))
  then Some (<[Z.to_nat i := x]> l)
  else None.

(** ** The monad of member functions: state, and [None] for undefined
    behaviour *)

Definition M (A : Type) : Type := OffsetAllocator -> option (A * OffsetAllocator).

Global Instance M_ret : MRet M := fun A x a => Some (x, a).
Global Instance M_bind : MBind M := fun A B f m a =>
  match m a with
  | Some (x, a') => f x a'
  | None => None
  end.

Definition undefined {A} : M A := fun _ => None.
Definition get {A} (f : OffsetAllocator -> A) : M A := fun a => Some (f a, a).
Definition put (f : OffsetAllocator -> OffsetAllocator) : M unit :=
  fun a => Some (tt, f a).
Definition lift {A} (o : option A) : M A :=
  match o with
  | Some x => mret x
  | None => undefined
  end.

(** States the precondition of an intrinsic. *)
Definition requires (P : Prop) `{Decision P} : M unit :=
  if decide P then mret tt else undefined.

Definition loadUsedBins (i : Z) : M Z :=
  l ← get m_usedBins; lift (index l i).
Definition storeUsedBins (i v : Z) : M unit :=
  l ← get m_usedBins; l' ← lift (update l i v); put (set_m_usedBins l').

Definition loadBinIndices (i : Z) : M Z :=
  l ← get m_binIndices; lift (index l i).
Definition storeBinIndices (i v : Z) : M unit :=
  l ← get m_binIndices; l' ← lift (update l i v); put (set_m_binIndices l').

Definition loadFreeNodes (i : Z) : M Z :=
  p ← get m_freeNodes; l ← lift p; lift (index l i).
Definition storeFreeNodes (i v : Z) : M unit :=
  p ← get m_freeNodes; l ← lift p; l' ← lift (update l i v);
  put (set_m_freeNodes (Some l')).

Definition loadNode (i : Z) : M Node :=
  p ← get m_nodes; l ← lift p; lift (index l i).
Definition storeNode (i : Z) (n : Node) : M unit :=
  p ← get m_nodes; l ← lift p; l' ← lift (update l i n);
  put (set_m_nodes (Some l')).

(** [m_nodes[i].f] read, and [m_nodes[i].f = v] written as
    [setField i (set_f v)]. *)
Definition field {A} (i : Z) (f : Node -> A) : M A :=
  n ← loadNode i; mret (f n).
Definition setField (i : Z) (f : Node -> Node) : M unit :=
  n ← loadNode i; storeNode i (f n).

(** [for (uint32 i = from; i < from + count; i++) body(i)]. *)
Fixpoint forLoop (count : nat) (from : Z) (body : Z -> M unit) : M unit :=
  match count with
  | O => mret tt
  | S count' => body from;; forLoop count' (from + 1) body
  end.

(** ** Member functions *)

Definition insertNodeIntoBin (size dataOffset : Z) : M Z :=
  let binIndex := uintToSmallFloatRoundDown size in
  let topBinIndex := Z.shiftr binIndex TOP_BINS_INDEX_SHIFT in
  let leafBinIndex := Z.land binIndex LEAF_BINS_INDEX_MASK in
  head ← loadBinIndices binIndex;
  (if decide (head = UNUSED) then
     leaf ← loadUsedBins topBinIndex;
     storeUsedBins topBinIndex (wrap8 (Z.lor leaf (shl32 1 leafBinIndex)));;
     top ← get m_usedBinsTop;
     put (set_m_usedBinsTop (Z.lor top (shl32 1 topBinIndex)))
   else mret tt);;
  topNodeIndex ← loadBinIndices binIndex;
  freeOffset ← get m_freeOffset;
  nodeIndex ← loadFreeNodes freeOffset;
  put (set_m_freeOffset (sub32 freeOffset 1));;
  storeNode nodeIndex (Node_init dataOffset size topNodeIndex);;
  (if decide (topNodeIndex <> UNUSED) then
     setField topNodeIndex (set_binListPrev nodeIndex)
   else mret tt);;
  storeBinIndices binIndex nodeIndex;;
  freeStorage ← get m_freeStorage;
  put (set_m_freeStorage (add32 freeStorage size));;
  mret nodeIndex.

Definition removeNodeFromBin (nodeIndex : Z) : M unit :=
  prev ← field nodeIndex binListPrev;
  (if decide (prev <> UNUSED) then
     next ← field nodeIndex binListNext;
     setField prev (set_binListNext next);;
     next ← field nodeIndex binListNext;
     if decide (next <> UNUSED) then
       prev ← field nodeIndex binListPrev;
       setField next (set_binListPrev prev)
     else mret tt
   else
     size ← field nodeIndex dataSize;
     let binIndex := uintToSmallFloatRoundDown size in
     let topBinIndex := Z.shiftr binIndex TOP_BINS_INDEX_SHIFT in
     let leafBinIndex := Z.land binIndex LEAF_BINS_INDEX_MASK in
     next ← field nodeIndex binListNext;
     storeBinIndices binIndex next;;
     next ← field nodeIndex binListNext;
     (if decide (next <> UNUSED) then setField next (set_binListPrev UNUSED)
      else mret tt);;
     head ← loadBinIndices binIndex;
     (if decide (head = UNUSED) then
        leaf ← loadUsedBins topBinIndex;
        storeUsedBins topBinIndex
          (wrap8 (Z.land leaf (Z.lnot (shl32 1 leafBinIndex))));;
        leaf' ← loadUsedBins topBinIndex;
        if decide (leaf' = 0) then
          top ← get m_usedBinsTop;
          put (set_m_usedBinsTop (Z.land top (not32 (shl32 1 topBinIndex))))
        else mret tt
      else mret tt));;
  freeOffset ← get m_freeOffset;
  put (set_m_freeOffset (add32 freeOffset 1));;
  storeFreeNodes (add32 freeOffset 1) nodeIndex;;
  size ← field nodeIndex dataSize;
  freeStorage ← get m_freeStorage;
  put (set_m_freeStorage (sub32 freeStorage size)).

(** [allocate] from line 252 on, once the bin has been found. *)
Definition allocateFromBin (size topBinIndex leafBinIndex : Z) : M Alloc :=
  let binIndex := Z.lor (shl32 topBinIndex TOP_BINS_INDEX_SHIFT) leafBinIndex in
  nodeIndex ← loadBinIndices binIndex;
  nodeTotalSize ← field nodeIndex dataSize;
  setField nodeIndex (set_dataSize size);;
  setField nodeIndex (set_used true);;
  next ← field nodeIndex binListNext;
  storeBinIndices binIndex next;;
  next ← field nodeIndex binListNext;
  (if decide (next <> UNUSED) then setField next (set_binListPrev UNUSED)
   else mret tt);;
  freeStorage ← get m_freeStorage;
  put (set_m_freeStorage (sub32 freeStorage nodeTotalSize));;
  head ← loadBinIndices binIndex;
  (if decide (head = UNUSED) then
     leaf ← loadUsedBins topBinIndex;
     storeUsedBins topBinIndex
       (wrap8 (Z.land leaf (Z.lnot (shl32 1 leafBinIndex))));;
     leaf' ← loadUsedBins topBinIndex;
     if decide (leaf' = 0) then
       top ← get m_usedBinsTop;
       put (set_m_usedBinsTop (Z.land top (not32 (shl32 1 topBinIndex))))
     else mret tt
   else mret tt);;
  let reminderSize := sub32 nodeTotalSize size in
  (if decide (reminderSize > 0) then
     nodeOffset ← field nodeIndex dataOffset;
     newNodeIndex ← insertNodeIntoBin reminderSize (add32 nodeOffset size);
     next ← field nodeIndex neighborNext;
     (if decide (next <> UNUSED) then setField next (set_neighborPrev newNodeIndex)
      else mret tt);;
     setField newNodeIndex (set_neighborPrev nodeIndex);;
     next ← field nodeIndex neighborNext;
     setField newNodeIndex (set_neighborNext next);;
     setField nodeIndex (set_neighborNext newNodeIndex)
   else mret tt);;
  nodeOffset ← field nodeIndex dataOffset;
  mret (mkAlloc nodeOffset nodeIndex).

Definition allocate (size : Z) : M Alloc :=
  freeOffset ← get m_freeOffset;
  if decide (freeOffset = NO_SPACE) then mret Alloc_none else
  let minBinIndex := uintToSmallFloatRoundUp size in
  let minTopBinIndex := Z.shiftr minBinIndex TOP_BINS_INDEX_SHIFT in
  let minLeafBinIndex := Z.land minBinIndex LEAF_BINS_INDEX_MASK in
  let topBinIndex := minTopBinIndex in
  usedBinsTop ← get m_usedBinsTop;
  leafBinIndex ←
    (if decide (Z.land usedBinsTop (shl32 1 topBinIndex) <> 0) then
       leaf ← loadUsedBins topBinIndex;
       mret (findLowestSetBitAfter leaf minLeafBinIndex)
     else mret NO_SPACE);
  if decide (leafBinIndex = NO_SPACE) then
    usedBinsTop ← get m_usedBinsTop;
    let topBinIndex := findLowestSetBitAfter usedBinsTop (add32 minTopBinIndex 1) in
    if decide (topBinIndex = NO_SPACE) then mret Alloc_none else
    leaf ← loadUsedBins topBinIndex;
    requires (leaf <> 0);;
    allocateFromBin size topBinIndex (tzcnt_nonzero leaf)
  else allocateFromBin size topBinIndex leafBinIndex.

(** [free(uint32 nodeIndex)].  The assertions of lines 304, 311, 327 and
    340 expand to nothing. *)
Definition free (nodeIndex : Z) : M unit :=
  nodes ← get m_nodes;
  if decide (nodeIndex = NO_SPACE \/ nodes = None) then mret tt else
  offset ← field nodeIndex dataOffset;
  size ← field nodeIndex dataSize;
  prev ← field nodeIndex neighborPrev;
  prevIsFree ←
    (if decide (prev <> UNUSED) then u ← field prev used; mret (negb u)
     else mret false);
  '(offset, size) ←
    (if prevIsFree : bool then
       prevOffset ← field prev dataOffset;
       prevSize ← field prev dataSize;
       prev' ← field nodeIndex neighborPrev;
       removeNodeFromBin prev';;
       prevPrev ← field prev neighborPrev;
       setField nodeIndex (set_neighborPrev prevPrev);;
       mret (prevOffset, add32 size prevSize)
     else mret (offset, size));
  next ← field nodeIndex neighborNext;
  nextIsFree ←
    (if decide (next <> UNUSED) then u ← field next used; mret (negb u)
     else mret false);
  size ←
    (if nextIsFree : bool then
       nextSize ← field next dataSize;
       next' ← field nodeIndex neighborNext;
       removeNodeFromBin next';;
       nextNext ← field next neighborNext;
       setField nodeIndex (set_neighborNext nextNext);;
       mret (add32 size nextSize)
     else mret size);
  neighborNext ← field nodeIndex neighborNext;
  neighborPrev ← field nodeIndex neighborPrev;
  freeOffset ← get m_freeOffset;
  put (set_m_freeOffset (add32 freeOffset 1));;
  storeFreeNodes (add32 freeOffset 1) nodeIndex;;
  combinedNodeIndex ← insertNodeIntoBin size offset;
  (if decide (neighborNext <> UNUSED) then
     setField combinedNodeIndex (set_neighborNext neighborNext);;
     setField neighborNext (set_neighborPrev combinedNodeIndex)
   else mret tt);;
  (if decide (neighborPrev <> UNUSED) then
     setField combinedNodeIndex (set_neighborPrev neighborPrev);;
     setField neighborPrev (set_neighborNext combinedNodeIndex)
   else mret tt).

(** [free(Alloc allocation)] of the header. *)
Definition freeAlloc (allocation : Alloc) : M unit := free (metadata allocation).

Definition reset (newSize : Z) : M unit :=
  size ← get m_size;
  if decide (size = newSize) then mret tt else
  put (set_m_size newSize);;
  put (set_m_freeStorage 0);;
  put (set_m_usedBinsTop 0);;
  maxAllocs ← get m_maxAllocs;
  put (set_m_freeOffset maxAllocs);;
  forLoop (Z.to_nat NUM_TOP_BINS) 0 (fun i => storeUsedBins i 0);;
  forLoop (Z.to_nat NUM_LEAF_BINS) 0 (fun i => storeBinIndices i UNUSED);;
  put (set_m_nodes (Some (replicate (Z.to_nat (add32 maxAllocs 1)) Node_default)));;
  put (set_m_freeNodes (Some (replicate (Z.to_nat (add32 maxAllocs 1)) 0)));;
  forLoop (Z.to_nat (add32 maxAllocs 1)) 0
    (fun i => storeFreeNodes i (sub32 maxAllocs i));;
  size ← get m_size;
  insertNodeIntoBin size 0;;
  mret tt.

Definition allocationSize (allocation : Alloc) : M Z :=
  if decide (metadata allocation = NO_SPACE) then mret 0 else
  nodes ← get m_nodes;
  if decide (nodes = None) then mret 0 else
  field (metadata allocation) dataSize.

(** [storageReport()]; [__builtin_clz] wants a leaf mask other than 0.  The
    assertion of line 479 expands to nothing. *)
Definition storageReport : M StorageReport :=
  freeOffset ← get m_freeOffset;
  if decide (freeOffset = 0) then mret StorageReport_zero else
  freeStorage ← get m_freeStorage;
  usedBinsTop ← get m_usedBinsTop;
  if decide (usedBinsTop <> 0) then
    let topBinIndex := sub32 31 (lzcnt_nonzero usedBinsTop) in
    leaf ← loadUsedBins topBinIndex;
    requires (leaf <> 0);;
    let leafBinIndex := sub32 31 (lzcnt_nonzero leaf) in
    mret (mkStorageReport freeStorage
            (smallFloatToUint
               (Z.lor (shl32 topBinIndex TOP_BINS_INDEX_SHIFT) leafBinIndex)))
  else mret (mkStorageReport freeStorage 0).

(** The members the constructor leaves uninitialised ([m_usedBinsTop],
    [m_usedBins], [m_binIndices]) hold indeterminate values. *)
Record Indeterminate := mkIndeterminate
  { i_usedBinsTop : Z;
    i_usedBins : Z -> Z;
    i_binIndices : Z -> Z }.

(** [OffsetAllocator(uint32 maxAllocs)]. *)
Definition construct (maxAllocs : Z) (u : Indeterminate) : OffsetAllocator :=
  {| m_size := 0;
     m_maxAllocs := maxAllocs;
     m_freeStorage := 0;
     m_usedBinsTop := i_usedBinsTop u;
     m_usedBins := i_usedBins u <$> seqZ 0 NUM_TOP_BINS;
     m_binIndices := i_binIndices u <$> seqZ 0 NUM_LEAF_BINS;
     m_nodes := None;
     m_freeNodes := None;
     m_freeOffset := 0 |}.

(** ** Representation invariants *)

(** The two-level bitmap: [nonEmpty b] says that bin [b] holds a node. *)
Definition bitmap_ok (usedBins : list Z) (usedBinsTop : Z)
    (nonEmpty : Z -> Prop) : Prop :=
  length usedBins = 32%nat /\
  0 <= usedBinsTop < 2 ^ 32 /\
  forall t, 0 <= t < 32 ->
    exists leaf, index usedBins t = Some leaf /\ 0 <= leaf < 256 /\
      (Z.testbit usedBinsTop t = true <-> leaf <> 0) /\
      forall l, 0 <= l < 8 ->
        (Z.testbit leaf l = true <-> nonEmpty (8 * t + l)).

(** A doubly linked list threaded through the node arena: [L] lists the
    handles from [head] on, [prev] is what the first node names as its
    predecessor and [after] what the last node names as its successor.  The
    arena holds two such relations, the bin lists ([binListPrev],
    [binListNext]) and the neighbour chain ([neighborPrev], [neighborNext]). *)
Fixpoint dlist (prevOf nextOf : Node -> Z) (ns : list Node)
    (prev head : Z) (L : list Z) (after : Z) : Prop :=
  match L with
  | [] => head = after
  | i :: L' =>
      head = i /\
      exists n, index ns i = Some n /\ prevOf n = prev /\
                dlist prevOf nextOf ns i (nextOf n) L' after
  end.

(** The abstract state: the live nodes in address order. *)
Record span := mkSpan { handle : Z; start : Z; len : Z; inUse : bool }.

Definition handles (v : list span) : list Z := handle <$> v.

Definition isFree (s : span) : bool := negb (inUse s).

Definition freeSpans (v : list span) : list span := List.filter isFree v.
Definition usedSpans (v : list span) : list span := List.filter inUse v.

Definition total (v : list span) : Z := foldr (fun s acc => len s + acc) 0 v.

Definition matches (ns : list Node) (s : span) : Prop :=
  exists n, index ns (handle s) = Some n /\
    dataOffset n = start s /\ dataSize n = len s /\ used n = inUse s.

(** The spans cover [from, to) in order, without gap or overlap. *)
Fixpoint tiles (from : Z) (v : list span) (to : Z) : Prop :=
  match v with
  | [] => from = to
  | s :: v' => start s = from /\ 0 <= len s /\ tiles (from + len s) v' to
  end.

(** The free-index stack holds [m_freeOffset + 1] handles, none of them
    live, and every slot of the arena is either on the stack or live. *)
Definition stack_ok (maxAllocs : Z) (freeNodes : list Z)
    (freeOffset : Z) (live : list Z) : Prop :=
  0 <= maxAllocs < 2 ^ 32 - 1 /\
  Z.of_nat (length freeNodes) = maxAllocs + 1 /\
  0 <= freeOffset < 2 ^ 32 /\
  wrap32 (freeOffset + 1) + Z.of_nat (length live) = maxAllocs + 1 /\
  NoDup (take (Z.to_nat (wrap32 (freeOffset + 1))) freeNodes ++ live) /\
  forall i, i ∈ take (Z.to_nat (wrap32 (freeOffset + 1))) freeNodes ++ live ->
            0 <= i <= maxAllocs.

(** The bin directory: bin [b] lists the free nodes whose size rounds down
    to class [b]; the bitmap marks the bins that hold a node; the counter is
    the sum of the free sizes. *)
Definition bins_ok (ns : list Node) (binIndices usedBins : list Z)
    (usedBinsTop freeStorage : Z) (F : list span) : Prop :=
  exists bl : Z -> list Z,
    length binIndices = 256%nat /\
    (forall b, 0 <= b < 256 ->
       exists head, index binIndices b = Some head /\
         dlist binListPrev binListNext ns UNUSED head (bl b) UNUSED /\
         NoDup (bl b)) /\
    (forall b i, i ∈ bl b <->
       exists s, s ∈ F /\ handle s = i /\ uintToSmallFloatRoundDown (len s) = b) /\
    bitmap_ok usedBins usedBinsTop (fun b => bl b <> []) /\
    freeStorage = total F.

Definition Inv (a : OffsetAllocator) (v : list span) : Prop :=
  exists ns fs,
    m_nodes a = Some ns /\ m_freeNodes a = Some fs /\
    0 <= m_size a < 2 ^ 32 /\
    Z.of_nat (length ns) = m_maxAllocs a + 1 /\
    stack_ok (m_maxAllocs a) fs (m_freeOffset a) (handles v) /\
    Forall (matches ns) v /\
    dlist neighborPrev neighborNext ns UNUSED (hd UNUSED (handles v)) (handles v) UNUSED /\
    tiles 0 v (m_size a) /\
    bins_ok ns (m_binIndices a) (m_usedBins a) (m_usedBinsTop a) (m_freeStorage a)
            (freeSpans v).

(** Total correctness of a member function: it is defined on [a] and its
    result and final state satisfy [Q]. *)
Definition wp {A} (m : M A) (Q : A -> OffsetAllocator -> Prop)
    (a : OffsetAllocator) : Prop :=
  exists x a', m a = Some (x, a') /\ Q x a'.

(** Two states of a node that differ at most in its bin links. *)
Definition same_but_bin_links (n n' : Node) : Prop :=
  dataOffset n' = dataOffset n /\ dataSize n' = dataSize n /\
  neighborPrev n' = neighborPrev n /\ neighborNext n' = neighborNext n /\
  used n' = used n.

(** The arena after [removeNodeFromBin] has linked the bin predecessor
    [prev] and the bin successor [next] of a node to each other. *)
Definition unlinkedNodes (ns : list Node) (prev next : Z) : list Node :=
  let ns1 :=
    if decide (prev <> UNUSED) then
      match index ns prev with
      | Some np => <[Z.to_nat prev := set_binListNext next np]> ns
      | None => ns
      end
    else ns in
  if decide (next <> UNUSED) then
    match index ns1 next with
    | Some nx => <[Z.to_nat next := set_binListPrev prev nx]> ns1
    | None => ns1
    end
  else ns1.

(** What [free] does to the abstract state: the span [s] between [v1] and
    [v2] absorbs its left and right neighbours when they are free. *)
Definition mergePrev (v1 : list span) (offset size : Z) : list span * Z * Z :=
  match list.last v1 with
  | Some p =>
      if inUse p then (v1, offset, size)
      else (removelast v1, start p, size + len p)
  | None => (v1, offset, size)
  end.

Definition mergeNext (v2 : list span) (size : Z) : list span * Z :=
  match v2 with
  | n :: v2' => if inUse n then (v2, size) else (v2', size + len n)
  | [] => (v2, size)
  end.

Definition freedSpans (v1 : list span) (s : span) (v2 : list span) : list span :=
  let '(v1', offset, size) := mergePrev v1 (start s) (len s) in
  let '(v2', size) := mergeNext v2 size in
  v1' ++ mkSpan (handle s) offset size false :: v2'.

(** The state of [free] between its steps: the node of [s] is about to
    become a free node of [size] units at [offset]; every other live node is
    as the invariant wants it, apart from the two neighbour links that point
    at the node of [s]. *)
Definition FreeMid (a : OffsetAllocator) (v1 : list span) (s : span)
    (v2 : list span) (offset size : Z) : Prop :=
  exists ns fs,
    m_nodes a = Some ns /\ m_freeNodes a = Some fs /\
    0 <= m_size a < 2 ^ 32 /\
    Z.of_nat (length ns) = m_maxAllocs a + 1 /\
    stack_ok (m_maxAllocs a) fs (m_freeOffset a) (handles (v1 ++ s :: v2)) /\
    Forall (matches ns) (v1 ++ s :: v2) /\
    inUse s = true /\
    (exists X, dlist neighborPrev neighborNext ns UNUSED (hd X (handles v1))
                 (handles v1) X) /\
    (exists ni, index ns (handle s) = Some ni /\
       neighborPrev ni = default UNUSED (list.last (handles v1)) /\
       neighborNext ni = hd UNUSED (handles v2)) /\
    (exists Y, dlist neighborPrev neighborNext ns Y (hd UNUSED (handles v2))
                 (handles v2) UNUSED) /\
    tiles 0 v1 offset /\ 0 <= size /\ tiles (offset + size) v2 (m_size a) /\
    bins_ok ns (m_binIndices a) (m_usedBins a) (m_usedBinsTop a) (m_freeStorage a)
            (freeSpans (v1 ++ v2)).

(** The state built by [reset] (lines 185-204) before it inserts the node of
    the whole region. *)
Definition resetState (size maxAllocs : Z) : OffsetAllocator :=
  {| m_size := size;
     m_maxAllocs := maxAllocs;
     m_freeStorage := 0;
     m_usedBinsTop := 0;
     m_usedBins := (fun _ => 0) <$> seqZ 0 NUM_TOP_BINS;
     m_binIndices := (fun _ => UNUSED) <$> seqZ 0 NUM_LEAF_BINS;
     m_nodes := Some (replicate (Z.to_nat (maxAllocs + 1)) Node_default);
     m_freeNodes := Some ((fun i => maxAllocs - i) <$> seqZ 0 (maxAllocs + 1));
     m_freeOffset := maxAllocs |}.

(** ** Clients *)

(** A call of a client; [Free] is given the [metadata] of an allocation. *)
Inductive Call :=
  | Allocate (size : Z)
  | Free (nodeIndex : Z).

(** A run ends [Undefined] when a call has undefined behaviour, and
    [Invalid] when a call breaks the contract: a size that is no [uint32],
    or a [free] of a handle that is not outstanding, that is, was not
    returned by an earlier successful [allocate] or was freed since. *)
Inductive Outcome :=
  | Undefined
  | Invalid
  | Done (outstanding : list Z) (a : OffsetAllocator).

Fixpoint run (calls : list Call) (outstanding : list Z) (a : OffsetAllocator)
    : Outcome :=
  match calls with
  | [] => Done outstanding a
  | Allocate size :: rest =>
      if decide (0 <= size < 2 ^ 32) then
        match allocate size a with
        | Some (r, a') =>
            run rest
              (if decide (metadata r = NO_SPACE) then outstanding
               else metadata r :: outstanding) a'
        | None => Undefined
        end
      else Invalid
  | Free nodeIndex :: rest =>
      if decide (nodeIndex ∈ outstanding) then
        match free nodeIndex a with
        | Some (_, a') =>
            run rest (filter (fun h => h <> nodeIndex) outstanding) a'
        | None => Undefined
        end
      else Invalid
  end.

(** An allocator object as declared: the array members have their lengths,
    and [maxAllocs + 1] node handles fit [NodeIndex] below [UNUSED]. *)
Definition declared (a : OffsetAllocator) : Prop :=
  length (m_usedBins a) = 32%nat /\
  length (m_binIndices a) = 256%nat /\
  0 <= m_maxAllocs a < 2 ^ 32 - 1.

(** A session of a client: [reset], then the calls. *)
Definition session (size : Z) (calls : list Call) (a : OffsetAllocator)
    : Outcome :=
  match reset size a with
  | Some (_, a') => run calls [] a'
  | None => Undefined
  end.

(** The states a client reaches: a [reset] that takes effect, then valid
    calls; [outstanding] lists the handles not freed yet. *)
Definition reachable (size : Z) (outstanding : list Z) (a : OffsetAllocator)
    : Prop :=
  exists a0 calls,
    declared a0 /\ m_size a0 <> size /\ 0 <= size < 2 ^ 32 /\
    session size calls a0 = Done outstanding a.

(** [hs] are the live node handles: the slots of the arena that are not on
    the free-index stack. *)
Definition liveNodes (a : OffsetAllocator) (hs : list Z) : Prop :=
  exists fs, m_freeNodes a = Some fs /\ NoDup hs /\
    forall i, 0 <= i <= m_maxAllocs a ->
      (i ∈ hs <->
       (i ∉ take (Z.to_nat (wrap32 (m_freeOffset a + 1))) fs)).

(** [v] lists the live nodes, each with its offset, size and used flag. *)
Definition nodesAre (a : OffsetAllocator) (v : list span) : Prop :=
  exists ns, m_nodes a = Some ns /\ Forall (matches ns) v /\
             liveNodes a (handles v).

(** The neighbour links follow the order of [v]: every node names the node
    before it and the node after it, the first and the last name [UNUSED]. *)
Definition neighboursLinked (a : OffsetAllocator) (v : list span) : Prop :=
  exists ns, m_nodes a = Some ns /\
    dlist neighborPrev neighborNext ns UNUSED (hd UNUSED (handles v))
          (handles v) UNUSED.

(** [b] is the highest bin of the directory that holds a node; [None] when
    every bin is empty. *)
Definition highestBin (a : OffsetAllocator) (b : option Z) : Prop :=
  match b with
  | Some b =>
      0 <= b < 256 /\
      (exists h, index (m_binIndices a) b = Some h /\ h <> UNUSED) /\
      forall b', b < b' < 256 -> index (m_binIndices a) b' = Some UNUSED
  | None =>
      forall b', 0 <= b' < 256 -> index (m_binIndices a) b' = Some UNUSED
  end.

(** A member function that leaves [m_size] and [m_maxAllocs] alone. *)
Definition preserves {A} (m : M A) : Prop :=
  forall a x a', m a = Some (x, a') ->
    m_size a' = m_size a /\ m_maxAllocs a' = m_maxAllocs a.

(** The size [storageReport] names for the bin [b]. *)
Definition binSize (b : option Z) : Z :=
  match b with
  | Some b => smallFloatToUint b
  | None => 0
  end.

(** ** Scenarios *)

(** Values for the members the constructor does not initialise. *)
Definition stale : Indeterminate :=
  mkIndeterminate 0xDEADBEEF (fun _ => 0xCD) (fun _ => 0xCDCDCDCD).

(** [reset(S)], then [allocate(a)] and [allocate(b)]. *)
Definition twoAllocations (S a b : Z) : M (Alloc * Alloc) :=
  reset S;;
  r1 ← allocate a;
  r2 ← allocate b;
  mret (r1, r2).

(** Both allocations are freed, in either order, and the report is taken. *)
Definition freeBoth (r1 r2 : Alloc) (firstFirst : bool) : M StorageReport :=
  (if firstFirst then freeAlloc r1;; freeAlloc r2
   else freeAlloc r2;; freeAlloc r1);;
  storageReport.

(** [reset(1024)]; [allocate(100)] and its [allocationSize]; [allocate(50)];
    the first allocation is freed; [storageReport]; [allocate(974)]; and a
    last [allocate]. *)
Definition scenario (lastSize : Z)
    : M (Alloc * Z * Alloc * StorageReport * Alloc * Alloc) :=
  reset 1024;;
  first ← allocate 100;
  firstSize ← allocationSize first;
  second ← allocate 50;
  freeAlloc first;;
  report ← storageReport;
  third ← allocate 974;
  last ← allocate lastSize;
  mret (first, firstSize, second, report, third, last).

(** The allocator of the examples: [maxAllocs = 4], after [reset(1024)]. *)
Definition demoState : OffsetAllocator :=
  Eval vm_compute in
    match reset 1024 (construct 4 stale) with
    | Some (_, a) => a
    | None => construct 4 stale
    end.

(** An allocator with a single handle to spare: [maxAllocs = 1], after
    [reset(1024)]. *)
Definition lastHandleState : OffsetAllocator :=
  Eval vm_compute in
    match reset 1024 (construct 1 stale) with
    | Some (_, a) => a
    | None => construct 1 stale
    end.

(** The calls of the examples. *)
Definition demoCalls : list Call :=
  [Allocate 100; Allocate 50; Free 0; Allocate 30; Free 1; Allocate 2000].

(** Both roundings of the size of class [c] give [c] back. *)
Definition roundTrips (c : Z) : bool :=
  (uintToSmallFloatRoundUp (smallFloatToUint c) =? c) &&
  (uintToSmallFloatRoundDown (smallFloatToUint c) =? c).

(** ** Further definitions *)

(** Whatever [m] returns satisfies [P]. *)
Definition returns {A} (P : A -> Prop) (m : M A) : Prop :=
  forall a x a', m a = Some (x, a') -> P x.

(** No two neighbouring spans are both free. *)
Fixpoint coalesced (v : list span) : Prop :=
  match v with
  | [] => True
  | s :: v' =>
      match v' with
      | [] => True
      | s' :: _ => inUse s = true \/ inUse s' = true
      end /\ coalesced v'
  end.

(** The calls of a client, with the allocations it holds: every allocation
    returned and not freed since, beside the size it was asked for. *)
Fixpoint track (calls : list Call) (held : list (Alloc * Z))
    (a : OffsetAllocator) : option (list (Alloc * Z) * OffsetAllocator) :=
  match calls with
  | [] => Some (held, a)
  | Allocate size :: rest =>
      match allocate size a with
      | Some (r, a') =>
          track rest
            (if decide (metadata r = NO_SPACE) then held else (r, size) :: held) a'
      | None => None
      end
  | Free nodeIndex :: rest =>
      match free nodeIndex a with
      | Some (_, a') =>
          track rest (filter (fun p => metadata p.1 <> nodeIndex) held) a'
      | None => None
      end
  end.

(** The allocation of a node in use, beside its size. *)
Definition holding (s : span) : Alloc * Z := (mkAlloc (start s) (handle s), len s).

(** The sum of the sizes of the allocations held. *)
Definition heldSize (held : list (Alloc * Z)) : Z :=
  foldr (fun p acc => p.2 + acc) 0 held.

(** ** [storageReportFull] *)

Module StorageReportFull.

(** [StorageReportFull::Region]. *)
Record Region := mkRegion { size : Z; count : Z }.

End StorageReportFull.

(** The loop [while (nodeIndex != Node::UNUSED)] of [storageReportFull]
    (lines 492-496).  [fuel] bounds the nodes it may visit; the result is
    [None] when that is not enough. *)
Fixpoint countNodes (fuel : nat) (nodeIndex count : Z) : M (option Z) :=
  if decide (nodeIndex <> UNUSED) then
    match fuel with
    | O => mret None
    | S fuel' =>
        next ← field nodeIndex binListNext;
        countNodes fuel' next (add32 count 1)
    end
  else mret (Some count).

(** The loop over the bins, from bin [i] on. *)
Fixpoint regionsFrom (fuel : nat) (bins : nat) (i : Z)
    : M (option (list StorageReportFull.Region)) :=
  match bins with
  | O => mret (Some [])
  | S bins' =>
      nodeIndex ← loadBinIndices i;
      counted ← countNodes fuel nodeIndex 0;
      match counted with
      | None => mret None
      | Some count =>
          rest ← regionsFrom fuel bins' (i + 1);
          mret (cons (StorageReportFull.mkRegion (smallFloatToUint i) count)
                  <$> rest)
      end
  end.

Definition storageReportFull (fuel : nat)
    : M (option (list StorageReportFull.Region)) :=
  regionsFrom fuel (Z.to_nat NUM_LEAF_BINS) 0.

(** The free nodes of class [b]. *)
Definition freeOfClass (v : list span) (b : Z) : list span :=
  filter (fun s => uintToSmallFloatRoundDown (len s) = b) (freeSpans v).

(** ** The move constructor *)

(** [OffsetAllocator(OffsetAllocator&& other)] (lines 140-157): the new
    object, and what is left of [other]. *)
Definition moveConstruct (other : OffsetAllocator)
    : OffsetAllocator * OffsetAllocator :=
  ({| m_size := m_size other;
      m_maxAllocs := m_maxAllocs other;
      m_freeStorage := m_freeStorage other;
      m_usedBinsTop := m_usedBinsTop other;
      m_usedBins := m_usedBins other;
      m_binIndices := m_binIndices other;
      m_nodes := m_nodes other;
      m_freeNodes := m_freeNodes other;
      m_freeOffset := m_freeOffset other |},
   {| m_size := m_size other;
      m_maxAllocs := 0;
      m_freeStorage := m_freeStorage other;
      m_usedBinsTop := 0;
      m_usedBins := m_usedBins other;
      m_binIndices := m_binIndices other;
      m_nodes := None;
      m_freeNodes := None;
      m_freeOffset := 0 |}).

(** The allocator of the examples once [allocate(100)] has returned. *)
Definition heldState : OffsetAllocator :=
  Eval vm_compute in
    match allocate 100 demoState with
    | Some (_, a) => a
    | None => demoState
    end.
(** * Proofs *)

(** ** Machine arithmetic *)

Lemma wrap32_small z : 0 <= z < 2 ^ 32 -> wrap32 z = z.
Proof. intros H. unfold wrap32. apply Z.mod_small. exact H. Qed.

Lemma wrap32_range z : 0 <= wrap32 z < 2 ^ 32.
Proof. unfold wrap32. apply Z.mod_pos_bound. lia. Qed.

Lemma wrap8_small z : 0 <= z < 256 -> wrap8 z = z.
Proof. intros H. unfold wrap8. apply Z.mod_small. change (2 ^ 8) with 256. exact H. Qed.

Lemma add32_small a b : 0 <= a + b < 2 ^ 32 -> add32 a b = a + b.
Proof. apply wrap32_small. Qed.

Lemma sub32_small a b : 0 <= a - b < 2 ^ 32 -> sub32 a b = a - b.
Proof. apply wrap32_small. Qed.

Lemma shl32_small a b :
  0 <= b -> 0 <= a * 2 ^ b < 2 ^ 32 -> shl32 a b = a * 2 ^ b.
Proof.
  intros Hb H. unfold shl32. rewrite Z.shiftl_mul_pow2 by exact Hb.
  apply wrap32_small, H.
Qed.

Lemma pow2_le_mono a b : 0 <= a <= b -> 2 ^ a <= 2 ^ b.
Proof. intros H. apply Z.pow_le_mono_r; lia. Qed.

Lemma pow2_pos a : 0 <= a -> 0 < 2 ^ a.
Proof. intros H. apply Z.pow_pos_nonneg; lia. Qed.

(** Disjoint bit ranges: or is addition. *)
Lemma lor_high_low e m k :
  0 <= k -> 0 <= m < 2 ^ k -> Z.lor (e * 2 ^ k) m = e * 2 ^ k + m.
Proof.
  intros Hk Hm. symmetry. apply Z.add_nocarry_lor.
  apply Z.bits_inj'. intros i Hi. rewrite Z.land_spec, Z.bits_0.
  destruct (Z.lt_ge_cases i k) as [Hlt | Hge].
  - rewrite Z.mul_pow2_bits_low by exact Hlt. reflexivity.
  - assert (Z.testbit m i = false) as ->; [| apply andb_false_r].
    destruct (Z.eq_dec m 0) as [-> | Hne]; [apply Z.bits_0 |].
    apply Z.bits_above_log2; [lia |].
    apply Z.log2_lt_pow2; [lia |].
    pose proof (pow2_le_mono k i). lia.
Qed.

(** ** The codec in closed form

    For [8 <= n] the class of [n] is [8 * s + n / 2^s], where
    [s = log2 n - 3] is the position of the lowest mantissa bit; rounding up
    adds one when a bit below the mantissa is set. *)

Section Codec.

Variable n : Z.
Hypothesis n_range : 8 <= n < 2 ^ 32.

Let s := Z.log2 n - 3.

Lemma codec_shift_range : 0 <= s <= 28.
Proof.
  unfold s.
  assert (3 <= Z.log2 n) by (apply Z.log2_le_pow2; simpl; lia).
  assert (Z.log2 n < 32) by (apply Z.log2_lt_pow2; lia).
  lia.
Qed.

Lemma codec_pow_bounds : 8 * 2 ^ s <= n < 16 * 2 ^ s.
Proof.
  pose proof codec_shift_range as Hs.
  destruct (Z.log2_spec n ltac:(lia)) as [Hlo Hhi].
  replace (Z.log2 n) with (s + 3) in Hlo by (unfold s; lia).
  replace (Z.succ (Z.log2 n)) with (s + 4) in Hhi by (unfold s; lia).
  rewrite Z.pow_add_r in Hlo, Hhi by lia.
  change (2 ^ 3) with 8 in Hlo. change (2 ^ 4) with 16 in Hhi. lia.
Qed.

Lemma codec_mantissa_range : 8 <= n / 2 ^ s < 16.
Proof.
  pose proof codec_shift_range as Hs. pose proof codec_pow_bounds as Hb.
  pose proof (pow2_pos s ltac:(lia)) as Hp.
  split.
  - apply Z.div_le_lower_bound; lia.
  - apply Z.div_lt_upper_bound; lia.
Qed.

Lemma codec_start_bit :
  sub32 (sub32 31 (lzcnt_nonzero n)) SMALL_FLT_MANTISSA_BITS = s.
Proof.
  pose proof codec_shift_range as Hs. unfold lzcnt_nonzero, SMALL_FLT_MANTISSA_BITS.
  rewrite (sub32_small 31) by (unfold s in Hs; lia).
  rewrite sub32_small by (unfold s in Hs; lia).
  unfold s. lia.
Qed.

Lemma codec_mantissa :
  Z.land (Z.shiftr n s) SMALL_FLT_MANTISSA_MASK = n / 2 ^ s - 8.
Proof.
  pose proof codec_shift_range as Hs. pose proof codec_mantissa_range as Hm.
  rewrite Z.shiftr_div_pow2 by lia.
  change SMALL_FLT_MANTISSA_MASK with (Z.ones 3).
  rewrite Z.land_ones by lia. change (2 ^ 3) with 8.
  rewrite <- (Z.mod_unique_pos (n / 2 ^ s) 8 1 (n / 2 ^ s - 8)); lia.
Qed.

Lemma codec_low_bits :
  Z.land n (sub32 (shl32 1 s) 1) = n mod 2 ^ s.
Proof.
  pose proof codec_shift_range as Hs.
  pose proof (pow2_pos s ltac:(lia)) as Hp.
  pose proof (pow2_le_mono s 28 ltac:(lia)) as Hle.
  change (2 ^ 28) with 268435456 in Hle.
  rewrite shl32_small by (change (2 ^ 32) with 4294967296; lia).
  rewrite sub32_small by (change (2 ^ 32) with 4294967296; lia).
  rewrite Z.mul_1_l.
  replace (2 ^ s - 1) with (Z.ones s) by (rewrite Z.ones_equiv; lia).
  apply Z.land_ones. lia.
Qed.

Lemma uintToSmallFloatRoundDown_large :
  uintToSmallFloatRoundDown n = 8 * s + n / 2 ^ s.
Proof.
  pose proof codec_shift_range as Hs. pose proof codec_mantissa_range as Hm.
  unfold uintToSmallFloatRoundDown.
  change SMALL_FLT_MANTISSA_VALUE with 8.
  destruct (Z.ltb_spec n 8) as [Hlt | _]; [lia |].
  rewrite codec_start_bit, codec_mantissa.
  rewrite add32_small by (change (2 ^ 32) with 4294967296; lia).
  change SMALL_FLT_MANTISSA_BITS with 3.
  rewrite shl32_small by (change (2 ^ 32) with 4294967296; change (2 ^ 3) with 8; lia).
  rewrite lor_high_low by (change (2 ^ 3) with 8; lia).
  change (2 ^ 3) with 8. lia.
Qed.

Lemma uintToSmallFloatRoundUp_large :
  uintToSmallFloatRoundUp n =
  8 * s + n / 2 ^ s + (if n mod 2 ^ s =? 0 then 0 else 1).
Proof.
  pose proof codec_shift_range as Hs. pose proof codec_mantissa_range as Hm.
  unfold uintToSmallFloatRoundUp.
  change SMALL_FLT_MANTISSA_VALUE with 8.
  destruct (Z.ltb_spec n 8) as [Hlt | _]; [lia |].
  rewrite codec_start_bit, codec_mantissa, codec_low_bits.
  rewrite (add32_small s 1) by (change (2 ^ 32) with 4294967296; lia).
  change SMALL_FLT_MANTISSA_BITS with 3.
  destruct (n mod 2 ^ s =? 0); cbn [negb];
    rewrite shl32_small
      by (change (2 ^ 32) with 4294967296; change (2 ^ 3) with 8; lia);
    change (2 ^ 3) with 8.
  - rewrite add32_small by (change (2 ^ 32) with 4294967296; lia). lia.
  - rewrite (add32_small (n / 2 ^ s - 8)) by (change (2 ^ 32) with 4294967296; lia).
    rewrite add32_small by (change (2 ^ 32) with 4294967296; lia). lia.
Qed.

End Codec.

Lemma uintToSmallFloatRoundDown_small n :
  0 <= n < 8 -> uintToSmallFloatRoundDown n = n.
Proof.
  intros H. unfold uintToSmallFloatRoundDown.
  change SMALL_FLT_MANTISSA_VALUE with 8.
  destruct (Z.ltb_spec n 8) as [_ | Hge]; [| lia].
  change (shl32 0 SMALL_FLT_MANTISSA_BITS) with 0. apply Z.lor_0_l.
Qed.

Lemma uintToSmallFloatRoundUp_small n :
  0 <= n < 8 -> uintToSmallFloatRoundUp n = n.
Proof.
  intros H. unfold uintToSmallFloatRoundUp.
  change SMALL_FLT_MANTISSA_VALUE with 8.
  destruct (Z.ltb_spec n 8) as [_ | Hge]; [| lia].
  change (shl32 0 SMALL_FLT_MANTISSA_BITS) with 0.
  apply add32_small. change (2 ^ 32) with 4294967296. lia.
Qed.

Lemma codec_index_range n :
  0 <= n < 2 ^ 32 ->
  0 <= uintToSmallFloatRoundDown n <= 239 /\
  uintToSmallFloatRoundDown n <= uintToSmallFloatRoundUp n <= 240.
Proof.
  intros Hn. destruct (Z.lt_ge_cases n 8) as [Hlt | Hge].
  - rewrite uintToSmallFloatRoundDown_small, uintToSmallFloatRoundUp_small; lia.
  - rewrite uintToSmallFloatRoundDown_large, uintToSmallFloatRoundUp_large by lia.
    pose proof (codec_shift_range n ltac:(lia)).
    pose proof (codec_mantissa_range n ltac:(lia)).
    destruct (_ =? 0); lia.
Qed.

Lemma uintToSmallFloatRoundDown_mono a b :
  0 <= a <= b -> b < 2 ^ 32 ->
  uintToSmallFloatRoundDown a <= uintToSmallFloatRoundDown b.
Proof.
  intros Hab Hb.
  destruct (Z.lt_ge_cases b 8) as [Hb8 | Hb8].
  { rewrite !uintToSmallFloatRoundDown_small; lia. }
  rewrite (uintToSmallFloatRoundDown_large b) by lia.
  pose proof (codec_shift_range b ltac:(lia)) as Hsb.
  pose proof (codec_mantissa_range b ltac:(lia)) as Hqb.
  destruct (Z.lt_ge_cases a 8) as [Ha8 | Ha8].
  { rewrite uintToSmallFloatRoundDown_small; lia. }
  rewrite (uintToSmallFloatRoundDown_large a) by lia.
  pose proof (codec_shift_range a ltac:(lia)) as Hsa.
  pose proof (codec_mantissa_range a ltac:(lia)) as Hqa.
  pose proof (Z.log2_le_mono a b ltac:(lia)) as Hlog.
  destruct (Z.eq_dec (Z.log2 a) (Z.log2 b)) as [Heq | Hne].
  - rewrite Heq.
    pose proof (pow2_pos (Z.log2 b - 3) ltac:(lia)) as Hp.
    pose proof (Z.div_le_mono a b (2 ^ (Z.log2 b - 3)) Hp ltac:(lia)).
    lia.
  - lia.
Qed.

Lemma uintToSmallFloatRoundUp_mono a b :
  0 <= a <= b -> b < 2 ^ 32 ->
  uintToSmallFloatRoundUp a <= uintToSmallFloatRoundUp b.
Proof.
  intros Hab Hb.
  destruct (Z.lt_ge_cases b 8) as [Hb8 | Hb8].
  { rewrite !uintToSmallFloatRoundUp_small; lia. }
  rewrite (uintToSmallFloatRoundUp_large b) by lia.
  pose proof (codec_shift_range b ltac:(lia)) as Hsb.
  pose proof (codec_mantissa_range b ltac:(lia)) as Hqb.
  destruct (Z.lt_ge_cases a 8) as [Ha8 | Ha8].
  { rewrite uintToSmallFloatRoundUp_small by lia. destruct (_ =? 0); lia. }
  rewrite (uintToSmallFloatRoundUp_large a) by lia.
  pose proof (codec_shift_range a ltac:(lia)) as Hsa.
  pose proof (codec_mantissa_range a ltac:(lia)) as Hqa.
  pose proof (Z.log2_le_mono a b ltac:(lia)) as Hlog.
  destruct (Z.eq_dec (Z.log2 a) (Z.log2 b)) as [Heq | Hne].
  - rewrite Heq. set (p := 2 ^ (Z.log2 b - 3)).
    assert (0 < p) as Hp by (apply pow2_pos; lia).
    pose proof (Z.div_le_mono a b p Hp ltac:(lia)) as Hdiv.
    pose proof (Z.div_mod a p ltac:(lia)) as Ha.
    pose proof (Z.div_mod b p ltac:(lia)) as Hb'.
    pose proof (Z.mod_pos_bound a p Hp). pose proof (Z.mod_pos_bound b p Hp).
    destruct (Z.eqb_spec (a mod p) 0), (Z.eqb_spec (b mod p) 0); try lia.
    assert (a / p < b / p); [| lia].
    assert (a / p <> b / p); [| lia]. intros Hq. rewrite Hq in Ha. lia.
  - destruct (_ =? 0), (_ =? 0); lia.
Qed.

Lemma smallFloatToUint_denormal c : 0 <= c < 8 -> smallFloatToUint c = c.
Proof.
  intros Hc. unfold smallFloatToUint. change SMALL_FLT_MANTISSA_BITS with 3.
  rewrite Z.shiftr_div_pow2 by lia. change (2 ^ 3) with 8.
  rewrite Z.div_small by lia. simpl.
  change SMALL_FLT_MANTISSA_MASK with (Z.ones 3).
  rewrite Z.land_ones by lia. apply Z.mod_small. simpl. lia.
Qed.

Lemma smallFloatToUint_normal s q :
  0 <= s <= 30 -> 8 <= q < 16 ->
  smallFloatToUint (8 * s + q) = wrap32 (q * 2 ^ s).
Proof.
  intros Hs Hq. unfold smallFloatToUint. change SMALL_FLT_MANTISSA_BITS with 3.
  rewrite Z.shiftr_div_pow2 by lia. change (2 ^ 3) with 8.
  assert ((8 * s + q) / 8 = s + 1) as ->.
  { symmetry. apply (Z.div_unique_pos _ 8 (s + 1) (q - 8)); lia. }
  destruct (Z.eqb_spec (s + 1) 0) as [? | _]; [lia |].
  change SMALL_FLT_MANTISSA_MASK with (Z.ones 3).
  rewrite Z.land_ones by lia. change (2 ^ 3) with 8.
  assert ((8 * s + q) mod 8 = q - 8) as ->.
  { symmetry. apply (Z.mod_unique_pos _ 8 (s + 1) (q - 8)); lia. }
  change SMALL_FLT_MANTISSA_VALUE with (1 * 2 ^ 3).
  rewrite Z.lor_comm, lor_high_low by (simpl; lia).
  rewrite sub32_small by (change (2 ^ 32) with 4294967296; lia).
  unfold shl32. rewrite Z.shiftl_mul_pow2 by lia.
  replace (s + 1 - 1) with s by lia. change (2 ^ 3) with 8.
  f_equal. f_equal. lia.
Qed.

(** Rounding down never exceeds the size. *)
Lemma smallFloatToUint_RoundDown n :
  0 <= n < 2 ^ 32 -> smallFloatToUint (uintToSmallFloatRoundDown n) <= n.
Proof.
  intros Hn. destruct (Z.lt_ge_cases n 8) as [Hlt | Hge].
  - rewrite uintToSmallFloatRoundDown_small, smallFloatToUint_denormal; lia.
  - rewrite uintToSmallFloatRoundDown_large by lia.
    pose proof (codec_shift_range n ltac:(lia)) as Hs.
    pose proof (codec_mantissa_range n ltac:(lia)) as Hq.
    rewrite smallFloatToUint_normal by lia.
    set (p := 2 ^ (Z.log2 n - 3)) in *.
    assert (0 < p) as Hp by (apply pow2_pos; lia).
    pose proof (Z.div_mod n p ltac:(lia)). pose proof (Z.mod_pos_bound n p Hp).
    rewrite wrap32_small; nia.
Qed.

(** Rounding up reaches the size, as long as the class found is below 240,
    whose size [2^32] is not a [uint32]. *)
Lemma smallFloatToUint_RoundUp n :
  0 <= n <= 0xF0000000 -> n <= smallFloatToUint (uintToSmallFloatRoundUp n).
Proof.
  intros Hn. destruct (Z.lt_ge_cases n 8) as [Hlt | Hge].
  - rewrite uintToSmallFloatRoundUp_small, smallFloatToUint_denormal; lia.
  - rewrite uintToSmallFloatRoundUp_large by lia.
    pose proof (codec_shift_range n ltac:(lia)) as Hs.
    pose proof (codec_mantissa_range n ltac:(lia)) as Hq.
    pose proof (codec_pow_bounds n ltac:(lia)) as Hb.
    set (s := Z.log2 n - 3) in *. set (p := 2 ^ s) in *.
    assert (0 < p) as Hp by (apply pow2_pos; lia).
    pose proof (Z.div_mod n p ltac:(lia)) as Hdm.
    pose proof (Z.mod_pos_bound n p Hp) as Hmod.
    assert (p <= 2 ^ 28) as Hp28 by (apply pow2_le_mono; lia).
    change (2 ^ 28) with 268435456 in Hp28.
    destruct (Z.eqb_spec (n mod p) 0) as [Hz | Hnz].
    + rewrite Z.add_0_r, smallFloatToUint_normal by lia. fold p.
      rewrite wrap32_small by (change (2 ^ 32) with 4294967296; nia). nia.
    + destruct (Z.eq_dec (n / p) 15) as [H15 | H15].
      * (* the mantissa carries into the exponent *)
        assert (s <= 27) as Hs27.
        { destruct (Z.eq_dec s 28) as [H28 | ?]; [| lia].
          assert (p = 268435456) by (unfold p; rewrite H28; reflexivity). lia. }
        replace (8 * s + n / p + 1) with (8 * (s + 1) + 8) by lia.
        rewrite smallFloatToUint_normal by lia.
        rewrite Z.pow_add_r by lia. fold p. change (2 ^ 1) with 2.
        assert (p <= 2 ^ 27) as Hp27 by (apply pow2_le_mono; lia).
        change (2 ^ 27) with 134217728 in Hp27.
        rewrite wrap32_small by (change (2 ^ 32) with 4294967296; lia). nia.
      * replace (8 * s + n / p + 1) with (8 * s + (n / p + 1)) by lia.
        rewrite smallFloatToUint_normal by lia. fold p.
        rewrite wrap32_small by (change (2 ^ 32) with 4294967296; nia). nia.
Qed.

(** A class that fits a request holds nodes that fit it: the fact the bin
    search of [allocate] relies on. *)
Lemma RoundUp_le_RoundDown_fits size nodeSize :
  0 <= size < 2 ^ 32 -> 0 <= nodeSize < 2 ^ 32 ->
  uintToSmallFloatRoundUp size <= uintToSmallFloatRoundDown nodeSize ->
  size <= nodeSize.
Proof.
  intros Hs Hn Hle.
  destruct (Z.le_gt_cases size nodeSize) as [? | Hlt]; [assumption | exfalso].
  pose proof (uintToSmallFloatRoundDown_mono nodeSize size ltac:(lia) ltac:(lia)) as Hmono.
  pose proof (codec_index_range size Hs) as [_ [Hdu _]].
  assert (uintToSmallFloatRoundUp size = uintToSmallFloatRoundDown size) as Hex by lia.
  assert (uintToSmallFloatRoundDown nodeSize = uintToSmallFloatRoundDown size) as Hsame by lia.
  pose proof (smallFloatToUint_RoundDown nodeSize Hn) as Hdown.
  rewrite Hsame in Hdown.
  (* [size] is exactly representable *)
  destruct (Z.lt_ge_cases size 8) as [H8 | H8].
  - rewrite uintToSmallFloatRoundDown_small, smallFloatToUint_denormal in Hdown; lia.
  - rewrite uintToSmallFloatRoundUp_large, uintToSmallFloatRoundDown_large in Hex by lia.
    rewrite uintToSmallFloatRoundDown_large in Hdown by lia.
    pose proof (codec_shift_range size ltac:(lia)) as Hsh.
    pose proof (codec_mantissa_range size ltac:(lia)) as Hq.
    rewrite smallFloatToUint_normal in Hdown by lia.
    set (p := 2 ^ (Z.log2 size - 3)) in *.
    assert (0 < p) as Hp by (apply pow2_pos; lia).
    pose proof (Z.div_mod size p ltac:(lia)) as Hdm.
    destruct (Z.eqb_spec (size mod p) 0) as [Hz | Hnz]; [| lia].
    rewrite wrap32_small in Hdown by nia. nia.
Qed.

(** ** Arrays *)

Lemma index_range {A} (l : list A) i x :
  index l i = Some x -> 0 <= i < Z.of_nat (length l).
Proof.
  unfold index. destruct (decide _) as [Hi | ?]; [| discriminate].
  intros H. apply lookup_lt_Some in H. lia.
Qed.

Lemma index_is_Some {A} (l : list A) i :
  0 <= i < Z.of_nat (length l) -> exists x, index l i = Some x.
Proof.
  intros Hi. unfold index. destruct (decide _) as [_ | ?]; [| lia].
  apply lookup_lt_is_Some_2. lia.
Qed.

Lemma update_Some {A} (l : list A) i x :
  0 <= i < Z.of_nat (length l) -> update l i x = Some (<[Z.to_nat i := x]> l).
Proof. intros Hi. unfold update. destruct (decide _); [reflexivity | lia]. Qed.

Lemma index_insert {A} (l : list A) i j x :
  0 <= i < Z.of_nat (length l) ->
  index (<[Z.to_nat i := x]> l) j = if decide (j = i) then Some x else index l j.
Proof.
  intros Hi. unfold index. destruct (decide (j = i)) as [-> | Hne].
  - destruct (decide _); [| lia]. apply list_lookup_insert_eq. lia.
  - destruct (decide _); [| reflexivity]. apply list_lookup_insert_ne. lia.
Qed.

Lemma index_insert_eq {A} (l : list A) i x :
  0 <= i < Z.of_nat (length l) -> index (<[Z.to_nat i := x]> l) i = Some x.
Proof. intros Hi. rewrite index_insert by exact Hi. apply decide_True. reflexivity. Qed.

Lemma index_insert_ne {A} (l : list A) i j x :
  0 <= i -> j <> i -> index (<[Z.to_nat i := x]> l) j = index l j.
Proof.
  intros Hi Hne. unfold index. destruct (decide _); [| reflexivity].
  apply list_lookup_insert_ne. lia.
Qed.

Lemma index_replicate {A} (n : nat) (x : A) i :
  0 <= i < Z.of_nat n -> index (replicate n x) i = Some x.
Proof.
  intros Hi. unfold index. destruct (decide _); [| lia].
  apply lookup_replicate_2. lia.
Qed.

(** ** Bits *)

Lemma ctz_pos_spec p :
  0 <= ctz_pos p /\ Z.testbit (Zpos p) (ctz_pos p) = true.
Proof.
  induction p as [p _ | p [IH0 IH1] | ]; cbn [ctz_pos].
  - split; [lia | reflexivity].
  - split; [lia |].
    replace (1 + ctz_pos p) with (Z.succ (ctz_pos p)) by lia.
    change (Zpos p~0) with (2 * Zpos p).
    rewrite Z.testbit_even_succ by exact IH0. exact IH1.
  - split; [lia | reflexivity].
Qed.

Lemma tzcnt_nonzero_spec v :
  0 < v -> 0 <= tzcnt_nonzero v /\ Z.testbit v (tzcnt_nonzero v) = true.
Proof. destruct v as [| p | p]; [lia | intros _ | lia]. apply ctz_pos_spec. Qed.

Lemma testbit_true_lt v i k :
  0 <= v < 2 ^ k -> Z.testbit v i = true -> 0 <= i < k.
Proof.
  intros Hv Hbit. split.
  - destruct (Z.lt_ge_cases i 0) as [Hneg | ?]; [| assumption].
    rewrite Z.testbit_neg_r in Hbit by exact Hneg. discriminate.
  - destruct (Z.lt_ge_cases i k) as [? | Hge]; [assumption | exfalso].
    destruct (Z.eq_dec v 0) as [-> | Hne].
    + rewrite Z.bits_0 in Hbit. discriminate.
    + rewrite Z.bits_above_log2 in Hbit; [discriminate | lia |].
      assert (Z.log2 v < k); [| lia].
      apply Z.log2_lt_pow2; lia.
Qed.

Lemma testbit_bit l i :
  0 <= l -> 0 <= i -> Z.testbit (2 ^ l) i = true <-> i = l.
Proof.
  intros Hl Hi. rewrite Z.pow2_bits_eqb by exact Hl. split.
  - intros H. apply Z.eqb_eq in H. lia.
  - intros ->. apply Z.eqb_refl.
Qed.

Lemma shl32_bit l : 0 <= l < 32 -> shl32 1 l = 2 ^ l.
Proof.
  intros Hl. rewrite shl32_small; [lia | lia |].
  pose proof (pow2_pos l ltac:(lia)).
  pose proof (Z.pow_lt_mono_r 2 l 32 ltac:(lia) ltac:(lia) ltac:(lia)). lia.
Qed.

Lemma nonzero_has_bit v : 0 <= v -> v <> 0 -> Z.testbit v (Z.log2 v) = true.
Proof. intros H0 Hne. apply Z.bit_log2. lia. Qed.

Lemma no_bits_zero v : (forall i, 0 <= i -> Z.testbit v i = false) -> v = 0.
Proof.
  intros H. apply Z.bits_inj'. intros i Hi. rewrite Z.bits_0. apply H, Hi.
Qed.

Lemma bits_bound k v :
  0 <= k -> 0 <= v -> (forall i, k <= i -> Z.testbit v i = false) -> v < 2 ^ k.
Proof. intros Hk Hv H. apply Z.bounded_iff_bits_nonneg; assumption. Qed.

Lemma bits_above k v i : 0 <= v < 2 ^ k -> k <= i -> Z.testbit v i = false.
Proof.
  intros Hv Hi. destruct (Z.testbit v i) eqn:Hbit; [| reflexivity].
  apply (testbit_true_lt v i k Hv) in Hbit. lia.
Qed.

(** [leaf |= 1 << l] and [top |= 1 << t]. *)
Lemma set_bit_spec k v l :
  0 <= v < 2 ^ k -> 0 <= l < k -> k <= 32 ->
  0 <= Z.lor v (shl32 1 l) < 2 ^ k /\
  forall i, 0 <= i ->
    (Z.testbit (Z.lor v (shl32 1 l)) i = true <-> i = l \/ Z.testbit v i = true).
Proof.
  intros Hv Hl Hk. rewrite shl32_bit by lia.
  assert (forall i, 0 <= i ->
    (Z.testbit (Z.lor v (2 ^ l)) i = true <-> i = l \/ Z.testbit v i = true)) as Hbits.
  { intros i Hi. rewrite Z.lor_spec, orb_true_iff, testbit_bit by lia. tauto. }
  split; [| exact Hbits].
  assert (0 <= Z.lor v (2 ^ l)) as Hnn.
  { apply Z.lor_nonneg. split; [lia |]. pose proof (pow2_pos l). lia. }
  split; [exact Hnn |].
  apply bits_bound; [lia | exact Hnn |].
  intros i Hi. destruct (Z.testbit _ i) eqn:Hbit; [| reflexivity].
  apply Hbits in Hbit; [| lia]. destruct Hbit as [-> | Hbit]; [lia |].
  rewrite (bits_above k v i) in Hbit by lia. discriminate.
Qed.

(** [leaf &= ~(1 << l)], stored back into a [uint8]. *)
Lemma clear_bit8_spec v l :
  0 <= v < 256 -> 0 <= l < 8 ->
  let v' := wrap8 (Z.land v (Z.lnot (shl32 1 l))) in
  0 <= v' < 256 /\
  forall i, 0 <= i ->
    (Z.testbit v' i = true <-> i <> l /\ Z.testbit v i = true).
Proof.
  intros Hv Hl v'. split.
  - unfold v', wrap8. apply Z.mod_pos_bound. reflexivity.
  - intros i Hi. unfold v', wrap8. rewrite shl32_bit by lia.
    rewrite Z.testbit_mod_pow2, Z.land_spec, Z.lnot_spec by lia.
    rewrite Z.pow2_bits_eqb by lia.
    rewrite !andb_true_iff, negb_true_iff, Z.ltb_lt, Z.eqb_neq.
    split.
    + intros [_ [Hbit Hne]]. split; [lia | exact Hbit].
    + intros [Hne Hbit]. split; [| split; [exact Hbit | lia]].
      apply (testbit_true_lt v i 8); [simpl; lia | exact Hbit].
Qed.

(** [top &= ~(1 << t)]. *)
Lemma clear_bit32_spec v t :
  0 <= v < 2 ^ 32 -> 0 <= t < 32 ->
  let v' := Z.land v (not32 (shl32 1 t)) in
  0 <= v' < 2 ^ 32 /\
  forall i, 0 <= i ->
    (Z.testbit v' i = true <-> i <> t /\ Z.testbit v i = true).
Proof.
  intros Hv Ht v'.
  assert (forall i, 0 <= i ->
    (Z.testbit v' i = true <-> i <> t /\ Z.testbit v i = true)) as Hbits.
  { intros i Hi. unfold v', not32, wrap32. rewrite shl32_bit by lia.
    rewrite Z.land_spec, Z.testbit_mod_pow2, Z.lnot_spec by lia.
    rewrite Z.pow2_bits_eqb by lia.
    rewrite !andb_true_iff, negb_true_iff, Z.ltb_lt, Z.eqb_neq.
    split.
    - intros [Hbit [_ Hne]]. split; [lia | exact Hbit].
    - intros [Hne Hbit]. split; [exact Hbit | split; [| lia]].
      apply (testbit_true_lt v i 32); [lia | exact Hbit]. }
  split; [| exact Hbits].
  assert (0 <= v') as Hnn by (apply Z.land_nonneg; left; lia).
  split; [exact Hnn |].
  apply bits_bound; [lia | exact Hnn |].
  intros i Hi. destruct (Z.testbit v' i) eqn:Hbit; [| reflexivity].
  apply Hbits in Hbit; [| lia]. destruct Hbit as [_ Hbit].
  rewrite (bits_above 32 v i) in Hbit by lia. discriminate.
Qed.

Lemma zero_iff_no_bits v :
  0 <= v -> (v = 0 <-> forall i, 0 <= i -> Z.testbit v i = false).
Proof.
  intros Hv. split.
  - intros -> i _. apply Z.bits_0.
  - apply no_bits_zero.
Qed.

Lemma nonzero_iff_bit v :
  0 <= v -> (v <> 0 <-> exists i, 0 <= i /\ Z.testbit v i = true).
Proof.
  intros Hv. split.
  - intros Hne. exists (Z.log2 v). split; [apply Z.log2_nonneg |].
    apply nonzero_has_bit; assumption.
  - intros [i [Hi Hbit]] ->. rewrite Z.bits_0 in Hbit. discriminate.
Qed.

(** The bit scan of [allocate]. *)
Lemma findLowestSetBitAfter_found bitMask startBitIndex :
  0 <= bitMask < 2 ^ 32 -> 0 <= startBitIndex < 32 ->
  findLowestSetBitAfter bitMask startBitIndex <> NO_SPACE ->
  startBitIndex <= findLowestSetBitAfter bitMask startBitIndex < 32 /\
  Z.testbit bitMask (findLowestSetBitAfter bitMask startBitIndex) = true.
Proof.
  intros Hm Hs. unfold findLowestSetBitAfter.
  set (bitsAfter := Z.land bitMask _).
  destruct (Z.eqb_spec bitsAfter 0) as [? | Hne]; [congruence | intros _].
  assert (0 <= bitsAfter) as Hnn by (apply Z.land_nonneg; left; lia).
  destruct (tzcnt_nonzero_spec bitsAfter ltac:(lia)) as [Hr0 Hbit].
  set (r := tzcnt_nonzero bitsAfter) in *.
  unfold bitsAfter in Hbit.
  rewrite Z.land_spec, andb_true_iff in Hbit. destruct Hbit as [Hbm Hmask].
  pose proof (testbit_true_lt bitMask r 32 Hm Hbm) as Hr.
  split; [| exact Hbm]. split; [| lia].
  unfold not32, wrap32 in Hmask.
  rewrite Z.testbit_mod_pow2, andb_true_iff, Z.lnot_spec, negb_true_iff in Hmask by lia.
  destruct Hmask as [_ Hmask].
  rewrite shl32_bit in Hmask by lia.
  pose proof (pow2_pos startBitIndex ltac:(lia)) as Hp.
  pose proof (Z.pow_lt_mono_r 2 startBitIndex 32 ltac:(lia) ltac:(lia) ltac:(lia)).
  rewrite sub32_small in Hmask by lia.
  replace (2 ^ startBitIndex - 1) with (Z.ones startBitIndex) in Hmask
    by (rewrite Z.ones_equiv; lia).
  destruct (Z.lt_ge_cases r startBitIndex) as [Hlt | ?]; [| assumption].
  rewrite Z.ones_spec_low in Hmask by lia. discriminate.
Qed.

Lemma findLowestSetBitAfter_zero startBitIndex :
  findLowestSetBitAfter 0 startBitIndex = NO_SPACE.
Proof. unfold findLowestSetBitAfter. rewrite Z.land_0_l. reflexivity. Qed.

(** ** The bitmap *)

Lemma bitmap_ok_ext usedBins usedBinsTop (ne ne' : Z -> Prop) :
  (forall b, ne b <-> ne' b) ->
  bitmap_ok usedBins usedBinsTop ne -> bitmap_ok usedBins usedBinsTop ne'.
Proof.
  intros Hext (Hlen & Htop & Hbins). split; [exact Hlen |]. split; [exact Htop |].
  intros t Ht. destruct (Hbins t Ht) as (leaf & Hidx & Hleaf & Htb & Hl).
  exists leaf. split; [exact Hidx |]. split; [exact Hleaf |]. split; [exact Htb |].
  intros l Hlr. rewrite (Hl l Hlr). apply Hext.
Qed.

Lemma bin_split t l t' l' :
  0 <= l < 8 -> 0 <= l' < 8 -> 8 * t + l = 8 * t' + l' -> t = t' /\ l = l'.
Proof. lia. Qed.

Lemma bitmap_set usedBins usedBinsTop ne t l leaf :
  bitmap_ok usedBins usedBinsTop ne ->
  0 <= t < 32 -> 0 <= l < 8 -> index usedBins t = Some leaf ->
  bitmap_ok (<[Z.to_nat t := wrap8 (Z.lor leaf (shl32 1 l))]> usedBins)
            (Z.lor usedBinsTop (shl32 1 t))
            (fun b => b = 8 * t + l \/ ne b).
Proof.
  intros (Hlen & Htop & Hbins) Ht Hl Hidx.
  destruct (Hbins t Ht) as (leaf0 & Hidx0 & Hleaf & Htb & Hlb).
  assert (leaf0 = leaf) as -> by congruence.
  destruct (set_bit_spec 8 leaf l ltac:(simpl; lia) Hl ltac:(lia)) as [Hr8 Hb8].
  destruct (set_bit_spec 32 usedBinsTop t Htop Ht ltac:(lia)) as [Hr32 Hb32].
  change (2 ^ 8) with 256 in Hr8.
  rewrite wrap8_small by exact Hr8.
  split; [rewrite length_insert; exact Hlen |]. split; [exact Hr32 |].
  intros t' Ht'. rewrite index_insert by lia.
  destruct (decide (t' = t)) as [-> | Hne].
  - eexists. split; [reflexivity |]. split; [exact Hr8 |]. split.
    + split; intros _.
      * apply nonzero_iff_bit; [lia |]. exists l. split; [lia |].
        apply Hb8; [lia | left; reflexivity].
      * apply Hb32; [lia | left; reflexivity].
    + intros l' Hl'. rewrite Hb8 by lia. rewrite (Hlb l' Hl'). split.
      * intros [-> | H]; [left; reflexivity | right; exact H].
      * intros [Heq | H]; [left; lia | right; exact H].
  - destruct (Hbins t' Ht') as (leaf' & Hidx' & Hleaf' & Htb' & Hlb').
    exists leaf'. split; [exact Hidx' |]. split; [exact Hleaf' |]. split.
    + rewrite Hb32 by lia. rewrite <- Htb'. split; [intros [? | ?]; [lia | assumption] | tauto].
    + intros l' Hl'. rewrite (Hlb' l' Hl'). split; [tauto |].
      intros [Heq | H]; [| exact H]. apply bin_split in Heq; lia.
Qed.

Lemma bitmap_clear usedBins usedBinsTop ne t l leaf :
  bitmap_ok usedBins usedBinsTop ne ->
  0 <= t < 32 -> 0 <= l < 8 -> index usedBins t = Some leaf ->
  let leaf' := wrap8 (Z.land leaf (Z.lnot (shl32 1 l))) in
  bitmap_ok (<[Z.to_nat t := leaf']> usedBins)
            (if decide (leaf' = 0)
             then Z.land usedBinsTop (not32 (shl32 1 t)) else usedBinsTop)
            (fun b => b <> 8 * t + l /\ ne b).
Proof.
  intros (Hlen & Htop & Hbins) Ht Hl Hidx leaf'.
  destruct (Hbins t Ht) as (leaf0 & Hidx0 & Hleaf & Htb & Hlb).
  assert (leaf0 = leaf) as -> by congruence.
  destruct (clear_bit8_spec leaf l Hleaf Hl) as [Hr8 Hb8]. fold leaf' in Hr8, Hb8.
  destruct (clear_bit32_spec usedBinsTop t Htop Ht) as [Hr32 Hb32].
  split; [rewrite length_insert; exact Hlen |].
  split; [destruct (decide _); assumption |].
  intros t' Ht'. rewrite index_insert by lia.
  destruct (decide (t' = t)) as [-> | Hne].
  - eexists. split; [reflexivity |]. split; [exact Hr8 |]. split.
    + destruct (decide (leaf' = 0)) as [Hz | Hnz].
      * rewrite Hb32 by lia. split; [intros [? _]; lia | intros ?; contradiction].
      * split; [intros _; exact Hnz | intros _].
        apply Htb. intros ->. apply Hnz. unfold leaf'. reflexivity.
    + intros l' Hl'. rewrite Hb8 by lia. rewrite (Hlb l' Hl'). split.
      * intros [Hne H]. split; [lia | exact H].
      * intros [Hne H]. split; [| exact H]. intros ->. apply Hne. reflexivity.
  - destruct (Hbins t' Ht') as (leaf2 & Hidx' & Hleaf' & Htb' & Hlb').
    exists leaf2. split; [exact Hidx' |]. split; [exact Hleaf' |]. split.
    + destruct (decide (leaf' = 0)); [| exact Htb'].
      rewrite Hb32 by lia. rewrite <- Htb'. tauto.
    + intros l' Hl'. rewrite (Hlb' l' Hl'). split; [| tauto].
      intros H. split; [| exact H]. intros Heq. apply bin_split in Heq; lia.
Qed.

(** ** Rules for running member functions *)

Lemma wp_ret {A} (x : A) Q a : Q x a -> wp (mret x) Q a.
Proof. intros H. exists x, a. split; [reflexivity | exact H]. Qed.

Lemma wp_bind {A B} (m : M A) (k : A -> M B) Q a :
  wp m (fun x a' => wp (k x) Q a') a -> wp (m ≫= k) Q a.
Proof.
  intros (x & a' & Hm & y & a'' & Hk & HQ). exists y, a''. split; [| exact HQ].
  unfold mbind, M_bind. rewrite Hm. exact Hk.
Qed.

Lemma wp_mono {A} (m : M A) (Q Q' : A -> OffsetAllocator -> Prop) a :
  wp m Q a -> (forall x a', Q x a' -> Q' x a') -> wp m Q' a.
Proof. intros (x & a' & Hm & HQ) H. exists x, a'. split; [exact Hm | apply H, HQ]. Qed.

Lemma wp_get {A} (f : OffsetAllocator -> A) Q a : Q (f a) a -> wp (get f) Q a.
Proof. intros H. exists (f a), a. split; [reflexivity | exact H]. Qed.

Lemma wp_put f Q a : Q tt (f a) -> wp (put f) Q a.
Proof. intros H. exists tt, (f a). split; [reflexivity | exact H]. Qed.

Lemma wp_lift {A} (o : option A) x Q a : o = Some x -> Q x a -> wp (lift o) Q a.
Proof. intros -> H. exists x, a. split; [reflexivity | exact H]. Qed.

Lemma wp_requires (P : Prop) `{Decision P} Q a :
  P -> Q tt a -> wp (requires P) Q a.
Proof.
  intros HP H0. exists tt, a. split; [| exact H0].
  unfold requires. destruct (decide P); [reflexivity | contradiction].
Qed.

Lemma wp_elim {A} (m : M A) Q a :
  wp m Q a -> exists x a', m a = Some (x, a') /\ Q x a'.
Proof. intros H. exact H. Qed.

Lemma wp_loadUsedBins i x Q a :
  index (m_usedBins a) i = Some x -> Q x a -> wp (loadUsedBins i) Q a.
Proof.
  intros Hi HQ. unfold loadUsedBins. apply wp_bind, wp_get.
  apply wp_lift with x; assumption.
Qed.

Lemma wp_storeUsedBins i v Q a :
  0 <= i < Z.of_nat (length (m_usedBins a)) ->
  Q tt (set_m_usedBins (<[Z.to_nat i := v]> (m_usedBins a)) a) ->
  wp (storeUsedBins i v) Q a.
Proof.
  intros Hi HQ. unfold storeUsedBins. apply wp_bind, wp_get.
  apply wp_bind. eapply wp_lift; [apply update_Some, Hi |].
  apply wp_put, HQ.
Qed.

Lemma wp_loadBinIndices i x Q a :
  index (m_binIndices a) i = Some x -> Q x a -> wp (loadBinIndices i) Q a.
Proof.
  intros Hi HQ. unfold loadBinIndices. apply wp_bind, wp_get.
  apply wp_lift with x; assumption.
Qed.

Lemma wp_storeBinIndices i v Q a :
  0 <= i < Z.of_nat (length (m_binIndices a)) ->
  Q tt (set_m_binIndices (<[Z.to_nat i := v]> (m_binIndices a)) a) ->
  wp (storeBinIndices i v) Q a.
Proof.
  intros Hi HQ. unfold storeBinIndices. apply wp_bind, wp_get.
  apply wp_bind. eapply wp_lift; [apply update_Some, Hi |].
  apply wp_put, HQ.
Qed.

Lemma wp_loadFreeNodes fs i x Q a :
  m_freeNodes a = Some fs -> index fs i = Some x -> Q x a ->
  wp (loadFreeNodes i) Q a.
Proof.
  intros Hfs Hi HQ. unfold loadFreeNodes. apply wp_bind, wp_get.
  apply wp_bind. eapply wp_lift; [exact Hfs |].
  apply wp_lift with x; assumption.
Qed.

Lemma wp_storeFreeNodes fs i v Q a :
  m_freeNodes a = Some fs -> 0 <= i < Z.of_nat (length fs) ->
  Q tt (set_m_freeNodes (Some (<[Z.to_nat i := v]> fs)) a) ->
  wp (storeFreeNodes i v) Q a.
Proof.
  intros Hfs Hi HQ. unfold storeFreeNodes. apply wp_bind, wp_get.
  apply wp_bind. eapply wp_lift; [exact Hfs |].
  apply wp_bind. eapply wp_lift; [apply update_Some, Hi |].
  apply wp_put, HQ.
Qed.

Lemma wp_loadNode ns i n Q a :
  m_nodes a = Some ns -> index ns i = Some n -> Q n a -> wp (loadNode i) Q a.
Proof.
  intros Hns Hi HQ. unfold loadNode. apply wp_bind, wp_get.
  apply wp_bind. eapply wp_lift; [exact Hns |].
  apply wp_lift with n; assumption.
Qed.

Lemma wp_storeNode ns i n Q a :
  m_nodes a = Some ns -> 0 <= i < Z.of_nat (length ns) ->
  Q tt (set_m_nodes (Some (<[Z.to_nat i := n]> ns)) a) ->
  wp (storeNode i n) Q a.
Proof.
  intros Hns Hi HQ. unfold storeNode. apply wp_bind, wp_get.
  apply wp_bind. eapply wp_lift; [exact Hns |].
  apply wp_bind. eapply wp_lift; [apply update_Some, Hi |].
  apply wp_put, HQ.
Qed.

Lemma wp_field {A} ns i n (f : Node -> A) Q a :
  m_nodes a = Some ns -> index ns i = Some n -> Q (f n) a -> wp (field i f) Q a.
Proof.
  intros Hns Hi HQ. unfold field. apply wp_bind.
  eapply wp_loadNode; [exact Hns | exact Hi |]. apply wp_ret, HQ.
Qed.

Lemma wp_setField ns i n f Q a :
  m_nodes a = Some ns -> index ns i = Some n ->
  Q tt (set_m_nodes (Some (<[Z.to_nat i := f n]> ns)) a) ->
  wp (setField i f) Q a.
Proof.
  intros Hns Hi HQ. unfold setField. apply wp_bind.
  eapply wp_loadNode; [exact Hns | exact Hi |].
  eapply wp_storeNode; [exact Hns | exact (index_range _ _ _ Hi) | exact HQ].
Qed.

(** ** Doubly linked lists in the arena *)

Section DList.

Variables prevOf nextOf : Node -> Z.

Local Abbreviation dl := (dlist prevOf nextOf).

Lemma dlist_head ns pr h L a : dl ns pr h L a -> h = hd a L.
Proof. destruct L; simpl; [tauto | intros [? _]; assumption]. Qed.

Lemma dlist_index ns pr h L a i :
  dl ns pr h L a -> i ∈ L -> exists n, index ns i = Some n.
Proof.
  revert pr h. induction L as [| j L IH]; intros pr h Hd Hin.
  - apply elem_of_nil in Hin. contradiction.
  - destruct Hd as [_ (n & Hn & _ & Hd)].
    apply elem_of_cons in Hin as [-> | Hin]; [eauto | eapply IH; eauto].
Qed.

(** Nodes outside the list, and fields other than the two links, do not
    matter. *)
Lemma dlist_frame ns ns' pr h L a :
  dl ns pr h L a ->
  (forall k n, k ∈ L -> index ns k = Some n ->
     exists n', index ns' k = Some n' /\
       prevOf n' = prevOf n /\ nextOf n' = nextOf n) ->
  dl ns' pr h L a.
Proof.
  revert pr h. induction L as [| i L IH]; intros pr h Hd Hfr; [exact Hd |].
  destruct Hd as [Hh (n & Hn & Hp & Hd)]. split; [exact Hh |].
  destruct (Hfr i n ltac:(left) Hn) as (n' & Hn' & Hp' & Hx').
  exists n'. split; [exact Hn' |]. split; [congruence |].
  rewrite Hx'. apply IH; [exact Hd |].
  intros k m Hk. apply Hfr. right. exact Hk.
Qed.

Lemma default_last_cons (x i : Z) L :
  default x (list.last (i :: L)) = default i (list.last L).
Proof.
  destruct L as [| j L]; [reflexivity |]. rewrite last_cons_cons.
  destruct (list.last (j :: L)) eqn:Hl; [reflexivity |].
  apply last_None in Hl. discriminate.
Qed.

Lemma dlist_app ns pr h L1 L2 a :
  dl ns pr h (L1 ++ L2) a <->
  dl ns pr h L1 (hd a L2) /\ dl ns (default pr (list.last L1)) (hd a L2) L2 a.
Proof.
  revert pr h. induction L1 as [| i L1 IH]; intros pr h.
  - simpl. split.
    + intros Hd. split; [eapply dlist_head, Hd |].
      rewrite <- (dlist_head _ _ _ _ _ Hd). exact Hd.
    + intros [-> Hd]. exact Hd.
  - rewrite default_last_cons. simpl. split.
    + intros [Hh (n & Hn & Hp & Hd)]. apply IH in Hd as [Hd1 Hd2].
      split; [split; [exact Hh |]; exists n; auto | exact Hd2].
    + intros [[Hh (n & Hn & Hp & Hd1)] Hd2]. split; [exact Hh |].
      exists n. split; [exact Hn |]. split; [exact Hp |].
      apply IH. split; assumption.
Qed.

(** The first node is given a new predecessor. *)
Lemma dlist_reprev ns ns' pr pr' h L a :
  dl ns pr h L a -> NoDup L ->
  (forall k n, k ∈ L -> index ns k = Some n ->
     exists n', index ns' k = Some n' /\ nextOf n' = nextOf n /\
       prevOf n' = if decide (k = h) then pr' else prevOf n) ->
  dl ns' pr' h L a.
Proof.
  intros Hd Hnd Hfr. destruct L as [| i L]; [exact Hd |].
  destruct Hd as [Hh (n & Hn & Hp & Hd)]. split; [exact Hh |].
  destruct (Hfr i n ltac:(left) Hn) as (n' & Hn' & Hx' & Hp').
  rewrite decide_True in Hp' by (symmetry; exact Hh).
  exists n'. split; [exact Hn' |]. split; [exact Hp' |].
  rewrite Hx'. apply list.NoDup_cons in Hnd as [Hni Hnd].
  eapply dlist_frame; [exact Hd |].
  intros k m Hk Hm. destruct (Hfr k m ltac:(right; exact Hk) Hm) as (m' & Hm' & Hmx & Hmp).
  exists m'. split; [exact Hm' |]. split; [| exact Hmx].
  rewrite decide_False in Hmp; [exact Hmp |]. intros ->. subst h. contradiction.
Qed.

(** The last node is given a new successor. *)
Lemma dlist_renext ns ns' pr h L a a' :
  dl ns pr h L a -> NoDup L ->
  (forall k n, k ∈ L -> index ns k = Some n ->
     exists n', index ns' k = Some n' /\ prevOf n' = prevOf n /\
       nextOf n' = if decide (list.last L = Some k) then a' else nextOf n) ->
  dl ns' pr (hd a' L) L a'.
Proof.
  revert pr h. induction L as [| i L IH]; intros pr h Hd Hnd Hfr; [reflexivity |].
  destruct Hd as [Hh (n & Hn & Hp & Hd)]. split; [reflexivity |].
  destruct (Hfr i n ltac:(left) Hn) as (n' & Hn' & Hp' & Hx').
  exists n'. split; [exact Hn' |]. split; [congruence |].
  apply list.NoDup_cons in Hnd as [Hni Hnd].
  destruct L as [| j L].
  - simpl in Hx'. rewrite decide_True in Hx' by reflexivity. rewrite Hx'. reflexivity.
  - rewrite last_cons_cons in Hx'.
    rewrite decide_False in Hx'.
    2:{ intros Hl. apply Hni. apply last_Some_elem_of in Hl. exact Hl. }
    rewrite Hx'. pose proof (dlist_head _ _ _ _ _ Hd) as Hj. simpl in Hj.
    rewrite Hj in Hd |- *. apply (IH i j Hd Hnd).
    intros k m Hk Hm. destruct (Hfr k m ltac:(right; exact Hk) Hm) as (m' & Hm' & Hmp & Hmx).
    exists m'. split; [exact Hm' |]. split; [exact Hmp |].
    rewrite last_cons_cons in Hmx. exact Hmx.
Qed.

(** A node is taken out of the list: its predecessor and its successor are
    linked to each other, and the head moves on when the node was first. *)
Lemma dlist_unlink ns ns' pr h L1 i L2 a :
  dl ns pr h (L1 ++ i :: L2) a -> NoDup (L1 ++ i :: L2) -> a ∉ L1 ->
  (forall k n, k ∈ L1 ++ L2 -> index ns k = Some n ->
     exists n', index ns' k = Some n' /\
       prevOf n' = (if decide (k = hd a L2) then default pr (list.last L1)
                    else prevOf n) /\
       nextOf n' = (if decide (list.last L1 = Some k) then hd a L2
                    else nextOf n)) ->
  dl ns' pr (hd a (L1 ++ L2)) (L1 ++ L2) a.
Proof.
  intros Hd Hnd Ha Hfr.
  apply dlist_app in Hd as [Hd1 Hd2]. simpl in Hd1, Hd2.
  destruct Hd2 as [_ (n & Hn & Hp & Hd2)].
  pose proof (dlist_head _ _ _ _ _ Hd2) as Hnx.
  apply list.NoDup_app in Hnd as (Hnd1 & Hdisj & Hnd2).
  apply list.NoDup_cons in Hnd2 as [Hi2 Hnd2].
  apply dlist_app. split.
  - replace (hd a (L1 ++ L2)) with (hd (hd a L2) L1) by (destruct L1; reflexivity).
    eapply dlist_renext; [exact Hd1 | exact Hnd1 |].
    intros k m Hk Hm.
    destruct (Hfr k m ltac:(apply elem_of_app; left; exact Hk) Hm)
      as (m' & Hm' & Hmp & Hmx).
    exists m'. split; [exact Hm' |]. split; [| exact Hmx].
    rewrite decide_False in Hmp; [exact Hmp |].
    intros ->. destruct L2 as [| j L2]; simpl in *.
    + contradiction.
    + apply (Hdisj j Hk). right. left.
  - rewrite Hnx in Hd2.
    eapply dlist_reprev; [exact Hd2 | exact Hnd2 |].
    intros k m Hk Hm.
    destruct (Hfr k m ltac:(apply elem_of_app; right; exact Hk) Hm)
      as (m' & Hm' & Hmp & Hmx).
    exists m'. split; [exact Hm' |]. split; [| exact Hmp].
    rewrite decide_False in Hmx; [exact Hmx |].
    intros Hl. apply last_Some_elem_of in Hl.
    apply (Hdisj k Hl). right. exact Hk.
Qed.

End DList.

Section DListAt.

Variables prevOf nextOf : Node -> Z.

Lemma dlist_at ns pr h L1 i L2 a :
  dlist prevOf nextOf ns pr h (L1 ++ i :: L2) a ->
  exists n, index ns i = Some n /\
    prevOf n = default pr (list.last L1) /\ nextOf n = hd a L2.
Proof.
  intros Hd. apply dlist_app in Hd as [_ Hd]. simpl in Hd.
  destruct Hd as [_ (n & Hn & Hp & Hd)].
  exists n. split; [exact Hn |]. split; [exact Hp |].
  eapply dlist_head, Hd.
Qed.

End DListAt.

(** ** The free-index stack *)

Lemma wrap32_succ fo :
  0 <= fo < 2 ^ 32 -> fo <> NO_SPACE -> wrap32 (fo + 1) = fo + 1.
Proof. intros H Hne. apply wrap32_small. unfold NO_SPACE in Hne. lia. Qed.

Lemma wrap32_pred_succ fo :
  0 <= fo < 2 ^ 32 -> wrap32 (sub32 fo 1 + 1) = fo.
Proof.
  intros H. unfold sub32, wrap32.
  rewrite Z.add_mod_idemp_l by lia.
  replace (fo - 1 + 1) with fo by lia. apply Z.mod_small. exact H.
Qed.

Lemma stack_perm maxAllocs fs fo live live' :
  stack_ok maxAllocs fs fo live -> live ≡ₚ live' ->
  stack_ok maxAllocs fs fo live'.
Proof.
  intros (Hmx & Hlen & Hfo & Hcnt & Hnd & Hrng) Hperm.
  repeat split; try assumption; try tauto; try lia.
  - rewrite <- Hperm. exact Hcnt.
  - rewrite <- Hperm. exact Hnd.
  - apply Hrng. rewrite Hperm. assumption.
  - apply Hrng. rewrite Hperm. assumption.
Qed.

Lemma stack_pop maxAllocs fs fo live :
  stack_ok maxAllocs fs fo live -> fo <> NO_SPACE ->
  exists j, index fs fo = Some j /\ 0 <= j <= maxAllocs /\ (j ∉ live) /\
            stack_ok maxAllocs fs (sub32 fo 1) (j :: live).
Proof.
  intros (Hmx & Hlen & Hfo & Hcnt & Hnd & Hrng) Hne.
  rewrite (wrap32_succ fo Hfo Hne) in *.
  destruct (index_is_Some fs fo ltac:(lia)) as [j Hj].
  exists j. split; [exact Hj |].
  assert (take (Z.to_nat (fo + 1)) fs = take (Z.to_nat fo) fs ++ [j]) as Htake.
  { replace (Z.to_nat (fo + 1)) with (S (Z.to_nat fo)) by lia.
    apply take_S_r. unfold index in Hj. destruct (decide _); [exact Hj | discriminate]. }
  rewrite Htake in Hnd, Hrng. rewrite <- app_assoc in Hnd, Hrng. simpl in Hnd, Hrng.
  split; [apply Hrng; apply elem_of_app; right; left |].
  split.
  { apply list.NoDup_app in Hnd as (_ & _ & Hnd).
    apply list.NoDup_cons in Hnd as [Hj' _]. exact Hj'. }
  unfold stack_ok. rewrite (wrap32_pred_succ fo Hfo).
  split; [exact Hmx |]. split; [exact Hlen |].
  split; [apply wrap32_range |].
  split; [simpl length; lia |]. split; assumption.
Qed.

Lemma stack_push maxAllocs fs fo live i live' :
  stack_ok maxAllocs fs fo live -> live ≡ₚ i :: live' ->
  0 <= add32 fo 1 < Z.of_nat (length fs) /\
  stack_ok maxAllocs (<[Z.to_nat (add32 fo 1) := i]> fs) (add32 fo 1) live'.
Proof.
  intros (Hmx & Hlen & Hfo & Hcnt & Hnd & Hrng) Hperm.
  unfold add32. set (count := wrap32 (fo + 1)) in *.
  pose proof (wrap32_range (fo + 1)) as Hc. fold count in Hc.
  assert (Z.of_nat (length live) = Z.of_nat (length live') + 1) as Hll.
  { rewrite Hperm. simpl length. lia. }
  split; [lia |].
  assert (wrap32 (count + 1) = count + 1) as Hc1 by (apply wrap32_small; lia).
  unfold stack_ok. rewrite Hc1.
  split; [exact Hmx |]. split; [rewrite length_insert; exact Hlen |].
  split; [lia |]. split; [lia |].
  assert (take (Z.to_nat (count + 1)) (<[Z.to_nat count := i]> fs)
          = take (Z.to_nat count) fs ++ [i]) as Htake.
  { replace (Z.to_nat (count + 1)) with (S (Z.to_nat count)) by lia.
    erewrite take_S_r by (apply list_lookup_insert_eq; lia).
    rewrite take_insert_ge by lia. reflexivity. }
  rewrite Htake, <- app_assoc. simpl.
  split.
  - rewrite <- Hperm. exact Hnd.
  - intros k Hk. apply Hrng. rewrite Hperm. exact Hk.
Qed.

(** A live handle is a slot of the arena, hence not the sentinel. *)
Lemma stack_live_range maxAllocs fs fo live i :
  stack_ok maxAllocs fs fo live -> i ∈ live -> 0 <= i <= maxAllocs.
Proof.
  intros (_ & _ & _ & _ & _ & Hrng) Hi. apply Hrng, elem_of_app. right. exact Hi.
Qed.

Lemma stack_live_NoDup maxAllocs fs fo live :
  stack_ok maxAllocs fs fo live -> NoDup live.
Proof.
  intros (_ & _ & _ & _ & Hnd & _). apply list.NoDup_app in Hnd. tauto.
Qed.

(** ** Spans *)

Lemma total_app v1 v2 : total (v1 ++ v2) = total v1 + total v2.
Proof. induction v1 as [| s v1 IH]; simpl; [reflexivity | rewrite IH; lia]. Qed.

Lemma total_perm v1 v2 : v1 ≡ₚ v2 -> total v1 = total v2.
Proof. induction 1; simpl; lia. Qed.

Lemma total_free_used v : total (freeSpans v) + total (usedSpans v) = total v.
Proof.
  unfold freeSpans, usedSpans, isFree.
  induction v as [| s v IH]; simpl; [reflexivity |].
  destruct (inUse s); simpl; lia.
Qed.

Lemma tiles_total from v to : tiles from v to -> total v = to - from.
Proof.
  revert from. induction v as [| s v IH]; intros from; simpl.
  - lia.
  - intros (Hs & Hl & Ht). apply IH in Ht. lia.
Qed.

Lemma tiles_app from v1 v2 to :
  tiles from (v1 ++ v2) to <->
  tiles from v1 (from + total v1) /\ tiles (from + total v1) v2 to.
Proof.
  revert from. induction v1 as [| s v1 IH]; intros from; simpl.
  - rewrite Z.add_0_r. tauto.
  - rewrite IH. replace (from + len s + total v1) with (from + (len s + total v1)) by lia.
    tauto.
Qed.

Lemma tiles_nonneg from v to : tiles from v to -> 0 <= total v.
Proof.
  revert from. induction v as [| s v IH]; intros from; simpl; [lia |].
  intros (_ & Hl & Ht). apply IH in Ht. lia.
Qed.

Lemma freeSpans_app v1 v2 : freeSpans (v1 ++ v2) = freeSpans v1 ++ freeSpans v2.
Proof. apply List.filter_app. Qed.

Lemma handles_app v1 v2 : handles (v1 ++ v2) = handles v1 ++ handles v2.
Proof. apply fmap_app. Qed.

Lemma elem_of_freeSpans s v : s ∈ freeSpans v <-> s ∈ v /\ inUse s = false.
Proof.
  unfold freeSpans. rewrite !list_elem_of_In, List.filter_In.
  unfold isFree. rewrite negb_true_iff. tauto.
Qed.

Lemma elem_of_handles i v : i ∈ handles v <-> exists s, s ∈ v /\ handle s = i.
Proof.
  unfold handles. rewrite list_elem_of_fmap. split; intros (s & H1 & H2); eauto.
Qed.

Lemma handles_freeSpans_sub v i : i ∈ handles (freeSpans v) -> i ∈ handles v.
Proof.
  rewrite !elem_of_handles. intros (s & Hs & Hh).
  apply elem_of_freeSpans in Hs as [Hs _]. eauto.
Qed.

(** Distinct handles: a handle names one span. *)
Lemma handle_inj v s s' :
  NoDup (handles v) -> s ∈ v -> s' ∈ v -> handle s = handle s' -> s = s'.
Proof.
  intros Hnd Hs Hs' Heq. unfold handles in Hnd.
  apply list_elem_of_lookup in Hs as [k Hk]. apply list_elem_of_lookup in Hs' as [k' Hk'].
  assert (k = k') as ->.
  { eapply NoDup_lookup; [exact Hnd | |].
    - rewrite list_lookup_fmap, Hk. reflexivity.
    - rewrite list_lookup_fmap, Hk'. simpl. f_equal. symmetry. exact Heq. }
  congruence.
Qed.

(** ** The bin directory *)

Lemma bin_decompose b :
  0 <= b < 256 ->
  b = 8 * Z.shiftr b TOP_BINS_INDEX_SHIFT + Z.land b LEAF_BINS_INDEX_MASK /\
  0 <= Z.shiftr b TOP_BINS_INDEX_SHIFT < 32 /\
  0 <= Z.land b LEAF_BINS_INDEX_MASK < 8.
Proof.
  intros Hb. unfold TOP_BINS_INDEX_SHIFT. change LEAF_BINS_INDEX_MASK with (Z.ones 3).
  rewrite Z.shiftr_div_pow2, Z.land_ones by lia. change (2 ^ 3) with 8.
  pose proof (Z.div_mod b 8 ltac:(lia)). pose proof (Z.mod_pos_bound b 8 ltac:(lia)).
  split; [lia |]. split; [| lia].
  split; [apply Z.div_pos; lia | apply Z.div_lt_upper_bound; lia].
Qed.

Lemma bin_compose t l :
  0 <= t < 32 -> 0 <= l < 8 ->
  Z.lor (shl32 t TOP_BINS_INDEX_SHIFT) l = 8 * t + l.
Proof.
  intros Ht Hl. unfold TOP_BINS_INDEX_SHIFT.
  rewrite shl32_small by (change (2 ^ 3) with 8; lia).
  rewrite lor_high_low by (change (2 ^ 3) with 8; lia).
  change (2 ^ 3) with 8. lia.
Qed.

(** A bin of the directory is in range. *)
Lemma span_bin_range s :
  0 <= len s < 2 ^ 32 -> 0 <= uintToSmallFloatRoundDown (len s) < 256.
Proof. intros H. pose proof (codec_index_range (len s) H). lia. Qed.

Section Bins.

Variable ns : list Node.
Hypothesis ns_small : Z.of_nat (length ns) <= UNUSED.

Abbreviation bdl := (dlist binListPrev binListNext).

Lemma index_not_UNUSED i n : index ns i = Some n -> i <> UNUSED.
Proof. intros H. apply index_range in H. lia. Qed.

Lemma bdl_not_UNUSED pr h L a i : bdl ns pr h L a -> i ∈ L -> i <> UNUSED.
Proof.
  intros Hd Hi. destruct (dlist_index _ _ _ _ _ _ _ _ Hd Hi) as [n Hn].
  eapply index_not_UNUSED, Hn.
Qed.

Lemma bdl_head_UNUSED pr h L : bdl ns pr h L UNUSED -> (h = UNUSED <-> L = []).
Proof.
  intros Hd. pose proof (dlist_head _ _ _ _ _ _ _ Hd) as Hh. split.
  - intros ->. destruct L as [| i L]; [reflexivity |]. simpl in Hh.
    exfalso. eapply (bdl_not_UNUSED _ _ _ _ i Hd); [left | congruence].
  - intros ->. exact Hh.
Qed.

Lemma bins_frame ns' bins ub top fst F :
  bins_ok ns bins ub top fst F ->
  (forall k n, k ∈ handles F -> index ns k = Some n ->
     exists n', index ns' k = Some n' /\
       binListPrev n' = binListPrev n /\ binListNext n' = binListNext n) ->
  bins_ok ns' bins ub top fst F.
Proof.
  intros (bl & Hlen & Hlists & Hmem & Hbm & Hsum) Hfr.
  exists bl. split; [exact Hlen |]. split; [| tauto].
  intros b Hb. destruct (Hlists b Hb) as (head & Hhead & Hd & Hnd).
  exists head. split; [exact Hhead |]. split; [| exact Hnd].
  eapply dlist_frame; [exact Hd |].
  intros k n Hk. apply Hfr. apply elem_of_handles.
  apply Hmem in Hk as (s & Hs & Hh & _). eauto.
Qed.

Lemma bins_perm bins ub top fst F F' :
  bins_ok ns bins ub top fst F -> F ≡ₚ F' -> bins_ok ns bins ub top fst F'.
Proof.
  intros (bl & Hlen & Hlists & Hmem & Hbm & Hsum) Hperm.
  exists bl. split; [exact Hlen |]. split; [exact Hlists |].
  split; [| split; [exact Hbm | rewrite <- (total_perm _ _ Hperm); exact Hsum]].
  intros b i. rewrite Hmem. split; intros (s & Hs & H); exists s; split; try exact H.
  - rewrite <- Hperm. exact Hs.
  - rewrite Hperm. exact Hs.
Qed.

(** Two bins that share a node are the same bin. *)
Lemma bins_disjoint (bl : Z -> list Z) F b b' k :
  NoDup (handles F) ->
  (forall b i, i ∈ bl b <->
     exists s, s ∈ F /\ handle s = i /\ uintToSmallFloatRoundDown (len s) = b) ->
  k ∈ bl b -> k ∈ bl b' -> b = b'.
Proof.
  intros Hnd Hmem Hk Hk'.
  apply Hmem in Hk as (s & Hs & Hh & Hb). apply Hmem in Hk' as (s' & Hs' & Hh' & Hb').
  assert (s = s') as -> by (eapply handle_inj; eauto; congruence).
  congruence.
Qed.

(** [insertNodeIntoBin]: the node of [s] becomes the head of its bin. *)
Lemma bins_insert ns' bins ub top fst F s h leaf :
  bins_ok ns bins ub top fst F ->
  NoDup (handles F) ->
  0 <= len s < 2 ^ 32 ->
  (handle s ∉ handles F) ->
  let b := uintToSmallFloatRoundDown (len s) in
  let t := Z.shiftr b TOP_BINS_INDEX_SHIFT in
  let l := Z.land b LEAF_BINS_INDEX_MASK in
  index bins b = Some h ->
  index ub t = Some leaf ->
  (exists nj, index ns' (handle s) = Some nj /\
     binListPrev nj = UNUSED /\ binListNext nj = h) ->
  (forall k n, k ∈ handles F -> index ns k = Some n ->
     exists n', index ns' k = Some n' /\ binListNext n' = binListNext n /\
       binListPrev n' = if decide (k = h) then handle s else binListPrev n) ->
  bins_ok ns' (<[Z.to_nat b := handle s]> bins)
    (if decide (h = UNUSED)
     then <[Z.to_nat t := wrap8 (Z.lor leaf (shl32 1 l))]> ub else ub)
    (if decide (h = UNUSED) then Z.lor top (shl32 1 t) else top)
    (fst + len s) (s :: F).
Proof.
  intros (bl & Hlen & Hlists & Hmem & Hbm & Hsum) Hnd Hs Hfresh b t l Hh Hleaf
    (nj & Hnj & Hnjp & Hnjx) Hfr.
  pose proof (span_bin_range s Hs) as Hb. fold b in Hb.
  destruct (bin_decompose b Hb) as (Hbtl & Ht & Hl). fold t l in Hbtl, Ht, Hl.
  destruct (Hlists b Hb) as (h0 & Hh0 & Hd & Hndb).
  assert (h0 = h) as -> by congruence.
  assert (forall k, k ∈ bl b -> k ∈ handles F) as Hsub.
  { intros k Hk. apply elem_of_handles. apply Hmem in Hk as (s0 & ? & ? & _). eauto. }
  exists (fun b' => if decide (b' = b) then handle s :: bl b else bl b').
  split; [rewrite length_insert; exact Hlen |]. split; [| split; [| split]].
  - intros b' Hb'. rewrite index_insert by lia.
    destruct (decide (b' = b)) as [-> | Hne].
    + exists (handle s). split; [reflexivity |]. split.
      * split; [reflexivity |]. exists nj. split; [exact Hnj |]. split; [exact Hnjp |].
        rewrite Hnjx. eapply dlist_reprev; [exact Hd | exact Hndb |].
        intros k n Hk. apply Hfr, Hsub, Hk.
      * apply list.NoDup_cons. split; [| exact Hndb].
        intros Hin. apply Hfresh, Hsub, Hin.
    + destruct (Hlists b' Hb') as (h' & Hh' & Hd' & Hnd').
      exists h'. split; [exact Hh' |]. split; [| exact Hnd'].
      eapply dlist_frame; [exact Hd' |].
      intros k n Hk Hn.
      destruct (Hfr k n ltac:(apply elem_of_handles; apply Hmem in Hk as (s0 & ? & ? & _); eauto) Hn)
        as (n' & Hn' & Hx & Hp).
      exists n'. split; [exact Hn' |]. split; [| exact Hx].
      rewrite decide_False in Hp; [exact Hp |].
      intros ->. pose proof (dlist_head _ _ _ _ _ _ _ Hd) as Hhd.
      destruct (bl b) as [| i L] eqn:Hblb; simpl in Hhd.
      * eapply (index_not_UNUSED h n); [exact Hn | exact Hhd].
      * apply Hne. eapply (bins_disjoint bl F b' b h Hnd Hmem Hk).
        rewrite Hblb, Hhd. left.
  - intros b' i. destruct (decide (b' = b)) as [-> | Hne].
    + rewrite elem_of_cons, Hmem. split.
      * intros [-> | (s0 & Hs0 & Hh0' & Hb0)].
        -- exists s. split; [left |]. split; reflexivity.
        -- exists s0. split; [right; exact Hs0 |]. split; assumption.
      * intros (s0 & Hs0 & Hh0' & Hb0). apply elem_of_cons in Hs0 as [-> | Hs0].
        -- left. symmetry. exact Hh0'.
        -- right. exists s0. split; [exact Hs0 |]. split; assumption.
    + rewrite Hmem. split.
      * intros (s0 & Hs0 & H). exists s0. split; [right; exact Hs0 | exact H].
      * intros (s0 & Hs0 & Hh0' & Hb0). apply elem_of_cons in Hs0 as [-> | Hs0].
        -- exfalso. apply Hne. symmetry. exact Hb0.
        -- exists s0. split; [exact Hs0 |]. split; assumption.
  - pose proof (bdl_head_UNUSED _ _ _ Hd) as Hempty.
    destruct (decide (h = UNUSED)) as [Hu | Hu].
    + eapply bitmap_ok_ext; [| apply (bitmap_set _ _ _ t l leaf Hbm Ht Hl Hleaf)].
      intros b'. simpl. rewrite <- Hbtl. destruct (decide (b' = b)); [| tauto].
      split; [intros _; discriminate | intros _; left; assumption].
    + eapply bitmap_ok_ext; [| exact Hbm].
      intros b'. simpl. destruct (decide (b' = b)) as [-> | ?]; [| tauto].
      split; [intros _; discriminate | intros _]. intros Hnil. apply Hu, Hempty, Hnil.
  - simpl. lia.
Qed.

(** [removeNodeFromBin], and the pop of [allocate]: the node of [s] leaves
    its bin. *)
Lemma bins_remove ns' bins ub top fst F s F' ni leaf :
  bins_ok ns bins ub top fst F ->
  NoDup (handles F) ->
  (forall s0, s0 ∈ F -> 0 <= len s0 < 2 ^ 32) ->
  F ≡ₚ s :: F' ->
  index ns (handle s) = Some ni ->
  let b := uintToSmallFloatRoundDown (len s) in
  let t := Z.shiftr b TOP_BINS_INDEX_SHIFT in
  let l := Z.land b LEAF_BINS_INDEX_MASK in
  let prev := binListPrev ni in
  let next := binListNext ni in
  index ub t = Some leaf ->
  let leaf' := wrap8 (Z.land leaf (Z.lnot (shl32 1 l))) in
  (forall k n, k ∈ handles F' -> index ns k = Some n ->
     exists n', index ns' k = Some n' /\
       binListPrev n' = (if decide (k = next) then prev else binListPrev n) /\
       binListNext n' = (if decide (k = prev) then next else binListNext n)) ->
  bins_ok ns'
    (if decide (prev = UNUSED) then <[Z.to_nat b := next]> bins else bins)
    (if decide (prev = UNUSED /\ next = UNUSED)
     then <[Z.to_nat t := leaf']> ub else ub)
    (if decide (prev = UNUSED /\ next = UNUSED)
     then (if decide (leaf' = 0)
           then Z.land top (not32 (shl32 1 t)) else top)
     else top)
    (fst - len s) F'.
Proof.
  intros (bl & Hlen & Hlists & Hmem & Hbm & Hsum) Hnd Hrange Hperm Hni b t l prev next
    Hleaf leaf' Hfr.
  assert (s ∈ F) as HsF by (rewrite Hperm; left).
  pose proof (span_bin_range s (Hrange s HsF)) as Hb. fold b in Hb.
  destruct (bin_decompose b Hb) as (Hbtl & Ht & Hl). fold t l in Hbtl, Ht, Hl.
  destruct (Hlists b Hb) as (h & Hh & Hd & Hndb).
  assert (handle s ∈ bl b) as Hin by (apply Hmem; exists s; auto).
  apply list_elem_of_split in Hin as (L1 & L2 & Hsplit).
  rewrite Hsplit in Hd, Hndb.
  destruct (dlist_at _ _ _ _ _ _ _ _ _ Hd) as (ni0 & Hni0 & Hprev & Hnext).
  assert (ni0 = ni) as -> by congruence. fold prev in Hprev. fold next in Hnext.
  assert (forall k, k ∈ L1 ++ L2 -> k ∈ bl b /\ k <> handle s) as HL12.
  { intros k Hk. split.
    - rewrite Hsplit. apply elem_of_app in Hk as [Hk | Hk];
        apply elem_of_app; [left | right; right]; exact Hk.
    - intros ->. apply list.NoDup_app in Hndb as (_ & Hdisj & Hnd2).
      apply list.NoDup_cons in Hnd2 as [Hn2 _].
      apply elem_of_app in Hk as [Hk | Hk]; [| contradiction].
      apply (Hdisj _ Hk). left. }
  assert (NoDup (handles (s :: F'))) as Hnd'.
  { unfold handles in *. rewrite <- Hperm. exact Hnd. }
  simpl in Hnd'. apply list.NoDup_cons in Hnd' as [HsF' HndF'].
  assert (forall b' k, k ∈ bl b' -> k <> handle s -> k ∈ handles F') as Hsub.
  { intros b' k Hk Hne. apply Hmem in Hk as (s0 & Hs0 & Hh0 & _).
    rewrite Hperm in Hs0. apply elem_of_cons in Hs0 as [-> | Hs0]; [congruence |].
    apply elem_of_handles. eauto. }
  assert (prev = UNUSED <-> L1 = []) as HprevU.
  { rewrite Hprev. split.
    - intros Hu. destruct (list.last L1) as [p |] eqn:Hl1; [| apply last_None, Hl1].
      simpl in Hu. exfalso. apply last_Some_elem_of in Hl1.
      eapply (bdl_not_UNUSED _ _ _ _ p Hd); [| exact Hu].
      apply elem_of_app. left. exact Hl1.
    - intros ->. reflexivity. }
  assert (next = UNUSED <-> L2 = []) as HnextU.
  { rewrite Hnext. split.
    - intros Hu. destruct L2 as [| j L2]; [reflexivity |]. simpl in Hu.
      exfalso. eapply (bdl_not_UNUSED _ _ _ _ j Hd); [| exact Hu].
      apply elem_of_app. right. right. left.
    - intros ->. reflexivity. }
  assert (Hunl : bdl ns' UNUSED (hd UNUSED (L1 ++ L2)) (L1 ++ L2) UNUSED).
  { eapply dlist_unlink; [exact Hd | exact Hndb | |].
    - intros Hu. eapply (bdl_not_UNUSED _ _ _ _ UNUSED Hd); [| reflexivity].
      apply elem_of_app. left. exact Hu.
    - intros k n Hk Hn. destruct (HL12 k Hk) as [Hkb Hks].
      destruct (Hfr k n (Hsub b k Hkb Hks) Hn) as (n' & Hn' & Hp' & Hx').
      exists n'. split; [exact Hn' |]. rewrite <- Hnext. split.
      + rewrite Hp'. rewrite <- Hprev. reflexivity.
      + rewrite Hx'. destruct (decide (k = prev)) as [Hkp | Hkp].
        * rewrite decide_True; [reflexivity |]. rewrite Hprev in Hkp.
          destruct (list.last L1) as [p |]; simpl in Hkp; [congruence |].
          exfalso. eapply index_not_UNUSED; eauto.
        * rewrite decide_False; [reflexivity |]. intros Hl1. apply Hkp.
          rewrite Hprev, Hl1. reflexivity. }
  exists (fun b' => if decide (b' = b) then L1 ++ L2 else bl b').
  split; [destruct (decide _); [rewrite length_insert |]; exact Hlen |].
  split; [| split; [| split]].
  - intros b' Hb'. destruct (decide (b' = b)) as [-> | Hne].
    + exists (hd UNUSED (L1 ++ L2)). split; [| split; [exact Hunl |]].
      * destruct (decide (prev = UNUSED)) as [Hu | Hu].
        -- rewrite index_insert_eq by lia. apply HprevU in Hu. subst L1.
           simpl. rewrite Hnext. reflexivity.
        -- rewrite Hh. f_equal. pose proof (dlist_head _ _ _ _ _ _ _ Hd) as Hhd.
           rewrite Hhd. destruct L1 as [| p L1]; [| reflexivity].
           exfalso. apply Hu, HprevU. reflexivity.
      * apply list.NoDup_app in Hndb as (Hnd1 & Hdisj & Hnd2).
        apply list.NoDup_cons in Hnd2 as [_ Hnd2].
        apply list.NoDup_app. split; [exact Hnd1 |]. split; [| exact Hnd2].
        intros k Hk1 Hk2. apply (Hdisj k Hk1). right. exact Hk2.
    + destruct (Hlists b' Hb') as (h' & Hh' & Hd' & Hnd'').
      exists h'. split.
      { destruct (decide (prev = UNUSED)); [| exact Hh'].
        rewrite index_insert_ne by lia. exact Hh'. }
      split; [| exact Hnd''].
      eapply dlist_frame; [exact Hd' |].
      intros k n Hk Hn.
      assert (k <> handle s) as Hks.
      { intros ->. apply Hne. eapply (bins_disjoint bl F b' b _ Hnd Hmem Hk).
        apply Hmem. exists s. auto. }
      destruct (Hfr k n (Hsub b' k Hk Hks) Hn) as (n' & Hn' & Hp' & Hx').
      exists n'. split; [exact Hn' |].
      assert (forall x, x ∈ bl b -> k <> x) as Hother.
      { intros x Hx ->. apply Hne. eapply (bins_disjoint bl F b' b _ Hnd Hmem Hk Hx). }
      split.
      * rewrite Hp'. apply decide_False. rewrite Hnext.
        destruct L2 as [| j L2]; simpl.
        -- eapply index_not_UNUSED, Hn.
        -- apply Hother. rewrite Hsplit. apply elem_of_app. right. right. left.
      * rewrite Hx'. apply decide_False. rewrite Hprev.
        destruct (list.last L1) as [p |] eqn:Hl1; simpl.
        -- apply Hother. rewrite Hsplit. apply elem_of_app. left.
           apply last_Some_elem_of, Hl1.
        -- eapply index_not_UNUSED, Hn.
  - intros b' i. destruct (decide (b' = b)) as [-> | Hne].
    + split.
      * intros Hi. destruct (HL12 i Hi) as [Hib His].
        apply Hmem in Hib as (s0 & Hs0 & Hh0 & Hb0). exists s0.
        split; [| split; assumption].
        rewrite Hperm in Hs0. apply elem_of_cons in Hs0 as [-> | Hs0]; [congruence | exact Hs0].
      * intros (s0 & Hs0 & Hh0 & Hb0).
        assert (i ∈ bl b) as Hib.
        { apply Hmem. exists s0. split; [rewrite Hperm; right; exact Hs0 | auto]. }
        rewrite Hsplit in Hib. apply elem_of_app in Hib as [Hib | Hib];
          [apply elem_of_app; left; exact Hib |].
        apply elem_of_cons in Hib as [-> | Hib]; [| apply elem_of_app; right; exact Hib].
        exfalso. apply HsF'. apply elem_of_handles. eauto.
    + rewrite Hmem. split.
      * intros (s0 & Hs0 & Hh0 & Hb0). exists s0. split; [| auto].
        rewrite Hperm in Hs0. apply elem_of_cons in Hs0 as [-> | Hs0]; [| exact Hs0].
        exfalso. apply Hne. symmetry. exact Hb0.
      * intros (s0 & Hs0 & H). exists s0. split; [rewrite Hperm; right; exact Hs0 | exact H].
  - destruct (decide (prev = UNUSED /\ next = UNUSED)) as [[Hp Hx] | Hnot].
    + apply HprevU in Hp. apply HnextU in Hx. subst L1 L2.
      eapply bitmap_ok_ext; [| apply (bitmap_clear _ _ _ t l leaf Hbm Ht Hl Hleaf)].
      intros b'. simpl. rewrite <- Hbtl. destruct (decide (b' = b)) as [-> | ?]; tauto.
    + eapply bitmap_ok_ext; [| exact Hbm].
      intros b'. simpl. destruct (decide (b' = b)) as [-> | ?]; [| tauto].
      rewrite Hsplit. split; [intros _ | intros _ Hnil].
      * intros Hnil. apply app_eq_nil in Hnil as [-> ->].
        apply Hnot. split; [apply HprevU | apply HnextU]; reflexivity.
      * apply app_eq_nil in Hnil as [_ Hnil]. discriminate.
  - rewrite Hsum, (total_perm _ _ Hperm). simpl. lia.
Qed.

(** The bin links of the node of a free span name nodes of other free
    spans, or nothing. *)
Lemma bins_links bins ub top fst F s ni :
  bins_ok ns bins ub top fst F ->
  NoDup (handles F) ->
  (forall s0, s0 ∈ F -> 0 <= len s0 < 2 ^ 32) ->
  s ∈ F ->
  index ns (handle s) = Some ni ->
  (binListPrev ni <> UNUSED ->
     binListPrev ni <> handle s /\ binListPrev ni ∈ handles F /\
     exists np, index ns (binListPrev ni) = Some np) /\
  (binListNext ni <> UNUSED ->
     binListNext ni <> handle s /\ binListNext ni ∈ handles F /\
     exists nx, index ns (binListNext ni) = Some nx) /\
  (binListPrev ni <> UNUSED -> binListPrev ni <> binListNext ni).
Proof.
  intros (bl & Hlen & Hlists & Hmem & Hbm & Hsum) Hnd Hrange HsF Hni.
  pose proof (span_bin_range s (Hrange s HsF)) as Hb.
  destruct (Hlists _ Hb) as (h & Hh & Hd & Hndb).
  assert (handle s ∈ bl (uintToSmallFloatRoundDown (len s))) as Hin
    by (apply Hmem; exists s; auto).
  assert (forall k, k ∈ bl (uintToSmallFloatRoundDown (len s)) -> k ∈ handles F) as Hsub.
  { intros k Hk. apply elem_of_handles. apply Hmem in Hk as (s0 & ? & ? & _). eauto. }
  apply list_elem_of_split in Hin as (L1 & L2 & Hsplit).
  rewrite Hsplit in Hd, Hndb, Hsub.
  destruct (dlist_at _ _ _ _ _ _ _ _ _ Hd) as (ni0 & Hni0 & Hprev & Hnext).
  assert (ni0 = ni) as -> by congruence.
  apply list.NoDup_app in Hndb as (Hnd1 & Hdisj & Hnd2).
  apply list.NoDup_cons in Hnd2 as [Hn2 Hnd2].
  assert (binListPrev ni <> UNUSED -> binListPrev ni ∈ L1) as Hp1.
  { rewrite Hprev. destruct (list.last L1) as [p |] eqn:Hl1; simpl; [| congruence].
    intros _. apply last_Some_elem_of, Hl1. }
  assert (binListNext ni <> UNUSED -> binListNext ni ∈ L2) as Hx2.
  { rewrite Hnext. destruct L2 as [| j L2]; simpl; [congruence |]. intros _. left. }
  split; [| split].
  - intros Hu. specialize (Hp1 Hu). split; [| split].
    + intros Heq. apply (Hdisj _ Hp1). rewrite Heq. left.
    + apply Hsub, elem_of_app. left. exact Hp1.
    + eapply dlist_index; [exact Hd |]. apply elem_of_app. left. exact Hp1.
  - intros Hu. specialize (Hx2 Hu). split; [| split].
    + intros Heq. apply Hn2. rewrite <- Heq. exact Hx2.
    + apply Hsub, elem_of_app. right. right. exact Hx2.
    + eapply dlist_index; [exact Hd |]. apply elem_of_app. right. right. exact Hx2.
  - intros Hu Heq. specialize (Hp1 Hu).
    assert (binListNext ni <> UNUSED) as Hxu by congruence.
    specialize (Hx2 Hxu). apply (Hdisj _ Hp1). right. rewrite Heq. exact Hx2.
Qed.

End Bins.

(** ** Specifications of the member functions *)

Ltac st :=
  unfold set_m_size, set_m_freeStorage, set_m_usedBinsTop, set_m_usedBins,
    set_m_binIndices, set_m_nodes, set_m_freeNodes, set_m_freeOffset;
  cbn [m_size m_maxAllocs m_freeStorage m_usedBinsTop m_usedBins m_binIndices
       m_nodes m_freeNodes m_freeOffset].

Ltac wp_get := apply wp_bind, wp_get; st.
Ltac wp_put := apply wp_bind, wp_put; st.

Lemma same_but_bin_links_refl n : same_but_bin_links n n.
Proof. repeat split. Qed.

Lemma same_but_bin_links_trans n1 n2 n3 :
  same_but_bin_links n1 n2 -> same_but_bin_links n2 n3 -> same_but_bin_links n1 n3.
Proof. unfold same_but_bin_links. intuition congruence. Qed.

Lemma same_set_binListPrev v n : same_but_bin_links n (set_binListPrev v n).
Proof. repeat split. Qed.

Lemma same_set_binListNext v n : same_but_bin_links n (set_binListNext v n).
Proof. repeat split. Qed.

Lemma bins_head ns bins ub top fst F b :
  bins_ok ns bins ub top fst F -> 0 <= b < 256 ->
  exists h, index bins b = Some h.
Proof.
  intros (bl & _ & Hlists & _) Hb. destruct (Hlists b Hb) as (h & Hh & _). eauto.
Qed.

Lemma bins_leaf ns bins ub top fst F t :
  bins_ok ns bins ub top fst F -> 0 <= t < 32 ->
  exists leaf, index ub t = Some leaf.
Proof.
  intros (bl & _ & _ & _ & (_ & _ & Hbm) & _) Ht.
  destruct (Hbm t Ht) as (leaf & Hleaf & _). eauto.
Qed.

(** The head of a bin is the node of a free span of that bin, or [UNUSED]. *)
Lemma bins_head_span ns bins ub top fst F b h :
  Z.of_nat (length ns) <= UNUSED ->
  bins_ok ns bins ub top fst F -> 0 <= b < 256 ->
  index bins b = Some h -> h <> UNUSED ->
  exists s n, s ∈ F /\ handle s = h /\ uintToSmallFloatRoundDown (len s) = b /\
    index ns h = Some n /\ binListPrev n = UNUSED.
Proof.
  intros Hsmall (bl & _ & Hlists & Hmem & _) Hb Hh Hne.
  destruct (Hlists b Hb) as (h0 & Hh0 & Hd & _).
  assert (h0 = h) as -> by congruence.
  destruct (bl b) as [| i L] eqn:Hbl.
  - simpl in Hd. contradiction.
  - destruct Hd as [-> (n & Hn & Hp & _)].
    assert (i ∈ bl b) as Hi by (rewrite Hbl; left).
    apply Hmem in Hi as (s & Hs & Hhs & Hbs). exists s, n. auto.
Qed.

Lemma wp_insertNodeIntoBin size off Q sz mx fst top ub bins ns fs fo live F :
  Z.of_nat (length ns) = mx + 1 ->
  stack_ok mx fs fo live -> fo <> NO_SPACE ->
  bins_ok ns bins ub top fst F ->
  NoDup (handles F) -> (forall i, i ∈ handles F -> i ∈ live) ->
  0 <= size < 2 ^ 32 -> 0 <= fst + size < 2 ^ 32 ->
  (forall j ns' bins' ub' top',
     index fs fo = Some j ->
     (j ∉ live) -> 0 <= j <= mx ->
     Z.of_nat (length ns') = mx + 1 ->
     stack_ok mx fs (sub32 fo 1) (j :: live) ->
     bins_ok ns' bins' ub' top' (fst + size) (mkSpan j off size false :: F) ->
     (exists h, index ns' j = Some (Node_init off size h)) ->
     (forall k n, k <> j -> index ns k = Some n ->
        exists n', index ns' k = Some n' /\ same_but_bin_links n n') ->
     Q j (mkOffsetAllocator sz mx (fst + size) top' ub' bins' (Some ns') (Some fs)
            (sub32 fo 1))) ->
  wp (insertNodeIntoBin size off) Q
     (mkOffsetAllocator sz mx fst top ub bins (Some ns) (Some fs) fo).
Proof.
  intros Hlen Hstack Hfo Hbins HndF Hsub Hsize Hsum HQ.
  assert (Z.of_nat (length ns) <= UNUSED) as Hsmall.
  { destruct Hstack as (Hmx & _). unfold UNUSED. lia. }
  set (s := mkSpan 0 off size false).
  pose proof (span_bin_range s Hsize) as Hb. simpl in Hb.
  destruct (bin_decompose _ Hb) as (Hbtl & Ht & Hl).
  destruct (bins_head _ _ _ _ _ _ _ Hbins Hb) as [h Hh].
  destruct (bins_leaf _ _ _ _ _ _ _ Hbins Ht) as [leaf Hleaf].
  destruct (stack_pop _ _ _ _ Hstack Hfo) as (j & Hj & Hjr & Hjl & Hstack').
  assert (0 <= j < Z.of_nat (length ns)) as Hjn by lia.
  (* the old head, when there is one, is a free node other than [j] *)
  assert (h <> UNUSED -> h <> j /\ exists nh, index ns h = Some nh) as Hhead.
  { intros Hne.
    destruct (bins_head_span _ _ _ _ _ _ _ _ Hsmall Hbins Hb Hh Hne)
      as (s0 & n0 & Hs0 & Hh0 & _ & Hn0 & _).
    split; [| eauto]. intros ->. apply Hjl, Hsub, elem_of_handles. eauto. }
  pose (ns1 := <[Z.to_nat j := Node_init off size h]> ns).
  pose (ns' := if decide (h <> UNUSED)
               then match index ns1 h with
                    | Some nh => <[Z.to_nat h := set_binListPrev j nh]> ns1
                    | None => ns1
                    end
               else ns1).
  pose (ub' := if decide (h = UNUSED)
               then <[Z.to_nat (Z.shiftr (uintToSmallFloatRoundDown size) TOP_BINS_INDEX_SHIFT)
                      := wrap8 (Z.lor leaf (shl32 1 (Z.land (uintToSmallFloatRoundDown size) LEAF_BINS_INDEX_MASK)))]> ub
               else ub).
  pose (top' := if decide (h = UNUSED)
                then Z.lor top (shl32 1 (Z.shiftr (uintToSmallFloatRoundDown size) TOP_BINS_INDEX_SHIFT))
                else top).
  assert (length ub = 32%nat) as Hublen.
  { destruct Hbins as (bl & _ & _ & _ & (Hl32 & _) & _). exact Hl32. }
  assert (length bins = 256%nat) as Hbinslen.
  { destruct Hbins as (bl & Hl256 & _). exact Hl256. }
  unfold insertNodeIntoBin.
  apply wp_bind. eapply wp_loadBinIndices; [exact Hh |].
  apply wp_bind.
  apply (wp_mono _ (fun _ a' => a' =
     mkOffsetAllocator sz mx fst top' ub' bins (Some ns) (Some fs) fo)).
  { unfold ub', top'. destruct (decide (h = UNUSED)) as [Hu | Hu].
    - apply wp_bind. eapply wp_loadUsedBins; [exact Hleaf |].
      apply wp_bind. apply wp_storeUsedBins; st; [lia |].
      wp_get. apply wp_put. st. reflexivity.
    - apply wp_ret. reflexivity. }
  intros _ a' ->.
  apply wp_bind. eapply wp_loadBinIndices; [exact Hh |].
  wp_get.
  apply wp_bind. eapply wp_loadFreeNodes; [reflexivity | exact Hj |].
  wp_put.
  apply wp_bind. eapply wp_storeNode; [reflexivity | exact Hjn |]. st. fold ns1.
  apply wp_bind.
  apply (wp_mono _ (fun _ a' => a' =
     mkOffsetAllocator sz mx fst top' ub' bins (Some ns') (Some fs) (sub32 fo 1))).
  { unfold ns'. destruct (decide (h <> UNUSED)) as [Hu | Hu].
    - destruct (Hhead Hu) as [Hhj [nh Hnh]].
      assert (index ns1 h = Some nh) as Hnh1.
      { unfold ns1. rewrite index_insert_ne by lia. exact Hnh. }
      rewrite Hnh1.
      eapply wp_setField; [reflexivity | exact Hnh1 |]. st. reflexivity.
    - apply wp_ret. reflexivity. }
  intros _ a' ->.
  apply wp_bind. apply wp_storeBinIndices; st; [lia |].
  wp_get. wp_put. apply wp_ret.
  rewrite add32_small by exact Hsum.
  (* the nodes of the final state *)
  assert (index ns' j = Some (Node_init off size h)) as Hnj.
  { unfold ns'. destruct (decide (h <> UNUSED)) as [Hu | Hu].
    - destruct (Hhead Hu) as [Hhj [nh Hnh]].
      assert (index ns1 h = Some nh) as ->
        by (unfold ns1; rewrite index_insert_ne by lia; exact Hnh).
      rewrite index_insert_ne by (apply index_range in Hnh; lia).
      apply index_insert_eq, Hjn.
    - apply index_insert_eq, Hjn. }
  assert (forall k n, k <> j -> index ns k = Some n ->
            index ns' k = Some (if decide (k = h) then set_binListPrev j n else n))
    as Hother.
  { intros k n Hkj Hn. unfold ns'. destruct (decide (h <> UNUSED)) as [Hu | Hu].
    - destruct (Hhead Hu) as [Hhj [nh Hnh]].
      assert (index ns1 h = Some nh) as ->
        by (unfold ns1; rewrite index_insert_ne by lia; exact Hnh).
      rewrite index_insert by (unfold ns1; rewrite length_insert; apply index_range in Hnh; lia).
      destruct (decide (k = h)) as [-> | Hkh]; [congruence |].
      unfold ns1. rewrite index_insert_ne by lia. exact Hn.
    - rewrite decide_False.
      + unfold ns1. rewrite index_insert_ne by lia. exact Hn.
      + intros ->. apply Hu. eapply index_not_UNUSED; eauto. }
  apply HQ.
  - exact Hj.
  - exact Hjl.
  - exact Hjr.
  - unfold ns'. destruct (decide _); [destruct (index ns1 h) |];
      unfold ns1; rewrite ?length_insert; exact Hlen.
  - exact Hstack'.
  - apply (bins_insert ns Hsmall ns' bins ub top fst F (mkSpan j off size false) h leaf
             Hbins HndF Hsize); simpl.
    + intros Hin. apply Hjl, Hsub, Hin.
    + exact Hh.
    + exact Hleaf.
    + eexists. split; [exact Hnj |]. split; reflexivity.
    + intros k n Hk Hn.
      assert (k <> j) as Hkj by (intros ->; apply Hjl, Hsub, Hk).
      rewrite (Hother k n Hkj Hn). eexists. split; [reflexivity |].
      destruct (decide (k = h)); split; reflexivity.
  - eauto.
  - intros k n Hkj Hn. rewrite (Hother k n Hkj Hn). eexists. split; [reflexivity |].
    destruct (decide (k = h)); [apply same_set_binListPrev | apply same_but_bin_links_refl].
Qed.

Lemma unlinkedNodes_length ns prev next :
  length (unlinkedNodes ns prev next) = length ns.
Proof.
  unfold unlinkedNodes.
  repeat (destruct (decide _) || destruct (index _ _) || rewrite length_insert);
    reflexivity.
Qed.

Lemma unlinkedNodes_index ns prev next k n :
  Z.of_nat (length ns) <= UNUSED ->
  (prev <> UNUSED -> prev <> next) ->
  index ns k = Some n ->
  index (unlinkedNodes ns prev next) k =
  Some (let n1 := if decide (k = prev) then set_binListNext next n else n in
        if decide (k = next) then set_binListPrev prev n1 else n1).
Proof.
  intros Hsmall Hne Hn. pose proof (index_range _ _ _ Hn) as Hk.
  unfold unlinkedNodes.
  set (ns1 := if decide (prev <> UNUSED) then _ else ns).
  assert (length ns1 = length ns) as Hlen1.
  { unfold ns1. destruct (decide _); [destruct (index ns prev) |];
      rewrite ?length_insert; reflexivity. }
  assert (index ns1 k = Some (if decide (k = prev) then set_binListNext next n else n))
    as Hn1.
  { unfold ns1. destruct (decide (prev <> UNUSED)) as [Hp | Hp].
    - destruct (index ns prev) as [np |] eqn:Hnp.
      + rewrite index_insert by (apply index_range in Hnp; lia).
        destruct (decide (k = prev)) as [-> | ?]; [congruence | exact Hn].
      + rewrite decide_False; [exact Hn | congruence].
    - rewrite decide_False; [exact Hn |]. unfold UNUSED in *. lia. }
  cbv zeta. destruct (decide (next <> UNUSED)) as [Hx | Hx].
  - destruct (index ns1 next) as [nx |] eqn:Hnx.
    + rewrite index_insert by (apply index_range in Hnx; lia).
      destruct (decide (k = next)) as [-> | ?]; [congruence | exact Hn1].
    + rewrite (decide_False (P := k = next)); [exact Hn1 | congruence].
  - rewrite (decide_False (P := k = next)); [exact Hn1 |]. unfold UNUSED in *. lia.
Qed.

Lemma wp_removeNodeFromBin i Q sz mx fst top ub bins ns fs fo live live' F F' s ni :
  Z.of_nat (length ns) = mx + 1 ->
  stack_ok mx fs fo live -> live ≡ₚ i :: live' ->
  bins_ok ns bins ub top fst F ->
  NoDup (handles F) ->
  (forall s0, s0 ∈ F -> 0 <= len s0 < 2 ^ 32) ->
  F ≡ₚ s :: F' -> handle s = i ->
  index ns i = Some ni -> dataSize ni = len s ->
  0 <= fst - len s < 2 ^ 32 ->
  (forall ns' fs' bins' ub' top',
     Z.of_nat (length ns') = mx + 1 ->
     stack_ok mx fs' (add32 fo 1) live' ->
     bins_ok ns' bins' ub' top' (fst - len s) F' ->
     (forall k n, index ns k = Some n ->
        exists n', index ns' k = Some n' /\ same_but_bin_links n n') ->
     Q tt (mkOffsetAllocator sz mx (fst - len s) top' ub' bins' (Some ns')
             (Some fs') (add32 fo 1))) ->
  wp (removeNodeFromBin i) Q
     (mkOffsetAllocator sz mx fst top ub bins (Some ns) (Some fs) fo).
Proof.
  intros Hlen Hstack Hlive Hbins HndF Hrange HpermF Hhs Hni Hsize Hsum HQ.
  assert (Z.of_nat (length ns) <= UNUSED) as Hsmall.
  { destruct Hstack as (Hmx & _). unfold UNUSED. lia. }
  assert (s ∈ F) as HsF by (rewrite HpermF; left).
  pose proof (span_bin_range s (Hrange s HsF)) as Hb.
  destruct (bin_decompose _ Hb) as (Hbtl & Ht & Hl).
  destruct (bins_leaf _ _ _ _ _ _ _ Hbins Ht) as [leaf Hleaf].
  rewrite <- Hhs in Hni.
  destruct (bins_links ns bins ub top fst F s ni Hbins HndF Hrange HsF Hni)
    as (Hprev & Hnext & Hpn).
  rewrite Hhs in Hni, Hprev, Hnext.
  set (prev := binListPrev ni) in *. set (next := binListNext ni) in *.
  set (b := uintToSmallFloatRoundDown (len s)) in *.
  set (t := Z.shiftr b TOP_BINS_INDEX_SHIFT) in *.
  set (l := Z.land b LEAF_BINS_INDEX_MASK) in *.
  pose (leaf' := wrap8 (Z.land leaf (Z.lnot (shl32 1 l)))).
  pose (ns' := unlinkedNodes ns prev next).
  pose (bins' := if decide (prev = UNUSED) then <[Z.to_nat b := next]> bins else bins).
  pose (ub' := if decide (prev = UNUSED /\ next = UNUSED)
               then <[Z.to_nat t := leaf']> ub else ub).
  pose (top' := if decide (prev = UNUSED /\ next = UNUSED)
                then (if decide (leaf' = 0)
                      then Z.land top (not32 (shl32 1 t)) else top)
                else top).
  assert (length ub = 32%nat) as Hublen.
  { destruct Hbins as (bl & _ & _ & _ & (Hl32 & _) & _). exact Hl32. }
  assert (length bins = 256%nat) as Hbinslen.
  { destruct Hbins as (bl & Hl256 & _). exact Hl256. }
  assert (forall k n, index ns k = Some n ->
            index ns' k =
            Some (let n1 := if decide (k = prev) then set_binListNext next n else n in
                  if decide (k = next) then set_binListPrev prev n1 else n1)) as Hns'.
  { intros k n Hn. apply unlinkedNodes_index; assumption. }
  assert (index ns' i = Some ni) as Hni'.
  { rewrite (Hns' i ni Hni). cbv zeta.
    rewrite (decide_False (P := i = prev)).
    2:{ intros Heq. assert (prev <> UNUSED) as Hu by (rewrite <- Heq; eapply index_not_UNUSED; eauto).
        destruct (Hprev Hu) as [Hne _]. congruence. }
    rewrite (decide_False (P := i = next)); [reflexivity |].
    intros Heq. assert (next <> UNUSED) as Hu by (rewrite <- Heq; eapply index_not_UNUSED; eauto).
    destruct (Hnext Hu) as [Hne _]. congruence. }
  unfold removeNodeFromBin.
  apply wp_bind. eapply wp_field; [reflexivity | exact Hni |]. fold prev.
  apply wp_bind.
  apply (wp_mono _ (fun _ a' => a' =
     mkOffsetAllocator sz mx fst top' ub' bins' (Some ns') (Some fs) fo)).
  { destruct (decide (prev <> UNUSED)) as [Hp | Hp].
    - (* the node has a predecessor in its bin *)
      destruct (Hprev Hp) as (Hpi & _ & np & Hnp).
      assert (bins' = bins) as -> by (unfold bins'; rewrite decide_False; tauto).
      assert (ub' = ub) as -> by (unfold ub'; rewrite decide_False; tauto).
      assert (top' = top) as -> by (unfold top'; rewrite decide_False; tauto).
      apply wp_bind. eapply wp_field; [reflexivity | exact Hni |]. fold next.
      apply wp_bind. eapply wp_setField; [reflexivity | exact Hnp |]. st.
      set (ns1 := <[Z.to_nat prev := set_binListNext next np]> ns).
      assert (index ns1 i = Some ni) as Hni1.
      { unfold ns1. rewrite index_insert_ne; [exact Hni | apply index_range in Hnp; lia | congruence]. }
      apply wp_bind. eapply wp_field; [reflexivity | exact Hni1 |]. fold next.
      assert (ns' = if decide (next <> UNUSED)
                    then match index ns1 next with
                         | Some nx => <[Z.to_nat next := set_binListPrev prev nx]> ns1
                         | None => ns1
                         end
                    else ns1) as ->.
      { unfold ns', unlinkedNodes. rewrite (decide_True (P := prev <> UNUSED)) by exact Hp.
        rewrite Hnp. reflexivity. }
      destruct (decide (next <> UNUSED)) as [Hx | Hx].
      + destruct (Hnext Hx) as (Hxi & _ & nx & Hnx).
        assert (index ns1 next = Some nx) as Hnx1.
        { unfold ns1. rewrite index_insert_ne; [exact Hnx | apply index_range in Hnp; lia |].
          specialize (Hpn Hp). congruence. }
        rewrite Hnx1.
        apply wp_bind. eapply wp_field; [reflexivity | exact Hni1 |]. fold prev.
        eapply wp_setField; [reflexivity | exact Hnx1 |]. st. reflexivity.
      + apply wp_ret. reflexivity.
    - (* the node is the head of its bin *)
      assert (prev = UNUSED) as Hpu by (destruct (decide (prev = UNUSED)); tauto).
      assert (bins' = <[Z.to_nat b := next]> bins) as ->
        by (unfold bins'; rewrite decide_True; tauto).
      assert (ns' = if decide (next <> UNUSED)
                    then match index ns next with
                         | Some nx => <[Z.to_nat next := set_binListPrev prev nx]> ns
                         | None => ns
                         end
                    else ns) as ->.
      { unfold ns', unlinkedNodes. rewrite (decide_False (P := prev <> UNUSED)) by exact Hp.
        reflexivity. }
      apply wp_bind. eapply wp_field; [reflexivity | exact Hni |]. rewrite Hsize. fold b t l.
      apply wp_bind. eapply wp_field; [reflexivity | exact Hni |]. fold next.
      apply wp_bind. apply wp_storeBinIndices; st; [lia |].
      apply wp_bind. eapply wp_field; [reflexivity | exact Hni |]. fold next.
      apply wp_bind.
      apply (wp_mono _ (fun _ a' => a' =
        mkOffsetAllocator sz mx fst top ub (<[Z.to_nat b := next]> bins)
          (Some (if decide (next <> UNUSED)
                 then match index ns next with
                      | Some nx => <[Z.to_nat next := set_binListPrev prev nx]> ns
                      | None => ns
                      end
                 else ns)) (Some fs) fo)).
      { destruct (decide (next <> UNUSED)) as [Hx | Hx].
        - destruct (Hnext Hx) as (Hxi & _ & nx & Hnx). rewrite Hnx.
          eapply wp_setField; [reflexivity | exact Hnx |]. st. rewrite Hpu. reflexivity.
        - apply wp_ret. reflexivity. }
      intros _ a' ->.
      apply wp_bind. eapply wp_loadBinIndices; [st; apply index_insert_eq; lia |].
      unfold ub', top'.
      destruct (decide (next = UNUSED)) as [Hx | Hx].
      + rewrite !(decide_True (P := prev = UNUSED /\ next = UNUSED)) by tauto.
        apply wp_bind. eapply wp_loadUsedBins; [exact Hleaf |].
        apply wp_bind. apply wp_storeUsedBins; st; [lia |].
        apply wp_bind. eapply wp_loadUsedBins; [st; apply index_insert_eq; lia |].
        fold leaf'. destruct (decide (leaf' = 0)).
        * wp_get. apply wp_put. st. reflexivity.
        * apply wp_ret. reflexivity.
      + rewrite !(decide_False (P := prev = UNUSED /\ next = UNUSED)) by tauto.
        apply wp_ret. reflexivity. }
  intros _ a' ->.
  destruct (stack_push _ _ _ _ _ _ Hstack Hlive) as [Hfo' Hstack'].
  wp_get. wp_put.
  apply wp_bind. eapply wp_storeFreeNodes; [reflexivity | exact Hfo' |]. st.
  apply wp_bind. eapply wp_field; [reflexivity | exact Hni' |]. rewrite Hsize.
  wp_get. apply wp_put. st.
  rewrite sub32_small by exact Hsum.
  apply HQ.
  - unfold ns'. rewrite unlinkedNodes_length. exact Hlen.
  - exact Hstack'.
  - apply (bins_remove ns Hsmall ns' bins ub top fst F s F' ni leaf
             Hbins HndF Hrange HpermF); [rewrite Hhs; exact Hni | exact Hleaf |].
    fold prev next. intros k n Hk Hn. rewrite (Hns' k n Hn). eexists. split; [reflexivity |].
    cbv zeta. destruct (decide (k = prev)), (decide (k = next)); split; reflexivity.
  - intros k n Hn. rewrite (Hns' k n Hn). eexists. split; [reflexivity |].
    cbv zeta. destruct (decide (k = prev)), (decide (k = next)); repeat split.
Qed.

(** ** [allocate] *)

Lemma tiles_elem from v to s :
  tiles from v to -> s ∈ v ->
  from <= start s /\ 0 <= len s /\ start s + len s <= to.
Proof.
  revert from. induction v as [| s0 v IH]; intros from Ht Hs.
  - apply elem_of_nil in Hs. contradiction.
  - destruct Ht as (Hst & Hl & Ht).
    pose proof (tiles_total _ _ _ Ht) as Htot. pose proof (tiles_nonneg _ _ _ Ht) as Hnn.
    apply elem_of_cons in Hs as [-> | Hs].
    + lia.
    + specialize (IH _ Ht Hs). lia.
Qed.

Lemma matches_frame ns ns' s :
  matches ns s ->
  (forall n, index ns (handle s) = Some n ->
     exists n', index ns' (handle s) = Some n' /\
       dataOffset n' = dataOffset n /\ dataSize n' = dataSize n /\ used n' = used n) ->
  matches ns' s.
Proof.
  intros (n & Hn & Ho & Hs & Hu) Hfr.
  destruct (Hfr n Hn) as (n' & Hn' & Ho' & Hs' & Hu').
  exists n'. split; [exact Hn' |]. split; [congruence |]. split; congruence.
Qed.

Lemma Forall_matches_elem ns v s :
  Forall (matches ns) v -> s ∈ v -> matches ns s.
Proof. intros H Hs. rewrite list.Forall_forall in H. apply H, Hs. Qed.

Lemma freeSpans_split v1 s v2 :
  inUse s = false ->
  freeSpans (v1 ++ s :: v2) ≡ₚ s :: freeSpans (v1 ++ v2).
Proof.
  intros Hs. rewrite !freeSpans_app. unfold freeSpans at 2. simpl.
  unfold isFree at 1. rewrite Hs. simpl. fold (freeSpans v2).
  symmetry. apply Permutation_middle.
Qed.

Lemma freeSpans_used v1 s v2 :
  inUse s = true -> freeSpans (v1 ++ s :: v2) = freeSpans (v1 ++ v2).
Proof.
  intros Hs. rewrite !freeSpans_app. unfold freeSpans at 2. simpl.
  unfold isFree at 1. rewrite Hs. reflexivity.
Qed.

Lemma handles_freeSpans_NoDup v : NoDup (handles v) -> NoDup (handles (freeSpans v)).
Proof.
  unfold handles, freeSpans. induction v as [| s v IH]; intros Hnd; [constructor |].
  simpl in *. apply list.NoDup_cons in Hnd as [Hs Hnd].
  destruct (isFree s); [| apply IH, Hnd].
  simpl. apply list.NoDup_cons. split; [| apply IH, Hnd].
  intros Hin. apply Hs. apply (handles_freeSpans_sub v), Hin.
Qed.

Lemma tiles_len_nonneg from v to s : tiles from v to -> s ∈ v -> 0 <= len s.
Proof. intros Ht Hs. apply (tiles_elem _ _ _ _ Ht Hs). Qed.

Lemma total_nonneg v : (forall s, s ∈ v -> 0 <= len s) -> 0 <= total v.
Proof.
  induction v as [| s v IH]; intros H; simpl; [lia |].
  pose proof (H s ltac:(left)). specialize (IH ltac:(intros s0 Hs0; apply H; right; exact Hs0)).
  lia.
Qed.

Lemma total_freeSpans_bounds from v to :
  tiles from v to -> 0 <= total (freeSpans v) <= to - from.
Proof.
  intros Ht. pose proof (total_free_used v) as Hfu.
  rewrite (tiles_total _ _ _ Ht) in Hfu.
  assert (0 <= total (freeSpans v)).
  { apply total_nonneg. intros s Hs. apply elem_of_freeSpans in Hs as [Hs _].
    eapply tiles_len_nonneg; eauto. }
  assert (0 <= total (usedSpans v)); [| lia].
  apply total_nonneg. intros s Hs. unfold usedSpans in Hs.
  apply list_elem_of_In, List.filter_In in Hs as [Hs _].
  apply list_elem_of_In in Hs. eapply tiles_len_nonneg; eauto.
Qed.

Lemma bins_ok_total ns bins ub top fst F :
  bins_ok ns bins ub top fst F -> fst = total F.
Proof. intros (bl & _ & _ & _ & _ & H). exact H. Qed.

Lemma bins_ok_lengths ns bins ub top fst F :
  bins_ok ns bins ub top fst F -> length bins = 256%nat /\ length ub = 32%nat.
Proof. intros (bl & H256 & _ & _ & (H32 & _) & _). split; assumption. Qed.

Lemma wp_allocateFromBin size t l Q sz mx fst top ub bins ns fs fo v :
  Inv (mkOffsetAllocator sz mx fst top ub bins (Some ns) (Some fs) fo) v ->
  fo <> NO_SPACE -> 0 <= size < 2 ^ 32 -> 0 <= t < 32 -> 0 <= l < 8 ->
  (exists h, index bins (8 * t + l) = Some h /\ h <> UNUSED) ->
  uintToSmallFloatRoundUp size <= 8 * t + l ->
  (forall a' v1 s v2 rest,
     v = v1 ++ s :: v2 -> inUse s = false -> size <= len s ->
     (len s = size /\ rest = [] \/
      size < len s /\
      exists j, rest = [mkSpan j (start s + size) (len s - size) false]) ->
     Inv a' (v1 ++ mkSpan (handle s) (start s) size true :: rest ++ v2) ->
     Q (mkAlloc (start s) (handle s)) a') ->
  wp (allocateFromBin size t l) Q
     (mkOffsetAllocator sz mx fst top ub bins (Some ns) (Some fs) fo).
Proof.
  intros (ns0 & fs0 & Hns0 & Hfs0 & Hsz & Hlen & Hstack & Hmatch & Hchain & Htiles & Hbins)
    Hfo Hsize Ht Hl (i & Hi & HiU) Hfit HQ.
  simpl in Hns0, Hfs0, Hsz, Hlen, Hstack, Hbins, Htiles.
  assert (ns0 = ns) as -> by congruence. assert (fs0 = fs) as -> by congruence.
  clear Hns0 Hfs0.
  assert (Z.of_nat (length ns) <= UNUSED) as Hsmall.
  { destruct Hstack as (Hmx & _). unfold UNUSED. lia. }
  assert (0 <= mx < 2 ^ 32 - 1) as Hmx by (destruct Hstack as (? & _); assumption).
  pose proof (stack_live_NoDup _ _ _ _ Hstack) as Hnd.
  set (b := 8 * t + l) in *.
  assert (0 <= b < 256) as Hb by (unfold b; lia).
  destruct (bins_head_span _ _ _ _ _ _ _ _ Hsmall Hbins Hb Hi HiU)
    as (s & ni & HsF & Hhs & Hbs & Hni & Hprev).
  apply elem_of_freeSpans in HsF as [Hsv Hsfree].
  apply list_elem_of_split in Hsv as (v1 & v2 & Hv). subst v.
  assert (s ∈ v1 ++ s :: v2) as Hsv by (apply elem_of_app; right; left).
  destruct (Forall_matches_elem ns _ s Hmatch Hsv) as (ni' & Hni' & Hoff & Hsize_s & Hused).
  rewrite Hhs in Hni'. assert (ni' = ni) as -> by congruence. clear Hni'.
  destruct (tiles_elem _ _ _ s Htiles Hsv) as (Hstart0 & Hlen0 & Hend).
  assert (size <= len s) as Hfits.
  { apply RoundUp_le_RoundDown_fits; [lia | lia |]. rewrite Hbs. exact Hfit. }
  pose proof (freeSpans_split v1 s v2 Hsfree) as HpermF.
  pose proof (handles_freeSpans_NoDup _ Hnd) as HndF.
  assert (forall s0, s0 ∈ freeSpans (v1 ++ s :: v2) -> 0 <= len s0 < 2 ^ 32) as Hrange.
  { intros s0 Hs0. apply elem_of_freeSpans in Hs0 as [Hs0 _].
    pose proof (tiles_elem _ _ _ s0 Htiles Hs0). lia. }
  pose proof (bins_ok_total _ _ _ _ _ _ Hbins) as Hfst.
  pose proof (total_freeSpans_bounds _ _ _ Htiles) as Hfst_le. rewrite <- Hfst in Hfst_le.
  assert (fst - len s = total (freeSpans (v1 ++ v2))) as Hfst'.
  { rewrite Hfst, (total_perm _ _ HpermF). simpl. lia. }
  assert (tiles 0 (v1 ++ v2) (sz - len s) \/ True) as _ by (right; exact I).
  assert (0 <= total (freeSpans (v1 ++ v2))) as Hfst'nn.
  { apply total_nonneg. intros s0 Hs0. apply elem_of_freeSpans in Hs0 as [Hs0 _].
    apply (tiles_len_nonneg _ _ _ s0 Htiles).
    apply elem_of_app in Hs0 as [? | ?]; apply elem_of_app; [left | right; right]; assumption. }
  destruct (bins_ok_lengths _ _ _ _ _ _ Hbins) as [Hbinslen Hublen].
  destruct (bin_decompose b Hb) as (Hbtl & Htb & Hlb).
  assert (Z.shiftr b TOP_BINS_INDEX_SHIFT = t /\ Z.land b LEAF_BINS_INDEX_MASK = l) as [Htop Hleafi].
  { apply (bin_split _ _ t l); [lia | lia |]. unfold b in *. lia. }
  destruct (bins_leaf _ _ _ _ _ _ _ Hbins Ht) as [leaf Hleaf].
  (* the node taken from the bin, once marked *)
  set (nia := set_used true (set_dataSize size ni)).
  set (ns_a := <[Z.to_nat i := nia]> (<[Z.to_nat i := set_dataSize size ni]> ns)).
  assert (0 <= i < Z.of_nat (length ns)) as Hirange by (eapply index_range; eauto).
  assert (index ns_a i = Some nia) as Hnia.
  { unfold ns_a. apply index_insert_eq. rewrite length_insert. lia. }
  assert (forall k, k <> i -> index ns_a k = index ns k) as Hns_a.
  { intros k Hk. unfold ns_a. rewrite !index_insert_ne by lia. reflexivity. }
  assert (Z.of_nat (length ns_a) = mx + 1) as Hlen_a.
  { unfold ns_a. rewrite !length_insert. exact Hlen. }
  assert (bins_ok ns_a bins ub top fst (freeSpans (v1 ++ s :: v2))) as Hbins_a.
  { eapply bins_frame; [exact Hbins |]. intros k n _ Hn.
    destruct (decide (k = i)) as [-> | Hk].
    - exists nia. split; [exact Hnia |]. assert (n = ni) as -> by congruence.
      split; reflexivity.
    - exists n. rewrite Hns_a by exact Hk. auto. }
  set (next := binListNext ni).
  assert (Z.of_nat (length ns_a) <= UNUSED) as Hsmall_a by lia.
  assert (s ∈ freeSpans (v1 ++ s :: v2)) as HsF by (apply elem_of_freeSpans; auto).
  rewrite <- Hhs in Hnia.
  destruct (bins_links ns_a bins ub top fst _ s nia Hbins_a HndF Hrange HsF Hnia)
    as (_ & Hnext & _).
  rewrite Hhs in Hnia, Hnext. change (binListNext nia) with next in Hnext.
  set (ns_b := unlinkedNodes ns_a UNUSED next).
  assert (forall k n, index ns_a k = Some n ->
            index ns_b k =
            Some (let n1 := if decide (k = UNUSED) then set_binListNext next n else n in
                  if decide (k = next) then set_binListPrev UNUSED n1 else n1)) as Hidx_b.
  { intros k n Hn. unfold ns_b. apply unlinkedNodes_index; [exact Hsmall_a | congruence | exact Hn]. }
  set (leaf' := wrap8 (Z.land leaf (Z.lnot (shl32 1 l)))).
  pose (bins' := <[Z.to_nat b := next]> bins).
  pose (ub' := if decide (next = UNUSED) then <[Z.to_nat t := leaf']> ub else ub).
  pose (top' := if decide (next = UNUSED)
                then (if decide (leaf' = 0)
                      then Z.land top (not32 (shl32 1 t)) else top)
                else top).
  assert (bins_ok ns_b bins' ub' top' (fst - len s) (freeSpans (v1 ++ v2))) as Hbins_b.
  { pose proof (bins_remove ns_a Hsmall_a ns_b bins ub top fst _ s _ nia leaf
                  Hbins_a HndF Hrange HpermF) as Hrm.
    cbv zeta in Hrm. rewrite Hhs, Hbs, Htop, Hleafi in Hrm.
    specialize (Hrm Hnia Hleaf).
    change (binListPrev nia) with (binListPrev ni) in Hrm.
    change (binListNext nia) with next in Hrm. rewrite Hprev in Hrm.
    rewrite (decide_True (P := UNUSED = UNUSED)) in Hrm by reflexivity.
    unfold bins', ub', top'. fold leaf' in Hrm.
    destruct (decide (next = UNUSED)) as [Hx | Hx].
    - rewrite !(decide_True (P := UNUSED = UNUSED /\ next = UNUSED)) in Hrm by tauto.
      apply Hrm. intros k n Hk Hn.
      rewrite (Hidx_b k n Hn).
      eexists. split; [reflexivity |]. cbv zeta.
      destruct (decide (k = UNUSED)), (decide (k = next)); split; reflexivity.
    - rewrite !(decide_False (P := UNUSED = UNUSED /\ next = UNUSED)) in Hrm by tauto.
      apply Hrm. intros k n Hk Hn.
      rewrite (Hidx_b k n Hn).
      eexists. split; [reflexivity |]. cbv zeta.
      destruct (decide (k = UNUSED)), (decide (k = next)); split; reflexivity. }
  assert (forall k n, index ns_a k = Some n ->
            exists n', index ns_b k = Some n' /\ same_but_bin_links n n') as Hns_b.
  { intros k n Hn.
    rewrite (Hidx_b k n Hn).
    eexists. split; [reflexivity |]. cbv zeta.
    destruct (decide (k = UNUSED)), (decide (k = next)); repeat split. }
  assert (index ns_b i = Some nia) as Hnib.
  { rewrite (Hidx_b i nia Hnia).
    cbv zeta. rewrite (decide_False (P := i = UNUSED)) by exact HiU.
    rewrite (decide_False (P := i = next)); [reflexivity |].
    intros Heq. destruct (Hnext ltac:(congruence)) as [Hne _]. congruence. }
  assert (Z.of_nat (length ns_b) = mx + 1) as Hlen_b.
  { unfold ns_b. rewrite unlinkedNodes_length. exact Hlen_a. }
  unfold allocateFromBin. rewrite (bin_compose t l Ht Hl). fold b.
  apply wp_bind. eapply wp_loadBinIndices; [exact Hi |].
  apply wp_bind. eapply wp_field; [reflexivity | exact Hni |]. rewrite Hsize_s.
  apply wp_bind. eapply wp_setField; [reflexivity | exact Hni |]. st.
  apply wp_bind. eapply wp_setField;
    [reflexivity | apply index_insert_eq; lia |]. st.
  fold nia. fold ns_a.
  apply wp_bind. eapply wp_field; [reflexivity | exact Hnia |].
  change (binListNext nia) with next.
  apply wp_bind. apply wp_storeBinIndices; st; [lia |]. fold bins'.
  apply wp_bind. eapply wp_field; [reflexivity | exact Hnia |].
  change (binListNext nia) with next.
  apply wp_bind.
  apply (wp_mono _ (fun _ a' => a' =
     mkOffsetAllocator sz mx fst top ub bins' (Some ns_b) (Some fs) fo)).
  { unfold ns_b, unlinkedNodes.
    rewrite (decide_False (P := UNUSED <> UNUSED)) by congruence.
    destruct (decide (next <> UNUSED)) as [Hx | Hx].
    - destruct (Hnext Hx) as (Hxi & _ & nx & Hnx). rewrite Hnx.
      eapply wp_setField; [reflexivity | exact Hnx |]. st. reflexivity.
    - apply wp_ret. reflexivity. }
  intros _ a' ->.
  wp_get. wp_put. rewrite (sub32_small fst (len s)) by lia.
  apply wp_bind. eapply wp_loadBinIndices; [st; unfold bins'; apply index_insert_eq; lia |].
  apply wp_bind.
  apply (wp_mono _ (fun _ a' => a' =
     mkOffsetAllocator sz mx (fst - len s) top' ub' bins' (Some ns_b) (Some fs) fo)).
  { unfold ub', top'. destruct (decide (next = UNUSED)) as [Hx | Hx].
    - apply wp_bind. eapply wp_loadUsedBins; [exact Hleaf |].
      apply wp_bind. apply wp_storeUsedBins; st; [lia |].
      apply wp_bind. eapply wp_loadUsedBins; [st; apply index_insert_eq; lia |].
      fold leaf'. destruct (decide (leaf' = 0)).
      + wp_get. apply wp_put. st. reflexivity.
      + apply wp_ret. reflexivity.
    - apply wp_ret. reflexivity. }
  intros _ a' ->.
  rewrite (sub32_small (len s) size) by lia.
  (* how the nodes of the other spans have fared so far *)
  assert (forall k n, k <> i -> index ns k = Some n ->
            exists n', index ns_b k = Some n' /\ same_but_bin_links n n') as Hkeep_b.
  { intros k n Hk Hn. apply Hns_b. rewrite Hns_a by exact Hk. exact Hn. }
  assert (forall s0, s0 ∈ v1 ++ v2 -> handle s0 <> i) as Hothers.
  { intros s0 Hs0 Heq. unfold handles in Hnd. rewrite fmap_app, fmap_cons in Hnd.
    apply list.NoDup_app in Hnd as (_ & Hdisj & Hnd2).
    apply list.NoDup_cons in Hnd2 as [Hn2 _].
    apply elem_of_app in Hs0 as [Hs0 | Hs0].
    - apply (Hdisj i); [| rewrite Hhs; left].
      rewrite <- Heq. apply list_elem_of_fmap. eauto.
    - apply Hn2. rewrite Hhs, <- Heq. apply list_elem_of_fmap. eauto. }
  assert (forall s0, s0 ∈ v1 ++ v2 -> matches ns s0) as Hmatch_o.
  { intros s0 Hs0. apply (Forall_matches_elem _ _ _ Hmatch).
    apply elem_of_app in Hs0 as [? | ?]; apply elem_of_app; [left | right; right]; assumption. }
  destruct (dlist_at _ _ _ _ _ (handles v1) i (handles v2) _
              ltac:(rewrite handles_app in Hchain; simpl in Hchain; rewrite Hhs in Hchain;
                    exact Hchain)) as (ni0 & Hni0 & HnP & HnN).
  assert (ni0 = ni) as -> by congruence. clear Hni0.
  destruct (decide (len s - size > 0)) as [Hrem | Hrem].
  - (* the node is split *)
    apply wp_bind. apply wp_bind. eapply wp_field; [reflexivity | exact Hnib |].
    change (dataOffset nia) with (dataOffset ni). rewrite Hoff.
    rewrite add32_small by lia.
    assert (forall k, k ∈ handles (freeSpans (v1 ++ v2)) -> k ∈ handles (v1 ++ s :: v2))
      as Hsub.
    { intros k Hk. apply handles_freeSpans_sub in Hk. rewrite handles_app in *.
      apply elem_of_app in Hk as [? | ?]; apply elem_of_app; [left | right; right]; assumption. }
    assert (NoDup (handles (freeSpans (v1 ++ v2)))) as HndF'.
    { assert (NoDup (handles (s :: freeSpans (v1 ++ v2)))) as H0.
      { unfold handles in *. rewrite <- HpermF. exact HndF. }
      simpl in H0. apply list.NoDup_cons in H0. tauto. }
    apply wp_bind.
    apply (wp_insertNodeIntoBin _ _ _ _ _ _ _ _ _ _ _ _ (handles (v1 ++ s :: v2))
             (freeSpans (v1 ++ v2)) Hlen_b Hstack Hfo Hbins_b HndF' Hsub);
      [lia | lia |].
    intros j ns_c bins_c ub_c top_c _ Hj Hjr Hlen_c Hstack_c Hbins_c [h Hnj] Hns_c.
    replace (fst - len s + (len s - size)) with (fst - size) in * by lia.
    assert (i ∈ handles (v1 ++ s :: v2)) as Hilive.
    { rewrite handles_app. apply elem_of_app. right. rewrite <- Hhs. left. }
    assert (i <> j) as Hij by (intros ->; contradiction).
    destruct (Hns_c i nia Hij Hnib) as (ni_c & Hni_c & Hsame_i).
    set (nn := neighborNext ni) in *.
    assert (nn <> UNUSED -> nn ∈ handles v2) as Hnn2.
    { rewrite HnN. destruct (handles v2); simpl; [congruence | intros _; left]. }
    assert (forall k, k ∈ handles v2 -> k <> i /\ k <> j /\
              exists n, index ns k = Some n) as Hv2.
    { intros k Hk.
      assert (k ∈ handles (v1 ++ s :: v2)) as Hklive
        by (rewrite handles_app; apply elem_of_app; right; right; exact Hk).
      split; [| split].
      - apply elem_of_handles in Hk as (s0 & Hs0 & <-). apply Hothers.
        apply elem_of_app. right. exact Hs0.
      - intros ->. contradiction.
      - eapply dlist_index; [exact Hchain | exact Hklive]. }
    assert (forall k n, k <> i -> k <> j -> index ns k = Some n ->
              exists n', index ns_c k = Some n' /\ same_but_bin_links n n') as Hkeep_c.
    { intros k n Hki Hkj Hn. destruct (Hkeep_b k n Hki Hn) as (n1 & Hn1 & Hs1).
      destruct (Hns_c k n1 Hkj Hn1) as (n2 & Hn2 & Hs2).
      exists n2. split; [exact Hn2 |]. eapply same_but_bin_links_trans; eauto. }
    (* the four link updates *)
    set (nj := Node_init (start s + size) (len s - size) h) in *.
    pose (ns_d := if decide (nn <> UNUSED)
                  then match index ns_c nn with
                       | Some x => <[Z.to_nat nn := set_neighborPrev j x]> ns_c
                       | None => ns_c
                       end
                  else ns_c).
    assert (length ns_d = length ns_c) as Hlen_d.
    { unfold ns_d. destruct (decide (nn <> UNUSED)); [destruct (index ns_c nn) |];
        rewrite ?length_insert; reflexivity. }
    assert (forall k n, index ns_c k = Some n ->
              index ns_d k = Some (if decide (k = nn) then set_neighborPrev j n else n))
      as Hidx_d.
    { intros k n Hn. unfold ns_d. destruct (decide (nn <> UNUSED)) as [Hu | Hu].
      - destruct (index ns_c nn) as [x |] eqn:Hx.
        + rewrite index_insert by (apply index_range in Hx; lia).
          destruct (decide (k = nn)) as [-> | ?]; [congruence | exact Hn].
        + rewrite decide_False; [exact Hn | congruence].
      - rewrite decide_False; [exact Hn |].
        apply index_range in Hn. unfold UNUSED in *. lia. }
    assert (j <> nn) as Hjnn.
    { intros Heq. assert (nn <> UNUSED) as Hu by (unfold UNUSED; lia).
      destruct (Hv2 nn (Hnn2 Hu)) as (_ & Hne & _). congruence. }
    assert (i <> nn) as Hinn.
    { intros Heq. assert (nn <> UNUSED) as Hu by congruence.
      destruct (Hv2 nn (Hnn2 Hu)) as (Hne & _ & _). congruence. }
    assert (index ns_d j = Some nj) as Hnj_d.
    { rewrite (Hidx_d j nj Hnj). rewrite decide_False by exact Hjnn. reflexivity. }
    assert (0 <= j < Z.of_nat (length ns_d)) as Hjd by (rewrite Hlen_d; lia).
    set (ns_e := <[Z.to_nat j := set_neighborPrev i nj]> ns_d).
    set (ns_f := <[Z.to_nat j := set_neighborNext nn (set_neighborPrev i nj)]> ns_e).
    set (ns_g := <[Z.to_nat i := set_neighborNext j ni_c]> ns_f).
    assert (index ns_d i = Some ni_c) as Hni_d.
    { rewrite (Hidx_d i ni_c Hni_c). rewrite decide_False by exact Hinn. reflexivity. }
    assert (index ns_e i = Some ni_c) as Hni_e.
    { unfold ns_e. rewrite index_insert_ne by lia. exact Hni_d. }
    assert (index ns_f i = Some ni_c) as Hni_f.
    { unfold ns_f. rewrite index_insert_ne by lia. exact Hni_e. }
    assert (forall k n, index ns_c k = Some n ->
              index ns_g k =
              Some (if decide (k = i) then set_neighborNext j n
                    else if decide (k = j) then set_neighborNext nn (set_neighborPrev i n)
                    else if decide (k = nn) then set_neighborPrev j n else n)) as Hidx_g.
    { intros k n Hn. unfold ns_g, ns_f, ns_e.
      rewrite index_insert by (rewrite !length_insert, Hlen_d; lia).
      destruct (decide (k = i)) as [-> | Hki]; [congruence |].
      rewrite index_insert by (rewrite !length_insert, Hlen_d; lia).
      destruct (decide (k = j)) as [-> | Hkj]; [congruence |].
      rewrite index_insert_ne by lia. apply Hidx_d, Hn. }
    apply wp_bind. eapply wp_field; [reflexivity | exact Hni_c |].
    destruct Hsame_i as (Hio & His & Hip & Hix & Hiu).
    rewrite Hix. change (neighborNext nia) with nn.
    apply wp_bind.
    apply (wp_mono _ (fun _ a' => a' =
       mkOffsetAllocator sz mx (fst - size) top_c ub_c bins_c (Some ns_d) (Some fs)
         (sub32 fo 1))).
    { unfold ns_d. destruct (decide (nn <> UNUSED)) as [Hu | Hu].
      - destruct (Hv2 nn (Hnn2 Hu)) as (Hni' & Hnj' & n & Hn).
        destruct (Hkeep_c nn n Hni' Hnj' Hn) as (x & Hx & _). rewrite Hx.
        eapply wp_setField; [reflexivity | exact Hx |]. st. reflexivity.
      - apply wp_ret. reflexivity. }
    intros _ a' ->.
    apply wp_bind. eapply wp_setField; [reflexivity | exact Hnj_d |]. st. fold ns_e.
    apply wp_bind. eapply wp_field; [reflexivity | exact Hni_e |].
    rewrite Hix. change (neighborNext nia) with nn.
    apply wp_bind. eapply wp_setField;
      [reflexivity | unfold ns_e; apply index_insert_eq; lia |]. st. fold ns_f.
    eapply wp_setField; [reflexivity | exact Hni_f |]. st. fold ns_g.
    apply wp_bind. eapply wp_field;
      [reflexivity | unfold ns_g; apply index_insert_eq; unfold ns_f, ns_e;
                     rewrite !length_insert, Hlen_d; lia |].
    change (dataOffset (set_neighborNext j ni_c)) with (dataOffset ni_c).
    rewrite Hio. change (dataOffset nia) with (dataOffset ni). rewrite Hoff.
    apply wp_ret. rewrite <- Hhs.
    apply (HQ _ v1 s v2 [mkSpan j (start s + size) (len s - size) false]);
      [reflexivity | exact Hsfree | exact Hfits | right; split; [lia | eauto] |].
    simpl app.
    assert (index ns_g i = Some (set_neighborNext j ni_c)) as Hgi.
    { rewrite (Hidx_g i ni_c Hni_c). rewrite decide_True by reflexivity. reflexivity. }
    assert (index ns_g j = Some (set_neighborNext nn (set_neighborPrev i nj))) as Hgj.
    { rewrite (Hidx_g j nj Hnj). rewrite decide_False by congruence.
      rewrite decide_True by reflexivity. reflexivity. }
    assert (forall k n, k <> i -> k <> j -> index ns k = Some n ->
              exists n', index ns_g k = Some n' /\
                dataOffset n' = dataOffset n /\ dataSize n' = dataSize n /\
                used n' = used n /\ neighborNext n' = neighborNext n /\
                neighborPrev n' = if decide (k = nn) then j else neighborPrev n)
      as Hkeep_g.
    { intros k n Hki Hkj Hn.
      destruct (Hkeep_c k n Hki Hkj Hn) as (n1 & Hn1 & Ho1 & Hs1 & Hp1 & Hx1 & Hu1).
      rewrite (Hidx_g k n1 Hn1). rewrite !decide_False by assumption.
      eexists. split; [reflexivity |].
      destruct (decide (k = nn)); simpl; auto. }
    assert (forall s0, s0 ∈ v1 ++ v2 -> handle s0 <> j) as Hothers_j.
    { intros s0 Hs0 Heq. apply Hj. rewrite <- Heq. apply elem_of_handles. exists s0.
      split; [| reflexivity].
      apply elem_of_app in Hs0 as [? | ?]; apply elem_of_app; [left | right; right]; assumption. }
    assert (forall s0, s0 ∈ v1 ++ v2 -> matches ns_g s0) as Hmatch_g.
    { intros s0 Hs0. apply (matches_frame ns); [apply Hmatch_o, Hs0 |].
      intros n Hn.
      destruct (Hkeep_g _ n (Hothers s0 Hs0) (Hothers_j s0 Hs0) Hn) as (n' & Hn' & H').
      exists n'. tauto. }
    exists ns_g, fs. st.
    split; [reflexivity |]. split; [reflexivity |]. split; [exact Hsz |].
    split. { unfold ns_g, ns_f, ns_e. rewrite !length_insert, Hlen_d. exact Hlen_c. }
    split.
    { eapply stack_perm; [exact Hstack_c |]. rewrite !handles_app. simpl.
      etransitivity; [apply Permutation_middle |].
      apply Permutation_app; [reflexivity | apply perm_swap]. }
    split; [| split; [| split]].
    + apply Forall_app. split; [| constructor; [| constructor]].
      * apply list.Forall_forall. intros s0 Hs0. apply Hmatch_g, elem_of_app. left. exact Hs0.
      * eexists. simpl. rewrite Hhs. split; [exact Hgi |]. simpl.
        rewrite Hio, His, Hiu. simpl. auto.
      * eexists. simpl. split; [exact Hgj |]. simpl. auto.
      * apply list.Forall_forall. intros s0 Hs0. apply Hmatch_g, elem_of_app. right. exact Hs0.
    + rewrite handles_app in Hchain |- *. simpl in Hchain |- *. rewrite Hhs in Hchain |- *.
      pose proof Hnd as Hnd'. rewrite handles_app in Hnd'. simpl in Hnd'. rewrite Hhs in Hnd'.
      apply list.NoDup_app in Hnd' as (Hnd1 & Hdisj & Hnd2).
      apply list.NoDup_cons in Hnd2 as [Hi2 Hnd2].
      apply dlist_app in Hchain as [D1 D2]. simpl in D1, D2.
      destruct D2 as [_ (ni0 & Hni0 & _ & D2)].
      assert (ni0 = ni) as -> by congruence. fold nn in D2.
      replace (hd UNUSED (handles v1 ++ i :: j :: handles v2))
        with (hd UNUSED (handles v1 ++ i :: handles v2))
        by (destruct (handles v1); reflexivity).
      apply dlist_app. simpl hd. split.
      * eapply dlist_frame; [exact D1 |]. intros k n Hk Hn.
        assert (k <> i) as Hki by (intros ->; apply (Hdisj i Hk); left).
        assert (k <> j) as Hkj.
        { intros ->. apply Hj. rewrite handles_app. apply elem_of_app. left. exact Hk. }
        destruct (Hkeep_g k n Hki Hkj Hn) as (n' & Hn' & _ & _ & _ & Hx' & Hp').
        exists n'. split; [exact Hn' |]. split; [| exact Hx'].
        rewrite decide_False in Hp'; [exact Hp' |].
        intros ->. assert (nn <> UNUSED) as Hu by (eapply index_not_UNUSED; [| exact Hn]; lia).
        apply (Hdisj nn Hk). right. apply Hnn2, Hu.
      * split; [reflexivity |]. eexists. split; [exact Hgi |]. simpl.
        split; [rewrite Hip; exact HnP |].
        split; [reflexivity |]. eexists. split; [exact Hgj |]. simpl.
        split; [reflexivity |].
        eapply dlist_reprev; [exact D2 | exact Hnd2 |].
        intros k n Hk Hn. destruct (Hv2 k Hk) as (Hki & Hkj & _).
        destruct (Hkeep_g k n Hki Hkj Hn) as (n' & Hn' & _ & _ & _ & Hx' & Hp').
        exists n'. auto.
    + apply tiles_app. apply tiles_app in Htiles as [Ht1 Ht2].
      split; [exact Ht1 |]. simpl in *. destruct Ht2 as (Hst & _ & Ht2).
      split; [exact Hst |]. split; [lia |]. split; [lia |]. split; [lia |].
      replace (0 + total v1 + size + (len s - size)) with (0 + total v1 + len s) by lia.
      exact Ht2.
    + rewrite freeSpans_used by reflexivity.
      eapply bins_perm; [| symmetry; apply freeSpans_split; reflexivity].
      eapply bins_frame; [exact Hbins_c |].
      intros k n _ Hn. rewrite (Hidx_g k n Hn). eexists. split; [reflexivity |].
      destruct (decide (k = i)), (decide (k = j)), (decide (k = nn)); split; reflexivity.
  - (* the node fits exactly *)
    assert (len s = size) as Hexact by lia.
    apply wp_bind, wp_ret.
    apply wp_bind. eapply wp_field; [reflexivity | exact Hnib |].
    change (dataOffset nia) with (dataOffset ni). rewrite Hoff.
    apply wp_ret. rewrite <- Hhs.
    apply (HQ _ v1 s v2 []); [reflexivity | exact Hsfree | exact Hfits | left; auto |].
    simpl app.
    assert (handles (v1 ++ mkSpan (handle s) (start s) size true :: v2)
            = handles (v1 ++ s :: v2)) as Hh by (rewrite !handles_app; reflexivity).
    exists ns_b, fs. st.
    split; [reflexivity |]. split; [reflexivity |]. split; [exact Hsz |].
    split; [exact Hlen_b |]. rewrite Hh. split; [exact Hstack |].
    split; [| split; [| split]].
    + apply Forall_app. split; [| constructor].
      * apply list.Forall_forall. intros s0 Hs0.
        assert (s0 ∈ v1 ++ v2) as Hs0' by (apply elem_of_app; left; exact Hs0).
        apply (matches_frame ns); [apply Hmatch_o, Hs0' |].
        intros n Hn. destruct (Hkeep_b _ n (Hothers s0 Hs0') Hn) as (n' & Hn' & Hsame).
        exists n'. unfold same_but_bin_links in Hsame. tauto.
      * exists nia. simpl. rewrite Hhs. split; [exact Hnib |].
        split; [exact Hoff |]. split; reflexivity.
      * apply list.Forall_forall. intros s0 Hs0.
        assert (s0 ∈ v1 ++ v2) as Hs0' by (apply elem_of_app; right; exact Hs0).
        apply (matches_frame ns); [apply Hmatch_o, Hs0' |].
        intros n Hn. destruct (Hkeep_b _ n (Hothers s0 Hs0') Hn) as (n' & Hn' & Hsame).
        exists n'. unfold same_but_bin_links in Hsame. tauto.
    + eapply dlist_frame; [exact Hchain |].
      intros k n _ Hn. destruct (decide (k = i)) as [-> | Hk].
      * exists nia. split; [exact Hnib |]. assert (n = ni) as -> by congruence.
        split; reflexivity.
      * destruct (Hkeep_b k n Hk Hn) as (n' & Hn' & Hsame).
        exists n'. unfold same_but_bin_links in Hsame. tauto.
    + apply tiles_app. apply tiles_app in Htiles as [Ht1 Ht2].
      split; [exact Ht1 |]. simpl in *. rewrite <- Hexact. exact Ht2.
    + rewrite freeSpans_used by reflexivity. exact Hbins_b.
Qed.

(** A set bit of the bitmap leads to a bin that holds a node. *)
Lemma bins_bit_head ns bins ub top fst F t l leaf :
  Z.of_nat (length ns) <= UNUSED ->
  bins_ok ns bins ub top fst F ->
  0 <= t < 32 -> 0 <= l < 8 ->
  index ub t = Some leaf -> Z.testbit leaf l = true ->
  exists h, index bins (8 * t + l) = Some h /\ h <> UNUSED.
Proof.
  intros Hsmall (bl & _ & Hlists & _ & (_ & _ & Hbm) & _) Ht Hl Hleaf Hbit.
  destruct (Hbm t Ht) as (leaf0 & Hleaf0 & _ & _ & Hbits).
  assert (leaf0 = leaf) as -> by congruence.
  apply (Hbits l Hl) in Hbit.
  destruct (Hlists (8 * t + l) ltac:(lia)) as (h & Hh & Hd & _).
  exists h. split; [exact Hh |]. intros Hu.
  apply Hbit. eapply bdl_head_UNUSED; [exact Hsmall | exact Hd | exact Hu].
Qed.

Lemma bins_top_leaf ns bins ub top fst F t :
  bins_ok ns bins ub top fst F -> 0 <= t < 32 ->
  0 <= top < 2 ^ 32 /\
  exists leaf, index ub t = Some leaf /\ 0 <= leaf < 256 /\
    (Z.testbit top t = true <-> leaf <> 0).
Proof.
  intros (bl & _ & _ & _ & (_ & Htop & Hbm) & _) Ht.
  destruct (Hbm t Ht) as (leaf & Hleaf & Hr & Hiff & _). split; [exact Htop |]. eauto.
Qed.

Lemma wp_allocate size Q a v :
  Inv a v -> 0 <= size < 2 ^ 32 ->
  Q Alloc_none a ->
  (forall a' v1 s v2 rest,
     m_freeOffset a <> NO_SPACE ->
     v = v1 ++ s :: v2 -> inUse s = false -> size <= len s ->
     (len s = size /\ rest = [] \/
      size < len s /\
      exists j, rest = [mkSpan j (start s + size) (len s - size) false]) ->
     Inv a' (v1 ++ mkSpan (handle s) (start s) size true :: rest ++ v2) ->
     Q (mkAlloc (start s) (handle s)) a') ->
  wp (allocate size) Q a.
Proof.
  intros HInv Hsize Hnone Hsome.
  pose proof HInv as (ns & fs & Hns & Hfs & Hsz & Hlen & Hstack & _ & _ & _ & Hbins).
  destruct a as [sz mx fst top ub bins ons ofs fo]. simpl in *. subst ons ofs.
  assert (Z.of_nat (length ns) <= UNUSED) as Hsmall.
  { destruct Hstack as (Hmx & _). unfold UNUSED. lia. }
  unfold allocate. wp_get.
  destruct (decide (fo = NO_SPACE)) as [Hfo | Hfo]; [apply wp_ret, Hnone |].
  pose proof (codec_index_range size Hsize) as [Hrd Hru].
  set (minBinIndex := uintToSmallFloatRoundUp size) in *.
  assert (0 <= minBinIndex < 256) as Hmin by lia.
  destruct (bin_decompose minBinIndex Hmin) as (Hmtl & Hmt & Hml).
  set (minTop := Z.shiftr minBinIndex TOP_BINS_INDEX_SHIFT) in *.
  set (minLeaf := Z.land minBinIndex LEAF_BINS_INDEX_MASK) in *.
  assert (minTop <= 30) as Hmt30 by lia.
  destruct (bins_top_leaf _ _ _ _ _ _ minTop Hbins Hmt) as (Htop & leaf & Hleaf & Hleafr & _).
  wp_get.
  (* the scan of the leaf bins of the first top bin *)
  apply wp_bind.
  apply (wp_mono _ (fun leafBinIndex a' =>
     a' = mkOffsetAllocator sz mx fst top ub bins (Some ns) (Some fs) fo /\
     (leafBinIndex = NO_SPACE \/
      leafBinIndex = findLowestSetBitAfter leaf minLeaf))).
  { destruct (decide (Z.land top (shl32 1 minTop) <> 0)).
    - apply wp_bind. eapply wp_loadUsedBins; [exact Hleaf |]. apply wp_ret. auto.
    - apply wp_ret. auto. }
  intros leafBinIndex a' [-> Hscan].
  destruct (decide (leafBinIndex = NO_SPACE)) as [Hno | Hyes].
  - (* the scan of the top bins above *)
    wp_get.
    rewrite add32_small by lia.
    set (topBinIndex := findLowestSetBitAfter top (minTop + 1)).
    destruct (decide (topBinIndex = NO_SPACE)) as [Hno' | Hyes']; [apply wp_ret, Hnone |].
    destruct (findLowestSetBitAfter_found top (minTop + 1) Htop ltac:(lia) Hyes')
      as [Htr Htbit]. fold topBinIndex in Htr, Htbit.
    destruct (bins_top_leaf _ _ _ _ _ _ topBinIndex Hbins ltac:(lia))
      as (_ & leaf' & Hleaf' & Hleafr' & Hiff).
    apply Hiff in Htbit.
    apply wp_bind. eapply wp_loadUsedBins; [exact Hleaf' |].
    apply wp_bind. apply wp_requires; [exact Htbit |].
    destruct (tzcnt_nonzero_spec leaf' ltac:(lia)) as [Hl0 Hlbit].
    pose proof (testbit_true_lt leaf' _ 8 ltac:(simpl; lia) Hlbit) as Hl8.
    apply (wp_allocateFromBin _ _ _ _ _ _ _ _ _ _ _ _ _ v HInv Hfo Hsize);
      [lia | exact Hl8 | | lia |].
    + eapply bins_bit_head; eauto. lia.
    + intros a' v1 s v2 rest. apply Hsome. exact Hfo.
  - destruct Hscan as [? | ->]; [contradiction |].
    destruct (findLowestSetBitAfter_found leaf minLeaf ltac:(lia) ltac:(lia) Hyes)
      as [Hlr Hlbit].
    pose proof (testbit_true_lt leaf _ 8 ltac:(simpl; lia) Hlbit) as Hl8.
    apply (wp_allocateFromBin _ _ _ _ _ _ _ _ _ _ _ _ _ v HInv Hfo Hsize);
      [lia | exact Hl8 | | lia |].
    + eapply bins_bit_head; eauto.
    + intros a' v1 s v2 rest. apply Hsome. exact Hfo.
Qed.

(** ** [free] *)

Lemma last_handles v : list.last (handles v) = handle <$> list.last v.
Proof. unfold handles. apply fmap_last. Qed.

Lemma hd_handles X v : hd X (handles v) = default X (handle <$> head v).
Proof. destruct v; reflexivity. Qed.

Lemma FreeMid_init a v1 s v2 :
  Inv a (v1 ++ s :: v2) -> inUse s = true ->
  FreeMid a v1 s v2 (start s) (len s).
Proof.
  intros (ns & fs & Hns & Hfs & Hsz & Hlen & Hstack & Hmatch & Hchain & Htiles & Hbins) Hs.
  exists ns, fs. split; [exact Hns |]. split; [exact Hfs |]. split; [exact Hsz |].
  split; [exact Hlen |]. split; [exact Hstack |]. split; [exact Hmatch |].
  split; [exact Hs |].
  rewrite handles_app in Hchain. simpl in Hchain.
  pose proof (dlist_at _ _ _ _ _ _ _ _ _ Hchain) as Hat.
  apply dlist_app in Hchain as [D1 D2]. simpl in D1, D2.
  destruct D2 as [_ (ni & Hni & Hp & D2)].
  pose proof (dlist_head _ _ _ _ _ _ _ D2) as Hnx.
  apply tiles_app in Htiles as [Ht1 Ht2]. simpl in Ht1, Ht2.
  destruct Ht2 as (Hst & Hl & Ht2).
  split; [| split; [| split; [| split; [| split; [| split]]]]].
  - exists (handle s).
    replace (hd (handle s) (handles v1))
      with (hd UNUSED (handles v1 ++ handle s :: handles v2))
      by (destruct (handles v1); reflexivity).
    exact D1.
  - exists ni. auto.
  - exists (handle s). rewrite <- Hnx. exact D2.
  - rewrite Hst. exact Ht1.
  - exact Hl.
  - rewrite Hst. exact Ht2.
  - rewrite freeSpans_used in Hbins by exact Hs. exact Hbins.
Qed.

Lemma NoDup_handles_remove v1 s v2 :
  NoDup (handles (v1 ++ s :: v2)) -> NoDup (handles (v1 ++ v2)).
Proof.
  rewrite !handles_app. simpl. intros H.
  apply list.NoDup_app in H as (H1 & Hd & H2). apply list.NoDup_cons in H2 as [_ H2].
  apply list.NoDup_app. split; [exact H1 |]. split; [| exact H2].
  intros k Hk1 Hk2. apply (Hd k Hk1). right. exact Hk2.
Qed.

Lemma total_freeSpans_le v :
  (forall s, s ∈ v -> 0 <= len s) -> 0 <= total (freeSpans v) <= total v.
Proof.
  intros H. pose proof (total_free_used v) as Hfu.
  assert (0 <= total (freeSpans v)).
  { apply total_nonneg. intros s Hs. apply elem_of_freeSpans in Hs as [Hs _]. auto. }
  assert (0 <= total (usedSpans v)); [| lia].
  apply total_nonneg. intros s Hs. unfold usedSpans in Hs.
  apply list_elem_of_In, List.filter_In in Hs as [Hs _].
  apply list_elem_of_In in Hs. auto.
Qed.

Lemma FreeMid_facts a v1 s v2 offset size :
  FreeMid a v1 s v2 offset size ->
  NoDup (handles (v1 ++ s :: v2)) /\
  0 <= offset /\ offset + size <= m_size a /\
  (forall s0, s0 ∈ v1 ++ v2 -> 0 <= len s0 < 2 ^ 32) /\
  m_freeStorage a = total (freeSpans (v1 ++ v2)) /\
  0 <= m_freeStorage a <= m_size a - size /\
  NoDup (handles (freeSpans (v1 ++ v2))) /\
  (forall s0, s0 ∈ v1 ++ v2 -> handle s0 <> handle s).
Proof.
  intros (ns & fs & Hns & Hfs & Hsz & Hlen & Hstack & Hmatch & Hs & _ & _ & _ &
          Ht1 & Hsize & Ht2 & Hbins).
  pose proof (stack_live_NoDup _ _ _ _ Hstack) as Hnd.
  pose proof (tiles_total _ _ _ Ht1) as Htot1. pose proof (tiles_nonneg _ _ _ Ht1) as Hnn1.
  pose proof (tiles_total _ _ _ Ht2) as Htot2. pose proof (tiles_nonneg _ _ _ Ht2) as Hnn2.
  assert (forall s0, s0 ∈ v1 ++ v2 -> 0 <= len s0 < 2 ^ 32) as Hrange.
  { intros s0 Hs0. apply elem_of_app in Hs0 as [Hs0 | Hs0].
    - pose proof (tiles_elem _ _ _ _ Ht1 Hs0). lia.
    - pose proof (tiles_elem _ _ _ _ Ht2 Hs0). lia. }
  pose proof (bins_ok_total _ _ _ _ _ _ Hbins) as Hfst.
  pose proof (total_freeSpans_le (v1 ++ v2) ltac:(intros s0 Hs0; apply Hrange, Hs0)) as Hle.
  rewrite total_app in Hle.
  split; [exact Hnd |]. split; [lia |]. split; [lia |]. split; [exact Hrange |].
  split; [exact Hfst |]. split; [lia |].
  split; [apply handles_freeSpans_NoDup, (NoDup_handles_remove _ s), Hnd |].
  intros s0 Hs0 Heq. rewrite handles_app in Hnd. simpl in Hnd.
  apply list.NoDup_app in Hnd as (_ & Hd & Hnd2). apply list.NoDup_cons in Hnd2 as [Hn2 _].
  apply elem_of_app in Hs0 as [Hs0 | Hs0].
  - apply (Hd (handle s)); [| left]. rewrite <- Heq. apply elem_of_handles. eauto.
  - apply Hn2. rewrite <- Heq. apply elem_of_handles. eauto.
Qed.

(** The test [neighbor != UNUSED && m_nodes[neighbor].used == false]. *)
Lemma wp_neighborIsFree ns (o : option span) a Q :
  m_nodes a = Some ns -> Z.of_nat (length ns) <= UNUSED ->
  (forall p, o = Some p -> matches ns p) ->
  Q (match o with Some p => negb (inUse p) | None => false end) a ->
  wp (if decide (default UNUSED (handle <$> o) <> UNUSED)
      then u ← field (default UNUSED (handle <$> o)) used; mret (negb u)
      else mret false) Q a.
Proof.
  intros Hns Hsmall Hm HQ. destruct o as [p |].
  - destruct (Hm p eq_refl) as (n & Hn & _ & _ & Hu).
    change (default UNUSED (handle <$> Some p)) with (handle p).
    rewrite decide_True by (eapply index_not_UNUSED; eauto).
    apply wp_bind. eapply wp_field; [exact Hns | exact Hn |]. apply wp_ret.
    rewrite Hu. exact HQ.
  - change (default UNUSED (handle <$> None)) with UNUSED.
    destruct (decide (UNUSED <> UNUSED)) as [H | _]; [congruence |]. apply wp_ret, HQ.
Qed.

Lemma removelast_snoc {A} (l : list A) x : removelast (l ++ [x]) = l.
Proof. apply List.removelast_last. Qed.

Lemma handles_snoc_perm v1 p s v2 :
  handles ((v1 ++ [p]) ++ s :: v2) ≡ₚ handle p :: handles (v1 ++ s :: v2).
Proof.
  rewrite <- app_assoc. rewrite !handles_app. simpl.
  symmetry. apply Permutation_middle.
Qed.

(** [free], lines 317-329: the left neighbour is absorbed when it is free. *)
Lemma wp_free_mergePrev Q sz mx fstor top ub bins ns fs fo v1 s v2 offset size :
  FreeMid (mkOffsetAllocator sz mx fstor top ub bins (Some ns) (Some fs) fo)
          v1 s v2 offset size ->
  (forall a',
     FreeMid a' (mergePrev v1 offset size).1.1 s v2
             (mergePrev v1 offset size).1.2 (mergePrev v1 offset size).2 ->
     Q ((mergePrev v1 offset size).1.2, (mergePrev v1 offset size).2) a') ->
  wp (if match list.last v1 with Some p => negb (inUse p) | None => false end
      then
        prevOffset ← field (default UNUSED (handle <$> list.last v1)) dataOffset;
        prevSize ← field (default UNUSED (handle <$> list.last v1)) dataSize;
        prev' ← field (handle s) neighborPrev;
        removeNodeFromBin prev';;
        prevPrev ← field (default UNUSED (handle <$> list.last v1)) neighborPrev;
        setField (handle s) (set_neighborPrev prevPrev);;
        mret (prevOffset, add32 size prevSize)
      else mret (offset, size)) Q
     (mkOffsetAllocator sz mx fstor top ub bins (Some ns) (Some fs) fo).
Proof.
  intros HMid HQ.
  destruct (FreeMid_facts _ _ _ _ _ _ HMid)
    as (Hnd & Hoff0 & Hoffsz & Hrange & Hfst & Hfstr & HndF & Hothers).
  simpl in Hoffsz, Hfst, Hfstr.
  unfold mergePrev in HQ.
  destruct (list.last v1) as [p |] eqn:Hlast; [destruct (inUse p) eqn:Hp |]; simpl negb; cbv iota.
  1, 3: apply wp_ret, HQ, HMid.
  (* the left neighbour [p] is free *)
  apply last_Some in Hlast as [v1' ->]. rewrite removelast_snoc in HQ. simpl in HQ.
  change (default UNUSED (handle <$> Some p)) with (handle p).
  destruct HMid as (ns0 & fs0 & Hns0 & Hfs0 & Hsz & Hlen & Hstack & Hmatch & Hs &
                    (X & D1) & (ni & Hni & HniP & HniN) & (Y & D2) & Ht1 & Hsize & Ht2 & Hbins).
  simpl in Hns0, Hfs0, Hsz, Hlen, Hstack, Ht2, Hbins.
  assert (ns0 = ns) as -> by congruence. assert (fs0 = fs) as -> by congruence.
  clear Hns0 Hfs0.
  assert (p ∈ (v1' ++ [p]) ++ s :: v2) as Hpv.
  { apply elem_of_app. left. apply elem_of_app. right. left. }
  destruct (Forall_matches_elem _ _ _ Hmatch Hpv) as (np & Hnp & Hpo & Hps & Hpu).
  rewrite last_handles, last_snoc in HniP. simpl in HniP.
  assert (handle p <> handle s) as Hpi.
  { apply Hothers. apply elem_of_app. left. apply elem_of_app. right. left. }
  (* the links of [p] *)
  rewrite handles_app in D1. simpl in D1.
  destruct (dlist_at _ _ _ _ _ _ _ _ _ D1) as (np0 & Hnp0 & HpP & _).
  assert (np0 = np) as -> by congruence. clear Hnp0.
  apply dlist_app in D1 as [D1 _]. simpl in D1.
  replace (hd X (handles v1' ++ [handle p])) with (hd (handle p) (handles v1')) in D1
    by (destruct (handles v1'); reflexivity).
  apply tiles_app in Ht1 as [Ht1 Ht1p]. simpl in Ht1p.
  destruct Ht1p as (Hpstart & Hplen & Hpend).
  assert (freeSpans ((v1' ++ [p]) ++ v2) ≡ₚ p :: freeSpans (v1' ++ v2)) as HpermF.
  { rewrite <- app_assoc. simpl. apply freeSpans_split. exact Hp. }
  assert (0 <= total (freeSpans (v1' ++ v2))) as HF'nn.
  { apply total_nonneg. intros s0 Hs0. apply elem_of_freeSpans in Hs0 as [Hs0 _].
    apply Hrange. apply elem_of_app in Hs0 as [? | ?];
      apply elem_of_app; [left; apply elem_of_app; left | right]; assumption. }
  assert (fstor = len p + total (freeSpans (v1' ++ v2))) as Hfst2.
  { rewrite Hfst, (total_perm _ _ HpermF). reflexivity. }
  apply wp_bind. eapply wp_field; [reflexivity | exact Hnp |]. rewrite Hpo.
  apply wp_bind. eapply wp_field; [reflexivity | exact Hnp |]. rewrite Hps.
  apply wp_bind. eapply wp_field; [reflexivity | exact Hni |]. rewrite HniP.
  apply wp_bind.
  apply (wp_removeNodeFromBin (handle p) _ _ _ _ _ _ _ _ _ _ _
           (handles (v1' ++ s :: v2)) _ (freeSpans (v1' ++ v2)) p np
           Hlen Hstack (handles_snoc_perm _ _ _ _) Hbins HndF);
    [| exact HpermF | reflexivity | exact Hnp | exact Hps | lia |].
  { intros s0 Hs0. apply elem_of_freeSpans in Hs0 as [Hs0 _]. apply Hrange, Hs0. }
  intros ns' fs' bins' ub' top' Hlen' Hstack' Hbins' Hsame.
  destruct (Hsame _ _ Hnp) as (np' & Hnp' & _ & _ & HpP' & _ & _).
  destruct (Hsame _ _ Hni) as (ni' & Hni' & Hio' & His' & HiP' & HiN' & Hiu').
  apply wp_bind. eapply wp_field; [reflexivity | exact Hnp' |]. rewrite HpP', HpP.
  apply wp_bind. eapply wp_setField; [reflexivity | exact Hni' |]. st.
  apply wp_ret. rewrite add32_small by lia.
  apply HQ.
  set (ns'' := <[Z.to_nat (handle s) := _]> ns').
  assert (forall k n, index ns k = Some n ->
            exists n', index ns'' k = Some n' /\
              dataOffset n' = dataOffset n /\ dataSize n' = dataSize n /\
              used n' = used n /\ neighborNext n' = neighborNext n /\
              neighborPrev n' = if decide (k = handle s)
                                then default UNUSED (list.last (handles v1'))
                                else neighborPrev n) as Hrel.
  { intros k n Hn. destruct (Hsame k n Hn) as (n' & Hn' & Ho & Hsz' & HP & HN & Hu).
    unfold ns''. rewrite index_insert by (apply index_range in Hni'; lia).
    destruct (decide (k = handle s)) as [-> | Hk].
    - assert (n' = ni') as -> by congruence.
      eexists. split; [reflexivity |]. simpl. repeat split; assumption.
    - exists n'. repeat split; assumption. }
  exists ns'', fs'. st.
  split; [reflexivity |]. split; [reflexivity |]. split; [exact Hsz |].
  split; [unfold ns''; rewrite length_insert; exact Hlen' |].
  split; [exact Hstack' |].
  split.
  { apply list.Forall_forall. intros s0 Hs0.
    apply (matches_frame ns).
    - apply (Forall_matches_elem _ _ _ Hmatch). rewrite <- app_assoc.
      apply elem_of_app in Hs0 as [? | ?]; apply elem_of_app; [left | right; right]; assumption.
    - intros n Hn. destruct (Hrel _ n Hn) as (n' & Hn' & H'). exists n'. tauto. }
  split; [exact Hs |].
  split; [| split; [| split; [| split; [| split; [| split]]]]].
  - exists (handle p). eapply dlist_frame; [exact D1 |].
    intros k n Hk Hn. destruct (Hrel k n Hn) as (n' & Hn' & _ & _ & _ & HN & HP).
    exists n'. split; [exact Hn' |]. split; [| exact HN].
    rewrite decide_False in HP; [exact HP |].
    intros ->. rewrite !handles_app in Hnd. simpl in Hnd.
    apply list.NoDup_app in Hnd as (_ & Hd & _). apply (Hd (handle s)); [| left].
    apply elem_of_app. left. exact Hk.
  - destruct (Hrel _ ni Hni) as (n' & Hn' & _ & _ & _ & HN & HP).
    exists n'. split; [exact Hn' |]. rewrite decide_True in HP by reflexivity.
    split; [exact HP |]. rewrite HN. exact HniN.
  - exists Y. eapply dlist_frame; [exact D2 |].
    intros k n Hk Hn. destruct (Hrel k n Hn) as (n' & Hn' & _ & _ & _ & HN & HP).
    exists n'. split; [exact Hn' |]. split; [| exact HN].
    rewrite decide_False in HP; [exact HP |].
    intros ->. rewrite !handles_app in Hnd. simpl in Hnd.
    apply list.NoDup_app in Hnd as (_ & _ & Hnd2). apply list.NoDup_cons in Hnd2 as [Hn2 _].
    contradiction.
  - rewrite Hpstart. exact Ht1.
  - lia.
  - replace (start p + (size + len p)) with (offset + size) by lia. exact Ht2.
  - eapply bins_frame; [exact Hbins' |].
    intros k n _ Hn. unfold ns''. rewrite index_insert by (apply index_range in Hni'; lia).
    destruct (decide (k = handle s)) as [-> | Hk].
    + assert (n = ni') as -> by congruence. eexists. split; [reflexivity |]. split; reflexivity.
    + exists n. auto.
Qed.

Lemma handles_next_perm v1 s n v2 :
  handles (v1 ++ s :: n :: v2) ≡ₚ handle n :: handles (v1 ++ s :: v2).
Proof.
  rewrite !handles_app. simpl.
  change (handles v1 ++ handle s :: handle n :: handles v2)
    with (handles v1 ++ [handle s] ++ handle n :: handles v2).
  change (handles v1 ++ handle s :: handles v2)
    with (handles v1 ++ [handle s] ++ handles v2).
  rewrite !app_assoc. symmetry. apply Permutation_middle.
Qed.

(** [free], lines 331-342: the right neighbour is absorbed when it is free. *)
Lemma wp_free_mergeNext Q sz mx fstor top ub bins ns fs fo v1 s v2 offset size :
  FreeMid (mkOffsetAllocator sz mx fstor top ub bins (Some ns) (Some fs) fo)
          v1 s v2 offset size ->
  (forall a',
     FreeMid a' v1 s (mergeNext v2 size).1 offset (mergeNext v2 size).2 ->
     Q (mergeNext v2 size).2 a') ->
  wp (if match head v2 with Some n => negb (inUse n) | None => false end
      then
        nextSize ← field (default UNUSED (handle <$> head v2)) dataSize;
        next' ← field (handle s) neighborNext;
        removeNodeFromBin next';;
        nextNext ← field (default UNUSED (handle <$> head v2)) neighborNext;
        setField (handle s) (set_neighborNext nextNext);;
        mret (add32 size nextSize)
      else mret size) Q
     (mkOffsetAllocator sz mx fstor top ub bins (Some ns) (Some fs) fo).
Proof.
  intros HMid HQ.
  destruct (FreeMid_facts _ _ _ _ _ _ HMid)
    as (Hnd & Hoff0 & Hoffsz & Hrange & Hfst & Hfstr & HndF & Hothers).
  simpl in Hoffsz, Hfst, Hfstr.
  unfold mergeNext in HQ.
  destruct v2 as [| n v2']; cbn [list.head];
    [| destruct (inUse n) eqn:Hn]; cbn [negb]; cbv iota.
  1, 2: apply wp_ret, HQ, HMid.
  (* the right neighbour [n] is free *)
  simpl in HQ.
  change (default UNUSED (handle <$> Some n)) with (handle n).
  destruct HMid as (ns0 & fs0 & Hns0 & Hfs0 & Hsz & Hlen & Hstack & Hmatch & Hs &
                    (X & D1) & (ni & Hni & HniP & HniN) & (Y & D2) & Ht1 & Hsize & Ht2 & Hbins).
  simpl in Hns0, Hfs0, Hsz, Hlen, Hstack, Ht2, Hbins.
  assert (ns0 = ns) as -> by congruence. assert (fs0 = fs) as -> by congruence.
  clear Hns0 Hfs0.
  assert (n ∈ v1 ++ s :: n :: v2') as Hnv.
  { apply elem_of_app. right. right. left. }
  destruct (Forall_matches_elem _ _ _ Hmatch Hnv) as (nn & Hnn & Hno & Hns & Hnu).
  simpl in HniN.
  assert (handle n <> handle s) as Hni_ne.
  { apply Hothers. apply elem_of_app. right. left. }
  simpl in D2. destruct D2 as [_ (nn0 & Hnn0 & _ & D2)].
  assert (nn0 = nn) as -> by congruence. clear Hnn0.
  pose proof (dlist_head _ _ _ _ _ _ _ D2) as HnN.
  simpl in Ht2. destruct Ht2 as (Hnstart & Hnlen & Ht2).
  pose proof (tiles_nonneg _ _ _ Ht2) as Hv2nn. pose proof (tiles_total _ _ _ Ht2) as Hv2tot.
  pose proof (freeSpans_split v1 n v2' Hn) as HpermF.
  assert (0 <= total (freeSpans (v1 ++ v2'))) as HF'nn.
  { apply total_nonneg. intros s0 Hs0. apply elem_of_freeSpans in Hs0 as [Hs0 _].
    apply Hrange. apply elem_of_app in Hs0 as [? | ?];
      apply elem_of_app; [left | right; right]; assumption. }
  assert (fstor = len n + total (freeSpans (v1 ++ v2'))) as Hfst2.
  { rewrite Hfst, (total_perm _ _ HpermF). reflexivity. }
  apply wp_bind. eapply wp_field; [reflexivity | exact Hnn |]. rewrite Hns.
  apply wp_bind. eapply wp_field; [reflexivity | exact Hni |]. rewrite HniN.
  apply wp_bind.
  apply (wp_removeNodeFromBin (handle n) _ _ _ _ _ _ _ _ _ _ _
           (handles (v1 ++ s :: v2')) _ (freeSpans (v1 ++ v2')) n nn
           Hlen Hstack (handles_next_perm _ _ _ _) Hbins HndF);
    [| exact HpermF | reflexivity | exact Hnn | exact Hns | lia |].
  { intros s0 Hs0. apply elem_of_freeSpans in Hs0 as [Hs0 _]. apply Hrange, Hs0. }
  intros ns' fs' bins' ub' top' Hlen' Hstack' Hbins' Hsame.
  destruct (Hsame _ _ Hnn) as (nn' & Hnn' & _ & _ & _ & HnN' & _).
  destruct (Hsame _ _ Hni) as (ni' & Hni' & Hio' & His' & HiP' & HiN' & Hiu').
  apply wp_bind. eapply wp_field; [reflexivity | exact Hnn' |]. rewrite HnN', HnN.
  apply wp_bind. eapply wp_setField; [reflexivity | exact Hni' |]. st.
  apply wp_ret. rewrite add32_small by lia.
  apply HQ.
  set (ns'' := <[Z.to_nat (handle s) := _]> ns').
  assert (forall k m, index ns k = Some m ->
            exists m', index ns'' k = Some m' /\
              dataOffset m' = dataOffset m /\ dataSize m' = dataSize m /\
              used m' = used m /\ neighborPrev m' = neighborPrev m /\
              neighborNext m' = if decide (k = handle s)
                                then hd UNUSED (handles v2')
                                else neighborNext m) as Hrel.
  { intros k m Hm. destruct (Hsame k m Hm) as (m' & Hm' & Ho & Hsz' & HP & HN & Hu).
    unfold ns''. rewrite index_insert by (apply index_range in Hni'; lia).
    destruct (decide (k = handle s)) as [-> | Hk].
    - assert (m' = ni') as -> by congruence.
      eexists. split; [reflexivity |]. simpl. repeat split; assumption.
    - exists m'. repeat split; assumption. }
  exists ns'', fs'. st.
  split; [reflexivity |]. split; [reflexivity |]. split; [exact Hsz |].
  split; [unfold ns''; rewrite length_insert; exact Hlen' |].
  split; [exact Hstack' |].
  split.
  { apply list.Forall_forall. intros s0 Hs0.
    apply (matches_frame ns).
    - apply (Forall_matches_elem _ _ _ Hmatch).
      apply elem_of_app in Hs0 as [? | Hs0]; apply elem_of_app; [left; assumption | right].
      apply elem_of_cons in Hs0 as [-> | ?]; [left | right; right; assumption].
    - intros m Hm. destruct (Hrel _ m Hm) as (m' & Hm' & H'). exists m'. tauto. }
  split; [exact Hs |].
  assert (forall k, k ∈ handles v1 ++ handles v2' -> k <> handle s) as Hne_s.
  { intros k Hk. rewrite <- handles_app in Hk. apply elem_of_handles in Hk as (s0 & Hs0 & <-).
    apply Hothers. apply elem_of_app in Hs0 as [? | ?];
      apply elem_of_app; [left | right; right]; assumption. }
  split; [| split; [| split; [| split; [| split; [| split]]]]].
  - exists X. eapply dlist_frame; [exact D1 |].
    intros k m Hk Hm. destruct (Hrel k m Hm) as (m' & Hm' & _ & _ & _ & HP & HN).
    exists m'. split; [exact Hm' |]. split; [exact HP |].
    rewrite decide_False in HN; [exact HN |].
    apply Hne_s, elem_of_app. left. exact Hk.
  - destruct (Hrel _ ni Hni) as (m' & Hm' & _ & _ & _ & HP & HN).
    exists m'. split; [exact Hm' |]. rewrite decide_True in HN by reflexivity.
    split; [| exact HN]. rewrite HP. exact HniP.
  - exists (handle n). rewrite <- HnN. eapply dlist_frame; [exact D2 |].
    intros k m Hk Hm. destruct (Hrel k m Hm) as (m' & Hm' & _ & _ & _ & HP & HN).
    exists m'. split; [exact Hm' |]. split; [exact HP |].
    rewrite decide_False in HN; [exact HN |].
    apply Hne_s, elem_of_app. right. exact Hk.
  - exact Ht1.
  - lia.
  - replace (offset + (size + len n)) with (offset + size + len n) by lia. exact Ht2.
  - eapply bins_frame; [exact Hbins' |].
    intros k m _ Hm. unfold ns''. rewrite index_insert by (apply index_range in Hni'; lia).
    destruct (decide (k = handle s)) as [-> | Hk].
    + assert (m = ni') as -> by congruence. eexists. split; [reflexivity |]. split; reflexivity.
    + exists m. auto.
Qed.

(** [free], lines 357-366: the freed node and a neighbour [t] are linked to
    each other. *)
Lemma wp_link (f g : Z -> Node -> Node) i t ni Q
    sz mx fstor top ub bins ns fs fo :
  index ns i = Some ni ->
  (t <> UNUSED -> t <> i /\ exists nt, index ns t = Some nt) ->
  (forall ns',
     length ns' = length ns ->
     (forall k n, index ns k = Some n ->
        index ns' k =
        Some (if decide (t = UNUSED) then n
              else if decide (k = i) then f t n
              else if decide (k = t) then g i n else n)) ->
     Q tt (mkOffsetAllocator sz mx fstor top ub bins (Some ns') (Some fs) fo)) ->
  wp (if decide (t <> UNUSED)
      then setField i (f t);; setField t (g i)
      else mret tt) Q
     (mkOffsetAllocator sz mx fstor top ub bins (Some ns) (Some fs) fo).
Proof.
  intros Hni Ht HQ. pose proof (index_range _ _ _ Hni) as Hir.
  destruct (decide (t <> UNUSED)) as [Hu | Hu].
  - destruct (Ht Hu) as (Hti & nt & Hnt). pose proof (index_range _ _ _ Hnt) as Htr.
    apply wp_bind. eapply wp_setField; [reflexivity | exact Hni |]. st.
    eapply wp_setField; [reflexivity | rewrite index_insert_ne by lia; exact Hnt |]. st.
    apply HQ; [rewrite !length_insert; reflexivity |].
    intros k n Hn. rewrite decide_False by exact Hu.
    rewrite index_insert by (rewrite length_insert; lia).
    destruct (decide (k = i)) as [-> | Hki].
    + rewrite decide_False by congruence. rewrite index_insert_eq by lia. congruence.
    + destruct (decide (k = t)) as [-> | Hkt]; [congruence |].
      rewrite index_insert_ne by lia. exact Hn.
  - apply wp_ret. apply HQ; [reflexivity |].
    intros k n Hn. rewrite decide_True; [exact Hn |].
    destruct (decide (t = UNUSED)); tauto.
Qed.

(** [free], lines 344-366: the node of [s] is released and comes back as the
    free node of the merged span. *)
Lemma wp_free_insert Q sz mx fstor top ub bins ns fs fo v1 s v2 offset size :
  FreeMid (mkOffsetAllocator sz mx fstor top ub bins (Some ns) (Some fs) fo)
          v1 s v2 offset size ->
  (forall a', Inv a' (v1 ++ mkSpan (handle s) offset size false :: v2) -> Q tt a') ->
  wp (neighborNext ← field (handle s) neighborNext;
      neighborPrev ← field (handle s) neighborPrev;
      freeOffset ← get m_freeOffset;
      put (set_m_freeOffset (add32 freeOffset 1));;
      storeFreeNodes (add32 freeOffset 1) (handle s);;
      combinedNodeIndex ← insertNodeIntoBin size offset;
      (if decide (neighborNext <> UNUSED) then
         setField combinedNodeIndex (set_neighborNext neighborNext);;
         setField neighborNext (set_neighborPrev combinedNodeIndex)
       else mret tt);;
      (if decide (neighborPrev <> UNUSED) then
         setField combinedNodeIndex (set_neighborPrev neighborPrev);;
         setField neighborPrev (set_neighborNext combinedNodeIndex)
       else mret tt)) Q
     (mkOffsetAllocator sz mx fstor top ub bins (Some ns) (Some fs) fo).
Proof.
  intros HMid HQ.
  destruct (FreeMid_facts _ _ _ _ _ _ HMid)
    as (Hnd & Hoff0 & Hoffsz & Hrange & Hfst & Hfstr & HndF & Hothers).
  simpl in Hoffsz, Hfst, Hfstr.
  destruct HMid as (ns0 & fs0 & Hns0 & Hfs0 & Hsz & Hlen & Hstack & Hmatch & Hs &
                    (X & D1) & (ni & Hni & HniP & HniN) & (Y & D2) & Ht1 & Hsize & Ht2 & Hbins).
  simpl in Hns0, Hfs0, Hsz, Hlen, Hstack, Ht2, Hbins.
  assert (ns0 = ns) as -> by congruence. assert (fs0 = fs) as -> by congruence.
  clear Hns0 Hfs0.
  assert (0 <= mx < 2 ^ 32 - 1) as Hmx by (destruct Hstack as (? & _); assumption).
  assert (Z.of_nat (length ns) <= UNUSED) as Hsmall by (unfold UNUSED; lia).
  assert (Z.of_nat (length fs) = mx + 1) as Hfslen by (destruct Hstack as (_ & ? & _); assumption).
  set (i := handle s) in *.
  set (NN := hd UNUSED (handles v2)) in *.
  set (PP := default UNUSED (list.last (handles v1))) in *.
  assert (handles (v1 ++ s :: v2) ≡ₚ i :: handles (v1 ++ v2)) as Hlive.
  { rewrite !handles_app. simpl. symmetry. apply Permutation_middle. }
  destruct (stack_push _ _ _ _ _ _ Hstack Hlive) as [Hfo' Hstack'].
  apply wp_bind. eapply wp_field; [reflexivity | exact Hni |]. rewrite HniN.
  apply wp_bind. eapply wp_field; [reflexivity | exact Hni |]. rewrite HniP.
  wp_get. wp_put.
  apply wp_bind. eapply wp_storeFreeNodes; [reflexivity | exact Hfo' |]. st.
  assert (forall k, k ∈ handles (freeSpans (v1 ++ v2)) -> k ∈ handles (v1 ++ v2)) as Hsub.
  { intros k. apply handles_freeSpans_sub. }
  apply wp_bind.
  apply (wp_insertNodeIntoBin size offset _ _ _ _ _ _ _ _ _ _ _ _
           Hlen Hstack' ltac:(unfold NO_SPACE; lia) Hbins HndF Hsub); [lia | lia |].
  intros j ns_c bins_c ub_c top_c Hjidx Hj Hjr Hlen_c Hstack_c Hbins_c [h Hnj] Hns_c.
  rewrite index_insert_eq in Hjidx by exact Hfo'.
  assert (j = i) as -> by congruence. clear Hjidx.
  set (nic := Node_init offset size h) in *.
  (* the neighbours, when there are any *)
  assert (forall k, k ∈ handles v1 ++ handles v2 ->
            k <> i /\ exists n, index ns k = Some n /\
              exists n', index ns_c k = Some n' /\ same_but_bin_links n n') as Hnb.
  { intros k Hk.
    assert (k <> i) as Hki.
    { rewrite <- handles_app in Hk. apply elem_of_handles in Hk as (s0 & Hs0 & <-).
      apply Hothers, Hs0. }
    split; [exact Hki |].
    assert (exists s0, s0 ∈ v1 ++ s :: v2 /\ handle s0 = k) as (s0 & Hs0 & Hk0).
    { apply elem_of_handles. rewrite handles_app. simpl.
      apply elem_of_app in Hk as [? | ?]; apply elem_of_app; [left | right; right]; assumption. }
    destruct (Forall_matches_elem _ _ _ Hmatch Hs0) as (n & Hn & _). rewrite Hk0 in Hn.
    exists n. split; [exact Hn |]. apply Hns_c; assumption. }
  assert (NN <> UNUSED -> NN ∈ handles v2) as HNN.
  { unfold NN. destruct (handles v2); simpl; [congruence | intros _; left]. }
  assert (PP <> UNUSED -> PP ∈ handles v1) as HPP.
  { unfold PP. destruct (list.last (handles v1)) eqn:Hl; simpl; [| congruence].
    intros _. apply last_Some_elem_of, Hl. }
  assert (PP <> UNUSED -> PP <> NN) as HPN.
  { intros Hu Heq. rewrite !handles_app in Hnd. simpl in Hnd.
    apply list.NoDup_app in Hnd as (_ & Hd & _). apply (Hd PP (HPP Hu)).
    right. rewrite Heq. apply HNN. congruence. }
  apply wp_bind.
  apply (wp_link set_neighborNext set_neighborPrev i NN nic); [exact Hnj | |].
  { intros Hu. destruct (Hnb NN ltac:(apply elem_of_app; right; exact (HNN Hu)))
      as (Hne & n & _ & n' & Hn' & _). eauto. }
  intros ns_1 Hlen_1 Hidx_1.
  assert (index ns_1 i = Some (if decide (NN = UNUSED) then nic else set_neighborNext NN nic))
    as Hni_1.
  { rewrite (Hidx_1 i nic Hnj). rewrite (decide_True (P := i = i)) by reflexivity. reflexivity. }
  eapply (wp_link set_neighborPrev set_neighborNext i PP); [exact Hni_1 | |].
  { intros Hu. destruct (Hnb PP ltac:(apply elem_of_app; left; exact (HPP Hu)))
      as (Hne & n & _ & n' & Hn' & _).
    split; [exact Hne |]. rewrite (Hidx_1 _ _ Hn'). eauto. }
  intros ns_2 Hlen_2 Hidx_2.
  apply HQ.
  (* the nodes of the final state *)
  assert (exists nif, index ns_2 i = Some nif /\
            dataOffset nif = offset /\ dataSize nif = size /\ used nif = false /\
            neighborPrev nif = PP /\ neighborNext nif = NN /\
            binListPrev nif = binListPrev nic /\ binListNext nif = binListNext nic)
    as (nif & Hnif & Hfo_ & Hfs_ & Hfu_ & HfP & HfN & HfbP & HfbN).
  { rewrite (Hidx_2 i _ Hni_1). rewrite (decide_True (P := i = i)) by reflexivity.
    eexists. split; [reflexivity |].
    destruct (decide (PP = UNUSED)) as [HP | HP], (decide (NN = UNUSED)) as [HN | HN];
      simpl; rewrite ?HP, ?HN; repeat split; reflexivity. }
  assert (forall k n, k <> i -> index ns_c k = Some n ->
            exists n', index ns_2 k = Some n' /\
              dataOffset n' = dataOffset n /\ dataSize n' = dataSize n /\
              used n' = used n /\
              binListPrev n' = binListPrev n /\ binListNext n' = binListNext n /\
              neighborPrev n' = (if decide (k = NN) then i else neighborPrev n) /\
              neighborNext n' = (if decide (k = PP) then i else neighborNext n))
    as Hrel.
  { intros k n Hki Hn. pose proof (index_not_UNUSED ns_c ltac:(lia) k n Hn) as HkU.
    rewrite (Hidx_2 k _ (Hidx_1 k n Hn)).
    rewrite !(decide_False (P := k = i)) by exact Hki.
    eexists. split; [reflexivity |].
    destruct (decide (PP = UNUSED)) as [HP | HP], (decide (NN = UNUSED)) as [HN | HN];
      destruct (decide (k = PP)) as [HkP | HkP], (decide (k = NN)) as [HkN | HkN];
      try congruence; simpl; repeat split; reflexivity. }
  assert (forall s0, s0 ∈ v1 ++ v2 -> matches ns_2 s0) as Hmatch_2.
  { intros s0 Hs0. apply (matches_frame ns).
    - apply (Forall_matches_elem _ _ _ Hmatch).
      apply elem_of_app in Hs0 as [? | ?]; apply elem_of_app; [left | right; right]; assumption.
    - intros n Hn.
      destruct (Hns_c _ n (Hothers s0 Hs0) Hn) as (n1 & Hn1 & Ho1 & Hs1 & _ & _ & Hu1).
      destruct (Hrel _ n1 (Hothers s0 Hs0) Hn1) as (n2 & Hn2 & Ho2 & Hs2 & Hu2 & _).
      exists n2. split; [exact Hn2 |]. split; [congruence |]. split; congruence. }
  assert (forall k n, k ∈ handles v1 ++ handles v2 -> index ns k = Some n ->
            exists n', index ns_2 k = Some n' /\
              neighborPrev n' = (if decide (k = NN) then i else neighborPrev n) /\
              neighborNext n' = (if decide (k = PP) then i else neighborNext n))
    as Hlinks.
  { intros k n Hk Hn. destruct (Hnb k Hk) as (Hki & n0 & Hn0 & n1 & Hn1 & _ & _ & HP1 & HN1 & _).
    assert (n0 = n) as -> by congruence.
    destruct (Hrel k n1 Hki Hn1) as (n2 & Hn2 & _ & _ & _ & _ & _ & HP2 & HN2).
    exists n2. split; [exact Hn2 |]. rewrite HP2, HN2, HP1, HN1. split; reflexivity. }
  assert (forall k, k ∈ handles v1 -> k <> NN) as H1NN.
  { intros k Hk Heq.
    assert (NN <> UNUSED) as Hu.
    { rewrite <- Heq. destruct (Hnb k ltac:(apply elem_of_app; left; exact Hk))
        as (_ & n & Hn & _). eapply index_not_UNUSED; eauto. }
    rewrite !handles_app in Hnd. simpl in Hnd.
    apply list.NoDup_app in Hnd as (_ & Hd & _). apply (Hd k Hk).
    right. rewrite Heq. apply HNN, Hu. }
  assert (forall k, k ∈ handles v2 -> k <> PP) as H2PP.
  { intros k Hk Heq.
    assert (PP <> UNUSED) as Hu.
    { rewrite <- Heq. destruct (Hnb k ltac:(apply elem_of_app; right; exact Hk))
        as (_ & n & Hn & _). eapply index_not_UNUSED; eauto. }
    rewrite !handles_app in Hnd. simpl in Hnd.
    apply list.NoDup_app in Hnd as (_ & Hd & _). apply (Hd PP (HPP Hu)).
    right. rewrite <- Heq. exact Hk. }
  pose proof Hnd as Hnd'. rewrite !handles_app in Hnd'. simpl in Hnd'.
  apply list.NoDup_app in Hnd' as (Hnd1 & _ & Hnd2).
  apply list.NoDup_cons in Hnd2 as [_ Hnd2].
  exists ns_2, (<[Z.to_nat (add32 fo 1) := i]> fs). st.
  split; [reflexivity |]. split; [reflexivity |]. split; [exact Hsz |].
  split; [rewrite Hlen_2, Hlen_1; exact Hlen_c |].
  split.
  { eapply stack_perm; [exact Hstack_c |]. rewrite !handles_app. simpl.
    apply Permutation_middle. }
  split; [| split; [| split]].
  - apply Forall_app. split; [| constructor].
    + apply list.Forall_forall. intros s0 Hs0. apply Hmatch_2, elem_of_app. left. exact Hs0.
    + exists nif. simpl. auto.
    + apply list.Forall_forall. intros s0 Hs0. apply Hmatch_2, elem_of_app. right. exact Hs0.
  - rewrite handles_app. simpl. fold i.
    apply dlist_app. simpl hd. split.
    + replace (hd UNUSED (handles v1 ++ i :: handles v2)) with (hd i (handles v1))
        by (destruct (handles v1); reflexivity).
      eapply dlist_renext; [exact D1 | exact Hnd1 |].
      intros k n Hk Hn.
      destruct (Hlinks k n ltac:(apply elem_of_app; left; exact Hk) Hn) as (n' & Hn' & HP' & HN').
      exists n'. split; [exact Hn' |].
      rewrite decide_False in HP' by (apply H1NN, Hk). split; [exact HP' |].
      rewrite HN'. unfold PP.
      destruct (list.last (handles v1)) as [p |] eqn:Hl; simpl.
      * destruct (decide (k = p)) as [-> | Hkp].
        -- rewrite decide_True by reflexivity. reflexivity.
        -- rewrite decide_False by congruence. reflexivity.
      * rewrite decide_False by (eapply index_not_UNUSED; eauto). reflexivity.
    + split; [reflexivity |]. exists nif. split; [exact Hnif |]. split; [exact HfP |].
      rewrite HfN. eapply dlist_reprev; [exact D2 | exact Hnd2 |].
      intros k n Hk Hn.
      destruct (Hlinks k n ltac:(apply elem_of_app; right; exact Hk) Hn) as (n' & Hn' & HP' & HN').
      exists n'. split; [exact Hn' |].
      rewrite decide_False in HN' by (apply H2PP, Hk). split; [exact HN' | exact HP'].
  - apply tiles_app. pose proof (tiles_total _ _ _ Ht1) as Htot1.
    replace (0 + total v1) with offset by lia.
    split; [exact Ht1 |]. simpl. split; [reflexivity |]. split; [exact Hsize | exact Ht2].
  - eapply bins_perm; [| symmetry; apply freeSpans_split; reflexivity].
    eapply bins_frame; [exact Hbins_c |].
    intros k n _ Hn. destruct (decide (k = i)) as [-> | Hki].
    + assert (n = nic) as -> by congruence. exists nif. auto.
    + destruct (Hrel k n Hki Hn) as (n' & Hn' & _ & _ & _ & HbP & HbN & _).
      exists n'. auto.
Qed.

Lemma FreeMid_record a v1 s v2 offset size :
  FreeMid a v1 s v2 offset size ->
  exists ns fs ni,
    a = mkOffsetAllocator (m_size a) (m_maxAllocs a) (m_freeStorage a)
          (m_usedBinsTop a) (m_usedBins a) (m_binIndices a) (Some ns) (Some fs)
          (m_freeOffset a) /\
    Z.of_nat (length ns) <= UNUSED /\
    Forall (matches ns) (v1 ++ s :: v2) /\
    index ns (handle s) = Some ni /\
    neighborPrev ni = default UNUSED (handle <$> list.last v1) /\
    neighborNext ni = default UNUSED (handle <$> head v2).
Proof.
  intros (ns & fs & Hns & Hfs & _ & Hlen & Hstack & Hmatch & _ & _ &
          (ni & Hni & HP & HN) & _).
  exists ns, fs, ni. split; [destruct a; simpl in *; congruence |].
  split. { destruct Hstack as (Hmx & _). unfold UNUSED. lia. }
  split; [exact Hmatch |]. split; [exact Hni |].
  rewrite last_handles in HP. rewrite hd_handles in HN. auto.
Qed.

Lemma wp_free Q a v1 s v2 :
  Inv a (v1 ++ s :: v2) -> inUse s = true ->
  (forall a', Inv a' (freedSpans v1 s v2) -> Q tt a') ->
  wp (free (handle s)) Q a.
Proof.
  intros HInv Hs HQ.
  pose proof (FreeMid_init _ _ _ _ HInv Hs) as HMid.
  destruct (FreeMid_record _ _ _ _ _ _ HMid)
    as (ns & fs & ni & Ha & Hsmall & Hmatch & Hni & HniP & HniN).
  rewrite Ha in HMid |- *. clear Ha.
  destruct (Forall_matches_elem _ _ s Hmatch ltac:(apply elem_of_app; right; left))
    as (ni0 & Hni0 & Hoff & Hsize & _).
  assert (ni0 = ni) as -> by congruence. clear Hni0.
  unfold free. wp_get.
  rewrite decide_False.
  2:{ intros [Hno | Hnull]; [| discriminate].
      eapply (index_not_UNUSED ns Hsmall); [exact Hni | exact Hno]. }
  apply wp_bind. eapply wp_field; [reflexivity | exact Hni |]. rewrite Hoff.
  apply wp_bind. eapply wp_field; [reflexivity | exact Hni |]. rewrite Hsize.
  apply wp_bind. eapply wp_field; [reflexivity | exact Hni |]. rewrite HniP.
  apply wp_bind. apply (wp_neighborIsFree ns (list.last v1)); [reflexivity | exact Hsmall | |].
  { intros p Hp. apply (Forall_matches_elem _ _ _ Hmatch).
    apply elem_of_app. left. apply last_Some_elem_of, Hp. }
  apply wp_bind. eapply wp_free_mergePrev; [exact HMid |].
  intros a1 HMid1. unfold freedSpans in HQ.
  destruct (mergePrev v1 (start s) (len s)) as [[v1' offset] size1]. simpl in HMid1 |- *.
  destruct (FreeMid_record _ _ _ _ _ _ HMid1)
    as (ns1 & fs1 & ni1 & Ha1 & Hsmall1 & Hmatch1 & Hni1 & _ & HniN1).
  rewrite Ha1 in HMid1 |- *. clear Ha1.
  apply wp_bind. eapply wp_field; [reflexivity | exact Hni1 |]. rewrite HniN1.
  apply wp_bind. apply (wp_neighborIsFree ns1 (head v2)); [reflexivity | exact Hsmall1 | |].
  { intros n Hn. apply (Forall_matches_elem _ _ _ Hmatch1).
    apply elem_of_app. right. right. destruct v2; [discriminate |].
    simpl in Hn. injection Hn as ->. left. }
  apply wp_bind. eapply wp_free_mergeNext; [exact HMid1 |].
  intros a2 HMid2.
  destruct (mergeNext v2 size1) as [v2' size2]. simpl in HMid2 |- *.
  destruct (FreeMid_record _ _ _ _ _ _ HMid2) as (ns2 & fs2 & ni2 & Ha2 & _).
  rewrite Ha2 in HMid2 |- *. clear Ha2.
  eapply wp_free_insert; [exact HMid2 |]. exact HQ.
Qed.

(** ** [reset] *)

Lemma wp_forLoop (I : Z -> OffsetAllocator -> Prop) count from body Q a :
  I from a ->
  (forall i a0, from <= i < from + Z.of_nat count -> I i a0 ->
     wp (body i) (fun _ a' => I (i + 1) a') a0) ->
  (forall a', I (from + Z.of_nat count) a' -> Q tt a') ->
  wp (forLoop count from body) Q a.
Proof.
  revert from a. induction count as [| count IH]; intros from a HI Hbody HQ.
  - apply wp_ret, HQ. rewrite Z.add_0_r. exact HI.
  - simpl forLoop. apply wp_bind.
    eapply wp_mono; [apply (Hbody from a); [lia | exact HI] |].
    intros u a' HI'. simpl in HI'. apply (IH (from + 1) a' HI').
    + intros i a0 Hi. apply Hbody. lia.
    + intros a'' HI''. apply HQ. replace (from + Z.of_nat (S count))
        with (from + 1 + Z.of_nat count) by lia. exact HI''.
Qed.

Lemma fill_step {A} (f : Z -> A) (l : list A) (i : Z) :
  0 <= i < Z.of_nat (length l) ->
  <[Z.to_nat i := f i]> ((f <$> seqZ 0 i) ++ drop (Z.to_nat i) l)
  = (f <$> seqZ 0 (i + 1)) ++ drop (Z.to_nat (i + 1)) l.
Proof.
  intros Hi.
  destruct (lookup_lt_is_Some_2 l (Z.to_nat i) ltac:(lia)) as [x0 Hx0].
  rewrite insert_app_r_alt by (rewrite length_fmap, length_seqZ; lia).
  rewrite length_fmap, length_seqZ, Nat.sub_diag.
  rewrite (drop_S l x0 (Z.to_nat i) Hx0). simpl.
  replace (Z.to_nat (i + 1)) with (S (Z.to_nat i)) by lia.
  rewrite (seqZ_app 0 i 1) by lia. rewrite fmap_app, <- app_assoc. reflexivity.
Qed.

Lemma fill_all {A} (f : Z -> A) (l : list A) :
  (f <$> seqZ 0 (Z.of_nat (length l))) ++ drop (Z.to_nat (Z.of_nat (length l))) l
  = f <$> seqZ 0 (Z.of_nat (length l)).
Proof. rewrite drop_ge by lia. apply app_nil_r. Qed.

Lemma reset_noop newSize a :
  m_size a = newSize -> reset newSize a = Some (tt, a).
Proof.
  intros H. unfold reset. unfold mbind, M_bind, get. rewrite decide_True by exact H.
  reflexivity.
Qed.

Lemma wp_reset_init newSize Q sz mx fstor top ub bins ons ofs fo :
  sz <> newSize ->
  length ub = 32%nat -> length bins = 256%nat ->
  0 <= mx < 2 ^ 32 - 1 ->
  wp (insertNodeIntoBin newSize 0;; mret tt) Q (resetState newSize mx) ->
  wp (reset newSize) Q (mkOffsetAllocator sz mx fstor top ub bins ons ofs fo).
Proof.
  intros Hne Hub Hbins Hmx HQ.
  unfold reset. wp_get. rewrite decide_False by exact Hne.
  wp_put. wp_put. wp_put. wp_get. wp_put.
  apply wp_bind.
  apply (wp_forLoop (fun i a' => a' =
    mkOffsetAllocator newSize mx 0 0
      (((fun _ => 0) <$> seqZ 0 i) ++ drop (Z.to_nat i) ub) bins ons ofs mx)).
  { reflexivity. }
  { intros i a0 Hi ->. change (Z.of_nat (Z.to_nat NUM_TOP_BINS)) with 32 in Hi.
    apply wp_storeUsedBins; st.
    - rewrite length_app, length_fmap, length_seqZ, length_drop. lia.
    - rewrite (fill_step (fun _ => 0)) by lia. reflexivity. }
  intros a' ->. change (0 + Z.of_nat (Z.to_nat NUM_TOP_BINS)) with (Z.of_nat 32).
  rewrite <- Hub, fill_all, Hub.
  apply wp_bind.
  apply (wp_forLoop (fun i a' => a' =
    mkOffsetAllocator newSize mx 0 0 ((fun _ => 0) <$> seqZ 0 (Z.of_nat 32))
      (((fun _ => UNUSED) <$> seqZ 0 i) ++ drop (Z.to_nat i) bins) ons ofs mx)).
  { reflexivity. }
  { intros i a0 Hi ->. change (Z.of_nat (Z.to_nat NUM_LEAF_BINS)) with 256 in Hi.
    apply wp_storeBinIndices; st.
    - rewrite length_app, length_fmap, length_seqZ, length_drop. lia.
    - rewrite (fill_step (fun _ => UNUSED)) by lia. reflexivity. }
  intros a' ->. change (0 + Z.of_nat (Z.to_nat NUM_LEAF_BINS)) with (Z.of_nat 256).
  rewrite <- Hbins, fill_all, Hbins.
  wp_put. wp_put.
  rewrite add32_small by lia.
  set (fs0 := replicate (Z.to_nat (mx + 1)) 0).
  assert (Z.of_nat (length fs0) = mx + 1) as Hfs0
    by (unfold fs0; rewrite length_replicate; lia).
  apply wp_bind.
  apply (wp_forLoop (fun i a' => a' =
    mkOffsetAllocator newSize mx 0 0 ((fun _ => 0) <$> seqZ 0 (Z.of_nat 32))
      ((fun _ => UNUSED) <$> seqZ 0 (Z.of_nat 256))
      (Some (replicate (Z.to_nat (mx + 1)) Node_default))
      (Some (((fun i => sub32 mx i) <$> seqZ 0 i) ++ drop (Z.to_nat i) fs0)) mx)).
  { reflexivity. }
  { intros i a0 Hi ->.
    eapply wp_storeFreeNodes; [reflexivity | |]; st.
    - rewrite length_app, length_fmap, length_seqZ, length_drop. lia.
    - rewrite (fill_step (fun i => sub32 mx i)) by lia. reflexivity. }
  intros a' ->.
  replace (0 + Z.of_nat (Z.to_nat (mx + 1))) with (Z.of_nat (length fs0)) by lia.
  rewrite fill_all, Hfs0.
  assert ((fun i => sub32 mx i) <$> seqZ 0 (mx + 1)
          = (fun i => mx - i) <$> seqZ 0 (mx + 1)) as ->.
  { apply list_fmap_ext. intros k i Hk. apply lookup_seqZ in Hk as [-> Hk].
    apply sub32_small. lia. }
  wp_get. exact HQ.
Qed.

Lemma resetState_stack mx :
  0 <= mx < 2 ^ 32 - 1 ->
  stack_ok mx ((fun i => mx - i) <$> seqZ 0 (mx + 1)) mx [].
Proof.
  intros Hmx. unfold stack_ok.
  rewrite wrap32_small by lia.
  rewrite take_ge by (rewrite length_fmap, length_seqZ; lia).
  rewrite app_nil_r.
  split; [exact Hmx |]. split; [rewrite length_fmap, length_seqZ; lia |].
  split; [lia |]. split; [simpl; lia |]. split.
  - apply NoDup_fmap_2; [| apply NoDup_seqZ]. intros x y H. lia.
  - intros i Hi. apply list_elem_of_fmap in Hi as (k & -> & Hk).
    apply elem_of_seqZ in Hk. lia.
Qed.

Lemma index_fmap_seqZ {A} (f : Z -> A) n i :
  0 <= i < n -> index (f <$> seqZ 0 n) i = Some (f i).
Proof.
  intros Hi. unfold index. rewrite decide_True by lia.
  rewrite list_lookup_fmap, lookup_seqZ_lt by lia. simpl. f_equal. f_equal. lia.
Qed.

Lemma resetState_bins ns :
  bins_ok ns ((fun _ => UNUSED) <$> seqZ 0 NUM_LEAF_BINS)
    ((fun _ => 0) <$> seqZ 0 NUM_TOP_BINS) 0 0 [].
Proof.
  exists (fun _ => []). split; [reflexivity |]. split; [| split; [| split]].
  - intros b Hb. exists UNUSED. split; [apply index_fmap_seqZ; exact Hb |].
    split; [reflexivity | constructor].
  - intros b i. split.
    + intros H. apply elem_of_nil in H. contradiction.
    + intros (s & Hs & _). apply elem_of_nil in Hs. contradiction.
  - split; [reflexivity |]. split; [lia |].
    intros t Ht. exists 0. split; [apply index_fmap_seqZ; exact Ht |].
    split; [lia |]. split.
    + rewrite Z.bits_0. split; [discriminate | congruence].
    + intros l Hl. rewrite Z.bits_0. split; [discriminate | congruence].
  - reflexivity.
Qed.

(** After a [reset] that takes effect the allocator holds one free node,
    the whole region. *)
Lemma wp_reset newSize Q a :
  m_size a <> newSize ->
  length (m_usedBins a) = 32%nat -> length (m_binIndices a) = 256%nat ->
  0 <= m_maxAllocs a < 2 ^ 32 - 1 ->
  0 <= newSize < 2 ^ 32 ->
  (forall a', Inv a' [mkSpan 0 0 newSize false] ->
     m_maxAllocs a' = m_maxAllocs a -> m_size a' = newSize ->
     m_freeOffset a' = sub32 (m_maxAllocs a) 1 ->
     Q tt a') ->
  wp (reset newSize) Q a.
Proof.
  intros Hne Hub Hbins Hmx Hsize HQ.
  destruct a as [sz mx fstor top ub bins ons ofs fo]. simpl in *.
  apply wp_reset_init; try assumption.
  unfold resetState.
  apply wp_bind.
  apply (wp_insertNodeIntoBin newSize 0 _ _ _ _ _ _ _ _ _ _ [] []).
  { rewrite length_replicate. lia. }
  { apply resetState_stack, Hmx. }
  { unfold NO_SPACE. lia. }
  { apply resetState_bins. }
  { constructor. }
  { intros i Hi. apply elem_of_nil in Hi. contradiction. }
  { lia. }
  { lia. }
  intros j ns' bins' ub' top' Hj _ _ Hlen' Hstack' Hbins' [h Hnj] _.
  rewrite index_fmap_seqZ in Hj by lia.
  assert (j = 0) as -> by (injection Hj; lia). clear Hj.
  apply wp_ret. apply HQ; try reflexivity.
  exists ns', ((fun i => mx - i) <$> seqZ 0 (mx + 1)). simpl.
  split; [reflexivity |]. split; [reflexivity |]. split; [exact Hsize |].
  split; [exact Hlen' |]. split; [exact Hstack' |].
  split; [| split; [| split]].
  - constructor; [| constructor]. eexists. split; [exact Hnj |]. simpl. auto.
  - split; [reflexivity |]. eexists. split; [exact Hnj |]. simpl. auto.
  - split; [reflexivity |]. split; [lia |]. lia.
  - exact Hbins'.
Qed.

(** ** What no call changes *)

Lemma preserves_ret {A} (x : A) : preserves (mret x).
Proof. intros a y a' H. injection H as <- <-. auto. Qed.

Lemma preserves_bind {A B} (m : M A) (k : A -> M B) :
  preserves m -> (forall x, preserves (k x)) -> preserves (m ≫= k).
Proof.
  intros Hm Hk a y a' H. unfold mbind, M_bind in H.
  destruct (m a) as [[x a1] |] eqn:Hma; [| discriminate].
  destruct (Hm _ _ _ Hma) as [H1 H2]. destruct (Hk x _ _ _ H) as [H3 H4].
  split; congruence.
Qed.

Lemma preserves_undefined {A} : preserves (@undefined A).
Proof. intros a y a' H. discriminate. Qed.

Lemma preserves_get {A} (f : OffsetAllocator -> A) : preserves (get f).
Proof. intros a y a' H. injection H as <- <-. auto. Qed.

Lemma preserves_lift {A} (o : option A) : preserves (lift o).
Proof. destruct o; [apply preserves_ret | apply preserves_undefined]. Qed.

Lemma preserves_requires (P : Prop) `{Decision P} : preserves (requires P).
Proof. unfold requires. destruct (decide P); [apply preserves_ret | apply preserves_undefined]. Qed.

Lemma preserves_put f :
  (forall a, m_size (f a) = m_size a /\ m_maxAllocs (f a) = m_maxAllocs a) ->
  preserves (put f).
Proof. intros Hf a y a' H. injection H as <- <-. apply Hf. Qed.

Ltac preserves_step :=
  first
    [ apply preserves_ret
    | apply preserves_get
    | apply preserves_lift
    | apply preserves_requires
    | apply preserves_undefined
    | apply preserves_put; intros ?; split; reflexivity
    | apply preserves_bind; [| intros ?]
    | match goal with
      | |- preserves (if ?c then _ else _) => destruct c
      | |- preserves (match ?x with _ => _ end) => destruct x
      end ].

Lemma preserves_loadUsedBins i : preserves (loadUsedBins i).
Proof. unfold loadUsedBins. repeat preserves_step. Qed.
Lemma preserves_storeUsedBins i v : preserves (storeUsedBins i v).
Proof. unfold storeUsedBins. repeat preserves_step. Qed.
Lemma preserves_loadBinIndices i : preserves (loadBinIndices i).
Proof. unfold loadBinIndices. repeat preserves_step. Qed.
Lemma preserves_storeBinIndices i v : preserves (storeBinIndices i v).
Proof. unfold storeBinIndices. repeat preserves_step. Qed.
Lemma preserves_loadFreeNodes i : preserves (loadFreeNodes i).
Proof. unfold loadFreeNodes. repeat preserves_step. Qed.
Lemma preserves_storeFreeNodes i v : preserves (storeFreeNodes i v).
Proof. unfold storeFreeNodes. repeat preserves_step. Qed.
Lemma preserves_loadNode i : preserves (loadNode i).
Proof. unfold loadNode. repeat preserves_step. Qed.
Lemma preserves_storeNode i n : preserves (storeNode i n).
Proof. unfold storeNode. repeat preserves_step. Qed.
Lemma preserves_field {A} i (f : Node -> A) : preserves (field i f).
Proof. unfold field. apply preserves_bind; [apply preserves_loadNode | intros; apply preserves_ret]. Qed.
Lemma preserves_setField i f : preserves (setField i f).
Proof. unfold setField. apply preserves_bind; [apply preserves_loadNode | intros; apply preserves_storeNode]. Qed.

Ltac preserves_prim :=
  first
    [ apply preserves_loadUsedBins | apply preserves_storeUsedBins
    | apply preserves_loadBinIndices | apply preserves_storeBinIndices
    | apply preserves_loadFreeNodes | apply preserves_storeFreeNodes
    | apply preserves_field | apply preserves_setField
    | preserves_step ].

Lemma preserves_insertNodeIntoBin size off : preserves (insertNodeIntoBin size off).
Proof. unfold insertNodeIntoBin. repeat preserves_prim. Qed.

Lemma preserves_removeNodeFromBin i : preserves (removeNodeFromBin i).
Proof. unfold removeNodeFromBin. repeat preserves_prim. Qed.

Lemma preserves_allocateFromBin size t l : preserves (allocateFromBin size t l).
Proof.
  unfold allocateFromBin.
  repeat first [apply preserves_insertNodeIntoBin | preserves_prim].
Qed.

Lemma preserves_allocate size : preserves (allocate size).
Proof.
  unfold allocate.
  repeat first [apply preserves_allocateFromBin | preserves_prim].
Qed.

Lemma preserves_free i : preserves (free i).
Proof.
  unfold free.
  repeat first [apply preserves_insertNodeIntoBin | apply preserves_removeNodeFromBin
               | preserves_prim].
Qed.

(** ** The reports *)

Lemma bins_bit_empty ns bins ub top fst F t l leaf :
  bins_ok ns bins ub top fst F ->
  0 <= t < 32 -> 0 <= l < 8 ->
  index ub t = Some leaf -> Z.testbit leaf l = false ->
  index bins (8 * t + l) = Some UNUSED.
Proof.
  intros (bl & _ & Hlists & _ & (_ & _ & Hbm) & _) Ht Hl Hleaf Hbit.
  destruct (Hbm t Ht) as (leaf0 & Hleaf0 & _ & _ & Hbits).
  assert (leaf0 = leaf) as -> by congruence.
  destruct (Hlists (8 * t + l) ltac:(lia)) as (h & Hh & Hd & _).
  destruct (bl (8 * t + l)) as [| i L] eqn:Hbl.
  - simpl in Hd. congruence.
  - assert (Z.testbit leaf l = true) as Hc; [| congruence].
    apply (Hbits l Hl). rewrite Hbl. discriminate.
Qed.

Lemma highest_bit v k :
  0 <= v < 2 ^ k -> v <> 0 -> 0 <= k <= 32 ->
  sub32 31 (lzcnt_nonzero v) = Z.log2 v /\
  0 <= Z.log2 v < k /\
  Z.testbit v (Z.log2 v) = true /\
  forall i, Z.log2 v < i -> Z.testbit v i = false.
Proof.
  intros Hv Hnz Hk32.
  assert (0 <= Z.log2 v) as H0 by apply Z.log2_nonneg.
  assert (Z.log2 v < k) as Hk.
  { assert (0 < k) by (destruct (Z.eq_dec k 0) as [-> | ?]; [simpl in Hv; lia | lia]).
    apply Z.log2_lt_pow2; lia. }
  repeat split; try lia.
  - unfold lzcnt_nonzero, sub32.
    replace (31 - (31 - Z.log2 v)) with (Z.log2 v) by lia.
    apply wrap32_small. lia.
  - apply nonzero_has_bit; lia.
  - intros i Hi. apply Z.bits_above_log2; lia.
Qed.

Lemma storageReport_spec a v :
  Inv a v -> m_freeOffset a <> 0 ->
  m_freeStorage a = total (freeSpans v) /\
  exists b,
    highestBin a b /\
    storageReport a = Some (mkStorageReport (m_freeStorage a) (binSize b), a) /\
    binSize b <= m_freeStorage a.
Proof.
  intros HInv Hfo.
  pose proof HInv as (ns & fs & Hns & Hfs & Hsz & Hlen & Hstack & _ & _ & Htiles & Hbins).
  assert (Z.of_nat (length ns) <= UNUSED) as Hsmall.
  { destruct Hstack as (Hmx & _). unfold UNUSED. lia. }
  pose proof (bins_ok_total _ _ _ _ _ _ Hbins) as Htot.
  pose proof (total_freeSpans_bounds _ _ _ Htiles) as Hfree.
  split; [exact Htot |].
  destruct (bins_top_leaf _ _ _ _ _ _ 0 Hbins ltac:(lia)) as (Htop & _).
  unfold storageReport, mbind, M_bind, get, mret, M_ret.
  destruct (decide (m_freeOffset a = 0)) as [? | _]; [contradiction |].
  destruct (decide (m_usedBinsTop a <> 0)) as [Hnz | Hz].
  - destruct (highest_bit (m_usedBinsTop a) 32 Htop Hnz ltac:(lia)) as (-> & Htr & Htbit & Htabove).
    set (t := Z.log2 (m_usedBinsTop a)) in *.
    destruct (bins_top_leaf _ _ _ _ _ _ t Hbins Htr)
      as (_ & leaf & Hleaf & Hleafr & Hiff).
    apply Hiff in Htbit.
    unfold loadUsedBins, get, lift, mbind, M_bind. rewrite Hleaf.
    unfold mret, M_ret. cbn beta iota.
    unfold requires.
    destruct (decide (leaf <> 0)) as [_ | Hc]; [| destruct (Hc Htbit)].
    unfold mret, M_ret.
    destruct (highest_bit leaf 8 Hleafr Htbit ltac:(lia)) as (-> & Hlr & Hlbit & Hlabove).
    set (l := Z.log2 leaf) in *.
    rewrite bin_compose by lia.
    destruct (bins_bit_head _ _ _ _ _ _ t l leaf Hsmall Hbins Htr Hlr Hleaf Hlbit)
      as (h & Hh & Hhu).
    exists (Some (8 * t + l)). split; [| split; [reflexivity |]].
    + split; [lia |]. split; [eauto |].
      intros b' Hb'.
      destruct (bin_decompose b' ltac:(lia)) as (Hb & Ht' & Hl').
      set (t' := Z.shiftr b' TOP_BINS_INDEX_SHIFT) in *.
      set (l' := Z.land b' LEAF_BINS_INDEX_MASK) in *.
      rewrite Hb.
      destruct (bins_top_leaf _ _ _ _ _ _ t' Hbins Ht')
        as (_ & leaf' & Hleaf' & Hleafr' & Hiff').
      apply (bins_bit_empty _ _ _ _ _ _ t' l' leaf' Hbins Ht' Hl' Hleaf').
      destruct (Z_lt_le_dec t t') as [Hgt | Hle].
      * assert (leaf' = 0) as ->.
        { destruct (Z.eq_dec leaf' 0) as [? | Hne]; [assumption |].
          apply Hiff' in Hne. rewrite Htabove in Hne by lia. discriminate. }
        apply Z.bits_0.
      * assert (t' = t) as Heq by lia.
        rewrite Heq in Hleaf'. assert (leaf' = leaf) as -> by congruence.
        apply Hlabove. lia.
    + simpl.
      destruct (bins_head_span _ _ _ _ _ _ (8 * t + l) h Hsmall Hbins ltac:(lia) Hh Hhu)
        as (s & n & Hs & _ & Hclass & _).
      apply elem_of_freeSpans in Hs as [Hsv Hsfree].
      pose proof (tiles_elem _ _ _ _ Htiles Hsv) as (Hs0 & Hs1 & Hs2).
      rewrite <- Hclass.
      pose proof (smallFloatToUint_RoundDown (len s) ltac:(lia)) as Hrd.
      assert (len s <= total (freeSpans v)); [| lia].
      apply list_elem_of_split in Hsv as (v1 & v2 & ->).
      rewrite (total_perm _ _ (freeSpans_split v1 s v2 Hsfree)).
      assert (0 <= total (freeSpans (v1 ++ v2))); [| simpl; lia].
      apply total_nonneg. intros x Hx. apply elem_of_freeSpans in Hx as [Hx _].
      eapply tiles_len_nonneg; [exact Htiles |].
      rewrite elem_of_app in Hx |- *. rewrite elem_of_cons. tauto.
  - assert (m_usedBinsTop a = 0) as Hzero by (destruct (Z.eq_dec (m_usedBinsTop a) 0); tauto).
    exists None. split; [| split; [reflexivity | simpl; lia]].
    intros b' Hb'.
    destruct (bin_decompose b' ltac:(lia)) as (Hb & Ht' & Hl').
    set (t' := Z.shiftr b' TOP_BINS_INDEX_SHIFT) in *.
    set (l' := Z.land b' LEAF_BINS_INDEX_MASK) in *.
    rewrite Hb.
    destruct (bins_top_leaf _ _ _ _ _ _ t' Hbins Ht')
      as (_ & leaf' & Hleaf' & Hleafr' & Hiff').
    apply (bins_bit_empty _ _ _ _ _ _ t' l' leaf' Hbins Ht' Hl' Hleaf').
    assert (leaf' = 0) as ->.
    { destruct (Z.eq_dec leaf' 0) as [? | Hne]; [assumption |].
      apply Hiff' in Hne. rewrite Hzero, Z.bits_0 in Hne. discriminate. }
    apply Z.bits_0.
Qed.

Lemma allocationSize_spec a v s offset :
  Inv a v -> s ∈ v ->
  allocationSize (mkAlloc offset (handle s)) a = Some (len s, a).
Proof.
  intros (ns & fs & Hns & Hfs & Hsz & Hlen & Hstack & Hm & _) Hs.
  pose proof (Forall_matches_elem _ _ _ Hm Hs) as (n & Hn & _ & Hsize & _).
  assert (handle s <> NO_SPACE) as Hh.
  { assert (handle s ∈ handles v) as Hin by (apply elem_of_handles; eauto).
    pose proof (stack_live_range _ _ _ _ _ Hstack Hin).
    destruct Hstack as (? & _). unfold NO_SPACE. lia. }
  unfold allocationSize. cbn [metadata].
  destruct (decide (handle s = NO_SPACE)) as [? | _]; [contradiction |].
  unfold mbind, M_bind, get. rewrite Hns.
  destruct (decide (Some ns = None)) as [? | _]; [discriminate |].
  destruct (wp_elim _ _ _
              (wp_field ns (handle s) n dataSize (fun x a' => x = len s /\ a' = a) a
                 Hns Hn (conj Hsize eq_refl)))
    as (x & a' & Heq & -> & ->).
  exact Heq.
Qed.

(** ** Runs of clients *)

Lemma Inv_size a v : Inv a v -> total v = m_size a.
Proof.
  intros (ns & fs & _ & _ & _ & _ & _ & _ & _ & Htiles & _).
  rewrite (tiles_total _ _ _ Htiles). lia.
Qed.

Lemma Inv_handle_range a v s :
  Inv a v -> s ∈ v -> 0 <= handle s <= m_maxAllocs a /\ handle s <> NO_SPACE.
Proof.
  intros (ns & fs & _ & _ & _ & _ & Hstack & _) Hs.
  assert (handle s ∈ handles v) as Hin by (apply elem_of_handles; eauto).
  pose proof (stack_live_range _ _ _ _ _ Hstack Hin).
  destruct Hstack as (? & _). unfold NO_SPACE. lia.
Qed.

Lemma Inv_NoDup a v : Inv a v -> NoDup (handles v).
Proof.
  intros (ns & fs & _ & _ & _ & _ & Hstack & _).
  eapply stack_live_NoDup, Hstack.
Qed.

Lemma Inv_nodesAre a v : Inv a v -> nodesAre a v /\ neighboursLinked a v.
Proof.
  intros (ns & fs & Hns & Hfs & _ & _ & Hstack & Hm & Hd & _).
  split; [| exists ns; auto].
  exists ns. split; [exact Hns |]. split; [exact Hm |].
  exists fs. split; [exact Hfs |].
  split; [eapply stack_live_NoDup, Hstack |].
  destruct Hstack as (Hmx & Hlen & Hfo & Hcount & Hnd & Hrange).
  set (stk := take (Z.to_nat (wrap32 (m_freeOffset a + 1))) fs) in *.
  assert (0 <= wrap32 (m_freeOffset a + 1)) as Hw by (unfold wrap32; apply Z.mod_pos_bound; lia).
  assert (Z.of_nat (length (stk ++ handles v)) = m_maxAllocs a + 1) as Hl.
  { rewrite length_app. unfold stk. rewrite length_take. lia. }
  assert (stk ++ handles v ≡ₚ seqZ 0 (m_maxAllocs a + 1)) as Hperm.
  { apply submseteq_length_Permutation.
    - apply NoDup_submseteq; [exact Hnd |].
      intros i Hi. apply elem_of_seqZ. apply Hrange in Hi. lia.
    - rewrite length_seqZ. lia. }
  intros i Hi. split.
  - intros Hin Hstk. apply list.NoDup_app in Hnd as (_ & Hdis & _).
    exact (Hdis i Hstk Hin).
  - intros Hstk.
    assert (i ∈ stk ++ handles v) as Hin.
    { rewrite Hperm. apply elem_of_seqZ. lia. }
    apply elem_of_app in Hin as [? | ?]; [contradiction | assumption].
Qed.

Lemma usedSpans_app v1 v2 : usedSpans (v1 ++ v2) = usedSpans v1 ++ usedSpans v2.
Proof. apply List.filter_app. Qed.

Lemma elem_of_usedSpans s v : s ∈ usedSpans v <-> s ∈ v /\ inUse s = true.
Proof.
  unfold usedSpans. rewrite !list_elem_of_In. apply List.filter_In.
Qed.

Lemma usedSpans_free v1 s v2 :
  inUse s = false -> usedSpans (v1 ++ s :: v2) = usedSpans (v1 ++ v2).
Proof. intros Hs. rewrite !usedSpans_app. simpl. rewrite Hs. reflexivity. Qed.

Lemma usedSpans_used v1 s v2 :
  inUse s = true -> usedSpans (v1 ++ s :: v2) ≡ₚ s :: usedSpans (v1 ++ v2).
Proof.
  intros Hs. rewrite !usedSpans_app. simpl. rewrite Hs.
  symmetry. apply Permutation_middle.
Qed.

Lemma handles_perm v1 v2 : v1 ≡ₚ v2 -> handles v1 ≡ₚ handles v2.
Proof. intros H. unfold handles. rewrite H. reflexivity. Qed.

Lemma usedSpans_mergePrev v1 offset size :
  usedSpans (mergePrev v1 offset size).1.1 = usedSpans v1.
Proof.
  unfold mergePrev. destruct (list.last v1) as [p |] eqn:Hlast; [| reflexivity].
  destruct (inUse p) eqn:Hp; [reflexivity |]. simpl.
  apply last_Some in Hlast as (l & ->).
  rewrite removelast_snoc, usedSpans_app. simpl. rewrite Hp.
  rewrite app_nil_r. reflexivity.
Qed.

Lemma usedSpans_mergeNext v2 size :
  usedSpans (mergeNext v2 size).1 = usedSpans v2.
Proof.
  unfold mergeNext. destruct v2 as [| n v2]; [reflexivity |].
  destruct (inUse n) eqn:Hn; [reflexivity |]. simpl. rewrite Hn. reflexivity.
Qed.

Lemma usedSpans_freedSpans v1 s v2 :
  usedSpans (freedSpans v1 s v2) = usedSpans (v1 ++ v2).
Proof.
  unfold freedSpans.
  pose proof (usedSpans_mergePrev v1 (start s) (len s)) as H1.
  destruct (mergePrev v1 (start s) (len s)) as [[v1' offset] size].
  pose proof (usedSpans_mergeNext v2 size) as H2.
  destruct (mergeNext v2 size) as [v2' size']. simpl in H1, H2.
  rewrite !usedSpans_app. simpl. congruence.
Qed.

Lemma total_mergePrev v1 offset size :
  total (mergePrev v1 offset size).1.1 + (mergePrev v1 offset size).2 =
  total v1 + size.
Proof.
  unfold mergePrev. destruct (list.last v1) as [p |] eqn:Hlast; [| reflexivity].
  destruct (inUse p) eqn:Hp; [reflexivity |]. simpl.
  apply last_Some in Hlast as (l & ->).
  rewrite removelast_snoc, total_app. simpl. lia.
Qed.

Lemma filter_ne_notin (h : Z) (l : list Z) :
  h ∉ l -> filter (fun x => x <> h) l = l.
Proof.
  induction l as [| x l IH]; intros Hn; [reflexivity |].
  apply not_elem_of_cons in Hn as [Hne Hn].
  rewrite filter_cons_True by congruence. rewrite IH by exact Hn. reflexivity.
Qed.

(** One [allocate] of a run. *)
Lemma allocate_step a v out size :
  Inv a v -> out ≡ₚ handles (usedSpans v) -> 0 <= size < 2 ^ 32 ->
  exists r a' v',
    allocate size a = Some (r, a') /\ Inv a' v' /\
    (if decide (metadata r = NO_SPACE) then out else metadata r :: out)
      ≡ₚ handles (usedSpans v').
Proof.
  intros HInv Hout Hsize.
  enough (wp (allocate size) (fun r a' => exists v', Inv a' v' /\
    (if decide (metadata r = NO_SPACE) then out else metadata r :: out)
      ≡ₚ handles (usedSpans v')) a) as Hwp.
  { destruct (wp_elim _ _ _ Hwp) as (r & a' & H & v' & H'). eauto 10. }
  apply (wp_allocate size _ a v HInv Hsize).
  - exists v. split; [exact HInv |]. simpl.
    destruct (decide (NO_SPACE = NO_SPACE)); [exact Hout | contradiction].
  - intros a' v1 s v2 rest _ -> Hfree _ Hrest HInv'.
    eexists. split; [exact HInv' |]. cbn [metadata].
    destruct (Inv_handle_range a _ s HInv) as [_ Hne].
    { rewrite elem_of_app, elem_of_cons. auto. }
    destruct (decide (handle s = NO_SPACE)) as [? | _]; [contradiction |].
    rewrite Hout, usedSpans_free by exact Hfree.
    rewrite (handles_perm _ _
               (usedSpans_used v1 (mkSpan (handle s) (start s) size true)
                  (rest ++ v2) eq_refl)).
    cbn [handles fmap list_fmap handle]. constructor.
    apply handles_perm. rewrite !usedSpans_app.
    assert (usedSpans rest = []) as ->; [| reflexivity].
    destruct Hrest as [[_ ->] | [_ [j ->]]]; reflexivity.
Qed.

(** One [free] of a run. *)
Lemma free_step a v out h :
  Inv a v -> out ≡ₚ handles (usedSpans v) -> h ∈ out ->
  exists a' v',
    free h a = Some (tt, a') /\ Inv a' v' /\
    filter (fun x => x <> h) out ≡ₚ handles (usedSpans v').
Proof.
  intros HInv Hout Hh.
  rewrite Hout in Hh. apply elem_of_handles in Hh as (s & Hs & <-).
  apply elem_of_usedSpans in Hs as [Hs Hused].
  apply list_elem_of_split in Hs as (v1 & v2 & ->).
  enough (wp (free (handle s)) (fun _ a' => exists v', Inv a' v' /\
    filter (fun x => x <> handle s) out ≡ₚ handles (usedSpans v')) a) as Hwp.
  { destruct (wp_elim _ _ _ Hwp) as ([] & a' & H & v' & H'). eauto 10. }
  apply (wp_free _ a v1 s v2 HInv Hused).
  intros a' HInv'. eexists. split; [exact HInv' |].
  rewrite usedSpans_freedSpans, Hout.
  rewrite (handles_perm _ _ (usedSpans_used v1 s v2 Hused)).
  cbn [handles fmap list_fmap].
  rewrite filter_cons_False by (intros Hc; apply Hc; reflexivity).
  rewrite filter_ne_notin; [reflexivity |].
  pose proof (Inv_NoDup _ _ HInv) as Hnd.
  rewrite handles_app in Hnd. cbn [handles fmap list_fmap] in Hnd.
  apply list.NoDup_app in Hnd as (_ & Hdis & Hnd2).
  apply list.NoDup_cons in Hnd2 as [Hn2 _].
  intros Hin. apply elem_of_handles in Hin as (x & Hx & Hhx).
  apply elem_of_usedSpans in Hx as [Hx _].
  apply elem_of_app in Hx as [Hx | Hx].
  - apply (Hdis (handle s)).
    + apply elem_of_handles. eauto.
    + left.
  - apply Hn2. apply elem_of_handles. eauto.
Qed.

Lemma run_Inv calls : forall out a v,
  Inv a v -> out ≡ₚ handles (usedSpans v) ->
  run calls out a <> Invalid ->
  exists out' a' v',
    run calls out a = Done out' a' /\ Inv a' v' /\
    out' ≡ₚ handles (usedSpans v') /\
    m_size a' = m_size a /\ m_maxAllocs a' = m_maxAllocs a.
Proof.
  induction calls as [| c calls IH]; intros out a v HInv Hout Hvalid.
  - exists out, a, v. simpl. auto.
  - destruct c as [size | h]; simpl in Hvalid |- *.
    + destruct (decide (0 <= size < 2 ^ 32)) as [Hsize | ?]; [| congruence].
      destruct (allocate_step a v out size HInv Hout Hsize)
        as (r & a1 & v1 & Hrun & HInv1 & Hout1).
      destruct (preserves_allocate size _ _ _ Hrun) as [Hs Hm].
      rewrite Hrun in Hvalid |- *.
      destruct (IH _ a1 v1 HInv1 Hout1 Hvalid)
        as (out' & a' & v' & Hr & HI & Ho & Hs' & Hm').
      exists out', a', v'. repeat split; try assumption; congruence.
    + destruct (decide (h ∈ out)) as [Hh | ?]; [| congruence].
      destruct (free_step a v out h HInv Hout Hh)
        as (a1 & v1 & Hrun & HInv1 & Hout1).
      destruct (preserves_free h _ _ _ Hrun) as [Hs Hm].
      rewrite Hrun in Hvalid |- *.
      destruct (IH _ a1 v1 HInv1 Hout1 Hvalid)
        as (out' & a' & v' & Hr & HI & Ho & Hs' & Hm').
      exists out', a', v'. repeat split; try assumption; congruence.
Qed.

Lemma reset_Inv newSize a :
  declared a -> m_size a <> newSize -> 0 <= newSize < 2 ^ 32 ->
  exists a',
    reset newSize a = Some (tt, a') /\
    Inv a' [mkSpan 0 0 newSize false] /\
    m_maxAllocs a' = m_maxAllocs a /\ m_size a' = newSize /\
    m_freeOffset a' = sub32 (m_maxAllocs a) 1.
Proof.
  intros (Hub & Hbins & Hmx) Hne Hsize.
  enough (wp (reset newSize) (fun _ a' =>
    Inv a' [mkSpan 0 0 newSize false] /\
    m_maxAllocs a' = m_maxAllocs a /\ m_size a' = newSize /\
    m_freeOffset a' = sub32 (m_maxAllocs a) 1) a) as Hwp.
  { destruct (wp_elim _ _ _ Hwp) as ([] & a' & H & H'). eauto. }
  apply wp_reset; auto.
Qed.

Lemma session_Inv size calls a0 :
  declared a0 -> m_size a0 <> size -> 0 <= size < 2 ^ 32 ->
  session size calls a0 <> Invalid ->
  exists out a v,
    session size calls a0 = Done out a /\ Inv a v /\
    out ≡ₚ handles (usedSpans v) /\
    m_size a = size /\ m_maxAllocs a = m_maxAllocs a0.
Proof.
  intros Hdecl Hne Hsize Hvalid. unfold session in *.
  destruct (reset_Inv size a0 Hdecl Hne Hsize) as (a1 & Hreset & HInv & Hm & Hs & _).
  rewrite Hreset in Hvalid |- *.
  destruct (run_Inv calls [] a1 _ HInv) as (out & a & v & Hr & HI & Ho & Hs' & Hm').
  { reflexivity. }
  { exact Hvalid. }
  exists out, a, v. repeat split; try assumption; congruence.
Qed.

Lemma reachable_Inv size out a :
  reachable size out a ->
  exists v, Inv a v /\ out ≡ₚ handles (usedSpans v) /\ m_size a = size.
Proof.
  intros (a0 & calls & Hdecl & Hne & Hsize & Hrun).
  destruct (session_Inv size calls a0 Hdecl Hne Hsize)
    as (out' & a' & v' & Hr & HI & Ho & Hs' & _).
  { rewrite Hrun. discriminate. }
  rewrite Hrun in Hr. injection Hr as <- <-.
  exists v'. split; [exact HI |]. split; [exact Ho | congruence].
Qed.

(** ** The state after an effective [reset] *)

Lemma reset_explicit newSize a :
  declared a -> m_size a <> newSize -> 0 <= newSize < 2 ^ 32 ->
  reset newSize a = Some (tt,
    {| m_size := newSize;
       m_maxAllocs := m_maxAllocs a;
       m_freeStorage := newSize;
       m_usedBinsTop :=
         shl32 1 (Z.shiftr (uintToSmallFloatRoundDown newSize) TOP_BINS_INDEX_SHIFT);
       m_usedBins :=
         <[Z.to_nat (Z.shiftr (uintToSmallFloatRoundDown newSize) TOP_BINS_INDEX_SHIFT) :=
             shl32 1 (Z.land (uintToSmallFloatRoundDown newSize) LEAF_BINS_INDEX_MASK)]>
           ((fun _ => 0) <$> seqZ 0 NUM_TOP_BINS);
       m_binIndices :=
         <[Z.to_nat (uintToSmallFloatRoundDown newSize) := 0]>
           ((fun _ => UNUSED) <$> seqZ 0 NUM_LEAF_BINS);
       m_nodes :=
         Some (<[0%nat := Node_init 0 newSize UNUSED]>
                 (replicate (Z.to_nat (m_maxAllocs a + 1)) Node_default));
       m_freeNodes :=
         Some ((fun i => m_maxAllocs a - i) <$> seqZ 0 (m_maxAllocs a + 1));
       m_freeOffset := sub32 (m_maxAllocs a) 1 |}).
Proof.
  intros (Hub & Hbins & Hmx) Hne Hsize.
  destruct a as [sz mx fst top ub bins ons ofs fo]. simpl in *.
  pose proof (codec_index_range newSize Hsize) as [Hrd _].
  set (b := uintToSmallFloatRoundDown newSize) in *.
  destruct (bin_decompose b ltac:(lia)) as (Hb & Ht & Hl).
  set (t := Z.shiftr b TOP_BINS_INDEX_SHIFT) in *.
  set (l := Z.land b LEAF_BINS_INDEX_MASK) in *.
  match goal with |- _ = Some (tt, ?s) =>
    enough (wp (reset newSize) (fun _ a' => a' = s)
              (mkOffsetAllocator sz mx fst top ub bins ons ofs fo)) as Hwp
  end.
  { destruct (wp_elim _ _ _ Hwp) as ([] & a' & Heq & ->). exact Heq. }
  apply wp_reset_init; [exact Hne | exact Hub | exact Hbins | exact Hmx |].
  apply wp_bind. unfold insertNodeIntoBin, resetState. fold b t l.
  apply wp_bind. eapply wp_loadBinIndices.
  { st. apply index_fmap_seqZ. unfold NUM_LEAF_BINS, NUM_TOP_BINS, BINS_PER_LEAF. lia. }
  apply wp_bind. rewrite decide_True by reflexivity.
  apply wp_bind. eapply wp_loadUsedBins.
  { st. apply index_fmap_seqZ. unfold NUM_TOP_BINS. lia. }
  apply wp_bind. apply wp_storeUsedBins.
  { st. rewrite length_fmap, length_seqZ. unfold NUM_TOP_BINS. lia. }
  st. wp_get. apply wp_put. st.
  apply wp_bind. eapply wp_loadBinIndices.
  { st. apply index_fmap_seqZ. unfold NUM_LEAF_BINS, NUM_TOP_BINS, BINS_PER_LEAF. lia. }
  wp_get.
  apply wp_bind. eapply wp_loadFreeNodes; [reflexivity | |].
  { st. apply index_fmap_seqZ. lia. }
  wp_put.
  apply wp_bind. eapply wp_storeNode; [reflexivity | |].
  { rewrite length_replicate. lia. }
  st. apply wp_bind. rewrite decide_False by (intros Hc; apply Hc; reflexivity).
  apply wp_ret.
  apply wp_bind. apply wp_storeBinIndices.
  { st. rewrite length_fmap, length_seqZ. unfold NUM_LEAF_BINS, NUM_TOP_BINS, BINS_PER_LEAF. lia. }
  st. wp_get. wp_put. apply wp_ret. apply wp_ret.
  rewrite !Z.lor_0_l, Z.sub_diag.
  rewrite (wrap8_small (shl32 1 l)).
  2: { assert (2 ^ l <= 2 ^ 7) by (apply pow2_le_mono; lia).
       assert (0 < 2 ^ l) by (apply pow2_pos; lia).
       rewrite shl32_small by lia. lia. }
  unfold add32. rewrite Z.add_0_l, (wrap32_small newSize) by lia.
  reflexivity.
Qed.

(** * Properties of the allocator *)

(** ** The size classes *)

Lemma uintToSmallFloatRoundUp_top n :
  0xF0000000 < n < 2 ^ 32 -> uintToSmallFloatRoundUp n = 240.
Proof.
  intros Hn.
  pose proof (uintToSmallFloatRoundUp_mono 0xF0000001 n ltac:(lia) ltac:(lia)) as Hlo.
  pose proof (codec_index_range n ltac:(lia)) as [_ Hhi].
  change (uintToSmallFloatRoundUp 0xF0000001) with 240 in Hlo. lia.
Qed.

(** C4: for every [uint32] n, the size of the class n rounds down to is at
    most n, and both roundings are monotonic; the size of the class n rounds
    up to is at least n exactly when n <= 0xF0000000: above, the class is
    240, whose size 2^32 wraps to 0. *)
Theorem C4_quantization_bounds n m :
  0 <= n <= m -> m < 2 ^ 32 ->
  smallFloatToUint (uintToSmallFloatRoundDown n) <= n /\
  (n <= smallFloatToUint (uintToSmallFloatRoundUp n) <-> n <= 0xF0000000) /\
  uintToSmallFloatRoundUp n <= uintToSmallFloatRoundUp m /\
  uintToSmallFloatRoundDown n <= uintToSmallFloatRoundDown m.
Proof.
  intros Hnm Hm. split; [apply smallFloatToUint_RoundDown; lia |].
  split; [| split].
  - split.
    + intros Hle. destruct (Z_le_gt_dec n 0xF0000000) as [? | Hgt]; [assumption |].
      rewrite uintToSmallFloatRoundUp_top in Hle by lia.
      change (smallFloatToUint 240) with 0 in Hle. lia.
    + intros Hle. apply smallFloatToUint_RoundUp. lia.
  - apply uintToSmallFloatRoundUp_mono; lia.
  - apply uintToSmallFloatRoundDown_mono; lia.
Qed.

Lemma C4_quantization_bounds_witness :
  0 <= 900 <= 974 /\ 974 < 2 ^ 32 /\
  smallFloatToUint (uintToSmallFloatRoundDown 900) <= 900 /\
  (900 <= smallFloatToUint (uintToSmallFloatRoundUp 900) <-> 900 <= 0xF0000000) /\
  uintToSmallFloatRoundUp 900 <= uintToSmallFloatRoundUp 974 /\
  uintToSmallFloatRoundDown 900 <= uintToSmallFloatRoundDown 974.
Proof.
  split; [lia |]. split; [lia |].
  apply (C4_quantization_bounds 900 974); lia.
Defined.

Lemma C4_counterexample :
  0 <= 0xFFFFFFFF < 2 ^ 32 /\
  ~ smallFloatToUint (uintToSmallFloatRoundUp 0xFFFFFFFF) >= 0xFFFFFFFF.
Proof. split; [lia |]. vm_compute. intros H. apply H. reflexivity. Qed.

(** C10: on the class indices 0 <= c < 256, both roundings of the size of
    class c give c back exactly when c < 240; the sizes of the classes from
    240 on do not fit [uint32]. *)
Theorem C10_codec_roundtrip c :
  0 <= c < 256 ->
  (uintToSmallFloatRoundUp (smallFloatToUint c) = c /\
   uintToSmallFloatRoundDown (smallFloatToUint c) = c) <-> c < 240.
Proof.
  intros Hc.
  assert (forallb (fun c => Bool.eqb (roundTrips c) (c <? 240)) (seqZ 0 256) = true)
    as Hall by (vm_compute; reflexivity).
  rewrite forallb_forall in Hall.
  specialize (Hall c). rewrite <- list_elem_of_In, elem_of_seqZ in Hall.
  specialize (Hall ltac:(lia)). apply Bool.eqb_prop in Hall.
  unfold roundTrips in Hall.
  destruct (Z.ltb_spec c 240) as [Hlt | Hge].
  - apply andb_true_iff in Hall as [H1 H2].
    apply Z.eqb_eq in H1, H2. tauto.
  - split; [| lia]. intros [H1 H2].
    apply Z.eqb_eq in H1, H2. rewrite H1, H2 in Hall. discriminate.
Qed.

Lemma C10_codec_roundtrip_witness :
  0 <= 61 < 256 /\
  ((uintToSmallFloatRoundUp (smallFloatToUint 61) = 61 /\
    uintToSmallFloatRoundDown (smallFloatToUint 61) = 61) <-> 61 < 240).
Proof. split; [lia |]. apply (C10_codec_roundtrip 61). lia. Defined.

Lemma C10_counterexample :
  0 <= 240 < 256 /\ uintToSmallFloatRoundUp (smallFloatToUint 240) <> 240.
Proof. split; [lia |]. vm_compute. discriminate. Qed.

(** ** [free] without effect *)

(** C9: [free] of the handle [NO_SPACE], and [free] of any handle while the
    node arena is not allocated, return and leave every member of the
    allocator as it was. *)
Theorem C9_free_without_effect a nodeIndex :
  nodeIndex = NO_SPACE \/ m_nodes a = None ->
  free nodeIndex a = Some (tt, a) /\
  forall allocation, metadata allocation = nodeIndex ->
    freeAlloc allocation a = Some (tt, a).
Proof.
  intros H.
  assert (free nodeIndex a = Some (tt, a)) as Hfree.
  { unfold free, mbind, M_bind, get. rewrite decide_True by exact H. reflexivity. }
  split; [exact Hfree |].
  intros allocation <-. exact Hfree.
Qed.

Lemma C9_free_without_effect_witness :
  (7 = NO_SPACE \/ m_nodes (construct 4 stale) = None) /\
  free 7 (construct 4 stale) = Some (tt, construct 4 stale) /\
  forall allocation, metadata allocation = 7 ->
    freeAlloc allocation (construct 4 stale) = Some (tt, construct 4 stale).
Proof.
  split; [right; reflexivity |].
  apply (C9_free_without_effect (construct 4 stale) 7). right. reflexivity.
Defined.

(** ** The invariant of the node chain *)

(** C1: after a [reset(S)] that takes effect and any sequence of valid
    calls of [allocate] and [free], every call has returned, and the live
    nodes, listed in address order, tile [0, S) without gap or overlap;
    their free sizes and used sizes add up to S; and the neighbour links
    connect every node to the node before it and the node after it. *)
Theorem C1_chain_invariant a0 S calls :
  declared a0 -> m_size a0 <> S -> 0 <= S < 2 ^ 32 ->
  session S calls a0 <> Invalid ->
  exists out a v,
    session S calls a0 = Done out a /\
    nodesAre a v /\
    total (freeSpans v) + total (usedSpans v) = S /\
    tiles 0 v S /\
    neighboursLinked a v.
Proof.
  intros Hdecl Hne HS Hvalid.
  destruct (session_Inv S calls a0 Hdecl Hne HS Hvalid)
    as (out & a & v & Hrun & HInv & _ & Hsize & _).
  exists out, a, v. split; [exact Hrun |].
  destruct (Inv_nodesAre a v HInv) as [Hnodes Hlinks].
  split; [exact Hnodes |].
  split; [rewrite total_free_used, (Inv_size a v HInv); exact Hsize |].
  split; [| exact Hlinks].
  destruct HInv as (ns & fs & _ & _ & _ & _ & _ & _ & _ & Htiles & _).
  rewrite <- Hsize. exact Htiles.
Qed.

Lemma construct_declared maxAllocs u :
  0 <= maxAllocs < 2 ^ 32 - 1 -> declared (construct maxAllocs u).
Proof.
  intros H. unfold declared, construct.
  cbn [m_usedBins m_binIndices m_maxAllocs].
  rewrite !length_fmap, !length_seqZ. repeat split; try lia; reflexivity.
Qed.

Lemma C1_chain_invariant_witness :
  declared (construct 4 stale) /\ m_size (construct 4 stale) <> 1024 /\
  0 <= 1024 < 2 ^ 32 /\
  session 1024 demoCalls (construct 4 stale) <> Invalid /\
  exists out a v,
    session 1024 demoCalls (construct 4 stale) = Done out a /\
    nodesAre a v /\
    total (freeSpans v) + total (usedSpans v) = 1024 /\
    tiles 0 v 1024 /\
    neighboursLinked a v.
Proof.
  assert (declared (construct 4 stale)) as Hd by (apply construct_declared; lia).
  assert (m_size (construct 4 stale) <> 1024) as Hs by (simpl; lia).
  assert (0 <= 1024 < 2 ^ 32) as Hr by lia.
  assert (session 1024 demoCalls (construct 4 stale) <> Invalid) as Hv
    by (vm_compute; discriminate).
  split; [exact Hd |]. split; [exact Hs |]. split; [exact Hr |].
  split; [exact Hv |].
  exact (C1_chain_invariant (construct 4 stale) 1024 demoCalls Hd Hs Hr Hv).
Defined.

(** ** The granted size *)

(** C2: in every reachable state [allocate(n)] returns, and when it returns
    an allocation other than the sentinel, [allocationSize] of that
    allocation is n. *)
Theorem C2_granted_size S out a n :
  reachable S out a -> 0 <= n < 2 ^ 32 ->
  exists r a',
    allocate n a = Some (r, a') /\
    (r <> Alloc_none -> allocationSize r a' = Some (n, a')).
Proof.
  intros Hreach Hn.
  destruct (reachable_Inv S out a Hreach) as (v & HInv & _).
  apply wp_elim.
  apply (wp_allocate n _ a v HInv Hn).
  - intros Hc. destruct Hc. reflexivity.
  - intros a' v1 s v2 rest _ -> _ _ _ HInv' _.
    apply (allocationSize_spec a' _ (mkSpan (handle s) (start s) n true) (start s) HInv').
    rewrite elem_of_app, elem_of_cons. auto.
Qed.

Lemma demoState_reachable : reachable 1024 [] demoState.
Proof.
  exists (construct 4 stale), [].
  split; [apply construct_declared; lia |].
  split; [simpl; lia |]. split; [lia |].
  vm_compute. reflexivity.
Qed.

Lemma C2_granted_size_witness :
  reachable 1024 [] demoState /\ 0 <= 100 < 2 ^ 32 /\
  exists r a',
    allocate 100 demoState = Some (r, a') /\
    (r <> Alloc_none -> allocationSize r a' = Some (100, a')).
Proof.
  split; [exact demoState_reachable |]. split; [lia |].
  apply (C2_granted_size 1024 [] demoState 100); [exact demoState_reachable | lia].
Defined.

(** In the state of the examples the allocation of C2 does succeed. *)
Example demoState_allocate :
  exists a', allocate 100 demoState = Some (mkAlloc 0 0, a') /\
             allocationSize (mkAlloc 0 0) a' = Some (100, a').
Proof.
  eexists. split; [vm_compute; reflexivity |].
  vm_compute. reflexivity.
Qed.

(** ** The concrete scenario *)

Lemma reset_construct size k u :
  0 <= k < 2 ^ 32 - 1 -> 0 < size < 2 ^ 32 ->
  reset size (construct k u) = reset size (construct k stale).
Proof.
  intros Hk Hsize.
  rewrite !reset_explicit;
    try (apply construct_declared; lia); try (simpl; lia).
  reflexivity.
Qed.

Lemma scenario_construct lastSize u :
  scenario lastSize (construct 128 u) = scenario lastSize (construct 128 stale).
Proof.
  unfold scenario, mbind, M_bind.
  rewrite (reset_construct 1024 128 u) by lia. reflexivity.
Qed.

(** C7: with [maxAllocs = 128], after [reset(1024)], [allocate(100)] returns
    offset 0 and its [allocationSize] is 100; [allocate(50)] returns offset
    100; once the first allocation is freed [storageReport] gives 974 units
    of free space; [allocate(974)] returns the sentinel, and so does
    [allocate(900)], the trailing free region having 874 units; a last
    request that fits its size class, [allocate(800)], takes the trailing
    region at offset 150. *)
Theorem C7_scenario u :
  exists a a',
    scenario 900 (construct 128 u) =
      Some ((mkAlloc 0 0, 100, mkAlloc 100 1, mkStorageReport 974 832,
             Alloc_none, Alloc_none), a) /\
    scenario 800 (construct 128 u) =
      Some ((mkAlloc 0 0, 100, mkAlloc 100 1, mkStorageReport 974 832,
             Alloc_none, mkAlloc 150 2), a').
Proof.
  rewrite !(scenario_construct _ u).
  eexists. eexists. split; [vm_compute; reflexivity |].
  vm_compute. reflexivity.
Qed.

Lemma C7_counterexample :
  exists first firstSize second report third a,
    scenario 900 (construct 128 stale) =
      Some ((first, firstSize, second, report, third, Alloc_none), a).
Proof. do 6 eexists. vm_compute. reflexivity. Qed.

(** ** The storage report *)

(** X16: in every reachable state in which [m_freeOffset] is not 0,
    [storageReport] returns; its [totalFreeSpace] is the counter
    [m_freeStorage], which is the sum of the sizes of the free nodes; its
    [largestFreeRegion] is the size of the highest bin that holds a node (0
    when no bin does), and is at most [totalFreeSpace]. *)
Theorem storageReport_exact S out a :
  reachable S out a -> m_freeOffset a <> 0 ->
  exists v b rep,
    storageReport a = Some (rep, a) /\
    nodesAre a v /\
    totalFreeSpace rep = m_freeStorage a /\
    m_freeStorage a = total (freeSpans v) /\
    highestBin a b /\
    largestFreeRegion rep = binSize b /\
    largestFreeRegion rep <= totalFreeSpace rep.
Proof.
  intros Hreach Hfo.
  destruct (reachable_Inv S out a Hreach) as (v & HInv & _).
  destruct (storageReport_spec a v HInv Hfo) as (Htot & b & Hb & Hrep & Hle).
  destruct (Inv_nodesAre a v HInv) as [Hnodes _].
  exists v, b, (mkStorageReport (m_freeStorage a) (binSize b)).
  simpl. auto 10.
Qed.

Lemma storageReport_exact_witness :
  reachable 1024 [] demoState /\ m_freeOffset demoState <> 0 /\
  exists v b rep,
    storageReport demoState = Some (rep, demoState) /\
    nodesAre demoState v /\
    totalFreeSpace rep = m_freeStorage demoState /\
    m_freeStorage demoState = total (freeSpans v) /\
    highestBin demoState b /\
    largestFreeRegion rep = binSize b /\
    largestFreeRegion rep <= totalFreeSpace rep.
Proof.
  assert (m_freeOffset demoState <> 0) as Hfo by (simpl; lia).
  split; [exact demoState_reachable |]. split; [exact Hfo |].
  exact (storageReport_exact 1024 [] demoState demoState_reachable Hfo).
Defined.

(** C6: an allocator with [maxAllocs = 1], right after [reset(1024)].  The
    one live node is free and holds 1024 units, the counter [m_freeStorage]
    is 1024 and [m_freeOffset] is 0, not [NO_SPACE]: [allocate(100)]
    succeeds.  Yet [storageReport] takes the early return of line 469 and
    reports {0, 0}.  After that allocation [m_freeOffset] is [NO_SPACE] and
    [allocate] refuses every request, and there the report is {924, 896}. *)
Theorem C6_guard_at_last_handle :
  reachable 1024 [] lastHandleState /\
  nodesAre lastHandleState [mkSpan 0 0 1024 false] /\
  m_freeStorage lastHandleState = 1024 /\
  m_freeOffset lastHandleState = 0 /\
  storageReport lastHandleState = Some (mkStorageReport 0 0, lastHandleState) /\
  exists a1,
    allocate 100 lastHandleState = Some (mkAlloc 0 0, a1) /\
    m_freeOffset a1 = NO_SPACE /\
    storageReport a1 = Some (mkStorageReport 924 896, a1) /\
    forall n, allocate n a1 = Some (Alloc_none, a1).
Proof.
  split.
  { exists (construct 1 stale), [].
    split; [apply construct_declared; lia |].
    split; [simpl; lia |]. split; [lia |].
    vm_compute. reflexivity. }
  split.
  { eexists. split; [reflexivity |]. split.
    - constructor; [| constructor].
      eexists. split; [vm_compute; reflexivity |]. simpl. auto.
    - eexists. split; [reflexivity |].
      split; [apply NoDup_singleton |].
      intros i Hi. change (i ∈ [0] <-> i ∉ [1]).
      rewrite !list_elem_of_singleton.
      cbn [lastHandleState m_maxAllocs] in Hi. lia. }
  split; [reflexivity |]. split; [reflexivity |].
  split; [reflexivity |].
  eexists. split; [vm_compute; reflexivity |].
  split; [reflexivity |].
  split; [vm_compute; reflexivity |].
  intros n. unfold allocate, mbind, M_bind, get.
  cbn [m_freeOffset]. rewrite decide_True by reflexivity. reflexivity.
Qed.

(** ** [reset] *)

Lemma bins_single ns bins ub top fst s :
  bins_ok ns bins ub top fst [s] ->
  bitmap_ok ub top (fun b => b = uintToSmallFloatRoundDown (len s)).
Proof.
  intros (bl & _ & _ & Hmem & Hbm & _).
  apply (bitmap_ok_ext _ _ (fun b => bl b <> [])); [| exact Hbm].
  intros b. split.
  - intros Hne. destruct (bl b) as [| i L] eqn:Hbl; [contradiction |].
    assert (i ∈ bl b) as Hin by (rewrite Hbl; left).
    apply Hmem in Hin as (s' & Hs' & _ & Hclass).
    apply list_elem_of_singleton in Hs'. subst s'. congruence.
  - intros -> Hnil.
    assert (handle s ∈ bl (uintToSmallFloatRoundDown (len s))) as Hin.
    { apply Hmem. exists s. split; [left | auto]. }
    rewrite Hnil in Hin. inversion Hin.
Qed.

(** C8: [reset(newSize)] returns the allocator as it is when [newSize] is
    the current size.  Otherwise it returns a state that depends on
    [newSize] and [m_maxAllocs] only: a fresh arena of [maxAllocs + 1]
    nodes, of which node 0 is the one live node, free, spanning
    [0, newSize); a free-index stack filled with all handles, from which
    handle 0 is taken; a directory and a bitmap that are empty but for the
    bin of node 0. *)
Theorem C8_reset a newSize :
  (m_size a = newSize -> reset newSize a = Some (tt, a)) /\
  (declared a -> m_size a <> newSize -> 0 <= newSize < 2 ^ 32 ->
   exists a',
     reset newSize a = Some (tt, a') /\
     m_size a' = newSize /\ m_maxAllocs a' = m_maxAllocs a /\
     m_nodes a' =
       Some (<[0%nat := Node_init 0 newSize UNUSED]>
               (replicate (Z.to_nat (m_maxAllocs a + 1)) Node_default)) /\
     m_freeNodes a' =
       Some ((fun i => m_maxAllocs a - i) <$> seqZ 0 (m_maxAllocs a + 1)) /\
     m_freeOffset a' = sub32 (m_maxAllocs a) 1 /\
     m_freeStorage a' = newSize /\
     (forall b, 0 <= b < 256 ->
        index (m_binIndices a') b =
        Some (if decide (b = uintToSmallFloatRoundDown newSize) then 0 else UNUSED)) /\
     bitmap_ok (m_usedBins a') (m_usedBinsTop a')
       (fun b => b = uintToSmallFloatRoundDown newSize) /\
     nodesAre a' [mkSpan 0 0 newSize false]).
Proof.
  split; [apply reset_noop |].
  intros Hdecl Hne Hsize.
  destruct (reset_Inv newSize a Hdecl Hne Hsize) as (a' & Hreset & HInv & _).
  exists a'. split; [exact Hreset |].
  pose proof (reset_explicit newSize a Hdecl Hne Hsize) as Hexp.
  match type of Hexp with _ = Some (tt, ?e) => set (E := e) in * end.
  assert (a' = E) as Ha' by congruence.
  clear Hexp Hreset.
  destruct (Inv_nodesAre a' _ HInv) as [Hnodes _].
  assert (bitmap_ok (m_usedBins a') (m_usedBinsTop a')
            (fun b => b = uintToSmallFloatRoundDown newSize)) as Hbm.
  { destruct HInv as (ns & fs & _ & _ & _ & _ & _ & _ & _ & _ & Hbins).
    exact (bins_single _ _ _ _ _ _ Hbins). }
  pose proof (codec_index_range newSize Hsize) as [Hrd _].
  subst a'. unfold E.
  cbn [m_size m_maxAllocs m_nodes m_freeNodes m_freeOffset
       m_freeStorage m_binIndices].
  repeat (split; [first [reflexivity | assumption] |]).
  split; [| split; assumption].
  intros b Hb.
  rewrite index_insert
    by (rewrite length_fmap, length_seqZ;
        unfold NUM_LEAF_BINS, NUM_TOP_BINS, BINS_PER_LEAF; lia).
  destruct (decide (b = uintToSmallFloatRoundDown newSize)); [reflexivity |].
  apply index_fmap_seqZ. unfold NUM_LEAF_BINS, NUM_TOP_BINS, BINS_PER_LEAF. lia.
Qed.

Lemma C8_reset_witness :
  (m_size demoState = 1024 /\ reset 1024 demoState = Some (tt, demoState)) /\
  declared (construct 4 stale) /\ m_size (construct 4 stale) <> 1024 /\
  0 <= 1024 < 2 ^ 32 /\
  exists a',
    reset 1024 (construct 4 stale) = Some (tt, a') /\
    m_size a' = 1024 /\ m_maxAllocs a' = m_maxAllocs (construct 4 stale) /\
    m_nodes a' =
      Some (<[0%nat := Node_init 0 1024 UNUSED]>
              (replicate (Z.to_nat (m_maxAllocs (construct 4 stale) + 1))
                 Node_default)) /\
    m_freeNodes a' =
      Some ((fun i => m_maxAllocs (construct 4 stale) - i) <$>
              seqZ 0 (m_maxAllocs (construct 4 stale) + 1)) /\
    m_freeOffset a' = sub32 (m_maxAllocs (construct 4 stale)) 1 /\
    m_freeStorage a' = 1024 /\
    (forall b, 0 <= b < 256 ->
       index (m_binIndices a') b =
       Some (if decide (b = uintToSmallFloatRoundDown 1024) then 0 else UNUSED)) /\
    bitmap_ok (m_usedBins a') (m_usedBinsTop a')
      (fun b => b = uintToSmallFloatRoundDown 1024) /\
    nodesAre a' [mkSpan 0 0 1024 false].
Proof.
  assert (declared (construct 4 stale)) as Hd by (apply construct_declared; lia).
  assert (m_size (construct 4 stale) <> 1024) as Hs by (simpl; lia).
  assert (0 <= 1024 < 2 ^ 32) as Hr by lia.
  split.
  { split; [reflexivity |].
    exact (proj1 (C8_reset demoState 1024) eq_refl). }
  split; [exact Hd |]. split; [exact Hs |]. split; [exact Hr |].
  exact (proj2 (C8_reset (construct 4 stale) 1024) Hd Hs Hr).
Defined.

(** ** Exhaustion of the node handles *)

Lemma run_allocations_valid sizes : forall out a,
  Forall (fun n => 0 <= n < 2 ^ 32) sizes ->
  run (Allocate <$> sizes) out a <> Invalid.
Proof.
  induction sizes as [| n sizes IH]; intros out a Hall; simpl.
  - discriminate.
  - apply list.Forall_cons in Hall as [Hn Hall].
    rewrite decide_True by exact Hn.
    destruct (allocate n a) as [[r a'] |]; [apply IH, Hall | discriminate].
Qed.

Lemma usedSpans_length v : (length (usedSpans v) <= length v)%nat.
Proof.
  induction v as [| s v IH]; simpl; [lia |].
  destruct (inUse s); simpl; lia.
Qed.

Lemma allocate_total size a v :
  Inv a v -> 0 <= size < 2 ^ 32 ->
  exists r a',
    allocate size a = Some (r, a') /\
    (r = Alloc_none /\ a' = a \/
     exists v1 s v2 rest,
       m_freeOffset a <> NO_SPACE /\
       v = v1 ++ s :: v2 /\ inUse s = false /\ size <= len s /\
       (len s = size /\ rest = [] \/
        size < len s /\
        exists j, rest = [mkSpan j (start s + size) (len s - size) false]) /\
       Inv a' (v1 ++ mkSpan (handle s) (start s) size true :: rest ++ v2) /\
       r = mkAlloc (start s) (handle s)).
Proof.
  intros HInv Hsize. apply wp_elim.
  apply (wp_allocate size _ a v HInv Hsize).
  - left. auto.
  - intros a' v1 s v2 rest Hfo Hv Hfree Hle Hrest HInv'.
    right. exists v1, s, v2, rest. auto 10.
Qed.

Lemma free_total a v1 s v2 :
  Inv a (v1 ++ s :: v2) -> inUse s = true ->
  exists a', free (handle s) a = Some (tt, a') /\ Inv a' (freedSpans v1 s v2).
Proof.
  intros HInv Hused.
  destruct (wp_elim _ _ _ (wp_free (fun _ a' => Inv a' (freedSpans v1 s v2))
                             a v1 s v2 HInv Hused (fun a' H => H)))
    as ([] & a' & Heq & HInv').
  eauto.
Qed.

(** C5: with [maxAllocs = k], after [reset(S)], when k calls of [allocate]
    have all returned allocations, none of them freed, the next [allocate]
    returns the sentinel and leaves the allocator as it is, whatever free
    space remains. *)
Theorem C5_handle_exhaustion k u S sizes n :
  0 <= k < 2 ^ 32 - 1 -> 0 < S < 2 ^ 32 ->
  Z.of_nat (length sizes) = k ->
  Forall (fun n => 0 <= n < 2 ^ 32) sizes -> 0 <= n < 2 ^ 32 ->
  exists out a,
    session S (Allocate <$> sizes) (construct k u) = Done out a /\
    (length out = length sizes -> allocate n a = Some (Alloc_none, a)).
Proof.
  intros Hk HS Hlen Hsizes Hn.
  destruct (session_Inv S (Allocate <$> sizes) (construct k u))
    as (out & a & v & Hrun & HInv & Hout & _ & Hmx).
  { apply construct_declared, Hk. }
  { simpl. lia. }
  { lia. }
  { unfold session.
    destruct (reset S (construct k u)) as [[[] a1] |]; [| discriminate].
    apply run_allocations_valid, Hsizes. }
  exists out, a. split; [exact Hrun |]. intros Hall.
  destruct (allocate_total n a v HInv Hn) as (r & a' & Heq & Hcases).
  destruct Hcases as [[-> ->] | (v1 & s & v2 & rest & Hfo & Hv & Hfree & _)];
    [exact Heq |].
  exfalso.
  pose proof HInv as (ns & fs & _ & _ & _ & _ & Hstack & _).
  destruct Hstack as (_ & _ & Hfor & Hcount & _).
  assert (length out = length (usedSpans v)) as Hlo.
  { rewrite Hout. unfold handles. rewrite length_fmap. reflexivity. }
  assert (length (usedSpans v) < length v)%nat as Hlt.
  { subst v. rewrite usedSpans_free by exact Hfree.
    pose proof (usedSpans_length (v1 ++ v2)) as Hle.
    rewrite !length_app in *. simpl. lia. }
  unfold handles in Hcount. rewrite length_fmap in Hcount.
  simpl in Hmx.
  pose proof (wrap32_range (m_freeOffset a + 1)) as Hw.
  assert (wrap32 (m_freeOffset a + 1) = 0) as Hzero by lia.
  unfold wrap32 in Hzero. unfold NO_SPACE in Hfo.
  assert (m_freeOffset a + 1 < 2 ^ 32) as Hsmall by lia.
  rewrite Z.mod_small in Hzero by lia. lia.
Qed.

Lemma C5_handle_exhaustion_witness :
  0 <= 2 < 2 ^ 32 - 1 /\ 0 < 1024 < 2 ^ 32 /\
  Z.of_nat (length [10; 20]) = 2 /\
  Forall (fun n => 0 <= n < 2 ^ 32) [10; 20] /\ 0 <= 30 < 2 ^ 32 /\
  exists out a,
    session 1024 (Allocate <$> [10; 20]) (construct 2 stale) = Done out a /\
    (length out = length [10; 20] -> allocate 30 a = Some (Alloc_none, a)).
Proof.
  assert (Forall (fun n => 0 <= n < 2 ^ 32) [10; 20]) as Hall
    by (repeat constructor; lia).
  split; [lia |]. split; [lia |]. split; [reflexivity |].
  split; [exact Hall |]. split; [lia |].
  apply (C5_handle_exhaustion 2 stale 1024 [10; 20] 30); try lia;
    [reflexivity | exact Hall].
Defined.

(** In this session both allocations are outstanding and 994
    units of free space remain when the third [allocate] returns the
    sentinel. *)
Example exhaustion_with_free_space :
  exists a,
    session 1024 (Allocate <$> [10; 20]) (construct 2 stale) = Done [1; 0] a /\
    m_freeStorage a = 994 /\
    allocate 30 a = Some (Alloc_none, a).
Proof.
  eexists. split; [vm_compute; reflexivity |].
  split; vm_compute; reflexivity.
Qed.

(** ** Coalescing *)

Lemma Inv_count a v :
  Inv a v ->
  0 <= m_freeOffset a < 2 ^ 32 /\
  wrap32 (m_freeOffset a + 1) + Z.of_nat (length v) = m_maxAllocs a + 1.
Proof.
  intros (ns & fs & _ & _ & _ & _ & Hstack & _).
  destruct Hstack as (_ & _ & Hfo & Hcount & _).
  unfold handles in Hcount. rewrite length_fmap in Hcount. auto.
Qed.

Lemma free_NO_SPACE a : free NO_SPACE a = Some (tt, a).
Proof.
  unfold free, mbind, M_bind, get.
  rewrite decide_True by (left; reflexivity). reflexivity.
Qed.

(** The report of a state whose one node is free: it is exact unless
    [maxAllocs] is 1, when [m_freeOffset] is 0. *)
Lemma storageReport_single a h S :
  Inv a [mkSpan h 0 S false] ->
  exists rep, storageReport a = Some (rep, a) /\
              (m_maxAllocs a <> 1 -> totalFreeSpace rep = S).
Proof.
  intros HInv.
  destruct (Inv_count a _ HInv) as [Hfo Hcount]. simpl in Hcount.
  destruct (decide (m_freeOffset a = 0)) as [Hz | Hne].
  - exists StorageReport_zero. split.
    + unfold storageReport, mbind, M_bind, get.
      rewrite decide_True by exact Hz. reflexivity.
    + intros Hmx. rewrite Hz in Hcount.
      change (wrap32 (0 + 1)) with 1 in Hcount. lia.
  - destruct (storageReport_spec a _ HInv Hne) as (Htot & b & _ & Hrep & _).
    eexists. split; [exact Hrep |]. intros _. simpl in *. lia.
Qed.

(** One allocation at the start of the region is freed. *)
Lemma free_single a h x S rest :
  Inv a (mkSpan h 0 x true :: rest) ->
  (x = S /\ rest = [] \/ x < S /\ exists j, rest = [mkSpan j x (S - x) false]) ->
  exists a', free h a = Some (tt, a') /\ Inv a' [mkSpan h 0 S false] /\
             m_maxAllocs a' = m_maxAllocs a.
Proof.
  intros HInv Hrest.
  destruct (free_total a [] (mkSpan h 0 x true) rest HInv eq_refl)
    as (a' & Hfree & HInv').
  destruct (preserves_free _ _ _ _ Hfree) as [_ Hmx].
  exists a'. split; [exact Hfree |]. split; [| exact Hmx].
  destruct Hrest as [[-> ->] | [Hlt [j ->]]].
  - exact HInv'.
  - change (Inv a' [mkSpan h 0 (x + (S - x)) false]) in HInv'.
    replace (x + (S - x)) with S in HInv' by lia. exact HInv'.
Qed.

(** Two contiguous allocations at the start of the region are freed, in
    either order. *)
Lemma free_pair a j x y S rest (firstFirst : bool) :
  Inv a (mkSpan 0 0 x true :: mkSpan j x y true :: rest) ->
  (x + y = S /\ rest = [] \/
   x + y < S /\ exists j', rest = [mkSpan j' (x + y) (S - x - y) false]) ->
  exists a' h,
    (if firstFirst then free 0;; free j else free j;; free 0) a = Some (tt, a') /\
    Inv a' [mkSpan h 0 S false] /\ m_maxAllocs a' = m_maxAllocs a.
Proof.
  intros HInv Hrest.
  set (s0 := mkSpan 0 0 x true) in *.
  set (s1 := mkSpan j x y true) in *.
  destruct firstFirst.
  - destruct (free_total a [] s0 (s1 :: rest) HInv eq_refl) as (a1 & Hfree1 & HInv1).
    change (freedSpans [] s0 (s1 :: rest))
      with ([mkSpan 0 0 x false] ++ s1 :: rest) in HInv1.
    destruct (free_total a1 _ s1 rest HInv1 eq_refl) as (a2 & Hfree2 & HInv2).
    destruct (preserves_free _ _ _ _ Hfree1) as [_ Hmx1].
    destruct (preserves_free _ _ _ _ Hfree2) as [_ Hmx2].
    exists a2, j. split; [| split; [| congruence]].
    + unfold mbind, M_bind.
      change 0 with (handle s0) at 1. rewrite Hfree1. exact Hfree2.
    + destruct Hrest as [[Heq ->] | [Hlt [j' ->]]].
      * change (Inv a2 [mkSpan j 0 (y + x) false]) in HInv2.
        replace (y + x) with S in HInv2 by lia. exact HInv2.
      * change (Inv a2 [mkSpan j 0 (y + x + (S - x - y)) false]) in HInv2.
        replace (y + x + (S - x - y)) with S in HInv2 by lia. exact HInv2.
  - destruct (free_total a [s0] s1 rest HInv eq_refl) as (a1 & Hfree1 & HInv1).
    destruct (preserves_free _ _ _ _ Hfree1) as [_ Hmx1].
    assert (exists X, x + X = S /\ Inv a1 ([] ++ s0 :: [mkSpan j x X false]))
      as (X & HX & HInv1').
    { destruct Hrest as [[Heq ->] | [Hlt [j' ->]]].
      - exists y. split; [lia | exact HInv1].
      - exists (y + (S - x - y)). split; [lia | exact HInv1]. }
    destruct (free_total a1 [] s0 _ HInv1' eq_refl) as (a2 & Hfree2 & HInv2).
    destruct (preserves_free _ _ _ _ Hfree2) as [_ Hmx2].
    exists a2, 0. split; [| split; [| congruence]].
    + unfold mbind, M_bind.
      change j with (handle s1) at 1. rewrite Hfree1. exact Hfree2.
    + change (Inv a2 [mkSpan 0 0 (x + X) false]) in HInv2.
      rewrite HX in HInv2. exact HInv2.
Qed.

(** The first allocation after [reset]. *)
Lemma allocate_first a S size :
  Inv a [mkSpan 0 0 S false] -> 0 <= size < 2 ^ 32 ->
  exists r a',
    allocate size a = Some (r, a') /\
    m_maxAllocs a' = m_maxAllocs a /\
    (r = Alloc_none /\ a' = a \/
     r = mkAlloc 0 0 /\ size <= S /\
     exists rest,
       Inv a' (mkSpan 0 0 size true :: rest) /\
       (size = S /\ rest = [] \/
        size < S /\ exists j, rest = [mkSpan j size (S - size) false])).
Proof.
  intros HInv Hsize.
  destruct (allocate_total size a _ HInv Hsize) as (r & a' & Halloc & Hcases).
  destruct (preserves_allocate _ _ _ _ Halloc) as [_ Hmx].
  exists r, a'. split; [exact Halloc |]. split; [exact Hmx |].
  destruct Hcases as [? | (v1 & s & v2 & rest & _ & Hv & _ & Hle & Hrest & HInv' & ->)];
    [left; assumption | right].
  destruct v1 as [| x v1]; simpl in Hv.
  2: { injection Hv as _ Hv. destruct v1; discriminate. }
  injection Hv as <- <-. simpl in *.
  split; [reflexivity |]. split; [exact Hle |].
  exists rest. rewrite app_nil_r in HInv'. split; [exact HInv' |].
  destruct Hrest as [[Heq ->] | [Hlt [j ->]]]; [left; auto | right].
  split; [exact Hlt |]. exists j. reflexivity.
Qed.

(** The second allocation, after a first one that succeeded. *)
Lemma allocate_second a S x rest size :
  Inv a (mkSpan 0 0 x true :: rest) ->
  (x = S /\ rest = [] \/ x < S /\ exists j, rest = [mkSpan j x (S - x) false]) ->
  0 <= size < 2 ^ 32 ->
  exists r a',
    allocate size a = Some (r, a') /\
    m_maxAllocs a' = m_maxAllocs a /\
    (r = Alloc_none /\ a' = a \/
     2 <= m_maxAllocs a /\ x + size <= S /\
     exists j rest',
       r = mkAlloc x j /\
       Inv a' (mkSpan 0 0 x true :: mkSpan j x size true :: rest') /\
       (x + size = S /\ rest' = [] \/
        x + size < S /\
        exists j', rest' = [mkSpan j' (x + size) (S - x - size) false])).
Proof.
  intros HInv Hrest Hsize.
  destruct (allocate_total size a _ HInv Hsize) as (r & a' & Halloc & Hcases).
  destruct (preserves_allocate _ _ _ _ Halloc) as [_ Hmx].
  exists r, a'. split; [exact Halloc |]. split; [exact Hmx |].
  destruct Hcases
    as [? | (v1 & s & v2 & rest2 & Hfo & Hv & Hfree & Hle & Hrest2 & HInv' & ->)];
    [left; assumption | right].
  assert (exists j, rest = [mkSpan j x (S - x) false] /\ x < S /\
                    v1 = [mkSpan 0 0 x true] /\ s = mkSpan j x (S - x) false /\
                    v2 = []) as (j & -> & HltS & -> & -> & ->).
  { destruct Hrest as [[_ ->] | [Hlt [j ->]]].
    - destruct v1 as [| y v1]; simpl in Hv.
      + injection Hv as <- _. discriminate.
      + injection Hv as _ Hv. destruct v1; discriminate.
    - exists j. destruct v1 as [| y v1]; simpl in Hv.
      + injection Hv as <- _. discriminate.
      + injection Hv as <- Hv. destruct v1 as [| z v1]; simpl in Hv.
        * injection Hv as <- <-. auto.
        * injection Hv as _ Hv. destruct v1; discriminate. }
  cbn [start handle len] in *.
  destruct (Inv_count a _ HInv) as [Hfor Hcount]. simpl in Hcount.
  split.
  { unfold NO_SPACE in Hfo.
    rewrite (wrap32_small (m_freeOffset a + 1)) in Hcount by lia. lia. }
  split; [lia |].
  exists j, rest2. split; [reflexivity |].
  rewrite app_nil_r in HInv'. split; [exact HInv' |].
  destruct Hrest2 as [[Heq ->] | [Hlt [j' ->]]]; [left; split; [lia | reflexivity] |].
  right. split; [lia |]. exists j'. reflexivity.
Qed.

(** C3: after a [reset(S)] that takes effect, [allocate(a)] and
    [allocate(b)] return; when both return allocations, these are
    contiguous from offset 0 and a + b <= S.  Once both results are freed,
    in either order, the one live node is free and spans [0, S), and
    [storageReport] gives S units of free space: always when both calls
    returned allocations, and otherwise (the [free] of a sentinel being
    without effect) unless [maxAllocs] is 1. *)
Theorem C3_coalescing a0 S a b :
  declared a0 -> m_size a0 <> S -> 0 <= S < 2 ^ 32 ->
  0 <= a < 2 ^ 32 -> 0 <= b < 2 ^ 32 ->
  exists r1 r2 a3,
    twoAllocations S a b a0 = Some ((r1, r2), a3) /\
    (r1 <> Alloc_none -> r2 <> Alloc_none ->
     offset r1 = 0 /\ offset r2 = a /\ a + b <= S) /\
    forall firstFirst, exists rep a5 h,
      freeBoth r1 r2 firstFirst a3 = Some (rep, a5) /\
      nodesAre a5 [mkSpan h 0 S false] /\
      (r1 <> Alloc_none /\ r2 <> Alloc_none \/ m_maxAllocs a0 <> 1 ->
       totalFreeSpace rep = S).
Proof.
  intros Hdecl Hne HS Ha Hb.
  destruct (reset_Inv S a0 Hdecl Hne HS) as (a1 & Hreset & HInv1 & Hmx1 & _).
  destruct (allocate_first a1 S a HInv1 Ha) as (r1 & a2 & Halloc1 & Hmx2 & Hcases1).
  (* what is left to show once the state after both calls is known *)
  assert (forall r2 a3 (firstFirst : bool),
            m_maxAllocs a3 = m_maxAllocs a0 ->
            (r1 <> Alloc_none -> r2 <> Alloc_none -> 2 <= m_maxAllocs a0) ->
            (exists a5 h,
               (if firstFirst then free (metadata r1);; free (metadata r2)
                else free (metadata r2);; free (metadata r1)) a3 = Some (tt, a5) /\
               Inv a5 [mkSpan h 0 S false] /\ m_maxAllocs a5 = m_maxAllocs a3) ->
            exists rep a5 h,
              freeBoth r1 r2 firstFirst a3 = Some (rep, a5) /\
              nodesAre a5 [mkSpan h 0 S false] /\
              (r1 <> Alloc_none /\ r2 <> Alloc_none \/ m_maxAllocs a0 <> 1 ->
               totalFreeSpace rep = S)) as Hfinish.
  { intros r2 a3 firstFirst Hmx3 Hboth (a5 & h & Hfrees & HInv5 & Hmx5).
    destruct (storageReport_single a5 h S HInv5) as (rep & Hrep & Htot).
    exists rep, a5, h. split; [| split; [apply Inv_nodesAre, HInv5 |]].
    - unfold freeBoth, freeAlloc. unfold mbind at 1, M_bind at 1.
      destruct firstFirst; rewrite Hfrees; exact Hrep.
    - intros Hcond. apply Htot.
      destruct Hcond as [[H1 H2] | Hk]; [| congruence].
      specialize (Hboth H1 H2). lia. }
  assert (forall r2 a3,
            allocate b a2 = Some (r2, a3) ->
            twoAllocations S a b a0 = Some ((r1, r2), a3)) as Hprog.
  { intros r2 a3 Halloc2. unfold twoAllocations, mbind, M_bind.
    rewrite Hreset. cbv beta iota. rewrite Halloc1. cbv beta iota.
    rewrite Halloc2. reflexivity. }
  destruct Hcases1 as [[-> ->] | (-> & HaS & rest & HInv2 & Hrest)].
  - (* the first call returns the sentinel *)
    destruct (allocate_first a1 S b HInv1 Hb) as (r2 & a3 & Halloc2 & Hmx3 & Hcases2).
    exists Alloc_none, r2, a3. split; [apply Hprog, Halloc2 |].
    split; [intros Hc; destruct Hc; reflexivity |].
    intros firstFirst. apply Hfinish; [congruence | intros Hc; destruct Hc; reflexivity |].
    cbn [metadata Alloc_none].
    destruct Hcases2 as [[-> ->] | (-> & HbS & rest & HInv3 & Hrest)].
    + exists a1, 0. cbn [metadata Alloc_none]. split; [| auto].
      unfold mbind, M_bind. destruct firstFirst; rewrite !free_NO_SPACE; reflexivity.
    + destruct (free_single a3 0 b S rest HInv3 Hrest) as (a5 & Hfree & HInv5 & Hmx5).
      exists a5, 0. cbn [metadata]. split; [| auto].
      unfold mbind, M_bind. destruct firstFirst.
      * rewrite free_NO_SPACE. exact Hfree.
      * rewrite Hfree. apply free_NO_SPACE.
  - (* the first call returns the allocation at offset 0 *)
    destruct (allocate_second a2 S a rest b HInv2 Hrest Hb)
      as (r2 & a3 & Halloc2 & Hmx3 & Hcases2).
    exists (mkAlloc 0 0), r2, a3. split; [apply Hprog, Halloc2 |].
    destruct Hcases2 as [[-> ->] | (Hk & HabS & j & rest' & -> & HInv3 & Hrest')].
    + split; [intros _ Hc; destruct Hc; reflexivity |].
      intros firstFirst.
      apply Hfinish; [congruence | intros _ Hc; destruct Hc; reflexivity |].
      destruct (free_single a2 0 a S rest HInv2 Hrest) as (a5 & Hfree & HInv5 & Hmx5).
      exists a5, 0. cbn [metadata Alloc_none]. split; [| auto].
      unfold mbind, M_bind. destruct firstFirst.
      * rewrite Hfree. apply free_NO_SPACE.
      * rewrite free_NO_SPACE. exact Hfree.
    + split; [intros _ _; cbn [offset]; auto |].
      intros firstFirst.
      apply Hfinish; [congruence | intros _ _; lia |].
      cbn [metadata].
      apply (free_pair a3 j a b S rest' firstFirst HInv3 Hrest').
Qed.

Lemma C3_coalescing_witness :
  declared (construct 4 stale) /\ m_size (construct 4 stale) <> 1024 /\
  0 <= 1024 < 2 ^ 32 /\ 0 <= 100 < 2 ^ 32 /\ 0 <= 50 < 2 ^ 32 /\
  exists r1 r2 a3,
    twoAllocations 1024 100 50 (construct 4 stale) = Some ((r1, r2), a3) /\
    (r1 <> Alloc_none -> r2 <> Alloc_none ->
     offset r1 = 0 /\ offset r2 = 100 /\ 100 + 50 <= 1024) /\
    forall firstFirst, exists rep a5 h,
      freeBoth r1 r2 firstFirst a3 = Some (rep, a5) /\
      nodesAre a5 [mkSpan h 0 1024 false] /\
      (r1 <> Alloc_none /\ r2 <> Alloc_none \/
       m_maxAllocs (construct 4 stale) <> 1 ->
       totalFreeSpace rep = 1024).
Proof.
  assert (declared (construct 4 stale)) as Hd by (apply construct_declared; lia).
  assert (m_size (construct 4 stale) <> 1024) as Hs by (simpl; lia).
  split; [exact Hd |]. split; [exact Hs |].
  split; [lia |]. split; [lia |]. split; [lia |].
  apply (C3_coalescing (construct 4 stale) 1024 100 50 Hd Hs); lia.
Defined.

(** In this scenario both allocations succeed, and after
    either order of [free] the report is 1024 units in one region. *)
Example coalescing_both_orders :
  exists a3,
    twoAllocations 1024 100 50 (construct 4 stale)
      = Some ((mkAlloc 0 0, mkAlloc 100 1), a3) /\
    (exists a5, freeBoth (mkAlloc 0 0) (mkAlloc 100 1) true a3
                = Some (mkStorageReport 1024 1024, a5)) /\
    (exists a5, freeBoth (mkAlloc 0 0) (mkAlloc 100 1) false a3
                = Some (mkStorageReport 1024 1024, a5)).
Proof.
  eexists. split; [vm_compute; reflexivity |].
  split; [eexists; vm_compute; reflexivity |].
  eexists. vm_compute. reflexivity.
Qed.

(** * More of the code *)

(** ** The codec: gap, precision and best class *)

Lemma smallFloatToUint_RoundDown_large n :
  8 <= n < 2 ^ 32 ->
  smallFloatToUint (uintToSmallFloatRoundDown n) = n - n mod 2 ^ (Z.log2 n - 3).
Proof.
  intros Hn.
  rewrite uintToSmallFloatRoundDown_large by lia.
  pose proof (codec_shift_range n ltac:(lia)) as Hs.
  pose proof (codec_mantissa_range n ltac:(lia)) as Hq.
  rewrite smallFloatToUint_normal by lia.
  set (p := 2 ^ (Z.log2 n - 3)) in *.
  assert (0 < p) as Hp by (apply pow2_pos; lia).
  pose proof (Z.div_mod n p ltac:(lia)). pose proof (Z.mod_pos_bound n p Hp).
  rewrite wrap32_small; nia.
Qed.

Lemma class_table :
  forallb (fun c => (0 <=? smallFloatToUint c) && (smallFloatToUint c <=? 0xF0000000)
                    && roundTrips c) (seqZ 0 240) = true.
Proof. vm_compute. reflexivity. Qed.

Lemma class_facts c :
  0 <= c < 240 ->
  0 <= smallFloatToUint c <= 0xF0000000 /\
  uintToSmallFloatRoundUp (smallFloatToUint c) = c /\
  uintToSmallFloatRoundDown (smallFloatToUint c) = c.
Proof.
  intros Hc. pose proof class_table as Hall.
  rewrite forallb_forall in Hall.
  specialize (Hall c). rewrite <- list_elem_of_In, elem_of_seqZ in Hall.
  specialize (Hall ltac:(lia)). unfold roundTrips in Hall.
  apply andb_true_iff in Hall as [Hall H34].
  apply andb_true_iff in Hall as [H1 H2].
  apply andb_true_iff in H34 as [H3 H4].
  apply Z.leb_le in H1, H2. apply Z.eqb_eq in H3, H4. auto.
Qed.

(** X1: the two roundings of a size are the same class or neighbours, and the
    same exactly when the size is the size of a class. *)
Theorem rounding_gap n :
  0 <= n < 2 ^ 32 ->
  uintToSmallFloatRoundDown n <= uintToSmallFloatRoundUp n
    <= uintToSmallFloatRoundDown n + 1 /\
  (uintToSmallFloatRoundUp n = uintToSmallFloatRoundDown n <->
   smallFloatToUint (uintToSmallFloatRoundDown n) = n).
Proof.
  intros Hn. destruct (Z.lt_ge_cases n 8) as [Hlt | Hge].
  - rewrite uintToSmallFloatRoundUp_small, uintToSmallFloatRoundDown_small,
      smallFloatToUint_denormal by lia.
    split; [lia | tauto].
  - rewrite smallFloatToUint_RoundDown_large by lia.
    rewrite uintToSmallFloatRoundUp_large, uintToSmallFloatRoundDown_large by lia.
    destruct (Z.eqb_spec (n mod 2 ^ (Z.log2 n - 3)) 0) as [Hz | Hnz]; split; lia.
Qed.

Lemma rounding_gap_witness :
  0 <= 900 < 2 ^ 32 /\
  uintToSmallFloatRoundDown 900 <= uintToSmallFloatRoundUp 900
    <= uintToSmallFloatRoundDown 900 + 1 /\
  (uintToSmallFloatRoundUp 900 = uintToSmallFloatRoundDown 900 <->
   smallFloatToUint (uintToSmallFloatRoundDown 900) = 900).
Proof. split; [lia |]. apply (rounding_gap 900). lia. Defined.

Lemma precision n :
  0 <= n < 2 ^ 32 ->
  0 <= 8 * (n - smallFloatToUint (uintToSmallFloatRoundDown n)) <= n /\
  (n <= 0xF0000000 ->
   0 <= 8 * (smallFloatToUint (uintToSmallFloatRoundUp n) - n) <= n).
Proof.
  intros Hn. destruct (Z.lt_ge_cases n 8) as [Hlt | Hge].
  - rewrite uintToSmallFloatRoundUp_small, uintToSmallFloatRoundDown_small,
      smallFloatToUint_denormal by lia.
    lia.
  - pose proof (codec_shift_range n ltac:(lia)) as Hs.
    pose proof (codec_mantissa_range n ltac:(lia)) as Hq.
    pose proof (codec_pow_bounds n ltac:(lia)) as Hb.
    split.
    + rewrite smallFloatToUint_RoundDown_large by lia.
      set (p := 2 ^ (Z.log2 n - 3)) in *.
      assert (0 < p) as Hp by (apply pow2_pos; lia).
      pose proof (Z.mod_pos_bound n p Hp). lia.
    + intros Htop.
      pose proof (smallFloatToUint_RoundUp n ltac:(lia)) as Hup.
      split; [lia |].
      rewrite uintToSmallFloatRoundUp_large by lia.
      set (s := Z.log2 n - 3) in *. set (p := 2 ^ s) in *.
      assert (0 < p) as Hp by (apply pow2_pos; lia).
      pose proof (Z.div_mod n p ltac:(lia)) as Hdm.
      pose proof (Z.mod_pos_bound n p Hp) as Hmod.
      assert (p <= 2 ^ 28) as Hp28 by (apply pow2_le_mono; lia).
      change (2 ^ 28) with 268435456 in Hp28.
      destruct (Z.eqb_spec (n mod p) 0) as [Hz | Hnz].
      * rewrite Z.add_0_r, smallFloatToUint_normal by lia. fold p.
        rewrite wrap32_small by (change (2 ^ 32) with 4294967296; nia). nia.
      * destruct (Z.eq_dec (n / p) 15) as [H15 | H15].
        -- assert (s <= 27) as Hs27.
           { destruct (Z.eq_dec s 28) as [H28 | ?]; [| lia].
             assert (p = 268435456) by (unfold p; rewrite H28; reflexivity). lia. }
           replace (8 * s + n / p + 1) with (8 * (s + 1) + 8) by lia.
           rewrite smallFloatToUint_normal by lia.
           rewrite Z.pow_add_r by lia. fold p. change (2 ^ 1) with 2.
           assert (p <= 2 ^ 27) as Hp27 by (apply pow2_le_mono; lia).
           change (2 ^ 27) with 134217728 in Hp27.
           rewrite wrap32_small by (change (2 ^ 32) with 4294967296; lia). nia.
        -- replace (8 * s + n / p + 1) with (8 * s + (n / p + 1)) by lia.
           rewrite smallFloatToUint_normal by lia. fold p.
           rewrite wrap32_small by (change (2 ^ 32) with 4294967296; nia). nia.
Qed.

(** X2: rounding a size to its class loses less than one eighth of it, in
    either direction. *)
Theorem rounding_precision n :
  0 <= n < 2 ^ 32 ->
  0 <= 8 * (n - smallFloatToUint (uintToSmallFloatRoundDown n)) <= n /\
  (n <= 0xF0000000 ->
   0 <= 8 * (smallFloatToUint (uintToSmallFloatRoundUp n) - n) <= n).
Proof. apply precision. Qed.

Lemma rounding_precision_witness :
  0 <= 900 < 2 ^ 32 /\
  0 <= 8 * (900 - smallFloatToUint (uintToSmallFloatRoundDown 900)) <= 900 /\
  (900 <= 0xF0000000 ->
   0 <= 8 * (smallFloatToUint (uintToSmallFloatRoundUp 900) - 900) <= 900).
Proof. split; [lia |]. apply (rounding_precision 900). lia. Defined.

Lemma class_galois n c :
  0 <= n < 2 ^ 32 -> 0 <= c < 240 ->
  (smallFloatToUint c <= n <-> c <= uintToSmallFloatRoundDown n) /\
  (n <= smallFloatToUint c <-> uintToSmallFloatRoundUp n <= c).
Proof.
  intros Hn Hc.
  destruct (class_facts c Hc) as (Hr & Hup & Hdown).
  split; split.
  - intros Hle. rewrite <- Hdown.
    apply uintToSmallFloatRoundDown_mono; lia.
  - intros Hle.
    destruct (Z.le_gt_cases (smallFloatToUint c) n) as [? | Hgt]; [assumption |].
    pose proof (uintToSmallFloatRoundDown_mono n (smallFloatToUint c)
                  ltac:(lia) ltac:(lia)) as Hmono.
    rewrite Hdown in Hmono.
    assert (uintToSmallFloatRoundDown n = c) as Heq by lia.
    pose proof (smallFloatToUint_RoundDown n Hn) as Hd. rewrite Heq in Hd. lia.
  - intros Hle. rewrite <- Hup.
    apply uintToSmallFloatRoundUp_mono; lia.
  - intros Hle.
    destruct (Z.le_gt_cases n (smallFloatToUint c)) as [? | Hgt]; [assumption |].
    pose proof (uintToSmallFloatRoundUp_mono (smallFloatToUint c) n
                  ltac:(lia) ltac:(lia)) as Hmono.
    rewrite Hup in Hmono.
    assert (uintToSmallFloatRoundUp n = c) as Heq by lia.
    assert (n <= 0xF0000000) as Htop.
    { destruct (Z.le_gt_cases n 0xF0000000) as [? | Hbig]; [assumption |].
      rewrite uintToSmallFloatRoundUp_top in Heq by lia. lia. }
    pose proof (smallFloatToUint_RoundUp n ltac:(lia)) as Hu.
    rewrite Heq in Hu. lia.
Qed.

Lemma smallFloatToUint_mono c c' :
  0 <= c <= c' -> c' < 240 -> smallFloatToUint c <= smallFloatToUint c'.
Proof.
  intros Hc Hc'.
  destruct (class_facts c' ltac:(lia)) as (Hr & _ & Hdown).
  apply (class_galois (smallFloatToUint c') c); [lia | lia |].
  rewrite Hdown. lia.
Qed.

(** X3: among the classes below 240, rounding down gives the largest class
    whose size is at most n, and rounding up the smallest class whose size
    is at least n. *)
Theorem rounding_best_class n c :
  0 <= n < 2 ^ 32 -> 0 <= c < 240 ->
  (smallFloatToUint c <= n <-> c <= uintToSmallFloatRoundDown n) /\
  (n <= smallFloatToUint c <-> uintToSmallFloatRoundUp n <= c).
Proof. apply class_galois. Qed.

Lemma rounding_best_class_witness :
  0 <= 900 < 2 ^ 32 /\ 0 <= 61 < 240 /\
  (smallFloatToUint 61 <= 900 <-> 61 <= uintToSmallFloatRoundDown 900) /\
  (900 <= smallFloatToUint 61 <-> uintToSmallFloatRoundUp 900 <= 61).
Proof.
  split; [lia |]. split; [lia |]. apply (rounding_best_class 900 61); lia.
Defined.

(** ** The bit scans *)

Lemma ctz_pos_low p i : 0 <= i < ctz_pos p -> Z.testbit (Zpos p) i = false.
Proof.
  revert i. induction p as [p _ | p IH | ]; cbn [ctz_pos]; intros i Hi; try lia.
  destruct (Z.eq_dec i 0) as [-> | Hne]; [reflexivity |].
  replace i with (Z.succ (i - 1)) by lia.
  change (Zpos p~0) with (2 * Zpos p).
  rewrite Z.testbit_even_succ by lia. apply IH. lia.
Qed.

Lemma tzcnt_nonzero_low v i :
  0 < v -> 0 <= i < tzcnt_nonzero v -> Z.testbit v i = false.
Proof. destruct v as [| p | p]; [lia | intros _ | lia]. apply ctz_pos_low. Qed.

Lemma bitsAfter_spec bitMask startBitIndex i :
  0 <= bitMask < 2 ^ 32 -> 0 <= startBitIndex < 32 -> 0 <= i ->
  Z.testbit
    (Z.land bitMask (not32 (sub32 (shl32 1 startBitIndex) 1))) i =
  Z.testbit bitMask i && (startBitIndex <=? i).
Proof.
  intros Hm Hs Hi.
  rewrite Z.land_spec.
  destruct (Z.testbit bitMask i) eqn:Hbit; [| reflexivity]. cbn [andb].
  pose proof (testbit_true_lt bitMask i 32 Hm Hbit) as Hi32.
  unfold not32, wrap32.
  rewrite Z.testbit_mod_pow2 by lia.
  destruct (Z.ltb_spec i 32) as [_ | ?]; [| lia]. cbn [andb].
  rewrite Z.lnot_spec by lia.
  rewrite shl32_bit by lia.
  pose proof (pow2_pos startBitIndex ltac:(lia)) as Hp.
  pose proof (Z.pow_lt_mono_r 2 startBitIndex 32 ltac:(lia) ltac:(lia) ltac:(lia)).
  rewrite sub32_small by lia.
  replace (2 ^ startBitIndex - 1) with (Z.ones startBitIndex)
    by (rewrite Z.ones_equiv; lia).
  destruct (Z.leb_spec startBitIndex i) as [Hle | Hlt].
  - rewrite Z.ones_spec_high by lia. reflexivity.
  - rewrite Z.ones_spec_low by lia. reflexivity.
Qed.

(** What [findLowestSetBitAfter] finds. *)
Lemma findLowestSetBitAfter_spec bitMask startBitIndex :
  0 <= bitMask < 2 ^ 32 -> 0 <= startBitIndex < 32 ->
  (findLowestSetBitAfter bitMask startBitIndex = NO_SPACE /\
   forall i, startBitIndex <= i -> Z.testbit bitMask i = false) \/
  (startBitIndex <= findLowestSetBitAfter bitMask startBitIndex < 32 /\
   Z.testbit bitMask (findLowestSetBitAfter bitMask startBitIndex) = true /\
   forall i, startBitIndex <= i < findLowestSetBitAfter bitMask startBitIndex ->
             Z.testbit bitMask i = false).
Proof.
  intros Hm Hs.
  pose proof (bitsAfter_spec bitMask startBitIndex) as Hbits.
  unfold findLowestSetBitAfter.
  set (bitsAfter := Z.land bitMask _) in *.
  assert (0 <= bitsAfter) as Hnn by (apply Z.land_nonneg; left; lia).
  destruct (Z.eqb_spec bitsAfter 0) as [Hz | Hne].
  - left. split; [reflexivity |]. intros i Hi.
    specialize (Hbits i Hm Hs ltac:(lia)).
    rewrite Hz, Z.bits_0 in Hbits.
    destruct (Z.leb_spec startBitIndex i); [| lia].
    rewrite andb_true_r in Hbits. auto.
  - right.
    destruct (tzcnt_nonzero_spec bitsAfter ltac:(lia)) as [Hr0 Hbit].
    pose proof (tzcnt_nonzero_low bitsAfter) as Hlow.
    set (r := tzcnt_nonzero bitsAfter) in *.
    rewrite (Hbits r Hm Hs Hr0) in Hbit.
    apply andb_true_iff in Hbit as [Hbm Hge]. apply Z.leb_le in Hge.
    pose proof (testbit_true_lt bitMask r 32 Hm Hbm) as Hr.
    split; [lia |]. split; [exact Hbm |].
    intros i Hi.
    specialize (Hlow i ltac:(lia) ltac:(lia)).
    rewrite (Hbits i Hm Hs ltac:(lia)) in Hlow.
    destruct (Z.leb_spec startBitIndex i); [| lia].
    rewrite andb_true_r in Hlow. exact Hlow.
Qed.

(** X4: [findLowestSetBitAfter] returns the index of the lowest bit set at or
    after [startBitIndex], and [NO_SPACE] exactly when no such bit is set. *)
Theorem findLowestSetBitAfter_lowest bitMask startBitIndex :
  0 <= bitMask < 2 ^ 32 -> 0 <= startBitIndex < 32 ->
  (findLowestSetBitAfter bitMask startBitIndex = NO_SPACE <->
   forall i, startBitIndex <= i -> Z.testbit bitMask i = false) /\
  (forall r, findLowestSetBitAfter bitMask startBitIndex = r -> r <> NO_SPACE ->
   startBitIndex <= r < 32 /\ Z.testbit bitMask r = true /\
   forall i, startBitIndex <= i < r -> Z.testbit bitMask i = false).
Proof.
  intros Hm Hs.
  destruct (findLowestSetBitAfter_spec bitMask startBitIndex Hm Hs)
    as [[Hno Hnone] | (Hr & Hbit & Hlow)].
  - split; [tauto |]. intros r <- Hne. contradiction.
  - split.
    + split.
      * intros Hno. rewrite Hno in Hr. unfold NO_SPACE in Hr. lia.
      * intros Hnone. rewrite Hnone in Hbit by lia. discriminate.
    + intros r <- _. auto.
Qed.

Lemma findLowestSetBitAfter_lowest_witness :
  0 <= 144 < 2 ^ 32 /\ 0 <= 5 < 32 /\
  (findLowestSetBitAfter 144 5 = NO_SPACE <->
   forall i, 5 <= i -> Z.testbit 144 i = false) /\
  (forall r, findLowestSetBitAfter 144 5 = r -> r <> NO_SPACE ->
   5 <= r < 32 /\ Z.testbit 144 r = true /\
   forall i, 5 <= i < r -> Z.testbit 144 i = false).
Proof.
  split; [lia |]. split; [lia |]. apply (findLowestSetBitAfter_lowest 144 5); lia.
Defined.

(** ** Which node [allocate] takes *)

Lemma heldState_reachable : reachable 1024 [0] heldState.
Proof.
  exists (construct 4 stale), [Allocate 100].
  split; [apply construct_declared; lia |].
  split; [simpl; lia |]. split; [lia |].
  vm_compute. reflexivity.
Qed.

Lemma returns_ret {A} (P : A -> Prop) (x : A) : P x -> returns P (mret x).
Proof. intros HP a y a' H. injection H as <- <-. exact HP. Qed.

Lemma returns_bind {A B} (P : B -> Prop) (m : M A) (k : A -> M B) :
  (forall x, returns P (k x)) -> returns P (m ≫= k).
Proof.
  intros Hk a y a' H. unfold mbind, M_bind in H.
  destruct (m a) as [[x a1] |]; [| discriminate].
  exact (Hk x _ _ _ H).
Qed.

Lemma bind_inv {A B} (m : M A) (k : A -> M B) a y a' :
  (m ≫= k) a = Some (y, a') ->
  exists x a1, m a = Some (x, a1) /\ k x a1 = Some (y, a').
Proof.
  unfold mbind, M_bind. destruct (m a) as [[x a1] |]; [| discriminate].
  eauto.
Qed.

Lemma loadBinIndices_inv i a x a' :
  loadBinIndices i a = Some (x, a') -> index (m_binIndices a) i = Some x /\ a' = a.
Proof.
  unfold loadBinIndices, mbind, M_bind, get, lift.
  destruct (index (m_binIndices a) i); [| discriminate].
  intros H. injection H as <- <-. auto.
Qed.

(** The handle [allocateFromBin] returns is the head of the bin. *)
Lemma allocateFromBin_metadata size t l a r a' :
  allocateFromBin size t l a = Some (r, a') ->
  index (m_binIndices a) (Z.lor (shl32 t TOP_BINS_INDEX_SHIFT) l)
    = Some (metadata r).
Proof.
  unfold allocateFromBin. intros H.
  apply bind_inv in H as (nodeIndex & a1 & Hload & Hrest).
  apply loadBinIndices_inv in Hload as [Hidx ->].
  rewrite Hidx. f_equal. symmetry.
  cbv beta in Hrest.
  match type of Hrest with
  | ?m _ = _ => assert (returns (fun r => metadata r = nodeIndex) m) as Hret
  end.
  { repeat (apply returns_bind; intros ?).
    apply returns_ret. reflexivity. }
  exact (Hret _ _ _ Hrest).
Qed.

Lemma land_bit v t :
  0 <= v -> 0 <= t < 32 ->
  (Z.land v (shl32 1 t) <> 0 <-> Z.testbit v t = true).
Proof.
  intros Hv Ht. rewrite shl32_bit by exact Ht.
  assert (0 <= Z.land v (2 ^ t)) as Hnn by (apply Z.land_nonneg; left; exact Hv).
  rewrite (nonzero_iff_bit _ Hnn). split.
  - intros (i & Hi & Hbit).
    rewrite Z.land_spec, andb_true_iff in Hbit. destruct Hbit as [Hv' Hp].
    apply (testbit_bit t i) in Hp; [| lia | lia]. subst i. exact Hv'.
  - intros Hbit. exists t. split; [lia |].
    rewrite Z.land_spec, Hbit. cbn [andb].
    apply (testbit_bit t t); lia.
Qed.

(** A free node marks its bin in the bitmap. *)
Lemma bins_span_bits ns bins ub top fst F s t l :
  bins_ok ns bins ub top fst F -> s ∈ F ->
  0 <= t < 32 -> 0 <= l < 8 -> uintToSmallFloatRoundDown (len s) = 8 * t + l ->
  Z.testbit top t = true /\
  exists leaf, index ub t = Some leaf /\ 0 <= leaf < 256 /\
               Z.testbit leaf l = true.
Proof.
  intros (bl & _ & _ & Hmem & (_ & _ & Hbm) & _) Hs Ht Hl Hclass.
  destruct (Hbm t Ht) as (leaf & Hleaf & Hleafr & Hiff & Hbits).
  assert (Z.testbit leaf l = true) as Hbit.
  { apply (Hbits l Hl).
    assert (handle s ∈ bl (8 * t + l)) as Hin by (apply Hmem; eauto).
    intros Hnil. rewrite Hnil in Hin. inversion Hin. }
  split; [| eauto].
  apply Hiff. intros ->. rewrite Z.bits_0 in Hbit. discriminate.
Qed.

Lemma wp_self {A} (m : M A) (Q : A -> OffsetAllocator -> Prop) a :
  wp m (fun _ _ => True) a ->
  (forall x a', m a = Some (x, a') -> Q x a') ->
  wp m Q a.
Proof.
  intros Hdef HQ. destruct (wp_elim _ _ _ Hdef) as (x & a' & Heq & _).
  exists x, a'. split; [exact Heq | apply HQ, Heq].
Qed.

Lemma Inv_free_range a v s :
  Inv a v -> s ∈ freeSpans v -> 0 <= len s < 2 ^ 32.
Proof.
  intros (ns & fs & _ & _ & Hsz & _ & _ & _ & _ & Htiles & _) Hs.
  apply elem_of_freeSpans in Hs as [Hs _].
  pose proof (tiles_elem _ _ _ _ Htiles Hs). lia.
Qed.

(** The scan of [allocate]: it ends at the lowest bin, from the class the
    request rounds up to, that holds a node. *)
Lemma wp_allocate_scan size Q a v :
  Inv a v -> 0 <= size < 2 ^ 32 -> m_freeOffset a <> NO_SPACE ->
  ((forall s, s ∈ freeSpans v ->
      uintToSmallFloatRoundDown (len s) < uintToSmallFloatRoundUp size) ->
   Q Alloc_none a) ->
  (forall t l,
     0 <= t < 32 -> 0 <= l < 8 -> uintToSmallFloatRoundUp size <= 8 * t + l ->
     (exists h, index (m_binIndices a) (8 * t + l) = Some h /\ h <> UNUSED) ->
     (forall s, s ∈ freeSpans v ->
        uintToSmallFloatRoundUp size <= uintToSmallFloatRoundDown (len s) ->
        8 * t + l <= uintToSmallFloatRoundDown (len s)) ->
     wp (allocateFromBin size t l) Q a) ->
  wp (allocate size) Q a.
Proof.
  intros HInv Hsize Hfo Hnone Hsome.
  pose proof HInv as (ns & fs & Hns & Hfs & Hsz & Hlen & Hstack & _ & _ & _ & Hbins).
  pose proof (fun s => Inv_free_range a v s HInv) as Hfr.
  destruct a as [sz mx fst top ub bins ons ofs fo]. simpl in *. subst ons ofs.
  assert (Z.of_nat (length ns) <= UNUSED) as Hsmall.
  { destruct Hstack as (Hmx & _). unfold UNUSED. lia. }
  (* where a free node of a sufficient class sits in the bitmap *)
  assert (forall s, s ∈ freeSpans v ->
            exists tc lc, 0 <= tc < 32 /\ 0 <= lc < 8 /\
              uintToSmallFloatRoundDown (len s) = 8 * tc + lc /\
              Z.testbit top tc = true /\
              exists leaf, index ub tc = Some leaf /\ Z.testbit leaf lc = true)
    as Hwhere.
  { intros s Hs.
    pose proof (span_bin_range s (Hfr s Hs)) as Hb.
    destruct (bin_decompose _ Hb) as (Hdec & Htc & Hlc).
    eexists _, _. split; [exact Htc |]. split; [exact Hlc |].
    split; [exact Hdec |].
    destruct (bins_span_bits _ _ _ _ _ _ s _ _ Hbins Hs Htc Hlc Hdec)
      as (Htop & leaf & Hleaf & _ & Hbit).
    eauto. }
  unfold allocate. wp_get.
  destruct (decide (fo = NO_SPACE)) as [? | _]; [contradiction |].
  pose proof (codec_index_range size Hsize) as [Hrd Hru].
  set (minBinIndex := uintToSmallFloatRoundUp size) in *.
  assert (0 <= minBinIndex < 256) as Hmin by lia.
  destruct (bin_decompose minBinIndex Hmin) as (Hmtl & Hmt & Hml).
  set (minTop := Z.shiftr minBinIndex TOP_BINS_INDEX_SHIFT) in *.
  set (minLeaf := Z.land minBinIndex LEAF_BINS_INDEX_MASK) in *.
  assert (minTop <= 30) as Hmt30 by lia.
  destruct (bins_top_leaf _ _ _ _ _ _ minTop Hbins Hmt)
    as (Htop & leaf & Hleaf & Hleafr & Hiff).
  wp_get.
  (* the scan of the leaf bins of the first top bin *)
  apply wp_bind.
  apply (wp_mono _ (fun leafBinIndex a' =>
     a' = mkOffsetAllocator sz mx fst top ub bins (Some ns) (Some fs) fo /\
     (leafBinIndex = NO_SPACE /\
        (forall lc, minLeaf <= lc -> Z.testbit leaf lc = false) \/
      minLeaf <= leafBinIndex < 8 /\ Z.testbit leaf leafBinIndex = true /\
        (forall lc, minLeaf <= lc < leafBinIndex -> Z.testbit leaf lc = false)))).
  { destruct (decide (Z.land top (shl32 1 minTop) <> 0)) as [Hbit | Hbit].
    - apply wp_bind. eapply wp_loadUsedBins; [exact Hleaf |]. apply wp_ret.
      split; [reflexivity |].
      destruct (findLowestSetBitAfter_spec leaf minLeaf ltac:(lia) ltac:(lia))
        as [[Hno Hlow] | (Hr & Hb & Hlow)]; [left; auto | right].
      pose proof (testbit_true_lt leaf _ 8 ltac:(simpl; lia) Hb). auto with lia.
    - apply wp_ret. split; [reflexivity |]. left. split; [reflexivity |].
      assert (leaf = 0) as ->.
      { destruct (Z.eq_dec leaf 0) as [? | Hne]; [assumption |].
        exfalso. apply Hbit. apply land_bit; [lia | lia |]. apply Hiff, Hne. }
      intros lc _. apply Z.bits_0. }
  intros leafBinIndex a' [-> Hscan].
  destruct (decide (leafBinIndex = NO_SPACE)) as [Hno | Hyes].
  - destruct Hscan as [[_ Hlow] | [Hr _]]; [| unfold NO_SPACE in Hno; lia].
    (* no node in the first top bin: the top bins above are scanned *)
    assert (forall s tc lc, s ∈ freeSpans v ->
              minBinIndex <= uintToSmallFloatRoundDown (len s) ->
              uintToSmallFloatRoundDown (len s) = 8 * tc + lc ->
              0 <= tc < 32 -> 0 <= lc < 8 ->
              forall leaf', index ub tc = Some leaf' -> Z.testbit leaf' lc = true ->
              minTop + 1 <= tc) as Habove.
    { intros s tc lc Hs Hge Hc Htc Hlc leaf' Hleaf' Hbit'.
      destruct (Z.le_gt_cases (minTop + 1) tc) as [? | Hlt]; [assumption | exfalso].
      assert (tc = minTop) as -> by lia.
      assert (leaf' = leaf) as -> by congruence.
      rewrite Hlow in Hbit' by lia. discriminate. }
    wp_get.
    rewrite add32_small by lia.
    destruct (findLowestSetBitAfter_spec top (minTop + 1) Htop ltac:(lia))
      as [[Hnot Htlow] | (Htr & Htbit & Htlow)].
    + rewrite Hnot. rewrite decide_True by reflexivity.
      apply wp_ret, Hnone. intros s Hs.
      destruct (Z.lt_ge_cases (uintToSmallFloatRoundDown (len s)) minBinIndex)
        as [? | Hge]; [assumption | exfalso].
      destruct (Hwhere s Hs) as (tc & lc & Htc & Hlc & Hc & Htopbit & leaf' & Hleaf' & Hbit').
      pose proof (Habove s tc lc Hs Hge Hc Htc Hlc leaf' Hleaf' Hbit') as Hab.
      rewrite Htlow in Htopbit by lia. discriminate.
    + set (topBinIndex := findLowestSetBitAfter top (minTop + 1)) in *.
      rewrite decide_False by (unfold NO_SPACE; lia).
      destruct (bins_top_leaf _ _ _ _ _ _ topBinIndex Hbins ltac:(lia))
        as (_ & leaf' & Hleaf' & Hleafr' & Hiff').
      apply Hiff' in Htbit.
      apply wp_bind. eapply wp_loadUsedBins; [exact Hleaf' |].
      apply wp_bind. apply wp_requires; [exact Htbit |].
      destruct (tzcnt_nonzero_spec leaf' ltac:(lia)) as [Hl0 Hlbit].
      pose proof (testbit_true_lt leaf' _ 8 ltac:(simpl; lia) Hlbit) as Hl8.
      apply Hsome; [lia | exact Hl8 | lia | |].
      * eapply bins_bit_head; eauto. lia.
      * intros s Hs Hge.
        destruct (Hwhere s Hs)
          as (tc & lc & Htc & Hlc & Hc & Htopbit & leaf'' & Hleaf'' & Hbit'').
        pose proof (Habove s tc lc Hs Hge Hc Htc Hlc leaf'' Hleaf'' Hbit'') as Hab.
        destruct (Z.lt_trichotomy tc topBinIndex) as [Hlt | [Heq | Hgt]].
        -- rewrite Htlow in Htopbit by lia. discriminate.
        -- subst tc. assert (leaf'' = leaf') as -> by congruence.
           destruct (Z.le_gt_cases (tzcnt_nonzero leaf') lc) as [? | Hlow']; [lia |].
           rewrite (tzcnt_nonzero_low leaf') in Hbit'' by lia. discriminate.
        -- lia.
  - destruct Hscan as [[? _] | (Hlr & Hlbit & Hlow)]; [contradiction |].
    apply Hsome; [lia | lia | lia | |].
    + eapply bins_bit_head; eauto. lia.
    + intros s Hs Hge.
      destruct (Hwhere s Hs)
        as (tc & lc & Htc & Hlc & Hc & Htopbit & leaf'' & Hleaf'' & Hbit'').
      destruct (Z.lt_trichotomy tc minTop) as [Hlt | [Heq | Hgt]].
      * lia.
      * subst tc. assert (leaf'' = leaf) as -> by congruence.
        destruct (Z.le_gt_cases leafBinIndex lc) as [? | Hlow']; [lia |].
        rewrite Hlow in Hbit'' by lia. discriminate.
      * lia.
Qed.

Lemma allocateFromBin_total size t l a v :
  Inv a v -> m_freeOffset a <> NO_SPACE -> 0 <= size < 2 ^ 32 ->
  0 <= t < 32 -> 0 <= l < 8 ->
  (exists h, index (m_binIndices a) (8 * t + l) = Some h /\ h <> UNUSED) ->
  uintToSmallFloatRoundUp size <= 8 * t + l ->
  exists r a',
    allocateFromBin size t l a = Some (r, a') /\
    exists v1 s v2 rest,
      v = v1 ++ s :: v2 /\ inUse s = false /\ size <= len s /\
      (len s = size /\ rest = [] \/
       size < len s /\
       exists j, rest = [mkSpan j (start s + size) (len s - size) false]) /\
      Inv a' (v1 ++ mkSpan (handle s) (start s) size true :: rest ++ v2) /\
      r = mkAlloc (start s) (handle s) /\
      uintToSmallFloatRoundDown (len s) = 8 * t + l.
Proof.
  intros HInv Hfo Hsize Ht Hl Hhead Hfit.
  pose proof HInv as (ns & fs & Hns & Hfs & _ & Hlen & Hstack & _ & _ & _ & Hbins).
  pose proof (Inv_NoDup a v HInv) as Hnd.
  destruct a as [sz mx fst top ub bins ons ofs fo]. simpl in *. subst ons ofs.
  assert (Z.of_nat (length ns) <= UNUSED) as Hsmall.
  { destruct Hstack as (Hmx & _). unfold UNUSED. lia. }
  assert (wp (allocateFromBin size t l)
            (fun r a' => exists v1 s v2 rest,
               v = v1 ++ s :: v2 /\ inUse s = false /\ size <= len s /\
               (len s = size /\ rest = [] \/
                size < len s /\
                exists j, rest = [mkSpan j (start s + size) (len s - size) false]) /\
               Inv a' (v1 ++ mkSpan (handle s) (start s) size true :: rest ++ v2) /\
               r = mkAlloc (start s) (handle s))
            (mkOffsetAllocator sz mx fst top ub bins (Some ns) (Some fs) fo)) as Hwp.
  { apply (wp_allocateFromBin size t l _ sz mx fst top ub bins ns fs fo v
             HInv Hfo Hsize Ht Hl Hhead Hfit).
    intros a' v1 s v2 rest Hv Hfree Hle Hrest HInv'.
    exists v1, s, v2, rest. auto 10. }
  destruct (wp_elim _ _ _ Hwp)
    as (r & a' & Heq & v1 & s & v2 & rest & Hv & Hfree & Hle & Hrest & HInv' & Hr).
  exists r, a'. split; [exact Heq |].
  exists v1, s, v2, rest. repeat (split; [assumption |]).
  apply allocateFromBin_metadata in Heq.
  rewrite bin_compose in Heq by lia. cbn [m_binIndices] in Heq.
  destruct Hhead as (h & Hh & Hhu).
  assert (metadata r = h) as Hmeta by congruence.
  destruct (bins_head_span _ _ _ _ _ _ (8 * t + l) h Hsmall Hbins ltac:(lia) Hh Hhu)
    as (s' & n' & Hs' & Hhs' & Hclass & _).
  apply elem_of_freeSpans in Hs' as [Hs' _].
  assert (s' = s) as ->; [| exact Hclass].
  apply (handle_inj v); [exact Hnd | exact Hs' | |].
  - subst v. rewrite elem_of_app, elem_of_cons. auto.
  - rewrite Hhs', <- Hmeta, Hr. reflexivity.
Qed.

(** [allocate], with the class of the node it takes. *)
Lemma allocate_lowest size a v :
  Inv a v -> 0 <= size < 2 ^ 32 ->
  exists r a',
    allocate size a = Some (r, a') /\
    (r = Alloc_none /\ a' = a /\
     (m_freeOffset a = NO_SPACE \/
      forall s, s ∈ freeSpans v ->
        uintToSmallFloatRoundDown (len s) < uintToSmallFloatRoundUp size) \/
     m_freeOffset a <> NO_SPACE /\
     exists v1 s v2 rest,
       v = v1 ++ s :: v2 /\ inUse s = false /\ size <= len s /\
       (len s = size /\ rest = [] \/
        size < len s /\
        exists j, rest = [mkSpan j (start s + size) (len s - size) false]) /\
       Inv a' (v1 ++ mkSpan (handle s) (start s) size true :: rest ++ v2) /\
       r = mkAlloc (start s) (handle s) /\
       uintToSmallFloatRoundUp size <= uintToSmallFloatRoundDown (len s) /\
       forall s', s' ∈ freeSpans v ->
         uintToSmallFloatRoundUp size <= uintToSmallFloatRoundDown (len s') ->
         uintToSmallFloatRoundDown (len s) <= uintToSmallFloatRoundDown (len s')).
Proof.
  intros HInv Hsize.
  destruct (decide (m_freeOffset a = NO_SPACE)) as [Hfo | Hfo].
  - exists Alloc_none, a. split; [| left; auto].
    unfold allocate, mbind, M_bind, get. rewrite decide_True by exact Hfo.
    reflexivity.
  - apply wp_elim.
    apply (wp_allocate_scan size _ a v HInv Hsize Hfo).
    + intros Hnone. left. auto.
    + intros t l Ht Hl Hfit Hhead Hmin.
      destruct (allocateFromBin_total size t l a v HInv Hfo Hsize Ht Hl Hhead Hfit)
        as (r & a' & Heq & v1 & s & v2 & rest & Hv & Hfree & Hle & Hrest & HInv' & Hr & Hclass).
      exists r, a'. split; [exact Heq |]. right. split; [exact Hfo |].
      exists v1, s, v2, rest. repeat (split; [assumption |]).
      rewrite Hclass. split; [exact Hfit | exact Hmin].
Qed.

(** X5: in every reachable state [allocate(n)] returns the sentinel exactly
    when no handle is left on the stack or no free node has a class at or
    above the class n rounds up to; the state is then unchanged.
    Otherwise it takes a free node that holds n units and whose class is
    the lowest of the classes of free nodes that are sufficient, and
    returns the offset of that node. *)
Theorem allocate_takes_lowest_class S out a n :
  reachable S out a -> 0 <= n < 2 ^ 32 ->
  exists v r a',
    nodesAre a v /\ allocate n a = Some (r, a') /\
    (r = Alloc_none <->
     m_freeOffset a = NO_SPACE \/
     forall s, s ∈ freeSpans v ->
       uintToSmallFloatRoundDown (len s) < uintToSmallFloatRoundUp n) /\
    (r = Alloc_none -> a' = a) /\
    (r <> Alloc_none ->
     exists s, s ∈ freeSpans v /\ r = mkAlloc (start s) (handle s) /\
       n <= len s /\
       uintToSmallFloatRoundUp n <= uintToSmallFloatRoundDown (len s) /\
       forall s', s' ∈ freeSpans v ->
         uintToSmallFloatRoundUp n <= uintToSmallFloatRoundDown (len s') ->
         uintToSmallFloatRoundDown (len s) <= uintToSmallFloatRoundDown (len s')).
Proof.
  intros Hreach Hn.
  destruct (reachable_Inv S out a Hreach) as (v & HInv & _).
  destruct (Inv_nodesAre a v HInv) as [Hnodes _].
  destruct (allocate_lowest n a v HInv Hn) as (r & a' & Heq & Hcases).
  exists v, r, a'. split; [exact Hnodes |]. split; [exact Heq |].
  destruct Hcases as [(-> & -> & Hwhy) |
    (Hfo & v1 & s & v2 & rest & Hv & Hfree & Hle & _ & _ & -> & Hfit & Hmin)].
  - split; [tauto |]. split; [auto |]. intros Hc. destruct Hc. reflexivity.
  - assert (s ∈ v) as Hs by (subst v; rewrite elem_of_app, elem_of_cons; auto).
    destruct (Inv_handle_range a v s HInv Hs) as [_ Hne].
    assert (mkAlloc (start s) (handle s) <> Alloc_none) as Hsome.
    { intros Hc. injection Hc as _ Hc. contradiction. }
    assert (s ∈ freeSpans v) as Hsf by (apply elem_of_freeSpans; auto).
    split; [| split; [contradiction |]].
    + split; [contradiction |]. intros [? | Hnone]; [contradiction |].
      specialize (Hnone s Hsf). lia.
    + intros _. exists s. auto 10.
Qed.

Lemma allocate_takes_lowest_class_witness :
  reachable 1024 [0] heldState /\ 0 <= 100 < 2 ^ 32 /\
  exists v r a',
    nodesAre heldState v /\ allocate 100 heldState = Some (r, a') /\
    (r = Alloc_none <->
     m_freeOffset heldState = NO_SPACE \/
     forall s, s ∈ freeSpans v ->
       uintToSmallFloatRoundDown (len s) < uintToSmallFloatRoundUp 100) /\
    (r = Alloc_none -> a' = heldState) /\
    (r <> Alloc_none ->
     exists s, s ∈ freeSpans v /\ r = mkAlloc (start s) (handle s) /\
       100 <= len s /\
       uintToSmallFloatRoundUp 100 <= uintToSmallFloatRoundDown (len s) /\
       forall s', s' ∈ freeSpans v ->
         uintToSmallFloatRoundUp 100 <= uintToSmallFloatRoundDown (len s') ->
         uintToSmallFloatRoundDown (len s) <= uintToSmallFloatRoundDown (len s')).
Proof.
  split; [exact heldState_reachable |]. split; [lia |].
  apply (allocate_takes_lowest_class 1024 [0] heldState 100);
    [exact heldState_reachable | lia].
Defined.

(** ** What a client holds *)

Lemma coalesced_cons s v :
  coalesced (s :: v) <->
  (inUse s = true \/ default true (inUse <$> head v) = true) /\ coalesced v.
Proof.
  destruct v as [| s' v]; simpl; [tauto | tauto].
Qed.

Lemma coalesced_app v1 v2 :
  coalesced (v1 ++ v2) <->
  coalesced v1 /\ coalesced v2 /\
  (default true (inUse <$> list.last v1) = true \/
   default true (inUse <$> head v2) = true).
Proof.
  induction v1 as [| s v1 IH].
  - simpl. tauto.
  - change ((s :: v1) ++ v2) with (s :: (v1 ++ v2)).
    rewrite !coalesced_cons, IH.
    destruct v1 as [| s' v1].
    + simpl. tauto.
    + change (list.last (s :: s' :: v1)) with (list.last (s' :: v1)).
      simpl. tauto.
Qed.

Lemma coalesced_free_between v1 s v2 :
  coalesced (v1 ++ s :: v2) -> inUse s = false ->
  coalesced v1 /\ coalesced v2 /\
  default true (inUse <$> list.last v1) = true /\
  default true (inUse <$> head v2) = true.
Proof.
  intros Hc Hs.
  apply coalesced_app in Hc as (Hc1 & Hc2 & Hb).
  apply coalesced_cons in Hc2 as [Hb2 Hc2].
  simpl in Hb. rewrite Hs in Hb, Hb2.
  repeat split; try assumption.
  - destruct Hb as [? | Hb]; [assumption | discriminate].
  - destruct Hb2 as [Hb2 | ?]; [discriminate | assumption].
Qed.

(** [allocate] keeps the chain coalesced. *)
Lemma coalesced_allocate v1 s v2 size rest :
  coalesced (v1 ++ s :: v2) -> inUse s = false ->
  (len s = size /\ rest = [] \/
   size < len s /\
   exists j, rest = [mkSpan j (start s + size) (len s - size) false]) ->
  coalesced (v1 ++ mkSpan (handle s) (start s) size true :: rest ++ v2).
Proof.
  intros Hc Hs Hrest.
  destruct (coalesced_free_between v1 s v2 Hc Hs) as (Hc1 & Hc2 & Hl & Hh).
  apply coalesced_app. split; [exact Hc1 |]. split; [| right; reflexivity].
  apply coalesced_cons. split; [left; reflexivity |].
  destruct Hrest as [[_ ->] | [_ [j ->]]]; [exact Hc2 |].
  apply coalesced_cons. auto.
Qed.

Lemma mergePrev_shape v1 offset size :
  coalesced v1 ->
  coalesced (mergePrev v1 offset size).1.1 /\
  (inUse <$> list.last v1 = Some false ->
   default true (inUse <$> list.last (mergePrev v1 offset size).1.1) = true) /\
  (inUse <$> list.last v1 <> Some false -> (mergePrev v1 offset size).1.1 = v1).
Proof.
  intros Hc. unfold mergePrev.
  destruct (list.last v1) as [p |] eqn:Hlast;
    [| simpl; split; [exact Hc | split; [discriminate | reflexivity]]].
  cbn [fmap option_fmap option_map].
  destruct (inUse p) eqn:Hp; cbn [fst snd].
  - split; [exact Hc |]. split; [discriminate | auto].
  - apply last_Some in Hlast as (l & ->).
    rewrite removelast_snoc.
    apply coalesced_app in Hc as (Hl & _ & Hb). simpl in Hb. rewrite Hp in Hb.
    split; [exact Hl |]. split; [| intros Hx; destruct Hx; reflexivity].
    intros _. destruct Hb as [? | ?]; [assumption | discriminate].
Qed.

Lemma mergeNext_shape v2 size :
  coalesced v2 ->
  coalesced (mergeNext v2 size).1 /\
  (inUse <$> head v2 = Some false ->
   default true (inUse <$> head (mergeNext v2 size).1) = true) /\
  (inUse <$> head v2 <> Some false -> (mergeNext v2 size).1 = v2).
Proof.
  intros Hc. unfold mergeNext.
  destruct v2 as [| n v2];
    [simpl; split; [exact Hc | split; [discriminate | reflexivity]] |].
  destruct (inUse n) eqn:Hn; simpl.
  - split; [exact Hc |]. rewrite Hn. split; [discriminate | auto].
  - apply coalesced_cons in Hc as [Hb Hc]. rewrite Hn in Hb.
    split; [exact Hc |].
    split; [| intros Hx; destruct Hx; rewrite Hn; reflexivity].
    intros _. destruct Hb as [? | ?]; [discriminate | assumption].
Qed.

(** [free] keeps the chain coalesced. *)
Lemma coalesced_free v1 s v2 :
  coalesced (v1 ++ s :: v2) -> coalesced (freedSpans v1 s v2).
Proof.
  intros Hc.
  apply coalesced_app in Hc as (Hc1 & Hc2 & _).
  apply coalesced_cons in Hc2 as [_ Hc2].
  unfold freedSpans.
  pose proof (mergePrev_shape v1 (start s) (len s) Hc1) as (Hm1 & Hl1 & He1).
  destruct (mergePrev v1 (start s) (len s)) as [[v1' offset] size] eqn:Hmp.
  pose proof (mergeNext_shape v2 size Hc2) as (Hm2 & Hl2 & He2).
  destruct (mergeNext v2 size) as [v2' size'] eqn:Hmn.
  cbn [fst snd] in *.
  apply coalesced_app. split; [exact Hm1 |]. split.
  - apply coalesced_cons. split; [| exact Hm2]. right.
    destruct (decide (inUse <$> head v2 = Some false)) as [Hf | Hnf]; [auto |].
    rewrite (He2 Hnf).
    destruct (head v2) as [n |]; [| reflexivity]. simpl in *.
    destruct (inUse n); [reflexivity | destruct Hnf; reflexivity].
  - left.
    destruct (decide (inUse <$> list.last v1 = Some false)) as [Hf | Hnf]; [auto |].
    rewrite (He1 Hnf).
    destruct (list.last v1) as [p |]; [| reflexivity]. simpl in *.
    destruct (inUse p); [reflexivity | destruct Hnf; reflexivity].
Qed.

(** In a coalesced chain the free nodes are at most one more than the
    nodes in use. *)
Lemma coalesced_count v :
  coalesced v ->
  (length (freeSpans v) <=
   length (usedSpans v) + (if default true (inUse <$> head v) then 0 else 1))%nat.
Proof.
  induction v as [| s v IH]; intros Hc; [simpl; lia |].
  apply coalesced_cons in Hc as [Hb Hc]. specialize (IH Hc).
  unfold freeSpans, usedSpans, isFree in *. simpl.
  destruct (inUse s) eqn:Hs; simpl.
  - destruct (default true (inUse <$> head v)); lia.
  - destruct Hb as [? | Hb]; [discriminate |]. rewrite Hb in IH. lia.
Qed.

Lemma length_free_used v :
  (length (freeSpans v) + length (usedSpans v) = length v)%nat.
Proof.
  induction v as [| s v IH]; [reflexivity |].
  unfold freeSpans, usedSpans, isFree in *. simpl.
  destruct (inUse s); simpl; lia.
Qed.

Lemma heldSize_perm h1 h2 : h1 ≡ₚ h2 -> heldSize h1 = heldSize h2.
Proof.
  induction 1 as [| x l l' _ IH | x y l | l l' l'' _ IH1 _ IH2].
  - reflexivity.
  - change (x.2 + heldSize l = x.2 + heldSize l'). lia.
  - change (y.2 + (x.2 + heldSize l) = x.2 + (y.2 + heldSize l)). lia.
  - lia.
Qed.

Lemma heldSize_holding v : heldSize (holding <$> v) = total v.
Proof.
  induction v as [| s v IH]; [reflexivity |].
  change (len s + heldSize (holding <$> v) = len s + total v). lia.
Qed.

Lemma filter_holding h L :
  h ∉ handles L ->
  filter (fun p : Alloc * Z => metadata p.1 <> h) (holding <$> L) = holding <$> L.
Proof.
  induction L as [| s L IH]; intros Hn; [reflexivity |].
  cbn [handles fmap list_fmap] in Hn.
  apply not_elem_of_cons in Hn as [Hne Hn].
  cbn [fmap list_fmap].
  rewrite filter_cons_True by (simpl; congruence).
  unfold handles in IH. rewrite IH by exact Hn. reflexivity.
Qed.

(** One [allocate] of a run, with what is held. *)
Lemma allocate_held a v held size :
  Inv a v -> held ≡ₚ holding <$> usedSpans v -> coalesced v ->
  0 <= size < 2 ^ 32 ->
  exists r a' v',
    allocate size a = Some (r, a') /\ Inv a' v' /\
    (if decide (metadata r = NO_SPACE) then held else (r, size) :: held)
      ≡ₚ holding <$> usedSpans v' /\
    coalesced v'.
Proof.
  intros HInv Hheld Hco Hsize.
  destruct (allocate_total size a v HInv Hsize) as (r & a' & Heq & Hcases).
  exists r, a'.
  destruct Hcases as [[-> ->] |
    (v1 & s & v2 & rest & _ & -> & Hfree & _ & Hrest & HInv' & ->)].
  - exists v. split; [exact Heq |]. split; [exact HInv |].
    cbn [metadata Alloc_none].
    destruct (decide (NO_SPACE = NO_SPACE)) as [_ | Hc];
      [auto | destruct Hc; reflexivity].
  - eexists. split; [exact Heq |]. split; [exact HInv' |].
    split; [| apply coalesced_allocate; assumption].
    cbn [metadata].
    destruct (Inv_handle_range a _ s HInv) as [_ Hne].
    { rewrite elem_of_app, elem_of_cons. auto. }
    rewrite decide_False by exact Hne.
    rewrite Hheld, usedSpans_free by exact Hfree.
    rewrite (usedSpans_used v1 (mkSpan (handle s) (start s) size true)
               (rest ++ v2) eq_refl).
    cbn [fmap list_fmap]. unfold holding at 2. cbn [start handle len].
    constructor.
    rewrite !usedSpans_app.
    assert (usedSpans rest = []) as ->; [| reflexivity].
    destruct Hrest as [[_ ->] | [_ [j ->]]]; reflexivity.
Qed.

(** One [free] of a run, with what is held. *)
Lemma free_held a v held h :
  Inv a v -> held ≡ₚ holding <$> usedSpans v -> coalesced v ->
  h ∈ handles (usedSpans v) ->
  exists a' v',
    free h a = Some (tt, a') /\ Inv a' v' /\
    filter (fun p : Alloc * Z => metadata p.1 <> h) held
      ≡ₚ holding <$> usedSpans v' /\
    coalesced v'.
Proof.
  intros HInv Hheld Hco Hh.
  apply elem_of_handles in Hh as (s & Hs & <-).
  apply elem_of_usedSpans in Hs as [Hs Hused].
  apply list_elem_of_split in Hs as (v1 & v2 & ->).
  destruct (free_total a v1 s v2 HInv Hused) as (a' & Heq & HInv').
  exists a'. eexists. split; [exact Heq |]. split; [exact HInv' |].
  split; [| apply coalesced_free, Hco].
  rewrite usedSpans_freedSpans, Hheld.
  rewrite (usedSpans_used v1 s v2 Hused).
  cbn [fmap list_fmap].
  rewrite filter_cons_False
    by (intros Hc; apply Hc; reflexivity).
  rewrite filter_holding; [reflexivity |].
  pose proof (Inv_NoDup _ _ HInv) as Hnd.
  rewrite handles_app in Hnd. cbn [handles fmap list_fmap] in Hnd.
  apply list.NoDup_app in Hnd as (_ & Hdis & Hnd2).
  apply list.NoDup_cons in Hnd2 as [Hn2 _].
  intros Hin. apply elem_of_handles in Hin as (x & Hx & Hhx).
  apply elem_of_usedSpans in Hx as [Hx _].
  apply elem_of_app in Hx as [Hx | Hx].
  - apply (Hdis (handle s)).
    + apply elem_of_handles. eauto.
    + left.
  - apply Hn2. apply elem_of_handles. eauto.
Qed.

Lemma track_Inv calls : forall out held a v,
  Inv a v -> out ≡ₚ handles (usedSpans v) ->
  held ≡ₚ holding <$> usedSpans v -> coalesced v ->
  run calls out a <> Invalid ->
  exists out' held' a' v',
    run calls out a = Done out' a' /\
    track calls held a = Some (held', a') /\
    Inv a' v' /\ out' ≡ₚ handles (usedSpans v') /\
    held' ≡ₚ holding <$> usedSpans v' /\ coalesced v' /\
    m_size a' = m_size a /\ m_maxAllocs a' = m_maxAllocs a.
Proof.
  induction calls as [| c calls IH]; intros out held a v HInv Hout Hheld Hco Hvalid.
  - exists out, held, a, v. simpl. auto 10.
  - destruct c as [size | h]; simpl in Hvalid |- *.
    + destruct (decide (0 <= size < 2 ^ 32)) as [Hsize | ?]; [| congruence].
      destruct (allocate_held a v held size HInv Hheld Hco Hsize)
        as (r & a1 & v1 & Hrun & HInv1 & Hheld1 & Hco1).
      destruct (allocate_step a v out size HInv Hout Hsize)
        as (r' & a1' & v1' & Hrun' & _ & _).
      assert (r' = r /\ a1' = a1) as [-> ->] by (split; congruence).
      assert ((if decide (metadata r = NO_SPACE) then out else metadata r :: out)
                ≡ₚ handles (usedSpans v1)) as Hout1.
      { destruct (decide (metadata r = NO_SPACE)) as [Hno | Hyes].
        - rewrite Hout.
          assert (handles (usedSpans v) = (fun p : Alloc * Z => metadata p.1) <$> (holding <$> usedSpans v))
            as -> by (unfold handles; rewrite <- list_fmap_compose; reflexivity).
          assert (handles (usedSpans v1) = (fun p : Alloc * Z => metadata p.1) <$> (holding <$> usedSpans v1))
            as -> by (unfold handles; rewrite <- list_fmap_compose; reflexivity).
          rewrite <- Hheld1, <- Hheld. reflexivity.
        - assert (handles (usedSpans v1) = (fun p : Alloc * Z => metadata p.1) <$> (holding <$> usedSpans v1))
            as -> by (unfold handles; rewrite <- list_fmap_compose; reflexivity).
          rewrite <- Hheld1. cbn [fmap list_fmap fst]. constructor.
          rewrite Hheld, Hout. unfold handles.
          rewrite <- list_fmap_compose. reflexivity. }
      destruct (preserves_allocate size _ _ _ Hrun) as [Hs Hm].
      rewrite Hrun in Hvalid |- *.
      destruct (IH _ _ a1 v1 HInv1 Hout1 Hheld1 Hco1 Hvalid)
        as (out' & held' & a' & v' & Hr & Ht & HI & Ho & Hh & Hc & Hs' & Hm').
      exists out', held', a', v'. repeat split; try assumption; congruence.
    + destruct (decide (h ∈ out)) as [Hh | ?]; [| congruence].
      assert (h ∈ handles (usedSpans v)) as Hh' by (rewrite <- Hout; exact Hh).
      destruct (free_held a v held h HInv Hheld Hco Hh')
        as (a1 & v1 & Hrun & HInv1 & Hheld1 & Hco1).
      destruct (free_step a v out h HInv Hout Hh)
        as (a1' & v1' & Hrun' & _ & _).
      assert (a1' = a1) as -> by congruence.
      assert (filter (fun x => x <> h) out ≡ₚ handles (usedSpans v1)) as Hout1.
      { assert (handles (usedSpans v1) = (fun p : Alloc * Z => metadata p.1) <$> (holding <$> usedSpans v1))
          as -> by (unfold handles; rewrite <- list_fmap_compose; reflexivity).
        rewrite <- Hheld1, Hout, Hheld.
        unfold handles.
        generalize (usedSpans v). intros L.
        induction L as [| s L IHL]; [reflexivity |].
        cbn [fmap list_fmap].
        destruct (decide (handle s = h)) as [Heq | Hne].
        - rewrite !filter_cons_False by (simpl; intros Hc; apply Hc; exact Heq).
          exact IHL.
        - rewrite !filter_cons_True by (simpl; exact Hne).
          cbn [fmap list_fmap]. simpl. constructor. exact IHL. }
      destruct (preserves_free h _ _ _ Hrun) as [Hs Hm].
      rewrite Hrun in Hvalid |- *.
      destruct (IH _ _ a1 v1 HInv1 Hout1 Hheld1 Hco1 Hvalid)
        as (out' & held' & a' & v' & Hr & Ht & HI & Ho & Hhd & Hc & Hs' & Hm').
      exists out', held', a', v'. repeat split; try assumption; congruence.
Qed.

(** ** The chain and the allocations held *)

Lemma tiles_pairwise from v to s s' :
  tiles from v to -> s ∈ v -> s' ∈ v -> s <> s' ->
  start s + len s <= start s' \/ start s' + len s' <= start s.
Proof.
  revert from. induction v as [| x v IH]; intros from Ht Hs Hs' Hne.
  - inversion Hs.
  - destruct Ht as (Hx & Hlen & Ht).
    apply elem_of_cons in Hs as [-> | Hs]; apply elem_of_cons in Hs' as [-> | Hs'].
    + contradiction.
    + left. pose proof (tiles_elem _ _ _ _ Ht Hs'). lia.
    + right. pose proof (tiles_elem _ _ _ _ Ht Hs). lia.
    + exact (IH _ Ht Hs Hs' Hne).
Qed.

Lemma session_track S calls a0 :
  declared a0 -> m_size a0 <> S -> 0 <= S < 2 ^ 32 ->
  session S calls a0 <> Invalid ->
  exists a1 out held a v,
    reset S a0 = Some (tt, a1) /\
    session S calls a0 = Done out a /\
    track calls [] a1 = Some (held, a) /\
    Inv a v /\ out ≡ₚ handles (usedSpans v) /\
    held ≡ₚ holding <$> usedSpans v /\ coalesced v /\
    m_size a = S /\ m_maxAllocs a = m_maxAllocs a0.
Proof.
  intros Hdecl Hne HS Hvalid. unfold session in *.
  destruct (reset_Inv S a0 Hdecl Hne HS) as (a1 & Hreset & HInv & Hm & Hs & _).
  rewrite Hreset in Hvalid |- *.
  destruct (track_Inv calls [] [] a1 _ HInv)
    as (out & held & a & v & Hr & Ht & HI & Ho & Hh & Hc & Hs' & Hm');
    [reflexivity | reflexivity | simpl; auto | exact Hvalid |].
  exists a1, out, held, a, v. repeat split; try assumption; congruence.
Qed.

Lemma reachable_coalesced S out a :
  reachable S out a ->
  exists v, Inv a v /\ out ≡ₚ handles (usedSpans v) /\ coalesced v /\
            m_size a = S.
Proof.
  intros (a0 & calls & Hdecl & Hne & Hsize & Hrun).
  destruct (session_track S calls a0 Hdecl Hne Hsize)
    as (a1 & out' & held & a' & v & _ & Hr & _ & HI & Ho & _ & Hc & Hs & _).
  { rewrite Hrun. discriminate. }
  rewrite Hrun in Hr. injection Hr as <- <-.
  exists v. auto.
Qed.

(** X6: after a [reset(S)] that takes effect and any valid calls, the
    allocations a client holds lie in [0, S), no two of them overlap, each
    has kept the size it was asked for, and the free-storage counter plus
    the sizes held is S. *)
Theorem held_allocations_disjoint a0 S calls :
  declared a0 -> m_size a0 <> S -> 0 <= S < 2 ^ 32 ->
  session S calls a0 <> Invalid ->
  exists a1 held a,
    reset S a0 = Some (tt, a1) /\
    track calls [] a1 = Some (held, a) /\
    (forall r n, (r, n) ∈ held ->
       0 <= offset r /\ 0 <= n /\ offset r + n <= S /\
       allocationSize r a = Some (n, a)) /\
    (forall p q, p ∈ held -> q ∈ held -> p <> q ->
       offset p.1 + p.2 <= offset q.1 \/ offset q.1 + q.2 <= offset p.1) /\
    m_freeStorage a + heldSize held = S.
Proof.
  intros Hdecl Hne HS Hvalid.
  destruct (session_track S calls a0 Hdecl Hne HS Hvalid)
    as (a1 & out & held & a & v & Hreset & _ & Htrack & HInv & _ & Hheld & _ & Hsize & _).
  exists a1, held, a. split; [exact Hreset |]. split; [exact Htrack |].
  pose proof HInv as (ns & fs & _ & _ & _ & _ & _ & _ & _ & Htiles & Hbins).
  rewrite Hsize in Htiles.
  assert (forall p, p ∈ held -> exists s, s ∈ v /\ inUse s = true /\ p = holding s)
    as Hspan.
  { intros p Hp. rewrite Hheld in Hp.
    apply list_elem_of_fmap in Hp as (s & -> & Hs).
    apply elem_of_usedSpans in Hs as [Hs Hu]. eauto. }
  split; [| split].
  - intros r n Hrn. destruct (Hspan _ Hrn) as (s & Hs & _ & Heq).
    injection Heq as -> ->. cbn [offset].
    pose proof (tiles_elem _ _ _ _ Htiles Hs) as (H0 & H1 & H2).
    repeat split; try lia.
    apply (allocationSize_spec a v s (start s) HInv Hs).
  - intros p q Hp Hq Hpq.
    destruct (Hspan _ Hp) as (s & Hs & _ & ->).
    destruct (Hspan _ Hq) as (s' & Hs' & _ & ->).
    cbn [holding fst snd offset].
    apply (tiles_pairwise 0 v S); try assumption. congruence.
  - rewrite (heldSize_perm _ _ Hheld), heldSize_holding.
    rewrite (bins_ok_total _ _ _ _ _ _ Hbins), total_free_used.
    rewrite (tiles_total _ _ _ Htiles). lia.
Qed.

Lemma held_allocations_disjoint_witness :
  declared (construct 4 stale) /\ m_size (construct 4 stale) <> 1024 /\
  0 <= 1024 < 2 ^ 32 /\
  session 1024 demoCalls (construct 4 stale) <> Invalid /\
  exists a1 held a,
    reset 1024 (construct 4 stale) = Some (tt, a1) /\
    track demoCalls [] a1 = Some (held, a) /\
    (forall r n, (r, n) ∈ held ->
       0 <= offset r /\ 0 <= n /\ offset r + n <= 1024 /\
       allocationSize r a = Some (n, a)) /\
    (forall p q, p ∈ held -> q ∈ held -> p <> q ->
       offset p.1 + p.2 <= offset q.1 \/ offset q.1 + q.2 <= offset p.1) /\
    m_freeStorage a + heldSize held = 1024.
Proof.
  assert (declared (construct 4 stale)) as Hd by (apply construct_declared; lia).
  assert (m_size (construct 4 stale) <> 1024) as Hs by (simpl; lia).
  assert (0 <= 1024 < 2 ^ 32) as Hr by lia.
  assert (session 1024 demoCalls (construct 4 stale) <> Invalid) as Hv
    by (vm_compute; discriminate).
  split; [exact Hd |]. split; [exact Hs |]. split; [exact Hr |].
  split; [exact Hv |].
  exact (held_allocations_disjoint (construct 4 stale) 1024 demoCalls Hd Hs Hr Hv).
Defined.

(** X7: in every reachable state no two neighbouring nodes are both free: the
    free space is merged as far as it can be. *)
Theorem free_nodes_coalesced S out a :
  reachable S out a ->
  exists v, nodesAre a v /\ tiles 0 v S /\ coalesced v.
Proof.
  intros Hreach.
  destruct (reachable_coalesced S out a Hreach) as (v & HInv & _ & Hco & Hsize).
  exists v. split; [apply Inv_nodesAre, HInv |]. split; [| exact Hco].
  destruct HInv as (ns & fs & _ & _ & _ & _ & _ & _ & _ & Htiles & _).
  rewrite <- Hsize. exact Htiles.
Qed.

Lemma free_nodes_coalesced_witness :
  reachable 1024 [0] heldState /\
  exists v, nodesAre heldState v /\ tiles 0 v 1024 /\ coalesced v.
Proof.
  split; [exact heldState_reachable |].
  exact (free_nodes_coalesced 1024 [0] heldState heldState_reachable).
Defined.

(** X8: while twice the number of allocations held, plus one, is at most
    [maxAllocs], a handle is left on the stack: [allocate] does not return
    the sentinel for lack of handles. *)
Theorem handles_suffice S out a :
  reachable S out a ->
  2 * Z.of_nat (length out) + 1 <= m_maxAllocs a ->
  m_freeOffset a <> NO_SPACE.
Proof.
  intros Hreach Hfew.
  destruct (reachable_coalesced S out a Hreach) as (v & HInv & Hout & Hco & _).
  destruct (Inv_count a v HInv) as [Hfo Hcount].
  pose proof (coalesced_count v Hco) as Hcc.
  pose proof (length_free_used v) as Hfu.
  assert (length out = length (usedSpans v)) as Hlo.
  { rewrite Hout. unfold handles. rewrite length_fmap. reflexivity. }
  intros Hno. rewrite Hno in Hcount.
  change (wrap32 (NO_SPACE + 1)) with 0 in Hcount.
  destruct (default true (inUse <$> head v)); lia.
Qed.

Lemma handles_suffice_witness :
  reachable 1024 [0] heldState /\
  2 * Z.of_nat (length [0]) + 1 <= m_maxAllocs heldState /\
  m_freeOffset heldState <> NO_SPACE.
Proof.
  assert (2 * Z.of_nat (length [0]) + 1 <= m_maxAllocs heldState) as H
    by (simpl; lia).
  split; [exact heldState_reachable |]. split; [exact H |].
  exact (handles_suffice 1024 [0] heldState heldState_reachable H).
Defined.

(** ** The report and the free nodes *)

(** A bin of the directory holds a node exactly when a free node has its
    class. *)
Lemma bin_nonempty_iff a v b :
  Inv a v -> 0 <= b < 256 ->
  exists h, index (m_binIndices a) b = Some h /\
    (h <> UNUSED <->
     exists s, s ∈ freeSpans v /\ uintToSmallFloatRoundDown (len s) = b).
Proof.
  intros (ns & fs & _ & _ & _ & Hlen & Hstack & _ & _ & _ & Hbins) Hb.
  assert (Z.of_nat (length ns) <= UNUSED) as Hsmall.
  { destruct Hstack as (Hmx & _). unfold UNUSED. lia. }
  destruct Hbins as (bl & _ & Hlists & Hmem & _).
  destruct (Hlists b Hb) as (h & Hh & Hd & _).
  exists h. split; [exact Hh |].
  pose proof (bdl_head_UNUSED ns Hsmall _ _ _ Hd) as Hiff.
  split.
  - intros Hne. destruct (bl b) as [| i L] eqn:Hbl; [tauto |].
    assert (i ∈ bl b) as Hin by (rewrite Hbl; left).
    apply Hmem in Hin as (s & Hs & _ & Hc). eauto.
  - intros (s & Hs & Hc) Hu.
    assert (handle s ∈ bl b) as Hin by (apply Hmem; eauto).
    rewrite (proj1 Hiff Hu) in Hin. inversion Hin.
Qed.

(** The highest bin that holds a node is the highest class of a free
    node. *)
Lemma highestBin_char a v b :
  Inv a v ->
  (highestBin a b <->
   match b with
   | Some b =>
       (exists s, s ∈ freeSpans v /\ uintToSmallFloatRoundDown (len s) = b) /\
       forall s, s ∈ freeSpans v -> uintToSmallFloatRoundDown (len s) <= b
   | None => freeSpans v = []
   end).
Proof.
  intros HInv.
  assert (forall s, s ∈ freeSpans v ->
            0 <= uintToSmallFloatRoundDown (len s) < 256) as Hrange.
  { intros s Hs. apply span_bin_range. eapply Inv_free_range; eauto. }
  destruct b as [b |]; simpl; split.
  - intros (Hb & (h & Hh & Hne) & Habove).
    destruct (bin_nonempty_iff a v b HInv Hb) as (h' & Hh' & Hiff).
    assert (h' = h) as -> by congruence.
    split; [apply Hiff, Hne |].
    intros s Hs.
    destruct (Z.le_gt_cases (uintToSmallFloatRoundDown (len s)) b) as [? | Hgt];
      [assumption | exfalso].
    pose proof (Hrange s Hs) as Hr.
    destruct (bin_nonempty_iff a v _ HInv Hr) as (h2 & Hh2 & Hiff2).
    rewrite (Habove (uintToSmallFloatRoundDown (len s)) ltac:(lia)) in Hh2. injection Hh2 as <-.
    apply (proj2 Hiff2); eauto.
  - intros ((s & Hs & Hc) & Hmax).
    pose proof (Hrange s Hs) as Hr. rewrite Hc in Hr.
    split; [exact Hr |].
    destruct (bin_nonempty_iff a v b HInv Hr) as (h & Hh & Hiff).
    split; [exists h; split; [exact Hh | apply Hiff; eauto] |].
    intros b' Hb'.
    destruct (bin_nonempty_iff a v b' HInv ltac:(lia)) as (h' & Hh' & Hiff').
    rewrite Hh'. f_equal.
    destruct (Z.eq_dec h' UNUSED) as [? | Hne]; [assumption | exfalso].
    apply Hiff' in Hne as (s' & Hs' & Hc').
    specialize (Hmax s' Hs'). lia.
  - intros Hall.
    destruct (freeSpans v) as [| s F] eqn:HF; [reflexivity | exfalso].
    rewrite <- HF in Hrange.
    assert (s ∈ freeSpans v) as Hs by (rewrite HF; left).
    pose proof (Hrange s Hs) as Hr.
    destruct (bin_nonempty_iff a v _ HInv Hr) as (h & Hh & Hiff).
    rewrite (Hall _ Hr) in Hh. injection Hh as <-.
    apply (proj2 Hiff); eauto.
  - intros HF b' Hb'.
    destruct (bin_nonempty_iff a v b' HInv Hb') as (h' & Hh' & Hiff').
    rewrite Hh'. f_equal.
    destruct (Z.eq_dec h' UNUSED) as [? | Hne]; [assumption | exfalso].
    apply Hiff' in Hne as (s' & Hs' & _).
    rewrite HF in Hs'. inversion Hs'.
Qed.

Lemma highestBin_same a a' v b b' :
  Inv a v -> Inv a' v -> highestBin a b -> highestBin a' b' -> b = b'.
Proof.
  intros HInv HInv' Hb Hb'.
  apply (highestBin_char a v b HInv) in Hb.
  apply (highestBin_char a' v b' HInv') in Hb'.
  destruct b as [b |], b' as [b' |].
  - destruct Hb as ((s & Hs & Hc) & Hmax), Hb' as ((s' & Hs' & Hc') & Hmax').
    specialize (Hmax s' Hs'). specialize (Hmax' s Hs). f_equal. lia.
  - destruct Hb as ((s & Hs & _) & _). rewrite Hb' in Hs. inversion Hs.
  - destruct Hb' as ((s & Hs & _) & _). rewrite Hb in Hs. inversion Hs.
  - reflexivity.
Qed.

(** The report is a function of the chain and of [m_freeOffset]. *)
Lemma storageReport_total a v :
  Inv a v ->
  exists rep b,
    storageReport a = Some (rep, a) /\ highestBin a b /\
    rep = (if decide (m_freeOffset a = 0) then StorageReport_zero
           else mkStorageReport (total (freeSpans v)) (binSize b)).
Proof.
  intros HInv.
  destruct (decide (m_freeOffset a = 0)) as [Hz | Hne].
  - assert (exists b, highestBin a b) as [b Hb].
    { destruct (freeSpans v) as [| s F] eqn:HF.
      - exists None. apply (highestBin_char a v None HInv). exact HF.
      - assert (exists m, (exists s, s ∈ freeSpans v /\
                     uintToSmallFloatRoundDown (len s) = m) /\
                   forall s, s ∈ freeSpans v ->
                     uintToSmallFloatRoundDown (len s) <= m) as (m & Hm).
        { rewrite HF. clear HF. revert s.
          induction F as [| x F IH]; intros s.
          - exists (uintToSmallFloatRoundDown (len s)). split.
            + exists s. split; [left | reflexivity].
            + intros s' Hs'. apply list_elem_of_singleton in Hs'. subst. lia.
          - destruct (IH x) as (m & (s0 & Hs0 & Hc0) & Hmax).
            destruct (Z.le_gt_cases (uintToSmallFloatRoundDown (len s)) m).
            + exists m. split.
              * exists s0. split; [right; exact Hs0 | exact Hc0].
              * intros s' Hs'. apply elem_of_cons in Hs' as [-> | Hs'];
                  [lia | apply Hmax, Hs'].
            + exists (uintToSmallFloatRoundDown (len s)). split.
              * exists s. split; [left | reflexivity].
              * intros s' Hs'. apply elem_of_cons in Hs' as [-> | Hs'];
                  [lia | specialize (Hmax s' Hs'); lia]. }
        exists (Some m). apply (highestBin_char a v (Some m) HInv). exact Hm. }
    exists StorageReport_zero, b. split; [| split; [exact Hb | reflexivity]].
    unfold storageReport, mbind, M_bind, get.
    rewrite decide_True by exact Hz. reflexivity.
  - destruct (storageReport_spec a v HInv Hne) as (Htot & b & Hb & Hrep & _).
    eexists _, b. split; [exact Hrep |]. split; [exact Hb |].
    rewrite Htot. reflexivity.
Qed.

Lemma freeOffset_same a a' v :
  Inv a v -> Inv a' v -> m_maxAllocs a' = m_maxAllocs a ->
  m_freeOffset a' = m_freeOffset a.
Proof.
  intros HInv HInv' Hmx.
  destruct (Inv_count a v HInv) as [Hfo Hc].
  destruct (Inv_count a' v HInv') as [Hfo' Hc'].
  assert (wrap32 (m_freeOffset a' + 1) = wrap32 (m_freeOffset a + 1)) as Hw by lia.
  unfold wrap32 in Hw.
  destruct (Z.eq_dec (m_freeOffset a) (2 ^ 32 - 1)) as [He | He];
    destruct (Z.eq_dec (m_freeOffset a') (2 ^ 32 - 1)) as [He' | He'].
  - lia.
  - rewrite He in Hw. replace (2 ^ 32 - 1 + 1) with (2 ^ 32) in Hw by lia.
    rewrite Z.mod_same, Z.mod_small in Hw by lia. lia.
  - rewrite He' in Hw. replace (2 ^ 32 - 1 + 1) with (2 ^ 32) in Hw by lia.
    rewrite Z.mod_same, Z.mod_small in Hw by lia. lia.
  - rewrite !Z.mod_small in Hw by lia. lia.
Qed.

(** A free span is its own record. *)
Lemma span_eta s :
  inUse s = false -> mkSpan (handle s) (start s) (len s) false = s.
Proof. destruct s as [h st l u]. simpl. intros ->. reflexivity. Qed.

(** [allocate] and then [free] of the allocation give the chain back. *)
Lemma freedSpans_allocated v1 s v2 size rest :
  coalesced (v1 ++ s :: v2) -> inUse s = false ->
  (len s = size /\ rest = [] \/
   size < len s /\
   exists j, rest = [mkSpan j (start s + size) (len s - size) false]) ->
  freedSpans v1 (mkSpan (handle s) (start s) size true) (rest ++ v2)
    = v1 ++ s :: v2.
Proof.
  intros Hco Hfree Hrest.
  destruct (coalesced_free_between v1 s v2 Hco Hfree) as (_ & _ & Hl & Hh).
  unfold freedSpans. cbn [start len handle].
  assert (mergePrev v1 (start s) size = (v1, start s, size)) as ->.
  { unfold mergePrev. destruct (list.last v1) as [p |]; [| reflexivity].
    simpl in Hl. rewrite Hl. reflexivity. }
  destruct Hrest as [[Hsz ->] | [Hlt [j ->]]]; cbn [app].
  - assert (mergeNext v2 size = (v2, size)) as ->.
    { unfold mergeNext. destruct v2 as [| n v2]; [reflexivity |].
      simpl in Hh. rewrite Hh. reflexivity. }
    rewrite <- Hsz, span_eta by exact Hfree. reflexivity.
  - unfold mergeNext. cbn [inUse len].
    replace (size + (len s - size)) with (len s) by lia.
    rewrite span_eta by exact Hfree. reflexivity.
Qed.

(** X9: in every reachable state [allocate(n)] followed by the [free] of what
    it returned gives back the chain of nodes, the free-storage counter,
    [m_freeOffset] and the storage report. *)
Theorem allocate_free_restores S out a n :
  reachable S out a -> 0 <= n < 2 ^ 32 ->
  exists r a1 a2 v rep,
    allocate n a = Some (r, a1) /\ free (metadata r) a1 = Some (tt, a2) /\
    nodesAre a v /\ nodesAre a2 v /\
    m_freeStorage a2 = m_freeStorage a /\
    m_freeOffset a2 = m_freeOffset a /\
    storageReport a = Some (rep, a) /\ storageReport a2 = Some (rep, a2).
Proof.
  intros Hreach Hn.
  destruct (reachable_coalesced S out a Hreach) as (v & HInv & _ & Hco & _).
  destruct (allocate_total n a v HInv Hn) as (r & a1 & Halloc & Hcases).
  destruct (storageReport_total a v HInv) as (rep & b & Hrep & Hb & Hrepeq).
  assert (exists a2, free (metadata r) a1 = Some (tt, a2) /\ Inv a2 v /\
                     m_maxAllocs a2 = m_maxAllocs a) as (a2 & Hfree & HInv2 & Hmx).
  { destruct Hcases as [[-> ->] |
      (v1 & s & v2 & rest & _ & -> & Hfr & _ & Hrest & HInv1 & ->)].
    - exists a. split; [apply free_NO_SPACE | auto].
    - destruct (free_total a1 v1 (mkSpan (handle s) (start s) n true) (rest ++ v2)
                  HInv1 eq_refl) as (a2 & Hfree & HInv2).
      rewrite freedSpans_allocated in HInv2 by assumption.
      destruct (preserves_allocate _ _ _ _ Halloc) as [_ Hm1].
      destruct (preserves_free _ _ _ _ Hfree) as [_ Hm2].
      exists a2. split; [exact Hfree |]. split; [exact HInv2 | congruence]. }
  pose proof (freeOffset_same a a2 v HInv HInv2 Hmx) as Hfo.
  destruct (storageReport_total a2 v HInv2) as (rep2 & b2 & Hrep2 & Hb2 & Hrepeq2).
  assert (b2 = b) as -> by exact (highestBin_same a2 a v b2 b HInv2 HInv Hb2 Hb).
  exists r, a1, a2, v, rep.
  split; [exact Halloc |]. split; [exact Hfree |].
  split; [apply Inv_nodesAre, HInv |]. split; [apply Inv_nodesAre, HInv2 |].
  split.
  { destruct HInv as (? & ? & _ & _ & _ & _ & _ & _ & _ & _ & Hbins).
    destruct HInv2 as (? & ? & _ & _ & _ & _ & _ & _ & _ & _ & Hbins2).
    rewrite (bins_ok_total _ _ _ _ _ _ Hbins), (bins_ok_total _ _ _ _ _ _ Hbins2).
    reflexivity. }
  split; [exact Hfo |]. split; [exact Hrep |].
  rewrite Hrep2. f_equal. f_equal. rewrite Hrepeq, Hrepeq2, Hfo. reflexivity.
Qed.

Lemma allocate_free_restores_witness :
  reachable 1024 [0] heldState /\ 0 <= 100 < 2 ^ 32 /\
  exists r a1 a2 v rep,
    allocate 100 heldState = Some (r, a1) /\
    free (metadata r) a1 = Some (tt, a2) /\
    nodesAre heldState v /\ nodesAre a2 v /\
    m_freeStorage a2 = m_freeStorage heldState /\
    m_freeOffset a2 = m_freeOffset heldState /\
    storageReport heldState = Some (rep, heldState) /\
    storageReport a2 = Some (rep, a2).
Proof.
  split; [exact heldState_reachable |]. split; [lia |].
  apply (allocate_free_restores 1024 [0] heldState 100);
    [exact heldState_reachable | lia].
Defined.

(** X10: when its guard passes, [storageReport] names as [largestFreeRegion] a
    size that some free node holds and that is at least seven eighths of
    every free node; while a handle is left, [allocate] of that size
    succeeds. *)
Theorem largestFreeRegion_fits S out a :
  reachable S out a -> m_freeOffset a <> 0 ->
  exists v rep,
    nodesAre a v /\ storageReport a = Some (rep, a) /\
    (forall s, s ∈ freeSpans v -> 7 * len s <= 8 * largestFreeRegion rep) /\
    (freeSpans v <> [] ->
     (exists s, s ∈ freeSpans v /\ largestFreeRegion rep <= len s) /\
     (m_freeOffset a <> NO_SPACE ->
      exists r a', allocate (largestFreeRegion rep) a = Some (r, a') /\
                   r <> Alloc_none)).
Proof.
  intros Hreach Hfo.
  destruct (reachable_Inv S out a Hreach) as (v & HInv & _).
  destruct (storageReport_spec a v HInv Hfo) as (_ & b & Hb & Hrep & _).
  exists v, (mkStorageReport (m_freeStorage a) (binSize b)).
  split; [apply Inv_nodesAre, HInv |]. split; [exact Hrep |].
  cbn [largestFreeRegion].
  apply (highestBin_char a v b HInv) in Hb.
  assert (forall s, s ∈ freeSpans v ->
            0 <= len s < 2 ^ 32 /\
            0 <= uintToSmallFloatRoundDown (len s) <= 239) as Hrange.
  { intros s Hs. pose proof (Inv_free_range a v s HInv Hs) as Hr.
    split; [exact Hr | apply codec_index_range, Hr]. }
  destruct b as [b |]; simpl in *.
  2: { rewrite Hb. split; [intros s Hs; inversion Hs | intros Hc; destruct Hc; reflexivity]. }
  destruct Hb as ((s0 & Hs0 & Hc0) & Hmax).
  destruct (Hrange s0 Hs0) as [Hr0 Hb0]. rewrite Hc0 in Hb0.
  split.
  - intros s Hs. destruct (Hrange s Hs) as [Hr Hc].
    pose proof (proj1 (precision (len s) Hr)) as Hp.
    pose proof (smallFloatToUint_mono (uintToSmallFloatRoundDown (len s)) b
                  ltac:(specialize (Hmax s Hs); lia) ltac:(lia)) as Hm.
    lia.
  - intros _. split.
    + exists s0. split; [exact Hs0 |].
      rewrite <- Hc0. apply smallFloatToUint_RoundDown, Hr0.
    + intros Hsp.
      destruct (class_facts b ltac:(lia)) as (Hsr & Hup & _).
      destruct (allocate_lowest (smallFloatToUint b) a v HInv ltac:(lia))
        as (r & a' & Heq & Hcases).
      exists r, a'. split; [exact Heq |].
      destruct Hcases as [(-> & _ & [? | Hnone]) |
        (_ & v1 & s & v2 & rest & Hv & _ & _ & _ & _ & -> & _)].
      * contradiction.
      * specialize (Hnone s0 Hs0). rewrite Hup in Hnone. lia.
      * assert (s ∈ v) as Hs by (subst v; rewrite elem_of_app, elem_of_cons; auto).
        destruct (Inv_handle_range a v s HInv Hs) as [_ Hne].
        intros Hc. injection Hc as _ Hc. contradiction.
Qed.

Lemma largestFreeRegion_fits_witness :
  reachable 1024 [0] heldState /\ m_freeOffset heldState <> 0 /\
  exists v rep,
    nodesAre heldState v /\ storageReport heldState = Some (rep, heldState) /\
    (forall s, s ∈ freeSpans v -> 7 * len s <= 8 * largestFreeRegion rep) /\
    (freeSpans v <> [] ->
     (exists s, s ∈ freeSpans v /\ largestFreeRegion rep <= len s) /\
     (m_freeOffset heldState <> NO_SPACE ->
      exists r a', allocate (largestFreeRegion rep) heldState = Some (r, a') /\
                   r <> Alloc_none)).
Proof.
  assert (m_freeOffset heldState <> 0) as Hfo by (simpl; lia).
  split; [exact heldState_reachable |]. split; [exact Hfo |].
  exact (largestFreeRegion_fits 1024 [0] heldState heldState_reachable Hfo).
Defined.

(** X11: after a [reset(S)] that takes effect, unless [maxAllocs] is 1, the
    report is S units of free space and, as the largest region, the size
    of the class S rounds down to. *)
Theorem reset_report a S :
  declared a -> m_size a <> S -> 0 <= S < 2 ^ 32 -> m_maxAllocs a <> 1 ->
  exists a',
    reset S a = Some (tt, a') /\
    storageReport a' =
      Some (mkStorageReport S (smallFloatToUint (uintToSmallFloatRoundDown S)), a').
Proof.
  intros Hdecl Hne HS Hmx.
  destruct (reset_Inv S a Hdecl Hne HS) as (a' & Hreset & HInv & _ & _ & Hfo).
  exists a'. split; [exact Hreset |].
  assert (m_freeOffset a' <> 0) as Hnz.
  { rewrite Hfo. destruct Hdecl as (_ & _ & Hr). unfold sub32, wrap32.
    destruct (Z.eq_dec (m_maxAllocs a) 0) as [-> | ?]; [discriminate |].
    rewrite Z.mod_small by lia. lia. }
  destruct (storageReport_spec a' _ HInv Hnz) as (Htot & b & Hb & Hrep & _).
  rewrite Hrep. f_equal. f_equal.
  apply (highestBin_char a' _ b HInv) in Hb.
  simpl in Htot. rewrite Htot.
  destruct b as [b |]; simpl in *.
  - destruct Hb as ((s & Hs & Hc) & _).
    apply list_elem_of_singleton in Hs. subst s. simpl in Hc. subst b.
    f_equal. lia.
  - discriminate.
Qed.

Lemma reset_report_witness :
  declared (construct 4 stale) /\ m_size (construct 4 stale) <> 1000 /\
  0 <= 1000 < 2 ^ 32 /\ m_maxAllocs (construct 4 stale) <> 1 /\
  exists a',
    reset 1000 (construct 4 stale) = Some (tt, a') /\
    storageReport a' =
      Some (mkStorageReport 1000
              (smallFloatToUint (uintToSmallFloatRoundDown 1000)), a').
Proof.
  assert (declared (construct 4 stale)) as Hd by (apply construct_declared; lia).
  assert (m_size (construct 4 stale) <> 1000) as Hs by (simpl; lia).
  assert (m_maxAllocs (construct 4 stale) <> 1) as Hm by (simpl; lia).
  split; [exact Hd |]. split; [exact Hs |]. split; [lia |]. split; [exact Hm |].
  apply (reset_report (construct 4 stale) 1000 Hd Hs); [lia | exact Hm].
Defined.

(** ** The full report *)

Lemma countNodes_dlist ns a : forall L fuel prev head count,
  m_nodes a = Some ns ->
  dlist binListPrev binListNext ns prev head L UNUSED ->
  (forall i, i ∈ L -> i <> UNUSED) ->
  (length L <= fuel)%nat ->
  0 <= count -> count + Z.of_nat (length L) < 2 ^ 32 ->
  countNodes fuel head count a = Some (Some (count + Z.of_nat (length L)), a).
Proof.
  induction L as [| i L IH]; intros fuel prev head count Hns Hd Hne Hfuel Hc Hsmall.
  - simpl in Hd. subst head.
    rewrite Z.add_0_r.
    destruct fuel; cbn [countNodes];
      (destruct (decide (UNUSED <> UNUSED)) as [Hx | _];
         [destruct Hx; reflexivity | reflexivity]).
  - destruct Hd as (-> & n & Hn & _ & Hd).
    destruct fuel as [| fuel]; [simpl in Hfuel; lia |].
    cbn [countNodes]. rewrite decide_True by (apply Hne; left).
    destruct (wp_elim _ _ _
                (wp_field ns i n binListNext
                   (fun x a' => x = binListNext n /\ a' = a) a Hns Hn
                   (conj eq_refl eq_refl)))
      as (x & a' & Hf & -> & ->).
    unfold mbind, M_bind. rewrite Hf.
    cbn [length] in Hfuel, Hsmall.
    rewrite add32_small by lia.
    rewrite (IH fuel i (binListNext n) (count + 1) Hns Hd); try lia.
    + do 3 f_equal. cbn [length]. lia.
    + intros j Hj. apply Hne. right. exact Hj.
Qed.

Lemma NoDup_handles_filter (P : span -> Prop) `{forall s, Decision (P s)} v :
  NoDup (handles v) -> NoDup (handles (filter P v)).
Proof.
  unfold handles. induction v as [| s v IH]; intros Hnd; [constructor |].
  cbn [fmap list_fmap] in Hnd. apply list.NoDup_cons in Hnd as [Hn Hnd].
  destruct (decide (P s)).
  - rewrite filter_cons_True by assumption. cbn [fmap list_fmap].
    apply list.NoDup_cons. split; [| apply IH, Hnd].
    intros Hin. apply Hn.
    apply list_elem_of_fmap in Hin as (x & Hx & Hin).
    apply list_elem_of_filter in Hin as [_ Hin].
    apply list_elem_of_fmap. eauto.
  - rewrite filter_cons_False by assumption. apply IH, Hnd.
Qed.

(** The walk of one bin counts the free nodes of its class. *)
Lemma countNodes_bin a v b fuel :
  Inv a v -> 0 <= b < 256 -> m_maxAllocs a + 1 <= Z.of_nat fuel ->
  exists head,
    index (m_binIndices a) b = Some head /\
    countNodes fuel head 0 a =
      Some (Some (Z.of_nat (length (freeOfClass v b))), a).
Proof.
  intros HInv Hb Hfuel.
  pose proof (Inv_NoDup a v HInv) as Hnd.
  pose proof (Inv_count a v HInv) as [_ Hcount].
  pose proof HInv as (ns & fs & Hns & _ & _ & Hlen & Hstack & _ & _ & _ & Hbins).
  assert (Z.of_nat (length ns) <= UNUSED) as Hsmall.
  { destruct Hstack as (Hmx & _). unfold UNUSED. lia. }
  assert (0 <= m_maxAllocs a < 2 ^ 32 - 1) as Hmx by (destruct Hstack as (? & _); assumption).
  destruct Hbins as (bl & _ & Hlists & Hmem & _).
  destruct (Hlists b Hb) as (head & Hhead & Hd & Hndb).
  exists head. split; [exact Hhead |].
  assert (bl b ≡ₚ handles (freeOfClass v b)) as Hperm.
  { apply NoDup_Permutation.
    - exact Hndb.
    - apply NoDup_handles_filter, handles_freeSpans_NoDup, Hnd.
    - intros i. rewrite Hmem. unfold freeOfClass. rewrite elem_of_handles.
      split.
      + intros (s & Hs & Hh & Hc). exists s. split; [| exact Hh].
        apply list_elem_of_filter. auto.
      + intros (s & Hs & Hh). apply list_elem_of_filter in Hs as [Hc Hs]. eauto. }
  assert (length (bl b) = length (freeOfClass v b)) as Hlb.
  { rewrite Hperm. unfold handles. apply length_fmap. }
  assert (length (freeOfClass v b) <= length v)%nat as Hle.
  { unfold freeOfClass.
    pose proof (length_filter (fun s => uintToSmallFloatRoundDown (len s) = b)
                  (freeSpans v)) as H1.
    pose proof (length_free_used v). lia. }
  pose proof (wrap32_range (m_freeOffset a + 1)) as Hw.
  rewrite <- Hlb.
  rewrite (countNodes_dlist ns a (bl b) fuel UNUSED head 0 Hns Hd); try lia.
  - reflexivity.
  - intros i Hi. eapply bdl_not_UNUSED; [exact Hsmall | exact Hd | exact Hi].
Qed.

Lemma regionsFrom_spec a v fuel : forall bins i,
  Inv a v -> m_maxAllocs a + 1 <= Z.of_nat fuel ->
  0 <= i -> i + Z.of_nat bins <= 256 ->
  regionsFrom fuel bins i a =
    Some (Some ((fun b => StorageReportFull.mkRegion (smallFloatToUint b)
                            (Z.of_nat (length (freeOfClass v b))))
                  <$> seqZ i (Z.of_nat bins)), a).
Proof.
  induction bins as [| bins IH]; intros i HInv Hfuel Hi Hbound.
  - reflexivity.
  - cbn [regionsFrom].
    destruct (countNodes_bin a v i fuel HInv ltac:(lia) Hfuel) as (head & Hhead & Hcount).
    unfold mbind, M_bind.
    unfold loadBinIndices, mbind, M_bind, get, lift. rewrite Hhead.
    unfold mret, M_ret. rewrite Hcount.
    assert (i + 1 + Z.of_nat bins <= 256) as Hb1 by lia.
    rewrite (IH (i + 1) HInv Hfuel ltac:(lia) Hb1).
    rewrite Nat2Z.inj_succ, (seqZ_cons i) by lia.
    replace (Z.pred (Z.succ (Z.of_nat bins))) with (Z.of_nat bins) by lia.
    replace (Z.succ i) with (i + 1) by lia.
    reflexivity.
Qed.

(** X12: in every reachable state [storageReportFull], given fuel for
    [maxAllocs + 1] nodes, returns and leaves the allocator as it is; its
    256 regions give, for each class, the size of the class and the number
    of free nodes whose size rounds down to it. *)
Theorem storageReportFull_histogram S out a fuel :
  reachable S out a -> m_maxAllocs a + 1 <= Z.of_nat fuel ->
  exists v regions,
    nodesAre a v /\
    storageReportFull fuel a = Some (Some regions, a) /\
    length regions = 256%nat /\
    forall b, 0 <= b < 256 ->
      index regions b =
      Some (StorageReportFull.mkRegion (smallFloatToUint b)
              (Z.of_nat (length (freeOfClass v b)))).
Proof.
  intros Hreach Hfuel.
  destruct (reachable_Inv S out a Hreach) as (v & HInv & _).
  exists v. eexists. split; [apply Inv_nodesAre, HInv |].
  split.
  { unfold storageReportFull.
    apply (regionsFrom_spec a v fuel _ 0 HInv Hfuel); [lia |].
    unfold NUM_LEAF_BINS, NUM_TOP_BINS, BINS_PER_LEAF. simpl. lia. }
  split.
  { rewrite length_fmap, length_seqZ. reflexivity. }
  intros b Hb.
  replace (Z.of_nat (Z.to_nat NUM_LEAF_BINS)) with 256 by reflexivity.
  exact (index_fmap_seqZ
           (fun b => StorageReportFull.mkRegion (smallFloatToUint b)
                       (Z.of_nat (length (freeOfClass v b)))) 256 b Hb).
Qed.

Lemma storageReportFull_histogram_witness :
  reachable 1024 [0] heldState /\ m_maxAllocs heldState + 1 <= Z.of_nat 5 /\
  exists v regions,
    nodesAre heldState v /\
    storageReportFull 5 heldState = Some (Some regions, heldState) /\
    length regions = 256%nat /\
    forall b, 0 <= b < 256 ->
      index regions b =
      Some (StorageReportFull.mkRegion (smallFloatToUint b)
              (Z.of_nat (length (freeOfClass v b)))).
Proof.
  assert (m_maxAllocs heldState + 1 <= Z.of_nat 5) as H by (simpl; lia).
  split; [exact heldState_reachable |]. split; [exact H |].
  exact (storageReportFull_histogram 1024 [0] heldState 5 heldState_reachable H).
Defined.

(** ** The moved-from allocator *)

Lemma allocate_no_handle n a :
  m_freeOffset a = NO_SPACE -> allocate n a = Some (Alloc_none, a).
Proof.
  intros Hfo. unfold allocate, mbind, M_bind, get.
  rewrite decide_True by exact Hfo. reflexivity.
Qed.

(** X13: the move constructor hands every member to the new object.  What is
    left of [other] refuses every request: [allocate] returns the sentinel,
    [free] does nothing, [allocationSize] is 0 and the report is empty; and
    since its [maxAllocs] is 0, [allocate] returns the sentinel after any
    [reset] as well. *)
Theorem moved_from_is_inert other n nodeIndex allocation newSize :
  length (m_usedBins other) = 32%nat -> length (m_binIndices other) = 256%nat ->
  0 <= newSize < 2 ^ 32 ->
  (moveConstruct other).1 = other /\
  allocate n (moveConstruct other).2 = Some (Alloc_none, (moveConstruct other).2) /\
  free nodeIndex (moveConstruct other).2 = Some (tt, (moveConstruct other).2) /\
  allocationSize allocation (moveConstruct other).2
    = Some (0, (moveConstruct other).2) /\
  storageReport (moveConstruct other).2
    = Some (StorageReport_zero, (moveConstruct other).2) /\
  exists a', reset newSize (moveConstruct other).2 = Some (tt, a') /\
             allocate n a' = Some (Alloc_none, a').
Proof.
  intros Hub Hbins Hsize.
  set (old := (moveConstruct other).2).
  assert (allocate n old = Some (Alloc_none, old)) as Halloc.
  { unfold allocate, mbind, M_bind, get. cbn [old moveConstruct snd m_freeOffset].
    rewrite decide_False by (unfold NO_SPACE; lia).
    cbn [m_usedBinsTop]. rewrite Z.land_0_l.
    rewrite decide_False by (intros Hc; apply Hc; reflexivity).
    unfold mret, M_ret. rewrite decide_True by reflexivity.
    cbn [m_usedBinsTop]. rewrite findLowestSetBitAfter_zero.
    rewrite decide_True by reflexivity. reflexivity. }
  split; [destruct other; reflexivity |].
  split; [exact Halloc |].
  split.
  { unfold free, mbind, M_bind, get. cbn [old moveConstruct snd m_nodes].
    rewrite decide_True by (right; reflexivity). reflexivity. }
  split.
  { unfold allocationSize, mbind, M_bind, get.
    destruct (decide (metadata allocation = NO_SPACE)); [reflexivity |].
    cbn [old moveConstruct snd m_nodes].
    rewrite decide_True by reflexivity. reflexivity. }
  split.
  { unfold storageReport, mbind, M_bind, get.
    cbn [old moveConstruct snd m_freeOffset].
    rewrite decide_True by reflexivity. reflexivity. }
  destruct (decide (m_size old = newSize)) as [Heq | Hne].
  - exists old. split; [apply reset_noop, Heq | exact Halloc].
  - assert (declared old) as Hdecl.
    { unfold declared. cbn [old moveConstruct snd m_usedBins m_binIndices m_maxAllocs].
      repeat split; try assumption; lia. }
    destruct (reset_Inv newSize old Hdecl Hne Hsize) as (a' & Hreset & _ & _ & _ & Hfo).
    exists a'. split; [exact Hreset |].
    apply allocate_no_handle. rewrite Hfo. reflexivity.
Qed.

Lemma moved_from_is_inert_witness :
  length (m_usedBins demoState) = 32%nat /\
  length (m_binIndices demoState) = 256%nat /\
  0 <= 512 < 2 ^ 32 /\
  (moveConstruct demoState).1 = demoState /\
  allocate 10 (moveConstruct demoState).2
    = Some (Alloc_none, (moveConstruct demoState).2) /\
  free 0 (moveConstruct demoState).2 = Some (tt, (moveConstruct demoState).2) /\
  allocationSize (mkAlloc 0 0) (moveConstruct demoState).2
    = Some (0, (moveConstruct demoState).2) /\
  storageReport (moveConstruct demoState).2
    = Some (StorageReport_zero, (moveConstruct demoState).2) /\
  exists a', reset 512 (moveConstruct demoState).2 = Some (tt, a') /\
             allocate 10 a' = Some (Alloc_none, a').
Proof.
  split; [reflexivity |]. split; [reflexivity |]. split; [lia |].
  apply (moved_from_is_inert demoState 10 0 (mkAlloc 0 0) 512);
    [reflexivity | reflexivity | lia].
Defined.

(** ** Before the first [reset], and after [free] *)

(** X14: a constructed allocator that has not been reset: [free] does nothing,
    [allocationSize] is 0, the report is empty and [reset(0)] leaves it as
    it is; [allocate] returns the sentinel when the uninitialised
    [m_usedBinsTop] happens to be 0. *)
Theorem unreset_allocator maxAllocs u n nodeIndex allocation :
  free nodeIndex (construct maxAllocs u) = Some (tt, construct maxAllocs u) /\
  allocationSize allocation (construct maxAllocs u)
    = Some (0, construct maxAllocs u) /\
  storageReport (construct maxAllocs u)
    = Some (StorageReport_zero, construct maxAllocs u) /\
  reset 0 (construct maxAllocs u) = Some (tt, construct maxAllocs u) /\
  (i_usedBinsTop u = 0 ->
   allocate n (construct maxAllocs u) = Some (Alloc_none, construct maxAllocs u)).
Proof.
  set (a := construct maxAllocs u).
  split.
  { unfold free, mbind, M_bind, get. cbn [a construct m_nodes].
    rewrite decide_True by (right; reflexivity). reflexivity. }
  split.
  { unfold allocationSize, mbind, M_bind, get.
    destruct (decide (metadata allocation = NO_SPACE)); [reflexivity |].
    cbn [a construct m_nodes]. rewrite decide_True by reflexivity. reflexivity. }
  split.
  { unfold storageReport, mbind, M_bind, get. cbn [a construct m_freeOffset].
    rewrite decide_True by reflexivity. reflexivity. }
  split; [apply reset_noop; reflexivity |].
  intros Htop.
  unfold allocate, mbind, M_bind, get. cbn [a construct m_freeOffset].
  rewrite decide_False by (unfold NO_SPACE; lia).
  cbn [a construct m_usedBinsTop]. rewrite Htop, Z.land_0_l.
  rewrite decide_False by (intros Hc; apply Hc; reflexivity).
  unfold mret, M_ret. rewrite decide_True by reflexivity.
  cbn [a construct m_usedBinsTop]. rewrite Htop, findLowestSetBitAfter_zero.
  rewrite decide_True by reflexivity. reflexivity.
Qed.

Lemma unreset_allocator_witness :
  i_usedBinsTop (mkIndeterminate 0 (fun _ => 0xCD) (fun _ => 0xCDCDCDCD)) = 0 /\
  allocate 64 (construct 16 (mkIndeterminate 0 (fun _ => 0xCD) (fun _ => 0xCDCDCDCD)))
    = Some (Alloc_none,
            construct 16 (mkIndeterminate 0 (fun _ => 0xCD) (fun _ => 0xCDCDCDCD))).
Proof.
  split; [reflexivity |].
  exact (proj2 (proj2 (proj2 (proj2
    (unreset_allocator 16 (mkIndeterminate 0 (fun _ => 0xCD) (fun _ => 0xCDCDCDCD))
       64 0 Alloc_none)))) eq_refl).
Defined.

(** With other contents of the uninitialised members [allocate] reads
    through the null arena. *)
Example unreset_allocate_undefined : allocate 0 (construct 4 stale) = None.
Proof. vm_compute. reflexivity. Qed.

Lemma freedSpans_node v1 s v2 :
  (forall x, x ∈ v1 ++ v2 -> 0 <= len x) ->
  exists v1' v2' offset size,
    freedSpans v1 s v2 = v1' ++ mkSpan (handle s) offset size false :: v2' /\
    len s <= size.
Proof.
  intros Hnn. unfold freedSpans.
  assert (len s <= (mergePrev v1 (start s) (len s)).2) as H1.
  { unfold mergePrev. destruct (list.last v1) as [p |] eqn:Hlast; [| simpl; lia].
    destruct (inUse p); simpl; [lia |].
    apply last_Some in Hlast as (l & ->).
    assert (0 <= len p); [| lia].
    apply Hnn. rewrite !elem_of_app, list_elem_of_singleton. auto. }
  destruct (mergePrev v1 (start s) (len s)) as [[v1' offset] size].
  cbn [snd] in H1.
  assert (size <= (mergeNext v2 size).2) as H2.
  { unfold mergeNext. destruct v2 as [| x v2]; [simpl; lia |].
    destruct (inUse x); simpl; [lia |].
    assert (0 <= len x); [| lia].
    apply Hnn. rewrite elem_of_app, elem_of_cons. auto. }
  destruct (mergeNext v2 size) as [v2' size'].
  cbn [snd] in H2.
  exists v1', v2', offset, size'. split; [reflexivity | lia].
Qed.

(** X15: [allocationSize] does not tell a freed allocation from one in use:
    after [free], the handle names a free node, and [allocationSize] gives
    the size of that node, which is at least the size granted. *)
Theorem allocationSize_after_free S out a allocation :
  reachable S out a -> metadata allocation ∈ out ->
  exists n a' v' s',
    allocationSize allocation a = Some (n, a) /\
    freeAlloc allocation a = Some (tt, a') /\
    nodesAre a' v' /\ s' ∈ v' /\
    handle s' = metadata allocation /\ inUse s' = false /\
    allocationSize allocation a' = Some (len s', a') /\
    n <= len s'.
Proof.
  intros Hreach Hin.
  destruct (reachable_Inv S out a Hreach) as (v & HInv & Hout & _).
  rewrite Hout in Hin. apply elem_of_handles in Hin as (s & Hs & Hh).
  apply elem_of_usedSpans in Hs as [Hs Hused].
  pose proof (allocationSize_spec a v s (offset allocation) HInv Hs) as Hsize.
  apply list_elem_of_split in Hs as (v1 & v2 & ->).
  destruct (free_total a v1 s v2 HInv Hused) as (a' & Hfree & HInv').
  assert (forall x, x ∈ v1 ++ v2 -> 0 <= len x) as Hnn.
  { destruct HInv as (ns & fs & _ & _ & _ & _ & _ & _ & _ & Htiles & _).
    intros y Hy. eapply tiles_len_nonneg; [exact Htiles |].
    rewrite elem_of_app in Hy |- *. rewrite elem_of_cons. tauto. }
  destruct (freedSpans_node v1 s v2 Hnn) as (v1' & v2' & off & size & Heq & Hle).
  rewrite Heq in HInv'.
  pose proof (allocationSize_spec a' _ (mkSpan (handle s) off size false)
                (offset allocation) HInv'
                ltac:(rewrite elem_of_app, elem_of_cons; auto)) as Hsize'.
  cbn [handle len] in Hsize'.
  assert (mkAlloc (offset allocation) (handle s) = allocation) as Hal.
  { destruct allocation as [o m]. simpl in *. congruence. }
  rewrite Hal in Hsize, Hsize'.
  exists (len s), a', (v1' ++ mkSpan (handle s) off size false :: v2'),
    (mkSpan (handle s) off size false).
  unfold freeAlloc. rewrite <- Hh. cbn [handle inUse len].
  repeat split; try assumption; try reflexivity.
  - exact (proj1 (Inv_nodesAre _ _ HInv')).
  - rewrite elem_of_app, elem_of_cons. auto.
Qed.

Lemma allocationSize_after_free_witness :
  reachable 1024 [0] heldState /\ metadata (mkAlloc 0 0) ∈ [0] /\
  exists n a' v' s',
    allocationSize (mkAlloc 0 0) heldState = Some (n, heldState) /\
    freeAlloc (mkAlloc 0 0) heldState = Some (tt, a') /\
    nodesAre a' v' /\ s' ∈ v' /\
    handle s' = metadata (mkAlloc 0 0) /\ inUse s' = false /\
    allocationSize (mkAlloc 0 0) a' = Some (len s', a') /\
    n <= len s'.
Proof.
  assert (metadata (mkAlloc 0 0) ∈ [0]) as Hin by (simpl; left).
  split; [exact heldState_reachable |]. split; [exact Hin |].
  exact (allocationSize_after_free 1024 [0] heldState (mkAlloc 0 0)
           heldState_reachable Hin).
Defined.
